(** * lr_printer: printing natural numbers in an arbitrary base

    A shallow embedding of the four printer classes of the repository

      - [lr_printer]               (lr_printer.hpp)
      - [lr_printer_2_digits]      (lr_printer_2_digits.hpp)
      - [modulo_printer]           (modulo_printer.hpp)
      - [modulo_printer_2_digits]  (modulo_printer_2_digits.hpp)

    together with the properties of their output.

    Modelling conventions.
      - [NumberType] is a fixed-width two's-complement or unsigned integer type,
        a value of it is a [Z] in range; the result of an arithmetic operation
        is reduced modulo [2 ^ bits] in an unsigned type, and has to be
        representable in a signed one.
      - a C array is a [list] of its capacity, read and written through
        [array_read] and [array_write], which fail outside the array;
        [_powers] holds the [_powers_length] computed entries only, so that a
        read past [_powers_length] fails as well.
      - a pointer into an array is the [Z] offset from its first element.
      - an [assert] that fails, an access outside an array, a division by
        zero and a signed arithmetic overflow end the run with an [error].
      - loops run on a fuel that is fixed by the capacity of the array they
        walk, and fail with [FuelExhausted] when it is used up. *)

From Stdlib Require Import ZArith Lia Ascii String.
From stdpp Require Import base list.

Open Scope Z_scope.

(** ** Results of fallible code *)

Inductive array_id := Alphabet | AlphabetSqr | Powers | Buffer.

Inductive error :=
| AssertFailed
| OutOfBounds (a : array_id)
| DivisionByZero
| SignedOverflow
| ConstraintViolated
| FuelExhausted.

Inductive result (A : Type) :=
| Ok (a : A)
| Err (e : error).
Arguments Ok {A} a.
Arguments Err {A} e.

Definition bind {A B} (r : result A) (k : A -> result B) : result B :=
  match r with
  | Ok a => k a
  | Err e => Err e
  end.

Declare Scope result_scope.
Delimit Scope result_scope with result.
Notation "x <- e ;; k" := (bind e (fun x => k))
  (at level 100, e at next level, right associativity) : result_scope.
Notation "e ;;; k" := (bind e (fun _ => k))
  (at level 100, right associativity) : result_scope.
Open Scope result_scope.

Definition assert (b : bool) : result unit :=
  if b then Ok tt else Err AssertFailed.

(** ** Number types *)

Record number_type := NumberType { bits : Z; is_signed : bool }.

Definition nt_min (T : number_type) : Z :=
  if is_signed T then - 2 ^ (bits T - 1) else 0.

Definition nt_max (T : number_type) : Z :=
  if is_signed T then 2 ^ (bits T - 1) - 1 else 2 ^ bits T - 1.

(** Reduction of a mathematical integer to the value stored in [T]. *)
Definition wrap (T : number_type) (z : Z) : Z :=
  if is_signed T
  then (z + 2 ^ (bits T - 1)) mod 2 ^ bits T - 2 ^ (bits T - 1)
  else z mod 2 ^ bits T.

Definition t_short : number_type := NumberType 16 true.
Definition t_int : number_type := NumberType 32 true.
Definition t_unsigned : number_type := NumberType 32 false.
Definition t_long_long : number_type := NumberType 64 true.
Definition t_unsigned_long_long : number_type := NumberType 64 false.

(** [(short) z] *)
Definition to_short (z : Z) : Z := wrap t_short z.

Section Arith.
Variable T : number_type.

(** A [short] operand converted to [T] by the usual arithmetic conversions. *)
Definition of_short (s : Z) : Z := wrap T s.

(** The value of an arithmetic operation in [T] whose mathematical result
    is [z]: an unsigned type reduces it modulo [2 ^ bits T]; in a signed
    type a result that is not representable is an overflow. *)
Definition nt_result (z : Z) : result Z :=
  if is_signed T
  then if (nt_min T <=? z) && (z <=? nt_max T) then Ok z
       else Err SignedOverflow
  else Ok (wrap T z).

Definition nt_add (a b : Z) : result Z := nt_result (a + b).
Definition nt_sub (a b : Z) : result Z := nt_result (a - b).
Definition nt_mul (a b : Z) : result Z := nt_result (a * b).

(** [a / b] and [a % b] truncate towards zero; both need the quotient to be
    representable. *)
Definition nt_div (a b : Z) : result Z :=
  if b =? 0 then Err DivisionByZero else nt_result (Z.quot a b).
Definition nt_rem (a b : Z) : result Z :=
  if b =? 0 then Err DivisionByZero
  else nt_result (Z.quot a b) ;;; Ok (wrap T (Z.rem a b)).
End Arith.

(** ** Arrays *)

Section Arrays.
Context {A : Type}.

Definition array_read (a : array_id) (l : list A) (i : Z) : result A :=
  if 0 <=? i
  then match l !! Z.to_nat i with
       | Some x => Ok x
       | None => Err (OutOfBounds a)
       end
  else Err (OutOfBounds a).

Definition array_write (a : array_id) (l : list A) (i : Z) (x : A)
  : result (list A) :=
  if (0 <=? i) && (i <? Z.of_nat (length l))
  then Ok (<[Z.to_nat i := x]> l)
  else Err (OutOfBounds a).
End Arrays.

(** An array of [n] cells that was never written: its content is whatever the
    memory holds, given by [g]. *)
Definition uninitialised {A} (n : nat) (g : nat -> A) : list A :=
  map g (seq 0 n).

Definition NUL : ascii := "000"%char.

(** The C string that starts at [l]: the characters before the first NUL, and
    a failure of array [a] when [l] holds no NUL. *)
Fixpoint c_str (a : array_id) (l : list ascii) : result (list ascii) :=
  match l with
  | [] => Err (OutOfBounds a)
  | c :: l' =>
      if Ascii.eqb c NUL then Ok []
      else s <- c_str a l' ;; Ok (c :: s)
  end.

(** [strcpy_s( dest, src.c_str() )] on an array [dest] of known size: the
    characters of [src] before its first NUL, then a NUL; a source that does
    not fit with its terminator violates the run-time constraint. *)
Definition strcpy_s (dest : list ascii) (src : list ascii) : result (list ascii) :=
  s <- c_str Alphabet (src ++ [NUL]) ;;
  if Z.of_nat (length s) <? Z.of_nat (length dest)
  then Ok (s ++ [NUL] ++ drop (S (length s)) dest)
  else Err ConstraintViolated.

(** ** Output iterators

    [print_to_out_iter] writes through [*(out++) = c].  The iterator is the
    caller's buffer (of a size the printer does not know: [out_room = None])
    or the printer's own [_buffer] (of [out_room = Some] its capacity). *)

Record out_iter := OutIter { out_room : option Z; out_written : list ascii }.

Definition put (out : out_iter) (c : ascii) : result out_iter :=
  let fits := match out_room out with
              | Some n => Z.of_nat (length (out_written out)) <? n
              | None => true
              end in
  if fits then Ok (OutIter (out_room out) (out_written out ++ [c]))
  else Err (OutOfBounds Buffer).

(** ** Loops *)

Section Loops.
Context {S : Type}.

(** [for ( i = from; n times; ++i ) body] *)
Fixpoint for_range (n : nat) (i : Z) (body : Z -> S -> result S) (s : S)
  : result S :=
  match n with
  | O => Ok s
  | Datatypes.S n' => s' <- body i s ;; for_range n' (i + 1) body s'
  end.
End Loops.

(** ** Code shared by the classes

    [setup_default_alphabet], [calculate_alphabet_sqr], [init_helper_data] and
    [append_helper_data] are repeated in the classes with the same body; they
    are written once here, over the members they touch. *)

Module shared.

(** The characters [lo], [lo + 1], ..., [hi] that [for ( char ch = lo; ch <= hi; ++ch )]
    runs through. *)
Definition char_range (lo hi : ascii) : list ascii :=
  map ascii_of_nat (seq (nat_of_ascii lo) (Datatypes.S (nat_of_ascii hi) - nat_of_ascii lo)).

(** [for ( char ch = lo; ch <= hi && L < _base; ++ch ) _alphabet[ L++ ] = ch;]
    over the characters [chars] still to come. *)
Fixpoint attach (chars : list ascii) (base : Z) (alphabet : list ascii) (L : Z)
  : result (list ascii * Z) :=
  match chars with
  | [] => Ok (alphabet, L)
  | ch :: chars' =>
      if L <? base then
        alphabet' <- array_write Alphabet alphabet L ch ;;
        attach chars' base alphabet' (L + 1)
      else Ok (alphabet, L)
  end.

(** The two loops of [setup_default_alphabet]; returns the alphabet and [L]. *)
Definition attach_digits_and_letters (base : Z) (alphabet : list ascii)
  : result (list ascii * Z) :=
  r <- attach (char_range "0" "9") base alphabet 0 ;;
  attach (char_range "a" "z") base (fst r) (snd r).

(** [calculate_alphabet_sqr]; returns the new [_alphabet_sqr]. *)
Definition calculate_alphabet_sqr (base : Z) (alphabet alphabet_sqr : list ascii)
  : result (list ascii) :=
  r <- for_range (Z.to_nat base) 0
         (fun i s =>
            for_range (Z.to_nat base) 0
              (fun j '(sqr, L) =>
                 ci <- array_read Alphabet alphabet i ;;
                 sqr <- array_write AlphabetSqr sqr L ci ;;
                 cj <- array_read Alphabet alphabet j ;;
                 sqr <- array_write AlphabetSqr sqr (L + 1) cj ;;
                 Ok (sqr, L + 2))
              s)
         (alphabet_sqr, 0) ;;
  assert (snd r =? 2 * base * base) ;;;
  Ok (fst r).

Section helper_data.
Variable T : number_type.
Variable capacity : Z.  (* the size of [_powers] *)

(** [append_helper_data]; returns the new [_powers] and the result. *)
Definition append_helper_data (base : Z) (powers : list Z)
  : result (list Z * bool) :=
  let powers_length := Z.of_nat (length powers) in
  top <- array_read Powers powers (powers_length - 1) ;;
  new_power <- nt_mul T top (of_short T base) ;;
  q <- nt_div T new_power (of_short T base) ;;
  if negb (q =? top) then Ok (powers, false)
  else if powers_length <? capacity
       then Ok (powers ++ [new_power], true)
       else Err (OutOfBounds Powers).

Definition DATA_INIT_LENGTH : Z := 4.

(** [init_helper_data]; returns the new [_powers], [_reached_max_power]
    being reset by the caller. *)
Definition init_helper_data (base : Z) : result (list Z) :=
  for_range (Z.to_nat (DATA_INIT_LENGTH - 1)) 1
    (fun _ powers => r <- append_helper_data base powers ;; Ok (fst r))
    [1].
End helper_data.

End shared.

(** ** lr_printer (lr_printer.hpp) *)

Module lr_printer.

Definition MAX_BASE : Z := 10 + 26.
Definition MAX_DIGITS : Z := 70.

(** The members; [_powers_length] is the length of [_powers], and
    [_buffer] is written through an [out_iter] of room [MAX_DIGITS]. *)
Record t := Make {
  _base : Z;
  _alphabet : list ascii;
  _reached_max_power : bool;
  _powers : list Z
}.

Definition _powers_length (p : t) : Z := Z.of_nat (length (_powers p)).

Definition with_alphabet (p : t) (a : list ascii) : t :=
  Make (_base p) a (_reached_max_power p) (_powers p).
Definition with_powers (p : t) (pw : list Z) : t :=
  Make (_base p) (_alphabet p) (_reached_max_power p) pw.
Definition with_reached_max_power (p : t) (b : bool) : t :=
  Make (_base p) (_alphabet p) b (_powers p).

Section WithNumberType.
Variable T : number_type.

Definition append_helper_data (p : t) : result (t * bool) :=
  r <- shared.append_helper_data T MAX_DIGITS (_base p) (_powers p) ;;
  Ok (with_powers p (fst r), snd r).

Definition init_helper_data (p : t) : result t :=
  pw <- shared.init_helper_data T MAX_DIGITS (_base p) ;;
  Ok (Make (_base p) (_alphabet p) false pw).

(** The [while] loop of the [else] branch of [get_max_power_ptr]; the
    pointer is the one of the [return] inside the loop, if it is taken. *)
Fixpoint get_max_power_ptr_grow (fuel : nat) (p : t) (num : Z)
  : result (t * option Z) :=
  match fuel with
  | O => Err FuelExhausted
  | S fuel' =>
      top <- array_read Powers (_powers p) (_powers_length p - 1) ;;
      if top <=? num then
        r <- append_helper_data p ;;
        if negb (snd r) then
          let p' := with_reached_max_power (fst r) true in
          Ok (p', Some (_powers_length p' - 1))
        else get_max_power_ptr_grow fuel' (fst r) num
      else Ok (p, None)
  end.

(** [while ( *power_ptr <= num ) ++power_ptr;] *)
Fixpoint get_max_power_ptr_scan (fuel : nat) (p : t) (num : Z) (power_ptr : Z)
  : result Z :=
  match fuel with
  | O => Err FuelExhausted
  | S fuel' =>
      pw <- array_read Powers (_powers p) power_ptr ;;
      if pw <=? num then get_max_power_ptr_scan fuel' p num (power_ptr + 1)
      else Ok power_ptr
  end.

Definition get_max_power_ptr (p : t) (num : Z) : result (t * Z) :=
  r <- (if _reached_max_power p then
          top <- array_read Powers (_powers p) (_powers_length p - 1) ;;
          if top <=? num then Ok (p, Some (_powers_length p - 1))
          else Ok (p, None)
        else get_max_power_ptr_grow (S (Z.to_nat MAX_DIGITS)) p num) ;;
  match snd r with
  | Some power_ptr => Ok (fst r, power_ptr)
  | None =>
      let p' := fst r in
      power_ptr <- get_max_power_ptr_scan (S (length (_powers p'))) p' num 0 ;;
      Ok (p', power_ptr - 1)
  end.

(** [for ( ; power_ptr >= _powers; --power_ptr ) ...]; returns what is left
    of [num] and the iterator. *)
Fixpoint print_to_out_iter_loop (fuel : nat) (p : t) (num : Z) (power_ptr : Z)
    (out : out_iter) : result (Z * out_iter) :=
  match fuel with
  | O => Err FuelExhausted
  | S fuel' =>
      if power_ptr >=? 0 then
        pw <- array_read Powers (_powers p) power_ptr ;;
        q <- nt_div T num pw ;;
        let digit := to_short q in
        assert (0 <=? digit) ;;;
        assert (digit <? _base p) ;;;
        c <- array_read Alphabet (_alphabet p) digit ;;
        out' <- put out c ;;
        m <- nt_mul T (of_short T digit) pw ;;
        num' <- nt_sub T num m ;;
        print_to_out_iter_loop fuel' p num' (power_ptr - 1) out'
      else Ok (num, out)
  end.

Definition print_to_out_iter (p : t) (num : Z) (out : out_iter)
  : result (t * out_iter) :=
  if num =? 0 then
    c <- array_read Alphabet (_alphabet p) 0 ;;
    out' <- put out c ;;
    Ok (p, out')
  else
    r <- get_max_power_ptr p num ;;
    let p' := fst r in
    r' <- print_to_out_iter_loop (S (length (_powers p'))) p' num (snd r) out ;;
    assert (fst r' =? 0) ;;;
    Ok (p', snd r').

Definition set_base (p : t) (base_ : Z) : result t :=
  init_helper_data (Make base_ (_alphabet p) (_reached_max_power p) (_powers p)).

Definition get_base (p : t) : Z := _base p.

Definition set_alphabet (p : t) (alphabet_ : list ascii) : result t :=
  a <- strcpy_s (_alphabet p) alphabet_ ;;
  Ok (with_alphabet p a).

Definition setup_default_alphabet (p : t) : result t :=
  assert (_base p <=? 10 + 26) ;;;
  r <- shared.attach_digits_and_letters (_base p) (_alphabet p) ;;
  Ok (with_alphabet p (fst r)).

(** The object before its constructor runs: [_base = -1],
    [_reached_max_power = false], [_powers_length = 0], and an alphabet
    array of unknown content [g]. *)
Definition fresh (g : nat -> ascii) : t :=
  Make (-1) (uninitialised (Z.to_nat MAX_BASE) g) false [].

(** [lr_printer( short base_ = 10 )] *)
Definition construct (g : nat -> ascii) (base_ : Z) : result t :=
  p <- set_base (fresh g) base_ ;;
  setup_default_alphabet p.

(** [lr_printer( short base_, const std::string& alphabet_ )] *)
Definition construct_with_alphabet (g : nat -> ascii) (base_ : Z)
    (alphabet_ : list ascii) : result t :=
  p <- set_base (fresh g) base_ ;;
  set_alphabet p alphabet_.

(** [int print( const number_type& x, char* buf )]: the printer after the
    call, the value returned and the C string left in [buf]. *)
Definition print (p : t) (x : Z) : result (t * (Z * list ascii)) :=
  r <- print_to_out_iter p x (OutIter None []) ;;
  buf <- put (snd r) NUL ;;
  text <- c_str Buffer (out_written buf) ;;
  Ok (fst r, (wrap t_int (Z.of_nat (length (out_written (snd r)))), text)).

(** [std::ostream& print( const number_type& x, std::ostream& ostr )]: the
    digits go through [_buffer]; returns the characters written to [ostr]. *)
Definition print_ostream (p : t) (x : Z) : result (t * list ascii) :=
  r <- print_to_out_iter p x (OutIter (Some MAX_DIGITS) []) ;;
  Ok (fst r, out_written (snd r)).

(** [int print( const number_type& x, FILE* file )]: as above, and
    [_buffer] is terminated before it is handed to [fprintf]. *)
Definition print_file (p : t) (x : Z) : result (t * (Z * list ascii)) :=
  r <- print_to_out_iter p x (OutIter (Some MAX_DIGITS) []) ;;
  buf <- put (snd r) NUL ;;
  text <- c_str Buffer (out_written buf) ;;
  Ok (fst r, (wrap t_int (Z.of_nat (length (out_written (snd r)))), text)).
End WithNumberType.

End lr_printer.

(** ** lr_printer_2_digits (lr_printer_2_digits.hpp) *)

Module lr_printer_2_digits.

Definition BASE_MAX : Z := 10 + 6 + 1.
Definition DIGITS_MAX : Z := 64 + 5.

(** The members; [_powers_length] is the length of [_powers], and
    [_buffer] is written through an [out_iter] of room [DIGITS_MAX]. *)
Record t := Make {
  _base : Z;
  _base_sqr : Z;
  _alphabet : list ascii;
  _alphabet_sqr : list ascii;
  _reached_max_power : bool;
  _powers : list Z
}.

Definition _powers_length (p : t) : Z := Z.of_nat (length (_powers p)).

Definition with_alphabet (p : t) (a : list ascii) : t :=
  Make (_base p) (_base_sqr p) a (_alphabet_sqr p) (_reached_max_power p) (_powers p).
Definition with_alphabet_sqr (p : t) (a : list ascii) : t :=
  Make (_base p) (_base_sqr p) (_alphabet p) a (_reached_max_power p) (_powers p).
Definition with_powers (p : t) (pw : list Z) : t :=
  Make (_base p) (_base_sqr p) (_alphabet p) (_alphabet_sqr p) (_reached_max_power p) pw.
Definition with_reached_max_power (p : t) (b : bool) : t :=
  Make (_base p) (_base_sqr p) (_alphabet p) (_alphabet_sqr p) b (_powers p).

Section WithNumberType.
Variable T : number_type.

Definition calculate_alphabet_sqr (p : t) : result t :=
  sqr <- shared.calculate_alphabet_sqr (_base p) (_alphabet p) (_alphabet_sqr p) ;;
  Ok (with_alphabet_sqr p sqr).

Definition append_helper_data (p : t) : result (t * bool) :=
  r <- shared.append_helper_data T DIGITS_MAX (_base p) (_powers p) ;;
  Ok (with_powers p (fst r), snd r).

Definition init_helper_data (p : t) : result t :=
  pw <- shared.init_helper_data T DIGITS_MAX (_base p) ;;
  Ok (with_reached_max_power (with_powers p pw) false).

(** The two [return]s that follow a table that cannot grow. *)
Definition max_digit_ptr (p : t) (num : Z) : result Z :=
  top <- array_read Powers (_powers p) (_powers_length p - 1) ;;
  if top <=? num then Ok (_powers_length p - 2)
  else Ok (_powers_length p - 3).

(** The [while] loop of the [else] branch of [get_max_power_ptr]; the
    pointer is the one of the [return]s inside the loop, if one is taken. *)
Fixpoint get_max_power_ptr_grow (fuel : nat) (p : t) (num : Z)
  : result (t * option Z) :=
  match fuel with
  | O => Err FuelExhausted
  | S fuel' =>
      below <- array_read Powers (_powers p) (_powers_length p - 2) ;;
      if below <=? num then
        r <- append_helper_data p ;;
        if negb (snd r) then
          let p' := with_reached_max_power (fst r) true in
          power_ptr <- max_digit_ptr p' num ;;
          Ok (p', Some power_ptr)
        else get_max_power_ptr_grow fuel' (fst r) num
      else Ok (p, None)
  end.

(** [while ( *power_ptr <= num ) power_ptr += 2;] *)
Fixpoint get_max_power_ptr_scan (fuel : nat) (p : t) (num : Z) (power_ptr : Z)
  : result Z :=
  match fuel with
  | O => Err FuelExhausted
  | S fuel' =>
      pw <- array_read Powers (_powers p) power_ptr ;;
      if pw <=? num then get_max_power_ptr_scan fuel' p num (power_ptr + 2)
      else Ok power_ptr
  end.

Definition get_max_power_ptr (p : t) (num : Z) : result (t * Z) :=
  r <- (if _reached_max_power p then
          below <- array_read Powers (_powers p) (_powers_length p - 2) ;;
          if below <=? num then
            power_ptr <- max_digit_ptr p num ;;
            Ok (p, Some power_ptr)
          else Ok (p, None)
        else get_max_power_ptr_grow (S (Z.to_nat DIGITS_MAX)) p num) ;;
  match snd r with
  | Some power_ptr => Ok (fst r, power_ptr)
  | None =>
      let p' := fst r in
      power_ptr <- get_max_power_ptr_scan (S (length (_powers p'))) p' num 0 ;;
      let power_ptr := power_ptr - 1 in
      pw <- array_read Powers (_powers p') power_ptr ;;
      let power_ptr := if pw <=? num then power_ptr + 1 else power_ptr in
      pw <- array_read Powers (_powers p') power_ptr ;;
      assert (pw >? num) ;;;
      Ok (p', power_ptr - 2)
  end.

(** [for ( ; power_ptr >= power_ptr_lim; power_ptr -= 2 ) ...]; returns
    what is left of [num], the pointer and the iterator. *)
Fixpoint print_to_out_iter_loop (fuel : nat) (p : t) (num : Z) (power_ptr : Z)
    (out : out_iter) : result (Z * Z * out_iter) :=
  match fuel with
  | O => Err FuelExhausted
  | S fuel' =>
      if power_ptr >=? 1 then
        pw <- array_read Powers (_powers p) power_ptr ;;
        q <- nt_div T num pw ;;
        let digits_2 := to_short q in
        assert (0 <=? digits_2) ;;;
        assert (digits_2 <? _base_sqr p) ;;;
        c1 <- array_read AlphabetSqr (_alphabet_sqr p) (digits_2 * 2) ;;
        out <- put out c1 ;;
        c2 <- array_read AlphabetSqr (_alphabet_sqr p) (digits_2 * 2 + 1) ;;
        out <- put out c2 ;;
        m <- nt_mul T (of_short T digits_2) pw ;;
        num' <- nt_sub T num m ;;
        print_to_out_iter_loop fuel' p num' (power_ptr - 2) out
      else Ok (num, power_ptr, out)
  end.

Definition print_to_out_iter (p : t) (num : Z) (out : out_iter)
  : result (t * out_iter) :=
  if num =? 0 then
    c <- array_read Alphabet (_alphabet p) 0 ;;
    out' <- put out c ;;
    Ok (p, out')
  else
    r <- get_max_power_ptr p num ;;
    let p' := fst r in
    r' <- print_to_out_iter_loop (S (length (_powers p'))) p' num (snd r) out ;;
    let '(num, power_ptr, out) := r' in
    assert ((power_ptr =? 0) || (power_ptr =? -1)) ;;;
    if power_ptr =? 0 then
      assert (0 <=? num) ;;;
      assert (num <? of_short T (_base_sqr p')) ;;;
      i <- nt_mul T num 2 ;;
      c1 <- array_read AlphabetSqr (_alphabet_sqr p') i ;;
      out <- put out c1 ;;
      i <- nt_mul T num 2 ;;
      i <- nt_add T i 1 ;;
      c2 <- array_read AlphabetSqr (_alphabet_sqr p') i ;;
      out <- put out c2 ;;
      Ok (p', out)
    else if power_ptr =? -1 then
      assert (0 <=? num) ;;;
      assert (num <? of_short T (_base p')) ;;;
      c <- array_read Alphabet (_alphabet p') num ;;
      out <- put out c ;;
      Ok (p', out)
    else Ok (p', out).

Definition set_base (p : t) (base_ : Z) : result t :=
  p <- calculate_alphabet_sqr
         (Make base_ (to_short (base_ * base_)) (_alphabet p) (_alphabet_sqr p)
            (_reached_max_power p) (_powers p)) ;;
  init_helper_data p.

Definition get_base (p : t) : Z := _base p.

Definition set_alphabet (p : t) (alphabet_ : list ascii) : result t :=
  a <- strcpy_s (_alphabet p) alphabet_ ;;
  calculate_alphabet_sqr (with_alphabet p a).

Definition setup_default_alphabet (p : t) : result t :=
  assert (_base p <=? 10 + 6) ;;;
  r <- shared.attach_digits_and_letters (_base p) (_alphabet p) ;;
  assert (snd r =? _base p) ;;;
  calculate_alphabet_sqr (with_alphabet p (fst r)).

(** The object before its constructor runs: [_base = -1],
    [_reached_max_power = false], and the content [g], [g2] of unknown
    value of its arrays and [s] of [_base_sqr]; nothing reads
    [_powers_length] before [init_helper_data] sets it. *)
Definition fresh (g g2 : nat -> ascii) (s : Z) : t :=
  Make (-1) s (uninitialised (Z.to_nat BASE_MAX) g)
    (uninitialised (Z.to_nat (BASE_MAX * BASE_MAX * 2)) g2) false [].

(** [lr_printer_2_digits( short base_ = 10 )] *)
Definition construct (g g2 : nat -> ascii) (s : Z) (base_ : Z) : result t :=
  p <- set_base (fresh g g2 s) base_ ;;
  setup_default_alphabet p.

(** [lr_printer_2_digits( short base_, const std::string& alphabet_ )] *)
Definition construct_with_alphabet (g g2 : nat -> ascii) (s : Z) (base_ : Z)
    (alphabet_ : list ascii) : result t :=
  p <- set_base (fresh g g2 s) base_ ;;
  set_alphabet p alphabet_.

(** [int print( const number_type& x, char* buf )]: the printer after the
    call, the value returned and the C string left in [buf]. *)
Definition print (p : t) (x : Z) : result (t * (Z * list ascii)) :=
  r <- print_to_out_iter p x (OutIter None []) ;;
  buf <- put (snd r) NUL ;;
  text <- c_str Buffer (out_written buf) ;;
  Ok (fst r, (wrap t_int (Z.of_nat (length (out_written (snd r)))), text)).

(** [std::ostream& print( const number_type& x, std::ostream& ostr )] *)
Definition print_ostream (p : t) (x : Z) : result (t * list ascii) :=
  r <- print_to_out_iter p x (OutIter (Some DIGITS_MAX) []) ;;
  Ok (fst r, out_written (snd r)).

(** [int print( const number_type& x, FILE* file )] *)
Definition print_file (p : t) (x : Z) : result (t * (Z * list ascii)) :=
  r <- print_to_out_iter p x (OutIter (Some DIGITS_MAX) []) ;;
  buf <- put (snd r) NUL ;;
  text <- c_str Buffer (out_written buf) ;;
  Ok (fst r, (wrap t_int (Z.of_nat (length (out_written (snd r)))), text)).
End WithNumberType.

End lr_printer_2_digits.

(** [*--ptr = c] on [_buffer]; returns the buffer and the pointer. *)
Definition put_before (buffer : list ascii) (ptr : Z) (c : ascii)
  : result (list ascii * Z) :=
  buffer' <- array_write Buffer buffer (ptr - 1) c ;;
  Ok (buffer', ptr - 1).

(** ** modulo_printer (modulo_printer.hpp) *)

Module modulo_printer.

Definition BASE_MAX : Z := 10 + 26.
Definition DIGITS_MAX : Z := 64 + 7.

Record t := Make {
  _base : Z;
  _alphabet : list ascii;
  _buffer : list ascii
}.

Definition with_alphabet (p : t) (a : list ascii) : t :=
  Make (_base p) a (_buffer p).
Definition with_buffer (p : t) (b : list ascii) : t :=
  Make (_base p) (_alphabet p) b.

Section WithNumberType.
Variable T : number_type.

(** [do { ... } while ( x != 0 );] *)
Fixpoint print_to_buffer_loop (fuel : nat) (p : t) (buffer : list ascii)
    (ptr : Z) (x : Z) : result (list ascii * Z) :=
  match fuel with
  | O => Err FuelExhausted
  | S fuel' =>
      d <- nt_rem T x (of_short T (_base p)) ;;
      c <- array_read Alphabet (_alphabet p) d ;;
      r <- put_before buffer ptr c ;;
      x' <- nt_div T x (of_short T (_base p)) ;;
      if negb (x' =? 0)
      then print_to_buffer_loop fuel' p (fst r) (snd r) x'
      else Ok r
  end.

(** Returns the printer, whose [_buffer] holds the digits, and the pointer
    to the first of them. *)
Definition print_to_buffer (p : t) (x : Z) : result (t * Z) :=
  let ptr := DIGITS_MAX - 1 in
  if x =? 0 then
    c <- array_read Alphabet (_alphabet p) 0 ;;
    r <- put_before (_buffer p) ptr c ;;
    Ok (with_buffer p (fst r), snd r)
  else
    r <- print_to_buffer_loop (Z.to_nat DIGITS_MAX) p (_buffer p) ptr x ;;
    Ok (with_buffer p (fst r), snd r).

Definition prepare_buffer (p : t) : result t :=
  b <- array_write Buffer (_buffer p) (DIGITS_MAX - 1) NUL ;;
  Ok (with_buffer p b).

Definition set_base (p : t) (base_ : Z) : result t :=
  prepare_buffer (Make base_ (_alphabet p) (_buffer p)).

Definition get_base (p : t) : Z := _base p.

Definition set_alphabet (p : t) (alphabet_ : list ascii) : result t :=
  a <- strcpy_s (_alphabet p) alphabet_ ;;
  Ok (with_alphabet p a).

Definition setup_default_alphabet (p : t) : result t :=
  assert (_base p <=? 10 + 26) ;;;
  r <- shared.attach_digits_and_letters (_base p) (_alphabet p) ;;
  assert (snd r =? _base p) ;;;
  Ok (with_alphabet p (fst r)).

(** The object before the body of its constructor runs: [_base] set by the
    member initialiser, arrays of unknown content [g] and [gb]. *)
Definition fresh (g gb : nat -> ascii) (base_ : Z) : t :=
  Make base_ (uninitialised (Z.to_nat BASE_MAX) g)
    (uninitialised (Z.to_nat DIGITS_MAX) gb).

(** [modulo_printer( short base_ = 10 )] *)
Definition construct (g gb : nat -> ascii) (base_ : Z) : result t :=
  p <- setup_default_alphabet (fresh g gb base_) ;;
  prepare_buffer p.

(** [modulo_printer( short base_, const std::string& alphabet_ )] *)
Definition construct_with_alphabet (g gb : nat -> ascii) (base_ : Z)
    (alphabet_ : list ascii) : result t :=
  p <- set_alphabet (fresh g gb base_) alphabet_ ;;
  prepare_buffer p.

(** [int print( const number_type& x, char* buf )]: the printer after the
    call, the value returned and the C string that [strcpy] leaves in
    [buf]. *)
Definition print (p : t) (x : Z) : result (t * (Z * list ascii)) :=
  r <- print_to_buffer p x ;;
  let str := snd r in
  text <- c_str Buffer (drop (Z.to_nat str) (_buffer (fst r))) ;;
  Ok (fst r, (wrap t_int (DIGITS_MAX - 1 - str), text)).

(** [std::ostream& print( const number_type& x, std::ostream& ostr )]:
    returns the [length] characters written to [ostr]. *)
Definition print_ostream (p : t) (x : Z) : result (t * list ascii) :=
  r <- print_to_buffer p x ;;
  let str := snd r in
  let length := wrap t_int (DIGITS_MAX - 1 - str) in
  Ok (fst r, take (Z.to_nat length) (drop (Z.to_nat str) (_buffer (fst r)))).

(** [int print( const number_type& x, FILE* file )]: returns the printer,
    the value returned and the characters that [fprintf( file, "%s", str )]
    writes. *)
Definition print_file (p : t) (x : Z) : result (t * (Z * list ascii)) :=
  r <- print_to_buffer p x ;;
  let str := snd r in
  text <- c_str Buffer (drop (Z.to_nat str) (_buffer (fst r))) ;;
  Ok (fst r, (wrap t_int (DIGITS_MAX - 1 - str), text)).
End WithNumberType.

End modulo_printer.

(** ** modulo_printer_2_digits (modulo_printer_2_digits.hpp) *)

Module modulo_printer_2_digits.

Definition BASE_MAX : Z := 10 + 26.
Definition DIGITS_MAX : Z := 64 + 5.

Record t := Make {
  _base : Z;
  _base_sqr : Z;
  _alphabet : list ascii;
  _alphabet_sqr : list ascii;
  _buffer : list ascii
}.

Definition with_alphabet (p : t) (a : list ascii) : t :=
  Make (_base p) (_base_sqr p) a (_alphabet_sqr p) (_buffer p).
Definition with_alphabet_sqr (p : t) (a : list ascii) : t :=
  Make (_base p) (_base_sqr p) (_alphabet p) a (_buffer p).
Definition with_buffer (p : t) (b : list ascii) : t :=
  Make (_base p) (_base_sqr p) (_alphabet p) (_alphabet_sqr p) b.

Section WithNumberType.
Variable T : number_type.

(** [while ( x >= _base ) { ... }]; returns the buffer, the pointer and
    what is left of [x]. *)
Fixpoint print_to_buffer_loop (fuel : nat) (p : t) (buffer : list ascii)
    (ptr : Z) (x : Z) : result (list ascii * Z * Z) :=
  match fuel with
  | O => Err FuelExhausted
  | S fuel' =>
      if x >=? of_short T (_base p) then
        m <- nt_rem T x (of_short T (_base_sqr p)) ;;
        i <- nt_mul T 2 m ;;
        let pairs_index := to_short i in
        c <- array_read AlphabetSqr (_alphabet_sqr p) (pairs_index + 1) ;;
        r <- put_before buffer ptr c ;;
        c <- array_read AlphabetSqr (_alphabet_sqr p) pairs_index ;;
        r <- put_before (fst r) (snd r) c ;;
        x' <- nt_div T x (of_short T (_base_sqr p)) ;;
        print_to_buffer_loop fuel' p (fst r) (snd r) x'
      else Ok (buffer, ptr, x)
  end.

(** Returns the printer, whose [_buffer] holds the digits, and the pointer
    to the first of them. *)
Definition print_to_buffer (p : t) (x : Z) : result (t * Z) :=
  let ptr := DIGITS_MAX - 1 in
  if x =? 0 then
    c <- array_read Alphabet (_alphabet p) 0 ;;
    r <- put_before (_buffer p) ptr c ;;
    Ok (with_buffer p (fst r), snd r)
  else
    r <- print_to_buffer_loop (Z.to_nat DIGITS_MAX) p (_buffer p) ptr x ;;
    let '(buffer, ptr, x) := r in
    if x >? 0 then
      assert (x <? of_short T (_base p)) ;;;
      c <- array_read Alphabet (_alphabet p) x ;;
      r <- put_before buffer ptr c ;;
      Ok (with_buffer p (fst r), snd r)
    else Ok (with_buffer p buffer, ptr).

Definition calculate_alphabet_sqr (p : t) : result t :=
  sqr <- shared.calculate_alphabet_sqr (_base p) (_alphabet p) (_alphabet_sqr p) ;;
  Ok (with_alphabet_sqr p sqr).

Definition setup_buffer_size (p : t) : result t :=
  b <- array_write Buffer (_buffer p) (DIGITS_MAX - 1) NUL ;;
  Ok (with_buffer p b).

Definition set_base (p : t) (base_ : Z) : result t :=
  p <- calculate_alphabet_sqr
         (Make base_ (to_short (base_ * base_)) (_alphabet p) (_alphabet_sqr p)
            (_buffer p)) ;;
  setup_buffer_size p.

Definition get_base (p : t) : Z := _base p.

Definition set_alphabet (p : t) (alphabet_ : list ascii) : result t :=
  a <- strcpy_s (_alphabet p) alphabet_ ;;
  calculate_alphabet_sqr (with_alphabet p a).

Definition setup_default_alphabet (p : t) : result t :=
  assert (_base p <=? BASE_MAX) ;;;
  r <- shared.attach_digits_and_letters (_base p) (_alphabet p) ;;
  assert (snd r =? _base p) ;;;
  calculate_alphabet_sqr (with_alphabet p (fst r)).

(** The object before its constructor runs: [_base = -1] and arrays and a
    [_base_sqr] of unknown content. *)
Definition fresh (g g2 gb : nat -> ascii) (s : Z) : t :=
  Make (-1) s (uninitialised (Z.to_nat BASE_MAX) g)
    (uninitialised (Z.to_nat (2 * BASE_MAX * BASE_MAX)) g2)
    (uninitialised (Z.to_nat DIGITS_MAX) gb).

(** [modulo_printer_2_digits( short base_ = 10 )] *)
Definition construct (g g2 gb : nat -> ascii) (s : Z) (base_ : Z) : result t :=
  p <- set_base (fresh g g2 gb s) base_ ;;
  p <- setup_default_alphabet p ;;
  setup_buffer_size p.

(** [modulo_printer_2_digits( short base_, const std::string& alphabet_ )] *)
Definition construct_with_alphabet (g g2 gb : nat -> ascii) (s : Z) (base_ : Z)
    (alphabet_ : list ascii) : result t :=
  p <- set_base (fresh g g2 gb s) base_ ;;
  p <- set_alphabet p alphabet_ ;;
  setup_buffer_size p.

(** [int print( const number_type& x, char* buf )] *)
Definition print (p : t) (x : Z) : result (t * (Z * list ascii)) :=
  r <- print_to_buffer p x ;;
  let str := snd r in
  text <- c_str Buffer (drop (Z.to_nat str) (_buffer (fst r))) ;;
  Ok (fst r, (wrap t_int (DIGITS_MAX - 1 - str), text)).

(** [std::ostream& print( const number_type& x, std::ostream& ostr )] *)
Definition print_ostream (p : t) (x : Z) : result (t * list ascii) :=
  r <- print_to_buffer p x ;;
  let str := snd r in
  let length := wrap t_int (DIGITS_MAX - 1 - str) in
  Ok (fst r, take (Z.to_nat length) (drop (Z.to_nat str) (_buffer (fst r)))).

(** [int print( const number_type& x, FILE* file )]: the length is taken
    before [fprintf( file, "%s", str )] writes the characters. *)
Definition print_file (p : t) (x : Z) : result (t * (Z * list ascii)) :=
  r <- print_to_buffer p x ;;
  let str := snd r in
  let length := wrap t_int (DIGITS_MAX - 1 - str) in
  text <- c_str Buffer (drop (Z.to_nat str) (_buffer (fst r))) ;;
  Ok (fst r, (length, text)).
End WithNumberType.

End modulo_printer_2_digits.

(** * Specification vocabulary *)

(** ** Number types that the printers are instantiated with *)

(** The integer types at least as wide as [int], up to 64 bits: the operands
    of the printers' arithmetic are then of the type itself. *)
Definition valid_number_type (T : number_type) : Prop := 32 <= bits T <= 64.

(** ** Positional notation *)

(** The digit of weight [b ^ i] of [x]. *)
Definition digit_at (b x : Z) (i : nat) : Z := (x / b ^ Z.of_nat i) mod b.

(** The [k] low digits of [x], most significant first. *)
Fixpoint digits (b : Z) (k : nat) (x : Z) : list Z :=
  match k with
  | O => []
  | S k' => digit_at b x k' :: digits b k' x
  end.

(** [k] is the number of digits of [x] in base [b]; zero has one digit. *)
Definition is_digit_count (b x : Z) (k : nat) : Prop :=
  (1 <= k)%nat /\ x < b ^ Z.of_nat k /\
  (k = 1%nat \/ b ^ (Z.of_nat k - 1) <= x).

(** The character of digit [d]; NUL when the alphabet has no such position. *)
Definition char_of (alphabet : list ascii) (d : Z) : ascii :=
  default NUL (alphabet !! Z.to_nat d).

(** The text of the [k] low digits of [x]. *)
Definition encode (alphabet : list ascii) (b : Z) (k : nat) (x : Z) : list ascii :=
  map (char_of alphabet) (digits b k x).

(** Reading a text back: the position of a character among the first [base]
    characters of the alphabet is its digit. *)
Fixpoint index_of (c : ascii) (l : list ascii) : option Z :=
  match l with
  | [] => None
  | c' :: l' =>
      if Ascii.eqb c c' then Some 0
      else option_map Z.succ (index_of c l')
  end.

Definition digit_of (alphabet : list ascii) (base : Z) (c : ascii) : option Z :=
  index_of c (take (Z.to_nat base) alphabet).

Definition parse (alphabet : list ascii) (base : Z) (text : list ascii) : option Z :=
  fold_left
    (fun acc c =>
       match acc, digit_of alphabet base c with
       | Some a, Some d => Some (a * base + d)
       | _, _ => None
       end)
    text (Some 0).

Definition default_alphabet : list ascii :=
  list_ascii_of_string "0123456789abcdefghijklmnopqrstuvwxyz".

(** The first [base] characters of the alphabet are those of the default one. *)
Definition is_default_alphabet (base : Z) (alphabet : list ascii) : Prop :=
  take (Z.to_nat base) alphabet = take (Z.to_nat base) default_alphabet.

(** The first [base] characters of the two alphabets are the same. *)
Definition same_alphabet (base : Z) (a1 a2 : list ascii) : Prop :=
  take (Z.to_nat base) a1 = take (Z.to_nat base) a2.

(** None of the first [base] characters of the alphabet is NUL. *)
Definition no_nul (l : list ascii) : Prop :=
  forallb (fun c => negb (Ascii.eqb c NUL)) l = true.

Definition alphabet_ok (base : Z) (alphabet : list ascii) : Prop :=
  no_nul (take (Z.to_nat base) alphabet).

(** ** Invariants of the members *)

(** [base ^ 0], ..., [base ^ (n - 1)] *)
Definition pow_table (base : Z) (n : nat) : list Z :=
  map (fun i => base ^ Z.of_nat i) (seq 0 n).

(** The table of powers: entry [k] is [base ^ k], its last entry is
    representable, and a table marked as complete cannot be extended. *)
Definition powers_ok (T : number_type) (base : Z) (reached_max_power : bool)
    (powers : list Z) : Prop :=
  powers = pow_table base (length powers) /\
  (1 <= length powers)%nat /\
  base ^ (Z.of_nat (length powers) - 1) <= nt_max T /\
  (reached_max_power = true -> nt_max T < base ^ Z.of_nat (length powers)).

(** Printing [num] asks [append_helper_data] for no power that a signed type
    cannot hold: the type is unsigned, or a power of the base above [num],
    and the [ahead] powers after it, are representable.  The lookup of an
    [lr_printer] computes the powers up to the first one above [num]
    ([ahead = 0]), the lookup of an [lr_printer_2_digits] one power more
    ([ahead = 1]). *)
Definition powers_fit (T : number_type) (base : Z) (ahead : nat) (num : Z) : Prop :=
  is_signed T = false \/
  exists e : nat,
    num < base ^ Z.of_nat e /\ base ^ Z.of_nat (e + ahead) <= nt_max T.

(** The table of pairs: ["alphabet[i] alphabet[j]"] at index [2 * (i * base + j)]. *)
Definition pair_table (base : Z) (alphabet : list ascii) : list ascii :=
  flat_map
    (fun i =>
       flat_map
         (fun j => [char_of alphabet (Z.of_nat i); char_of alphabet (Z.of_nat j)])
         (seq 0 (Z.to_nat base)))
    (seq 0 (Z.to_nat base)).

Definition pairs_ok (base : Z) (alphabet alphabet_sqr : list ascii) : Prop :=
  take (Z.to_nat (2 * base * base)) alphabet_sqr = pair_table base alphabet.

(** The scratch buffer of the modulo printers ends with the NUL that
    [prepare_buffer], resp. [setup_buffer_size], has put there. *)
Definition buffer_ok (capacity : Z) (buffer : list ascii) : Prop :=
  length buffer = Z.to_nat capacity /\
  buffer !! Z.to_nat (capacity - 1) = Some NUL.

Definition lr_wf (T : number_type) (p : lr_printer.t) : Prop :=
  2 <= lr_printer._base p <= lr_printer.MAX_BASE /\
  length (lr_printer._alphabet p) = Z.to_nat lr_printer.MAX_BASE /\
  powers_ok T (lr_printer._base p) (lr_printer._reached_max_power p)
    (lr_printer._powers p).

Definition lr2_wf (T : number_type) (p : lr_printer_2_digits.t) : Prop :=
  2 <= lr_printer_2_digits._base p <= lr_printer_2_digits.BASE_MAX /\
  lr_printer_2_digits._base_sqr p
    = lr_printer_2_digits._base p * lr_printer_2_digits._base p /\
  length (lr_printer_2_digits._alphabet p) = Z.to_nat lr_printer_2_digits.BASE_MAX /\
  length (lr_printer_2_digits._alphabet_sqr p)
    = Z.to_nat (lr_printer_2_digits.BASE_MAX * lr_printer_2_digits.BASE_MAX * 2) /\
  pairs_ok (lr_printer_2_digits._base p) (lr_printer_2_digits._alphabet p)
    (lr_printer_2_digits._alphabet_sqr p) /\
  powers_ok T (lr_printer_2_digits._base p)
    (lr_printer_2_digits._reached_max_power p) (lr_printer_2_digits._powers p) /\
  (2 <= length (lr_printer_2_digits._powers p))%nat.

Definition mod_wf (p : modulo_printer.t) : Prop :=
  2 <= modulo_printer._base p <= modulo_printer.BASE_MAX /\
  length (modulo_printer._alphabet p) = Z.to_nat modulo_printer.BASE_MAX /\
  buffer_ok modulo_printer.DIGITS_MAX (modulo_printer._buffer p).

Definition mod2_wf (p : modulo_printer_2_digits.t) : Prop :=
  2 <= modulo_printer_2_digits._base p <= modulo_printer_2_digits.BASE_MAX /\
  modulo_printer_2_digits._base_sqr p
    = modulo_printer_2_digits._base p * modulo_printer_2_digits._base p /\
  length (modulo_printer_2_digits._alphabet p)
    = Z.to_nat modulo_printer_2_digits.BASE_MAX /\
  length (modulo_printer_2_digits._alphabet_sqr p)
    = Z.to_nat (2 * modulo_printer_2_digits.BASE_MAX * modulo_printer_2_digits.BASE_MAX) /\
  pairs_ok (modulo_printer_2_digits._base p) (modulo_printer_2_digits._alphabet p)
    (modulo_printer_2_digits._alphabet_sqr p) /\
  buffer_ok modulo_printer_2_digits.DIGITS_MAX (modulo_printer_2_digits._buffer p).

(** The table and the flag of an [lr_printer] whose base is any [short] of 2
    or more. *)
Definition lr_cache_ok (T : number_type) (p : lr_printer.t) : Prop :=
  2 <= lr_printer._base p <= 32767 /\
  powers_ok T (lr_printer._base p) (lr_printer._reached_max_power p)
    (lr_printer._powers p).

(** The same, for an [lr_printer_2_digits]; its table has two entries at least. *)
Definition lr2_cache_ok (T : number_type) (p : lr_printer_2_digits.t) : Prop :=
  2 <= lr_printer_2_digits._base p <= 32767 /\
  powers_ok T (lr_printer_2_digits._base p)
    (lr_printer_2_digits._reached_max_power p) (lr_printer_2_digits._powers p) /\
  (2 <= length (lr_printer_2_digits._powers p))%nat.

(** Two states of an [lr_printer_2_digits] that differ in the table of powers
    and its flag at most. *)
Definition lr2_same_config (p p' : lr_printer_2_digits.t) : Prop :=
  lr_printer_2_digits._base p' = lr_printer_2_digits._base p /\
  lr_printer_2_digits._base_sqr p' = lr_printer_2_digits._base_sqr p /\
  lr_printer_2_digits._alphabet p' = lr_printer_2_digits._alphabet p /\
  lr_printer_2_digits._alphabet_sqr p' = lr_printer_2_digits._alphabet_sqr p.

(** The arrays of the paired printers have their sizes. *)
Definition lr2_sized (p : lr_printer_2_digits.t) : Prop :=
  length (lr_printer_2_digits._alphabet p) = Z.to_nat lr_printer_2_digits.BASE_MAX /\
  length (lr_printer_2_digits._alphabet_sqr p)
    = Z.to_nat (lr_printer_2_digits.BASE_MAX * lr_printer_2_digits.BASE_MAX * 2).

Definition mod2_sized (p : modulo_printer_2_digits.t) : Prop :=
  length (modulo_printer_2_digits._alphabet p)
    = Z.to_nat modulo_printer_2_digits.BASE_MAX /\
  length (modulo_printer_2_digits._alphabet_sqr p)
    = Z.to_nat (2 * modulo_printer_2_digits.BASE_MAX * modulo_printer_2_digits.BASE_MAX) /\
  length (modulo_printer_2_digits._buffer p)
    = Z.to_nat modulo_printer_2_digits.DIGITS_MAX.

(** ** Auxiliary notions of the proofs *)

(** The iterator has room for [n] more characters. *)
Definition out_fits (out : out_iter) (n : nat) : Prop :=
  match out_room out with
  | Some c => Z.of_nat (length (out_written out)) + Z.of_nat n <= c
  | None => True
  end.

(** One turn of the inner loop of [calculate_alphabet_sqr]. *)
Definition pair_step (alphabet : list ascii) (i j : Z) (s : list ascii * Z)
  : result (list ascii * Z) :=
  let '(sqr, L) := s in
  ci <- array_read Alphabet alphabet i ;;
  sqr <- array_write AlphabetSqr sqr L ci ;;
  cj <- array_read Alphabet alphabet j ;;
  sqr <- array_write AlphabetSqr sqr (L + 1) cj ;;
  Ok (sqr, L + 2).

(** ** Vocabulary of the theorems *)

(** A printer in base [b] with the default alphabet, of each class. *)
Definition lr_ready (T : number_type) (b : Z) (p : lr_printer.t) : Prop :=
  lr_wf T p /\ lr_printer._base p = b /\
  is_default_alphabet b (lr_printer._alphabet p).

Definition lr2_ready (T : number_type) (b : Z) (p : lr_printer_2_digits.t) : Prop :=
  lr2_wf T p /\ lr_printer_2_digits._base p = b /\
  is_default_alphabet b (lr_printer_2_digits._alphabet p).

Definition mod_ready (b : Z) (p : modulo_printer.t) : Prop :=
  mod_wf p /\ modulo_printer._base p = b /\
  is_default_alphabet b (modulo_printer._alphabet p).

Definition mod2_ready (b : Z) (p : modulo_printer_2_digits.t) : Prop :=
  mod2_wf p /\ modulo_printer_2_digits._base p = b /\
  is_default_alphabet b (modulo_printer_2_digits._alphabet p).


(** The C string that one character and its terminator make. *)
Definition one_char (c : ascii) : list ascii :=
  if Ascii.eqb c NUL then [] else [c].

(** The text "..." as the printers produce it. *)
Definition text (s : string) : list ascii := list_ascii_of_string s.

(** *** Sample printers

    The printers that the constructors build for base 10 from arrays that
    hold NUL everywhere. *)

Definition sample_lr : lr_printer.t :=
  Eval vm_compute in
    match lr_printer.construct t_int (fun _ => NUL) 10 with
    | Ok p => p
    | Err _ => lr_printer.fresh (fun _ => NUL)
    end.

(** An [lr_printer] that the constructor builds for base 8. *)
Definition sample_lr_octal : lr_printer.t :=
  Eval vm_compute in
    match lr_printer.construct t_int (fun _ => NUL) 8 with
    | Ok p => p
    | Err _ => lr_printer.fresh (fun _ => NUL)
    end.

Definition sample_lr2 : lr_printer_2_digits.t :=
  Eval vm_compute in
    match lr_printer_2_digits.construct t_int (fun _ => NUL) (fun _ => NUL) 0 10 with
    | Ok p => p
    | Err _ => lr_printer_2_digits.fresh (fun _ => NUL) (fun _ => NUL) 0
    end.

Definition sample_mod : modulo_printer.t :=
  Eval vm_compute in
    match modulo_printer.construct (fun _ => NUL) (fun _ => NUL) 10 with
    | Ok p => p
    | Err _ => modulo_printer.fresh (fun _ => NUL) (fun _ => NUL) 10
    end.

Definition sample_mod2 : modulo_printer_2_digits.t :=
  Eval vm_compute in
    match modulo_printer_2_digits.construct
            (fun _ => NUL) (fun _ => NUL) (fun _ => NUL) 0 10 with
    | Ok p => p
    | Err _ =>
        modulo_printer_2_digits.fresh (fun _ => NUL) (fun _ => NUL) (fun _ => NUL) 0
    end.

(** ** main.cpp *)

Module main.

(** What [test_printer] and [run_printer] ask of their [PrinterType]: the
    members that they call.  [buf_cells] gives the number of cells of the
    caller's [buf] that [print( x, buf )] writes, from the count and the
    text that it returns: the digits and the terminator through the output
    iterator of the lr printers, the string and its terminator through the
    [strcpy] of the modulo printers. *)
Class PrinterType (P : Type) := {
  print : P -> Z -> result (P * (Z * list ascii));
  print_ostream : P -> Z -> result (P * list ascii);
  set_base : P -> Z -> result P;
  setup_default_alphabet : P -> result P;
  buf_cells : Z * list ascii -> Z
}.

#[export] Instance lr_printer_type (T : number_type) : PrinterType lr_printer.t := {|
  print := lr_printer.print T;
  print_ostream := lr_printer.print_ostream T;
  set_base := lr_printer.set_base T;
  setup_default_alphabet := lr_printer.setup_default_alphabet;
  buf_cells := fun r => fst r + 1
|}.

#[export] Instance lr_printer_2_digits_type (T : number_type)
  : PrinterType lr_printer_2_digits.t := {|
  print := lr_printer_2_digits.print T;
  print_ostream := lr_printer_2_digits.print_ostream T;
  set_base := lr_printer_2_digits.set_base T;
  setup_default_alphabet := lr_printer_2_digits.setup_default_alphabet;
  buf_cells := fun r => fst r + 1
|}.

#[export] Instance modulo_printer_type (T : number_type)
  : PrinterType modulo_printer.t := {|
  print := modulo_printer.print T;
  print_ostream := modulo_printer.print_ostream T;
  set_base := modulo_printer.set_base;
  setup_default_alphabet := modulo_printer.setup_default_alphabet;
  buf_cells := fun r => Z.of_nat (length (snd r)) + 1
|}.

#[export] Instance modulo_printer_2_digits_type (T : number_type)
  : PrinterType modulo_printer_2_digits.t := {|
  print := modulo_printer_2_digits.print T;
  print_ostream := modulo_printer_2_digits.print_ostream T;
  set_base := modulo_printer_2_digits.set_base;
  setup_default_alphabet := modulo_printer_2_digits.setup_default_alphabet;
  buf_cells := fun r => Z.of_nat (length (snd r)) + 1
|}.

Section WithPrinterType.
Context {P : Type} {printer : PrinterType P}.

(** [p.print( x, buf ); assert( buf == expected );] on a [buf] of
    [buf_size] cells. *)
Definition print_and_assert (buf_size : Z) (p : P) (x : Z) (expected : string)
  : result P :=
  r <- print p x ;;
  if buf_cells (snd r) <=? buf_size then
    assert (String.eqb (string_of_list_ascii (snd (snd r))) expected) ;;;
    Ok (fst r)
  else Err (OutOfBounds Buffer).

(** [test_printer], with its [char buf[ 25 ]] and its [std::ostringstream],
    whose content is [ostr]; returns the printer. *)
Definition test_printer (p : P) : result P :=
  p <- print_and_assert 25 p 43 "43" ;;
  p <- print_and_assert 25 p 5607 "5607" ;;
  p <- print_and_assert 25 p 4 "4" ;;
  p <- print_and_assert 25 p 2147483647 "2147483647" ;;
  p <- set_base p 8 ;;
  p <- print_and_assert 25 p 255 "377" ;;
  p <- print_and_assert 25 p 10 "12" ;;
  p <- set_base p 16 ;;
  p <- setup_default_alphabet p ;;
  p <- print_and_assert 25 p 512 "200" ;;
  p <- print_and_assert 25 p 77 "4d" ;;
  p <- set_base p 10 ;;
  let ostr := [] in
  r <- print_ostream p 123 ;;
  let ostr := ostr ++ snd r ++ [" "%char] in
  r <- print_ostream (fst r) 0 ;;
  let ostr := ostr ++ snd r ++ [" "%char] in
  r <- print_ostream (fst r) 10000 ;;
  let ostr := ostr ++ snd r in
  assert (String.eqb (string_of_list_ascii ostr) "123 0 10000") ;;;
  Ok (fst r).

(** The loop of [run_printer] over a [NumberType] [T], on the global [buf]
    of [64 + 7] cells: [for ( num = start_num; num <= finish_num; ++num )
    p.print( num, buf );].  Returns the printer and the string in [buf]. *)
Fixpoint run_printer_loop (T : number_type) (fuel : nat) (p : P)
    (num finish_num : Z) (buf : list ascii) : result (P * list ascii) :=
  match fuel with
  | O => Err FuelExhausted
  | S fuel' =>
      if num <=? finish_num then
        r <- print p num ;;
        if buf_cells (snd r) <=? 64 + 7 then
          num' <- nt_add T num 1 ;;
          run_printer_loop T fuel' (fst r) num' finish_num (snd (snd r))
        else Err (OutOfBounds Buffer)
      else Ok (p, buf)
  end.

(** [run_printer]: [now] holds the two readings of the clock; returns the
    printer, the string in [buf] and the duration.  The line that it
    writes to [std::cout] is left out.  The loop has the fuel of the
    numbers from [start_num] to [finish_num]. *)
Definition run_printer (T : number_type) (now : Z * Z) (p : P)
    (start_num finish_num : Z) (buf : list ascii) : result (P * list ascii * Z) :=
  let start_time := fst now in
  r <- run_printer_loop T (Z.to_nat (finish_num - start_num + 2)) p
         start_num finish_num buf ;;
  let dur := snd now - start_time in
  Ok (r, dur).
End WithPrinterType.

End main.

(** ** Tactics *)

(** Case analysis on the first computation of a sequence that succeeded. *)
Ltac bind_inv H :=
  match type of H with
  | bind ?r _ = Ok _ =>
      let E := fresh "E" in
      destruct r eqn:E; cbn [bind] in H; [|discriminate H];
      bind_inv E; bind_inv H
  | _ => idtac
  end.

(** * Properties *)

Section NumberTypeFacts.
Variable T : number_type.
Hypothesis HT : valid_number_type T.

Lemma modulus_double : 2 ^ bits T = 2 * 2 ^ (bits T - 1).
Proof.
  unfold valid_number_type in HT.
  replace (bits T) with (Z.succ (bits T - 1)) at 1 by lia.
  rewrite Z.pow_succ_r; lia.
Qed.

Lemma half_modulus_large : 2 ^ 31 <= 2 ^ (bits T - 1).
Proof. unfold valid_number_type in HT. apply Z.pow_le_mono_r; lia. Qed.

Lemma nt_max_lower : 2 ^ 31 - 1 <= nt_max T.
Proof.
  pose proof half_modulus_large. pose proof modulus_double.
  unfold nt_max. destruct (is_signed T); lia.
Qed.

Lemma nt_max_upper : nt_max T < 2 ^ 64.
Proof.
  unfold valid_number_type in HT.
  assert (2 ^ bits T <= 2 ^ 64) by (apply Z.pow_le_mono_r; lia).
  pose proof modulus_double. pose proof half_modulus_large.
  unfold nt_max. destruct (is_signed T); lia.
Qed.

Lemma nt_min_nonpos : nt_min T <= 0.
Proof.
  pose proof half_modulus_large. unfold nt_min. destruct (is_signed T); lia.
Qed.

Lemma wrap_small z : nt_min T <= z <= nt_max T -> wrap T z = z.
Proof.
  pose proof modulus_double. pose proof half_modulus_large.
  unfold nt_min, nt_max, wrap. destruct (is_signed T); intros Hz.
  - rewrite Z.mod_small; lia.
  - rewrite Z.mod_small; lia.
Qed.

Lemma wrap_range z : nt_min T <= wrap T z <= nt_max T.
Proof.
  pose proof modulus_double. pose proof half_modulus_large.
  unfold nt_min, nt_max, wrap. destruct (is_signed T).
  - pose proof (Z.mod_pos_bound (z + 2 ^ (bits T - 1)) (2 ^ bits T)). lia.
  - pose proof (Z.mod_pos_bound z (2 ^ bits T)). lia.
Qed.

Lemma wrap_nonneg z : 0 <= z <= nt_max T -> wrap T z = z.
Proof. pose proof nt_min_nonpos. intros. apply wrap_small. lia. Qed.

Lemma of_short_small s : 0 <= s <= 32767 -> of_short T s = s.
Proof.
  pose proof nt_max_lower. intros. apply wrap_nonneg.
  change (2 ^ 31 - 1) with 2147483647 in *. lia.
Qed.

Lemma quot_range r b : nt_min T <= r <= nt_max T -> 2 <= b ->
  nt_min T <= Z.quot r b <= nt_max T.
Proof.
  pose proof nt_min_nonpos. intros Hr Hb.
  destruct (Z_lt_le_dec r 0) as [Hneg|Hpos].
  - replace r with (- - r) by lia. rewrite Z.quot_opp_l by lia.
    rewrite Z.quot_div_nonneg by lia.
    assert (0 <= - r / b) by (apply Z.div_pos; lia).
    assert (- r / b <= - r) by (apply Z.div_le_upper_bound; nia).
    pose proof nt_max_lower. lia.
  - rewrite Z.quot_div_nonneg by lia.
    assert (0 <= r / b) by (apply Z.div_pos; lia).
    assert (r / b <= r) by (apply Z.div_le_upper_bound; nia).
    lia.
Qed.

(** Arithmetic whose result is representable gives that result. *)
Lemma nt_result_small z : nt_min T <= z <= nt_max T -> nt_result T z = Ok z.
Proof.
  intros Hz. unfold nt_result. destruct (is_signed T) eqn:Hs.
  - destruct (Z.leb_spec (nt_min T) z); [|lia].
    destruct (Z.leb_spec z (nt_max T)); [|lia]. reflexivity.
  - by rewrite wrap_small.
Qed.

Lemma nt_result_nonneg z : 0 <= z <= nt_max T -> nt_result T z = Ok z.
Proof. pose proof nt_min_nonpos. intros. apply nt_result_small. lia. Qed.

(** In a signed type a result above the largest value is an overflow; an
    unsigned type reduces it. *)
Lemma nt_result_overflow z : nt_max T < z ->
  nt_result T z = if is_signed T then Err SignedOverflow else Ok (wrap T z).
Proof.
  intros Hz. unfold nt_result. destruct (is_signed T); [|done].
  destruct (Z.leb_spec z (nt_max T)); [lia|]. by rewrite andb_false_r.
Qed.

Lemma nt_result_range z r : nt_result T z = Ok r -> nt_min T <= r <= nt_max T.
Proof.
  unfold nt_result. destruct (is_signed T).
  - destruct (Z.leb_spec (nt_min T) z); [|done].
    destruct (Z.leb_spec z (nt_max T)); [|done]. intros [= <-]. lia.
  - intros [= <-]. apply wrap_range.
Qed.

Lemma nt_mul_nonneg a b : 0 <= a * b <= nt_max T -> nt_mul T a b = Ok (a * b).
Proof. apply nt_result_nonneg. Qed.

Lemma nt_sub_nonneg a b : 0 <= a - b <= nt_max T -> nt_sub T a b = Ok (a - b).
Proof. apply nt_result_nonneg. Qed.

Lemma nt_add_nonneg a b : 0 <= a + b <= nt_max T -> nt_add T a b = Ok (a + b).
Proof. apply nt_result_nonneg. Qed.

(** Division and remainder of non-negative operands. *)
Lemma nt_div_nonneg a b : 0 <= a <= nt_max T -> 0 < b ->
  nt_div T a b = Ok (a / b).
Proof.
  intros Ha Hb. unfold nt_div.
  destruct (Z.eqb_spec b 0); [lia|].
  rewrite Z.quot_div_nonneg by lia. apply nt_result_nonneg.
  split; [apply Z.div_pos; lia|].
  assert (a / b <= a) by (apply Z.div_le_upper_bound; nia). lia.
Qed.

Lemma nt_rem_nonneg a b : 0 <= a <= nt_max T -> 0 < b ->
  nt_rem T a b = Ok (a mod b).
Proof.
  intros Ha Hb. pose proof (nt_div_nonneg a b Ha Hb) as Hq.
  unfold nt_div in Hq. unfold nt_rem.
  destruct (Z.eqb_spec b 0); [lia|]. rewrite Hq. cbn [bind].
  rewrite Z.rem_mod_nonneg by lia. f_equal. apply wrap_nonneg.
  pose proof (Z.mod_pos_bound a b Hb).
  assert (a mod b <= a) by (apply Z.mod_le; lia). lia.
Qed.

(** The test of [append_helper_data]: a representable product divides back
    to its factor. *)
Lemma divide_back_exact a b : 1 <= a -> 2 <= b -> a * b <= nt_max T ->
  nt_div T (a * b) b = Ok a.
Proof.
  intros Ha Hb Hab. rewrite nt_div_nonneg by nia. f_equal. apply Z.div_mul. lia.
Qed.

(** A product that an unsigned type has reduced does not. *)
Lemma divide_back_overflow a b : 1 <= a -> 2 <= b -> nt_max T < a * b ->
  is_signed T = false ->
  exists q, nt_div T (wrap T (a * b)) b = Ok q /\ q <> a.
Proof.
  intros Ha Hb Hab Hs. pose proof (wrap_range (a * b)) as Hr.
  assert (Hmin : nt_min T = 0) by (unfold nt_min; by rewrite Hs).
  set (r := wrap T (a * b)) in *.
  exists (r / b). split; [apply nt_div_nonneg; lia|].
  pose proof (Z.mul_div_le r b ltac:(lia)). nia.
Qed.
End NumberTypeFacts.

Lemma to_short_small z : 0 <= z <= 32767 -> to_short z = z.
Proof.
  intros Hz. unfold to_short, wrap. cbn [is_signed t_short bits].
  change (2 ^ (16 - 1)) with 32768. change (2 ^ 16) with 65536.
  rewrite Z.mod_small; lia.
Qed.

Lemma wrap_int_small z : 0 <= z <= 2147483647 -> wrap t_int z = z.
Proof.
  intros Hz. unfold wrap. cbn [is_signed t_int bits].
  change (2 ^ (32 - 1)) with 2147483648. change (2 ^ 32) with 4294967296.
  rewrite Z.mod_small; lia.
Qed.

(** ** The result monad, arrays and C strings *)

Lemma bind_Ok {A B} (r : result A) (k : A -> result B) a :
  r = Ok a -> bind r k = k a.
Proof. intros ->. reflexivity. Qed.

Lemma array_read_Some {A} a (l : list A) i x :
  0 <= i -> l !! Z.to_nat i = Some x -> array_read a l i = Ok x.
Proof.
  intros Hi Hl. unfold array_read.
  destruct (Z.leb_spec 0 i); [|lia]. rewrite Hl. reflexivity.
Qed.

Lemma array_read_char_of a (l : list ascii) i :
  0 <= i < Z.of_nat (length l) -> array_read a l i = Ok (char_of l i).
Proof.
  intros Hi. unfold char_of.
  destruct (lookup_lt_is_Some_2 l (Z.to_nat i)) as [c Hc]; [lia|].
  rewrite Hc. apply array_read_Some; [lia|done].
Qed.

Lemma array_write_Ok {A} a (l : list A) i x :
  0 <= i < Z.of_nat (length l) ->
  array_write a l i x = Ok (<[Z.to_nat i := x]> l).
Proof.
  intros Hi. unfold array_write.
  destruct (Z.leb_spec 0 i); [|lia].
  destruct (Z.ltb_spec i (Z.of_nat (length l))); [|lia]. reflexivity.
Qed.

Lemma no_nul_app l1 l2 : no_nul (l1 ++ l2) <-> no_nul l1 /\ no_nul l2.
Proof. unfold no_nul. rewrite forallb_app, andb_true_iff. tauto. Qed.

Lemma no_nul_cons c l : no_nul (c :: l) <-> c <> NUL /\ no_nul l.
Proof.
  unfold no_nul. cbn [forallb]. rewrite andb_true_iff, negb_true_iff.
  destruct (Ascii.eqb_spec c NUL); intuition congruence.
Qed.

Lemma c_str_terminated a l rest :
  no_nul l -> c_str a (l ++ NUL :: rest) = Ok l.
Proof.
  induction l as [|c l IH]; intros Hl.
  - reflexivity.
  - apply no_nul_cons in Hl as [Hc Hl]. cbn [app c_str].
    destruct (Ascii.eqb_spec c NUL); [done|]. rewrite IH by done. reflexivity.
Qed.

Lemma c_str_total a l rest : exists s, c_str a (l ++ NUL :: rest) = Ok s.
Proof.
  induction l as [|c l [s IH]].
  - exists []. reflexivity.
  - cbn [app c_str]. destruct (Ascii.eqb c NUL); [by eexists|].
    rewrite IH. by eexists.
Qed.

(** ** Positional notation *)

Lemma digit_at_range b x i : 2 <= b -> 0 <= digit_at b x i < b.
Proof. intros. unfold digit_at. apply Z.mod_pos_bound. lia. Qed.

Lemma length_digits b k x : length (digits b k x) = k.
Proof. induction k; simpl; auto. Qed.

Lemma length_encode alphabet b k x : length (encode alphabet b k x) = k.
Proof. unfold encode. rewrite length_map. apply length_digits. Qed.

Lemma is_digit_count_unique b x k k' : 2 <= b ->
  is_digit_count b x k -> is_digit_count b x k' -> k = k'.
Proof.
  intros Hb (H1 & H2 & H3) (H1' & H2' & H3').
  assert (Hmono : forall i j : nat,
             b ^ (Z.of_nat i - 1) <= x -> x < b ^ Z.of_nat j ->
             (1 <= i)%nat -> (i <= j)%nat).
  { intros i j Hi Hj Hi1. destruct (le_lt_dec i j) as [|Hlt]; [done|].
    assert (b ^ Z.of_nat j <= b ^ (Z.of_nat i - 1))
      by (apply Z.pow_le_mono_r; lia).
    lia. }
  assert (Hone : forall j : nat,
             (1 <= j)%nat -> x < b ^ Z.of_nat 1%nat ->
             (j = 1%nat \/ b ^ (Z.of_nat j - 1) <= x) -> j = 1%nat).
  { intros j Hj Hx [->|Hle]; [done|].
    destruct (le_lt_dec j 1); [lia|].
    assert (b ^ Z.of_nat 1 <= b ^ (Z.of_nat j - 1))
      by (apply Z.pow_le_mono_r; lia).
    lia. }
  destruct H3 as [->|H3]; destruct H3' as [->|H3']; try done.
  - symmetry. apply Hone; auto.
  - apply Hone; auto.
  - apply Nat.le_antisymm; eauto.
Qed.

(** The digit count is at most the width of the type. *)
Lemma pow_bound_exponent b (k : nat) m :
  2 <= b -> 0 <= m -> b ^ Z.of_nat k < 2 ^ m -> Z.of_nat k < m.
Proof.
  intros Hb Hm Hlt. destruct (Z_lt_le_dec (Z.of_nat k) m) as [|Hge]; [done|].
  assert (2 ^ m <= 2 ^ Z.of_nat k) by (apply Z.pow_le_mono_r; lia).
  assert (2 ^ Z.of_nat k <= b ^ Z.of_nat k) by (apply Z.pow_le_mono_l; lia).
  lia.
Qed.

(** ** The table of powers *)

Lemma length_pow_table b n : length (pow_table b n) = n.
Proof. unfold pow_table. by rewrite length_map, length_seq. Qed.

Lemma pow_table_lookup b n (i : nat) :
  (i < n)%nat -> pow_table b n !! i = Some (b ^ Z.of_nat i).
Proof.
  intros Hi. unfold pow_table. rewrite list_lookup_fmap.
  rewrite lookup_seq_lt by done. reflexivity.
Qed.

Lemma pow_table_S b n : pow_table b (S n) = pow_table b n ++ [b ^ Z.of_nat n].
Proof. unfold pow_table. rewrite seq_S, map_app. reflexivity. Qed.

Lemma pow_table_read b n i :
  0 <= i < Z.of_nat n -> array_read Powers (pow_table b n) i = Ok (b ^ i).
Proof.
  intros Hi. apply array_read_Some; [lia|].
  rewrite pow_table_lookup by lia. f_equal. f_equal. lia.
Qed.

Lemma powers_ok_read T b r pw i :
  powers_ok T b r pw -> 0 <= i < Z.of_nat (length pw) ->
  array_read Powers pw i = Ok (b ^ i).
Proof. intros (Heq & _) Hi. rewrite Heq at 1. by apply pow_table_read. Qed.

Section PowersFacts.
Variable T : number_type.
Hypothesis HT : valid_number_type T.

Lemma powers_ok_length b r pw :
  2 <= b -> powers_ok T b r pw -> Z.of_nat (length pw) <= 64.
Proof using HT.
  intros Hb (_ & Hlen & Hmax & _).
  pose proof (nt_max_upper T HT).
  assert (Z.of_nat (length pw - 1) < 64).
  { apply (pow_bound_exponent b); [lia..|].
    replace (Z.of_nat (length pw - 1)) with (Z.of_nat (length pw) - 1) by lia.
    lia. }
  lia.
Qed.

Lemma powers_ok_below_max b r pw i :
  2 <= b -> powers_ok T b r pw -> 0 <= i < Z.of_nat (length pw) ->
  1 <= b ^ i <= nt_max T.
Proof using HT.
  intros Hb (_ & Hlen & Hmax & _) Hi. split.
  - assert (0 < b ^ i) by (apply Z.pow_pos_nonneg; lia). lia.
  - etrans; [|exact Hmax]. apply Z.pow_le_mono_r; lia.
Qed.

(** [append_helper_data] appends the next power when it is representable.
    When it is not, an unsigned type leaves the table alone and reports the
    failure, and a signed type has overflowed in the product. *)
Lemma append_helper_data_spec capacity b r pw :
  2 <= b <= 32767 -> powers_ok T b r pw -> 64 < capacity ->
  shared.append_helper_data T capacity b pw
  = if b ^ Z.of_nat (length pw) <=? nt_max T
    then Ok (pow_table b (S (length pw)), true)
    else if is_signed T then Err SignedOverflow else Ok (pw, false).
Proof using HT.
  intros Hb Hok Hcap. pose proof (powers_ok_length b r pw ltac:(lia) Hok) as Hlen.
  pose proof Hok as (Heq & Hlen1 & Hmax & _).
  pose proof (powers_ok_below_max b r pw (Z.of_nat (length pw) - 1)
                ltac:(lia) Hok ltac:(lia)) as Htop.
  unfold shared.append_helper_data.
  rewrite (powers_ok_read T b r pw) by (done || lia). cbn [bind].
  rewrite of_short_small by (done || lia).
  assert (Hpow : b ^ Z.of_nat (length pw) = b ^ (Z.of_nat (length pw) - 1) * b).
  { replace (Z.of_nat (length pw)) with (Z.succ (Z.of_nat (length pw) - 1)) at 1 by lia.
    rewrite Z.pow_succ_r by lia. lia. }
  destruct (Z.leb_spec (b ^ Z.of_nat (length pw)) (nt_max T)) as [Hfit|Hover].
  - rewrite nt_mul_nonneg by (done || nia). cbn [bind].
    rewrite divide_back_exact by (done || lia). cbn [bind].
    rewrite Z.eqb_refl. cbn [negb].
    destruct (Z.ltb_spec (Z.of_nat (length pw)) capacity); [|lia].
    rewrite pow_table_S, <- Heq. by rewrite Hpow.
  - unfold nt_mul. rewrite nt_result_overflow by (done || lia).
    destruct (is_signed T) eqn:Hs; [done|]. cbn [bind].
    destruct (divide_back_overflow T HT (b ^ (Z.of_nat (length pw) - 1)) b)
      as (q & -> & Hq); [lia..|done|].
    cbn [bind]. destruct (Z.eqb_spec q (b ^ (Z.of_nat (length pw) - 1))); done.
Qed.

(** Where the next power is not representable and [powers_fit] holds, the
    type is unsigned. *)
Lemma powers_fit_unsigned b (ahead : nat) num k :
  2 <= b -> 0 <= k - 1 - Z.of_nat ahead -> powers_fit T b ahead num ->
  b ^ (k - 1 - Z.of_nat ahead) <= num -> nt_max T < b ^ k ->
  is_signed T = false.
Proof.
  intros Hb Hk [Hs|(e & He1 & He2)] Hle Hover; [done|]. exfalso.
  assert (k - 1 - Z.of_nat ahead < Z.of_nat e).
  { destruct (Z_lt_le_dec (k - 1 - Z.of_nat ahead) (Z.of_nat e)); [done|].
    assert (b ^ Z.of_nat e <= b ^ (k - 1 - Z.of_nat ahead))
      by (apply Z.pow_le_mono_r; lia).
    lia. }
  assert (b ^ k <= b ^ Z.of_nat (e + ahead)) by (apply Z.pow_le_mono_r; lia).
  lia.
Qed.

(** Powers that fit [ahead] beyond the number fit any shorter way beyond it. *)
Lemma powers_fit_ahead b (ahead ahead' : nat) num :
  2 <= b -> (ahead' <= ahead)%nat ->
  powers_fit T b ahead num -> powers_fit T b ahead' num.
Proof.
  intros Hb Hle [Hs|(e & He1 & He2)]; [by left|right].
  exists e. split; [done|]. etrans; [|exact He2]. apply Z.pow_le_mono_r; lia.
Qed.

Lemma powers_ok_grow b pw :
  2 <= b -> powers_ok T b false pw -> b ^ Z.of_nat (length pw) <= nt_max T ->
  powers_ok T b false (pow_table b (S (length pw))).
Proof using HT.
  intros Hb (Heq & Hlen & Hmax & _) Hfit. unfold powers_ok; rewrite length_pow_table.
  repeat split; [lia| |done].
  replace (Z.of_nat (S (length pw)) - 1) with (Z.of_nat (length pw)) by lia. done.
Qed.

(** [init_helper_data]: the first four powers, which every valid type holds
    for the bases of the alphabets. *)
Lemma init_helper_data_spec capacity b :
  2 <= b <= 36 -> 64 < capacity ->
  shared.init_helper_data T capacity b = Ok (pow_table b 4).
Proof using HT.
  intros Hb Hcap. pose proof (nt_max_lower T HT) as Hmax.
  change (2 ^ 31 - 1) with 2147483647 in Hmax.
  assert (H1 : powers_ok T b false [1]).
  { unfold powers_ok; simpl. repeat split; try done; try lia. }
  unfold shared.init_helper_data, shared.DATA_INIT_LENGTH.
  change (Z.to_nat (4 - 1)) with 3%nat. cbn [for_range].
  rewrite (append_helper_data_spec capacity b false) by (done || lia).
  cbn [length]. destruct (Z.leb_spec (b ^ Z.of_nat 1) (nt_max T)) as [_|Hc]; [|simpl in Hc; nia].
  cbn [bind fst].
  assert (H2 : powers_ok T b false (pow_table b 2)).
  { apply (powers_ok_grow b [1]); [lia|done|]. simpl. nia. }
  rewrite (append_helper_data_spec capacity b false) by (done || lia).
  rewrite length_pow_table.
  destruct (Z.leb_spec (b ^ Z.of_nat 2) (nt_max T)) as [_|Hc]; [|simpl in Hc; nia].
  cbn [bind fst].
  assert (H3 : powers_ok T b false (pow_table b 3)).
  { pose proof (powers_ok_grow b (pow_table b 2)) as H. rewrite length_pow_table in H.
    apply H; [lia|done|]. simpl. nia. }
  rewrite (append_helper_data_spec capacity b false) by (done || lia).
  rewrite length_pow_table.
  destruct (Z.leb_spec (b ^ Z.of_nat 3) (nt_max T)) as [_|Hc]; [|simpl in Hc; nia].
  reflexivity.
Qed.

Lemma powers_ok_init b : 2 <= b <= 36 -> powers_ok T b false (pow_table b 4).
Proof using HT.
  intros Hb. pose proof (nt_max_lower T HT) as Hmax.
  change (2 ^ 31 - 1) with 2147483647 in Hmax.
  unfold powers_ok; rewrite length_pow_table. repeat split; [lia| |done].
  change (Z.of_nat 4 - 1) with 3. nia.
Qed.
End PowersFacts.

(** ** Digits of a number and of its remainders *)

Lemma digit_at_mod b x (i k : nat) : 2 <= b -> (i < k)%nat ->
  digit_at b (x mod b ^ Z.of_nat k) i = digit_at b x i.
Proof.
  intros Hb Hik. unfold digit_at.
  assert (Hi : 0 < b ^ Z.of_nat i) by (apply Z.pow_pos_nonneg; lia).
  assert (Hsplit : b ^ Z.of_nat k = b ^ Z.of_nat i * (b * b ^ (Z.of_nat k - Z.of_nat i - 1))).
  { rewrite <- Z.pow_succ_r, <- Z.pow_add_r by lia. f_equal. lia. }
  rewrite Hsplit.
  assert (0 < b * b ^ (Z.of_nat k - Z.of_nat i - 1)).
  { assert (0 < b ^ (Z.of_nat k - Z.of_nat i - 1)) by (apply Z.pow_pos_nonneg; lia). nia. }
  rewrite Z.rem_mul_r by lia.
  rewrite (Z.mul_comm (b ^ Z.of_nat i)), Z.div_add by lia.
  rewrite Z.div_small by (apply Z.mod_pos_bound; lia).
  rewrite Z.add_0_l.
  rewrite Z.rem_mul_r by (try apply Z.pow_nonzero; try apply Z.pow_pos_nonneg; lia).
  rewrite (Z.mul_comm b), Z.mod_add by lia. apply Z.mod_mod. lia.
Qed.

Lemma digits_mod b x (k n : nat) : 2 <= b -> (k <= n)%nat ->
  digits b k (x mod b ^ Z.of_nat n) = digits b k x.
Proof.
  intros Hb. induction k as [|k IH]; intros Hk; [done|].
  cbn [digits]. rewrite digit_at_mod by lia. rewrite IH by lia. done.
Qed.

Lemma digit_at_top b x (k : nat) : 2 <= b -> 0 <= x < b ^ Z.of_nat (S k) ->
  digit_at b x k = x / b ^ Z.of_nat k.
Proof.
  intros Hb Hx. unfold digit_at.
  assert (0 < b ^ Z.of_nat k) by (apply Z.pow_pos_nonneg; lia).
  apply Z.mod_small. split; [apply Z.div_pos; lia|].
  apply Z.div_lt_upper_bound; [lia|].
  rewrite Nat2Z.inj_succ, Z.pow_succ_r in Hx by lia. lia.
Qed.

(** ** lr_printer *)

Lemma put_fits out c n : out_fits out (S n) ->
  put out c = Ok (OutIter (out_room out) (out_written out ++ [c])) /\
  out_fits (OutIter (out_room out) (out_written out ++ [c])) n.
Proof.
  unfold out_fits, put. destruct out as [[room|] w]; cbn [out_room out_written].
  - intros H. destruct (Z.ltb_spec (Z.of_nat (length w)) room); [|lia].
    split; [done|]. rewrite length_app. simpl. lia.
  - done.
Qed.

Section lr_printer_facts.
Variable T : number_type.
Hypothesis HT : valid_number_type T.

Import lr_printer.

Lemma lr_wf_cache_ok p : lr_wf T p -> lr_cache_ok T p.
Proof. intros ([? ?] & _ & ?). split; [unfold MAX_BASE in *; lia|done]. Qed.

Lemma lr_append_spec p :
  lr_cache_ok T p ->
  append_helper_data T p
  = if _base p ^ _powers_length p <=? nt_max T
    then Ok (with_powers p (pow_table (_base p) (S (length (_powers p)))), true)
    else if is_signed T then Err SignedOverflow else Ok (p, false).
Proof using HT.
  intros [Hb Hok]. unfold append_helper_data, _powers_length.
  rewrite (append_helper_data_spec T HT MAX_DIGITS _ _ _ Hb Hok) by done.
  destruct (_ <=? _); cbn [bind fst snd]; [done|].
  destruct (is_signed T); [done|]. by destruct p.
Qed.

Lemma lr_grow_spec fuel : forall p num,
  lr_cache_ok T p -> _reached_max_power p = false -> num <= nt_max T ->
  powers_fit T (_base p) 0 num ->
  (70 < length (_powers p) + fuel)%nat ->
  exists p' r,
    get_max_power_ptr_grow T fuel p num = Ok (p', r) /\
    _base p' = _base p /\ _alphabet p' = _alphabet p /\
    lr_cache_ok T p' /\ (length (_powers p) <= length (_powers p'))%nat /\
    match r with
    | Some ptr =>
        _reached_max_power p' = true /\ ptr = _powers_length p' - 1 /\
        _base p ^ ptr <= num
    | None =>
        _reached_max_power p' = false /\ num < _base p ^ (_powers_length p' - 1)
    end.
Proof using HT.
  induction fuel as [|fuel IH]; intros p num Hc Hr Hnum Hno Hfuel.
  - destruct Hc as [Hb Hok].
    pose proof (powers_ok_length T HT (_base p) _ _ ltac:(lia) Hok). lia.
  - pose proof Hc as [Hb Hok]. pose proof Hok as (Heq & Hlen & Hmax & Hsat).
    pose proof (powers_ok_length T HT (_base p) _ _ ltac:(lia) Hok) as Hlen64.
    cbn [get_max_power_ptr_grow]. unfold _powers_length in *.
    rewrite (powers_ok_read T _ _ _ _ Hok) by lia. cbn [bind].
    destruct (Z.leb_spec (_base p ^ (Z.of_nat (length (_powers p)) - 1)) num) as [Hle|Hgt].
    + rewrite lr_append_spec by done. unfold _powers_length.
      destruct (Z.leb_spec (_base p ^ Z.of_nat (length (_powers p))) (nt_max T)) as [Hfit|Hover];
        [|rewrite (powers_fit_unsigned T (_base p) 0 num (Z.of_nat (length (_powers p))))
            by (done || lia || (replace (Z.of_nat (length (_powers p)) - 1 - Z.of_nat 0)
                                  with (Z.of_nat (length (_powers p)) - 1) by lia; done))];
        cbn [bind fst snd negb].
      * set (p1 := with_powers p (pow_table (_base p) (S (length (_powers p))))).
        assert (Hc1 : lr_cache_ok T p1).
        { split; [done|]. cbn [p1 with_powers _base _reached_max_power _powers].
          rewrite Hr in *. apply powers_ok_grow; (done || lia). }
        destruct (IH p1 num Hc1 Hr Hnum Hno) as (p' & r & Hrun & Hb' & Ha' & Hc' & Hlen' & Hpost).
        { cbn [p1 with_powers _powers]. rewrite length_pow_table. lia. }
        exists p', r. split; [done|]. split; [done|]. split; [done|]. split; [done|].
        split.
        { cbn [p1 with_powers _powers] in Hlen'. rewrite length_pow_table in Hlen'. lia. }
        done.
      * eexists _, _. split; [reflexivity|].
        unfold lr_cache_ok, powers_ok, _powers_length.
        cbn [with_reached_max_power _base _alphabet _powers _reached_max_power].
        split_and!; try done; try lia.
    + exists p, None. split_and!; try done; try lia.
Qed.

Lemma lr_scan_spec fuel : forall p num i,
  lr_cache_ok T p -> 0 <= i <= _powers_length p - 1 ->
  num < _base p ^ (_powers_length p - 1) ->
  (length (_powers p) <= fuel + Z.to_nat i)%nat ->
  (i = 0 \/ _base p ^ (i - 1) <= num) ->
  exists k,
    get_max_power_ptr_scan fuel p num i = Ok k /\
    i <= k <= _powers_length p - 1 /\ num < _base p ^ k /\
    (k = 0 \/ _base p ^ (k - 1) <= num).
Proof using HT.
  induction fuel as [|fuel IH]; intros p num i Hc Hi Hnum Hfuel Hbelow;
    unfold _powers_length in *.
  - lia.
  - destruct Hc as [Hb Hok]. cbn [get_max_power_ptr_scan].
    rewrite (powers_ok_read T _ _ _ _ Hok) by lia. cbn [bind].
    destruct (Z.leb_spec (_base p ^ i) num) as [Hle|Hgt].
    + assert (i <> Z.of_nat (length (_powers p)) - 1) by (intros ->; lia).
      destruct (IH p num (i + 1)) as (k & Hrun & Hk & Hpost); unfold _powers_length.
      * done.
      * lia.
      * done.
      * lia.
      * right. by replace (i + 1 - 1) with i by lia.
      * exists k. split; [done|]. split; [lia|done].
    + exists i. split_and!; (done || lia).
Qed.

(** What [get_max_power_ptr] returns, and what it leaves in the printer. *)
Lemma lr_get_max_power_ptr_spec p num :
  lr_cache_ok T p -> 1 <= num <= nt_max T ->
  (_reached_max_power p = false -> powers_fit T (_base p) 0 num) ->
  exists p' ptr,
    get_max_power_ptr T p num = Ok (p', ptr) /\
    _base p' = _base p /\ _alphabet p' = _alphabet p /\
    lr_cache_ok T p' /\ (length (_powers p) <= length (_powers p'))%nat /\
    (_reached_max_power p = true -> p' = p) /\
    0 <= ptr < _powers_length p' /\
    _base p ^ ptr <= num < _base p ^ (ptr + 1) /\
    (ptr + 1 < _powers_length p' \/
     (_reached_max_power p' = true /\ ptr = _powers_length p' - 1)).
Proof using HT.
  intros Hc Hnum Hno. unfold get_max_power_ptr.
  assert (Hscan : forall p', lr_cache_ok T p' -> _base p' = _base p ->
            num < _base p ^ (_powers_length p' - 1) ->
            exists k, get_max_power_ptr_scan (S (length (_powers p'))) p' num 0 = Ok k /\
              1 <= k <= _powers_length p' - 1 /\
              _base p ^ (k - 1) <= num < _base p ^ k).
  { intros p' Hc' Hb' Hlt. pose proof Hc' as [Hb2 (_ & Hlen & _)].
    destruct (lr_scan_spec (S (length (_powers p'))) p' num 0 Hc')
      as (k & Hrun & Hk & Hub & Hlb).
    { unfold _powers_length. lia. }
    { by rewrite Hb'. }
    { lia. }
    { by left. }
    rewrite Hb' in *. exists k. split; [done|].
    assert (k <> 0) by (intros ->; simpl in Hub; lia).
    destruct Hlb as [->|Hlb]; [done|]. lia. }
  assert (Hsat : forall p', lr_cache_ok T p' -> _base p' = _base p ->
            _reached_max_power p' = true -> num < _base p ^ _powers_length p').
  { intros p' [_ (_ & _ & _ & Hs)] Hb' Hr'. rewrite <- Hb'. unfold _powers_length.
    specialize (Hs Hr'). lia. }
  destruct (_reached_max_power p) eqn:Hr.
  - pose proof Hc as [Hb Hok]. pose proof Hok as (_ & Hlen & _).
    unfold _powers_length in *.
    rewrite (powers_ok_read T _ _ _ _ Hok) by lia. cbn [bind].
    destruct (Z.leb_spec (_base p ^ (Z.of_nat (length (_powers p)) - 1)) num) as [Hle|Hgt];
      cbn [bind fst snd].
    + exists p, (Z.of_nat (length (_powers p)) - 1).
      specialize (Hsat p Hc eq_refl Hr). unfold _powers_length in Hsat.
      replace (Z.of_nat (length (_powers p)) - 1 + 1) with (Z.of_nat (length (_powers p))) by lia.
      split_and!; try done; try lia. right. done.
    + destruct (Hscan p Hc eq_refl) as (k & Hrun & Hk & Hkb); [done|].
      unfold _powers_length in *. rewrite Hrun. cbn [bind].
      exists p, (k - 1). replace (k - 1 + 1) with k by lia.
      split_and!; try done; try lia.
  - destruct (lr_grow_spec (S (Z.to_nat MAX_DIGITS)) p num Hc Hr ltac:(lia) (Hno eq_refl))
      as (p' & r & Hrun & Hb' & Ha' & Hc' & Hlen' & Hpost).
    { unfold MAX_DIGITS. lia. }
    rewrite Hrun. cbn [bind fst snd]. destruct r as [ptr|].
    + destruct Hpost as (Hr' & -> & Hle). exists p', (_powers_length p' - 1).
      pose proof Hc' as [_ (_ & Hl & _)]. specialize (Hsat p' Hc' Hb' Hr').
      replace (_powers_length p' - 1 + 1) with (_powers_length p') by lia.
      unfold _powers_length in *.
      split_and!; try done; try lia. right. done.
    + destruct Hpost as (Hr' & Hlt).
      destruct (Hscan p' Hc' Hb' Hlt) as (k & Hrun' & Hk & Hkb).
      rewrite Hrun'. cbn [bind]. exists p', (k - 1).
      replace (k - 1 + 1) with k by lia.
      split_and!; try done; try lia.
Qed.
End lr_printer_facts.

(** ** Alphabets *)

Lemma no_nul_lookup l (i : nat) c : no_nul l -> l !! i = Some c -> c <> NUL.
Proof.
  revert i. induction l as [|c' l IH]; intros i Hl Hi; [done|].
  apply no_nul_cons in Hl as [Hc Hl]. destruct i as [|i].
  - by injection Hi as <-.
  - by apply (IH i).
Qed.

Lemma no_nul_take l n : no_nul l -> no_nul (take n l).
Proof.
  intros Hl. rewrite <- (take_drop n l) in Hl. by apply no_nul_app in Hl as [? _].
Qed.

Lemma no_nul_default_alphabet : no_nul default_alphabet.
Proof. reflexivity. Qed.

Lemma is_default_alphabet_ok base alphabet :
  is_default_alphabet base alphabet -> alphabet_ok base alphabet.
Proof.
  unfold is_default_alphabet, alphabet_ok. intros ->.
  apply no_nul_take, no_nul_default_alphabet.
Qed.

Lemma char_of_not_nul base alphabet d :
  alphabet_ok base alphabet -> base <= Z.of_nat (length alphabet) ->
  0 <= d < base -> char_of alphabet d <> NUL.
Proof.
  intros Hok Hlen Hd. unfold char_of.
  destruct (lookup_lt_is_Some_2 alphabet (Z.to_nat d)) as [c Hc]; [lia|].
  rewrite Hc. cbn [default from_option id]. apply (no_nul_lookup _ (Z.to_nat d) _ Hok).
  rewrite lookup_take_lt by lia. done.
Qed.

Lemma no_nul_encode base alphabet k x :
  2 <= base -> alphabet_ok base alphabet -> base <= Z.of_nat (length alphabet) ->
  no_nul (encode alphabet base k x).
Proof.
  intros Hb Hok Hlen. unfold encode. induction k as [|k IH]; [done|].
  cbn [digits map]. apply no_nul_cons. split; [|done].
  apply (char_of_not_nul base); [done..|]. by apply digit_at_range.
Qed.

Lemma char_of_take base alphabet d :
  0 <= d < base -> char_of (take (Z.to_nat base) alphabet) d = char_of alphabet d.
Proof. intros Hd. unfold char_of. rewrite lookup_take_lt by lia. done. Qed.

(** The text depends on the first [base] characters of the alphabet only. *)
Lemma encode_same_alphabet base a1 a2 k x :
  2 <= base -> same_alphabet base a1 a2 -> encode a1 base k x = encode a2 base k x.
Proof.
  intros Hb Hsame. unfold encode. apply map_ext_in. intros d Hd.
  assert (0 <= d < base) as Hrange.
  { clear -Hd Hb. induction k as [|k IH]; [done|].
    destruct Hd as [<-|Hd]; [by apply digit_at_range|auto]. }
  rewrite <- (char_of_take base a1), <- (char_of_take base a2) by done.
  unfold same_alphabet in Hsame. by rewrite Hsame.
Qed.

(** *** [setup_default_alphabet] *)

Lemma attach_spec chars : forall base pre mid post,
  length mid = Nat.min (length chars) (Z.to_nat (base - Z.of_nat (length pre))) ->
  shared.attach chars base (pre ++ mid ++ post) (Z.of_nat (length pre))
  = Ok (pre ++ take (length mid) chars ++ post,
        Z.of_nat (length pre) + Z.of_nat (length mid)).
Proof.
  induction chars as [|ch chars IH]; intros base pre mid post Hmid.
  - destruct mid; [|done]. cbn [shared.attach length take]. f_equal. f_equal. lia.
  - cbn [shared.attach].
    destruct (Z.ltb_spec (Z.of_nat (length pre)) base) as [Hlt|Hge].
    + destruct mid as [|m mid]; [cbn [length] in Hmid; lia|].
      rewrite array_write_Ok by (rewrite !length_app; cbn [length]; lia).
      cbn [bind]. rewrite Nat2Z.id.
      replace (length pre) with (length pre + 0)%nat at 1 by lia.
      rewrite insert_app_r. cbn [app].
      change (<[0%nat:=ch]> (m :: mid ++ post)) with (ch :: mid ++ post).
      specialize (IH base (pre ++ [ch]) mid post).
      rewrite length_app in IH. cbn [length] in IH.
      replace (Z.of_nat (length pre) + 1) with (Z.of_nat (length pre + 1)) by lia.
      rewrite <- app_assoc in IH. cbn [app] in IH. rewrite IH.
      * cbn [length take]. rewrite <- app_assoc. cbn [app]. f_equal. f_equal. lia.
      * cbn [length] in Hmid. lia.
    + destruct mid; [|cbn [length] in Hmid; lia].
      cbn [length take app]. f_equal. f_equal. lia.
Qed.

Lemma default_alphabet_ranges :
  default_alphabet = shared.char_range "0" "9" ++ shared.char_range "a" "z".
Proof. reflexivity. Qed.

Lemma attach_digits_and_letters_spec base alphabet :
  0 <= base <= 36 -> base <= Z.of_nat (length alphabet) ->
  shared.attach_digits_and_letters base alphabet
  = Ok (take (Z.to_nat base) default_alphabet ++ drop (Z.to_nat base) alphabet, base).
Proof.
  intros Hb Hlen. unfold shared.attach_digits_and_letters.
  set (n1 := Nat.min 10 (Z.to_nat base)).
  set (n2 := (Z.to_nat base - n1)%nat).
  pose proof (attach_spec (shared.char_range "0" "9") base []
                (take n1 alphabet) (drop n1 alphabet)) as H1.
  rewrite length_take in H1. cbn [app length] in H1. rewrite take_drop in H1.
  change (Z.of_nat 0) with 0 in H1.
  rewrite H1 by (change (length (shared.char_range "0" "9")) with 10%nat; lia).
  cbn [bind fst snd].
  pose proof (attach_spec (shared.char_range "a" "z") base
                (take n1 (shared.char_range "0" "9"))
                (take n2 (drop n1 alphabet)) (drop n2 (drop n1 alphabet))) as H2.
  rewrite !length_take, length_drop in H2. rewrite take_drop in H2.
  change (length (shared.char_range "0" "9")) with 10%nat in *.
  change (length (shared.char_range "a" "z")) with 26%nat in *.
  replace (0 + Z.of_nat (Nat.min n1 (length alphabet)))
    with (Z.of_nat (Nat.min n1 10)) by lia.
  replace (Nat.min n1 (length alphabet)) with n1 by lia.
  rewrite H2 by lia.
  f_equal. f_equal; [|lia].
  rewrite default_alphabet_ranges, take_app, drop_drop, app_assoc.
  change (length (shared.char_range "0" "9")) with 10%nat.
  f_equal; [|f_equal; lia].
  f_equal.
  - unfold n1. destruct (le_lt_dec (Z.to_nat base) 10).
    + by rewrite Nat.min_r.
    + rewrite Nat.min_l by lia.
      rewrite !take_ge; [done|change (length (shared.char_range "0" "9")) with 10%nat; lia..].
  - f_equal. lia.
Qed.

Lemma take_default_app base rest :
  0 <= base <= 36 ->
  is_default_alphabet base (take (Z.to_nat base) default_alphabet ++ rest).
Proof.
  intros Hb. unfold is_default_alphabet.
  rewrite take_app_le; [by rewrite take_take, Nat.min_id|].
  rewrite length_take. change (length default_alphabet) with 36%nat. lia.
Qed.

Lemma length_take_default_app base (alphabet : list ascii) :
  0 <= base <= 36 -> base <= Z.of_nat (length alphabet) ->
  length (take (Z.to_nat base) default_alphabet ++ drop (Z.to_nat base) alphabet)
  = length alphabet.
Proof.
  intros Hb Hlen. rewrite length_app, length_take, length_drop.
  change (length default_alphabet) with 36%nat. lia.
Qed.

Lemma length_uninitialised {A} n (g : nat -> A) : length (uninitialised n g) = n.
Proof. unfold uninitialised. by rewrite length_map, length_seq. Qed.

Lemma encode_zero alphabet base : 2 <= base ->
  encode alphabet base 1 0 = [char_of alphabet 0].
Proof.
  intros Hb. unfold encode, digits, digit_at. cbn [map Z.of_nat].
  rewrite Z.div_0_l by lia. rewrite Z.mod_0_l by lia. done.
Qed.

Lemma is_digit_count_zero base : 2 <= base -> is_digit_count base 0 1.
Proof.
  intros Hb. split_and!; [lia| |by left].
  change (Z.of_nat 1) with 1. rewrite Z.pow_1_r. lia.
Qed.

Lemma out_fits_le out n m : (m <= n)%nat -> out_fits out n -> out_fits out m.
Proof. unfold out_fits. destruct (out_room out); [lia|done]. Qed.

Section lr_printer_print.
Variable T : number_type.
Hypothesis HT : valid_number_type T.

Import lr_printer.

(** The loop of [print_to_out_iter] emits the [k] digits of what is left
    of the number, and leaves nothing of it. *)
Lemma lr_loop_spec (k : nat) : forall fuel p num out,
  lr_cache_ok T p -> _base p <= Z.of_nat (length (_alphabet p)) ->
  (k <= length (_powers p))%nat -> (k < fuel)%nat ->
  0 <= num < _base p ^ Z.of_nat k -> num <= nt_max T ->
  out_fits out k ->
  print_to_out_iter_loop T fuel p num (Z.of_nat k - 1) out
  = Ok (0, OutIter (out_room out)
             (out_written out ++ encode (_alphabet p) (_base p) k num)).
Proof using HT.
  induction k as [|k IH]; intros fuel p num out Hc Ha Hk Hfuel Hnum Hmax Hfits;
    (destruct fuel as [|fuel]; [lia|]); cbn [print_to_out_iter_loop].
  - cbn [Z.of_nat]. cbn. replace num with 0 by (simpl in Hnum; lia).
    rewrite app_nil_r. by destruct out.
  - pose proof Hc as [Hb Hok].
    destruct (Z.geb_spec (Z.of_nat (S k) - 1) 0) as [_|]; [|lia].
    replace (Z.of_nat (S k) - 1) with (Z.of_nat k) by lia.
    rewrite (powers_ok_read T _ _ _ _ Hok) by lia. cbn [bind].
    assert (Hpw : 0 < _base p ^ Z.of_nat k) by (apply Z.pow_pos_nonneg; lia).
    rewrite (nt_div_nonneg T HT) by lia. cbn [bind].
    pose proof (digit_at_top (_base p) num k ltac:(lia) Hnum) as Hdig.
    pose proof (digit_at_range (_base p) num k ltac:(lia)) as Hdr.
    rewrite <- Hdig. set (d := digit_at (_base p) num k) in *.
    rewrite to_short_small by lia.
    destruct (Z.leb_spec 0 d); [|lia]. destruct (Z.ltb_spec d (_base p)); [|lia].
    cbn [assert bind].
    rewrite array_read_char_of by lia. cbn [bind].
    destruct (put_fits out (char_of (_alphabet p) d) k Hfits) as [-> Hfits'].
    cbn [bind].
    assert (Hdm : d * _base p ^ Z.of_nat k <= num).
    { rewrite Hdig, Z.mul_comm. apply Z.mul_div_le. lia. }
    rewrite (of_short_small T HT) by lia.
    rewrite (nt_mul_nonneg T HT) by nia. cbn [bind].
    rewrite (nt_sub_nonneg T HT) by lia. cbn [bind].
    replace (num - d * _base p ^ Z.of_nat k) with (num mod _base p ^ Z.of_nat k)
      by (rewrite Hdig, Z.mod_eq by lia; lia).
    pose proof (Z.mod_pos_bound num (_base p ^ Z.of_nat k) Hpw) as Hmod.
    assert (num mod _base p ^ Z.of_nat k <= num) by (apply Z.mod_le; lia).
    rewrite IH; [|done|done|lia|lia|done|lia|done].
    cbn [out_room out_written]. f_equal. f_equal. f_equal.
    rewrite <- app_assoc. f_equal. unfold encode. cbn [digits map app].
    fold d. by rewrite digits_mod by lia.
Qed.

Lemma lr_wf_config p p' :
  lr_wf T p -> lr_cache_ok T p' -> _base p' = _base p -> _alphabet p' = _alphabet p ->
  lr_wf T p'.
Proof.
  intros (Hb & Ha & _) [_ Hok] Hb' Ha'. unfold lr_wf.
  split_and!; [lia|lia|by rewrite Ha'|done].
Qed.

Lemma lr_print_to_out_iter_spec p x out :
  lr_wf T p -> 0 <= x <= nt_max T ->
  (_reached_max_power p = false -> powers_fit T (_base p) 0 x) ->
  out_fits out 64 ->
  exists p' k,
    print_to_out_iter T p x out
    = Ok (p', OutIter (out_room out)
                (out_written out ++ encode (_alphabet p) (_base p) k x)) /\
    is_digit_count (_base p) x k /\ (k <= 64)%nat /\
    lr_wf T p' /\ _base p' = _base p /\ _alphabet p' = _alphabet p /\
    (length (_powers p) <= length (_powers p'))%nat /\
    (_reached_max_power p = true -> p' = p) /\
    (x = 0 -> p' = p) /\
    (k <= length (_powers p'))%nat.
Proof using HT.
  intros Hwf Hx Hno Hfits. pose proof Hwf as (Hb & Ha & Hok).
  pose proof (lr_wf_cache_ok T p Hwf) as Hc. unfold MAX_BASE in *.
  unfold print_to_out_iter. destruct (Z.eqb_spec x 0) as [->|Hx0].
  - rewrite array_read_char_of by lia. cbn [bind].
    destruct (put_fits out (char_of (_alphabet p) 0) 63 Hfits) as [-> _]. cbn [bind].
    exists p, 1%nat. rewrite encode_zero by lia.
    pose proof (is_digit_count_zero (_base p) ltac:(lia)).
    destruct Hok as (_ & Hlen & _).
    split_and!; try done; try lia.
  - destruct (lr_get_max_power_ptr_spec T HT p x Hc ltac:(lia) Hno)
      as (p' & ptr & Hrun & Hb' & Ha' & Hc' & Hlen' & Hsame & Hptr & Hbounds & _).
    rewrite Hrun. cbn [bind fst snd].
    pose proof Hc' as [_ Hok'].
    pose proof (powers_ok_length T HT (_base p') _ _ ltac:(lia) Hok') as Hlen64.
    unfold _powers_length in *.
    pose proof (lr_loop_spec (Z.to_nat (ptr + 1)) (S (length (_powers p'))) p' x out Hc')
      as Hloop.
    replace (Z.of_nat (Z.to_nat (ptr + 1)) - 1) with ptr in Hloop by lia.
    rewrite Hloop; [|rewrite Ha'; lia|lia|lia| | lia |].
    + cbn [bind fst snd assert]. rewrite Hb', Ha'.
      exists p', (Z.to_nat (ptr + 1)). split; [done|].
      split.
      { split_and!; [lia| |right].
        - replace (Z.of_nat (Z.to_nat (ptr + 1))) with (ptr + 1) by lia. lia.
        - replace (Z.of_nat (Z.to_nat (ptr + 1)) - 1) with ptr by lia. lia. }
      pose proof (lr_wf_config p p' Hwf Hc' Hb' Ha').
      split_and!; try done; try lia.
    + rewrite Hb'. replace (Z.of_nat (Z.to_nat (ptr + 1))) with (ptr + 1) by lia. lia.
    + apply (out_fits_le out 64); [lia|done].
Qed.

(** The digits and the count that [print] hands back. *)
Lemma lr_print_spec p x :
  lr_wf T p -> 0 <= x <= nt_max T ->
  (_reached_max_power p = false -> powers_fit T (_base p) 0 x) ->
  exists p' k text,
    print T p x = Ok (p', (Z.of_nat k, text)) /\
    is_digit_count (_base p) x k /\ (k <= 64)%nat /\
    lr_wf T p' /\ _base p' = _base p /\ _alphabet p' = _alphabet p /\
    (length (_powers p) <= length (_powers p'))%nat /\
    (_reached_max_power p = true -> p' = p) /\
    (x = 0 -> p' = p) /\
    (k <= length (_powers p'))%nat /\
    c_str Buffer (encode (_alphabet p) (_base p) k x ++ [NUL]) = Ok text /\
    (alphabet_ok (_base p) (_alphabet p) ->
     text = encode (_alphabet p) (_base p) k x).
Proof using HT.
  intros Hwf Hx Hno. pose proof Hwf as (Hb & Ha & Hok). unfold MAX_BASE in *.
  destruct (lr_print_to_out_iter_spec p x (OutIter None []) Hwf Hx Hno I)
    as (p' & k & Hrun & Hk & Hk64 & Hrest).
  unfold print. rewrite Hrun. cbn [bind fst snd out_room out_written put app].
  destruct (c_str_total Buffer (encode (_alphabet p) (_base p) k x) []) as [text Htext].
  rewrite Htext. cbn [bind]. rewrite length_encode.
  rewrite wrap_int_small by lia.
  exists p', k, text. split; [done|].
  destruct Hrest as (? & ? & ? & ? & ? & ? & ?).
  split_and!; try done.
  intros Hal. rewrite c_str_terminated in Htext; [by injection Htext|].
  apply no_nul_encode; (done || lia).
Qed.

(** [print] to a stream or a file goes through [_buffer], which is large
    enough for the digits and the terminator. *)
Lemma lr_print_ostream_spec p x :
  lr_wf T p -> 0 <= x <= nt_max T ->
  (_reached_max_power p = false -> powers_fit T (_base p) 0 x) ->
  exists p' k,
    print_ostream T p x = Ok (p', encode (_alphabet p) (_base p) k x) /\
    is_digit_count (_base p) x k.
Proof using HT.
  intros Hwf Hx Hno.
  destruct (lr_print_to_out_iter_spec p x (OutIter (Some MAX_DIGITS) []) Hwf Hx Hno)
    as (p' & k & Hrun & Hk & _).
  { unfold out_fits, MAX_DIGITS. simpl. lia. }
  unfold print_ostream. rewrite Hrun. cbn [bind fst snd out_written app].
  by exists p', k.
Qed.

Lemma lr_print_file_spec p x :
  lr_wf T p -> 0 <= x <= nt_max T ->
  (_reached_max_power p = false -> powers_fit T (_base p) 0 x) ->
  exists p' k text,
    print_file T p x = Ok (p', (Z.of_nat k, text)) /\
    is_digit_count (_base p) x k /\
    (alphabet_ok (_base p) (_alphabet p) ->
     text = encode (_alphabet p) (_base p) k x).
Proof using HT.
  intros Hwf Hx Hno. pose proof Hwf as (Hb & Ha & Hok). unfold MAX_BASE in *.
  destruct (lr_print_to_out_iter_spec p x (OutIter (Some MAX_DIGITS) []) Hwf Hx Hno)
    as (p' & k & Hrun & Hk & Hk64 & _).
  { unfold out_fits, MAX_DIGITS. simpl. lia. }
  unfold print_file. rewrite Hrun. cbn [bind fst snd out_room out_written app].
  unfold put. cbn [out_room out_written]. rewrite length_encode.
  destruct (Z.ltb_spec (Z.of_nat k) MAX_DIGITS) as [_|]; [|unfold MAX_DIGITS in *; lia].
  cbn [bind out_written].
  destruct (c_str_total Buffer (encode (_alphabet p) (_base p) k x) []) as [text Htext].
  rewrite Htext. cbn [bind].
  rewrite wrap_int_small by lia.
  exists p', k, text. split_and!; try done.
  intros Hal. rewrite c_str_terminated in Htext; [by injection Htext|].
  apply no_nul_encode; (done || lia).
Qed.

(** *** Configuration *)

Lemma lr_set_base_spec p base_ :
  2 <= base_ <= MAX_BASE -> length (_alphabet p) = Z.to_nat MAX_BASE ->
  set_base T p base_ = Ok (Make base_ (_alphabet p) false (pow_table base_ 4)) /\
  lr_wf T (Make base_ (_alphabet p) false (pow_table base_ 4)).
Proof using HT.
  intros Hb Ha. unfold MAX_BASE in *. unfold set_base, init_helper_data.
  cbn [_base _alphabet].
  rewrite (init_helper_data_spec T HT) by (done || unfold MAX_DIGITS; lia).
  split; [done|]. unfold lr_wf, MAX_BASE.
  cbn [_base _alphabet _reached_max_power _powers].
  split_and!; try done; try lia. apply powers_ok_init; (done || lia).
Qed.

Lemma lr_setup_default_alphabet_spec p :
  lr_wf T p ->
  exists a,
    setup_default_alphabet p = Ok (with_alphabet p a) /\
    lr_wf T (with_alphabet p a) /\
    is_default_alphabet (_base p) a /\
    drop (Z.to_nat (_base p)) a = drop (Z.to_nat (_base p)) (_alphabet p).
Proof.
  intros (Hb & Ha & Hok). unfold MAX_BASE in *. unfold setup_default_alphabet.
  destruct (Z.leb_spec (_base p) (10 + 26)) as [_|]; [|lia]. cbn [assert bind].
  rewrite attach_digits_and_letters_spec by lia. cbn [bind fst].
  eexists. split; [done|]. unfold lr_wf, MAX_BASE.
  cbn [with_alphabet _base _alphabet _reached_max_power _powers].
  rewrite length_take_default_app by lia.
  split_and!; try done; try lia.
  - apply take_default_app. lia.
  - rewrite drop_app_length'; [done|].
    rewrite length_take. change (length default_alphabet) with 36%nat. lia.
Qed.

Lemma lr_construct_spec g base_ :
  2 <= base_ <= MAX_BASE ->
  exists p,
    construct T g base_ = Ok p /\ lr_wf T p /\ _base p = base_ /\
    is_default_alphabet base_ (_alphabet p) /\
    _powers p = pow_table base_ 4 /\ _reached_max_power p = false.
Proof using HT.
  intros Hb. unfold construct.
  destruct (lr_set_base_spec (fresh g) base_ Hb) as [-> Hwf].
  { unfold fresh. cbn [_alphabet]. by rewrite length_uninitialised. }
  cbn [bind].
  destruct (lr_setup_default_alphabet_spec _ Hwf) as (a & -> & Hwf' & Hdef & _).
  eexists. split; [done|]. by split_and!.
Qed.
End lr_printer_print.

(** ** Digits, from the low end *)

Lemma digit_at_div b x (i : nat) : 2 <= b -> 0 <= x ->
  digit_at b (x / b) i = digit_at b x (S i).
Proof.
  intros Hb Hx. unfold digit_at.
  assert (0 < b ^ Z.of_nat i) by (apply Z.pow_pos_nonneg; lia).
  rewrite Z.div_div by lia.
  rewrite Nat2Z.inj_succ, Z.pow_succ_r by lia. done.
Qed.

Lemma digit_at_0 b x : digit_at b x 0 = x mod b.
Proof. unfold digit_at. cbn [Z.of_nat]. by rewrite Z.pow_0_r, Z.div_1_r. Qed.

Lemma digits_div b (k : nat) x : 2 <= b -> 0 <= x ->
  digits b (S k) x = digits b k (x / b) ++ [x mod b].
Proof.
  intros Hb Hx. induction k as [|k IH].
  - cbn [digits app]. by rewrite digit_at_0.
  - change (digits b (S (S k)) x) with (digit_at b x (S k) :: digits b (S k) x).
    rewrite IH. cbn [digits app]. by rewrite digit_at_div.
Qed.

Lemma encode_div alphabet b (k : nat) x : 2 <= b -> 0 <= x ->
  encode alphabet b (S k) x
  = encode alphabet b k (x / b) ++ [char_of alphabet (x mod b)].
Proof. intros. unfold encode. by rewrite digits_div, map_app. Qed.

(** Every number of a valid type has a digit count, of at most 64. *)
Lemma digit_count_below b (n : nat) : 2 <= b -> forall x,
  0 <= x < b ^ Z.of_nat n ->
  exists k, is_digit_count b x k /\ (k <= Nat.max 1 n)%nat.
Proof.
  intros Hb. induction n as [|n IH]; intros x Hx.
  - exists 1%nat. simpl in Hx. replace x with 0 by lia.
    split; [by apply is_digit_count_zero|lia].
  - destruct (Z_lt_le_dec x (b ^ Z.of_nat n)) as [Hlt|Hge].
    + destruct (IH x ltac:(lia)) as (k & Hk & Hle). exists k. split; [done|lia].
    + exists (S n). split; [|lia]. split_and!; [lia|lia|].
      right. by replace (Z.of_nat (S n) - 1) with (Z.of_nat n) by lia.
Qed.

Lemma digit_count_exists T b x :
  valid_number_type T -> 2 <= b -> 0 <= x <= nt_max T ->
  exists k, is_digit_count b x k /\ (k <= 64)%nat.
Proof.
  intros HT Hb Hx. pose proof (nt_max_upper T HT).
  destruct (digit_count_below b 64 Hb x) as (k & Hk & Hle).
  - assert (2 ^ Z.of_nat 64 <= b ^ Z.of_nat 64) by (apply Z.pow_le_mono_l; lia).
    change (2 ^ Z.of_nat 64) with (2 ^ 64) in *. lia.
  - exists k. split; [done|lia].
Qed.

Lemma list_snoc_inv {A} (l : list A) n :
  length l = S n -> exists l' x, l = l' ++ [x] /\ length l' = n.
Proof.
  destruct l as [|y l] using rev_ind; [done|].
  rewrite length_app. cbn [length]. intros. exists l, y. split; [done|lia].
Qed.

(** [*--ptr = c] in front of [suffix]. *)
Lemma put_before_spec pre m suffix c :
  put_before (pre ++ m :: suffix) (Z.of_nat (length pre) + 1) c
  = Ok (pre ++ c :: suffix, Z.of_nat (length pre)).
Proof.
  unfold put_before. replace (Z.of_nat (length pre) + 1 - 1) with (Z.of_nat (length pre)) by lia.
  rewrite array_write_Ok by (rewrite length_app; cbn [length]; lia).
  cbn [bind]. rewrite Nat2Z.id.
  replace (length pre) with (length pre + 0)%nat at 1 by lia.
  rewrite insert_app_r. done.
Qed.

(** The scratch buffer: everything before its last cell, and the NUL. *)
Lemma buffer_ok_split capacity buffer :
  1 <= capacity -> buffer_ok capacity buffer ->
  exists pre, buffer = pre ++ [NUL] /\ Z.of_nat (length pre) = capacity - 1.
Proof.
  intros Hcap [Hlen Hlast].
  destruct (list_snoc_inv buffer (Z.to_nat (capacity - 1)) ltac:(lia)) as (pre & x & -> & Hpre).
  exists pre. rewrite lookup_app_r in Hlast by lia.
  replace (Z.to_nat (capacity - 1) - length pre)%nat with 0%nat in Hlast by lia.
  injection Hlast as ->. split; [done|lia].
Qed.

Lemma buffer_ok_intro capacity pre :
  Z.of_nat (length pre) = capacity - 1 -> buffer_ok capacity (pre ++ [NUL]).
Proof.
  intros Hlen. split.
  - rewrite length_app. cbn [length]. lia.
  - rewrite lookup_app_r by lia.
    by replace (Z.to_nat (capacity - 1) - length pre)%nat with 0%nat by lia.
Qed.

(** ** modulo_printer *)

Section modulo_printer_facts.
Variable T : number_type.
Hypothesis HT : valid_number_type T.

Import modulo_printer.

Lemma mod_loop_spec (k : nat) : forall fuel p pre mid suffix x,
  2 <= _base p <= 32767 -> _base p <= Z.of_nat (length (_alphabet p)) ->
  length mid = k -> (k <= fuel)%nat ->
  1 <= x <= nt_max T -> is_digit_count (_base p) x k ->
  print_to_buffer_loop T fuel p (pre ++ mid ++ suffix)
    (Z.of_nat (length pre) + Z.of_nat k) x
  = Ok (pre ++ encode (_alphabet p) (_base p) k x ++ suffix, Z.of_nat (length pre)).
Proof using HT.
  induction k as [|k IH]; intros fuel p pre mid suffix x Hb Ha Hmid Hfuel Hx (Hk1 & Hub & Hlb);
    [lia|].
  destruct fuel as [|fuel]; [lia|]. cbn [print_to_buffer_loop].
  rewrite (of_short_small T HT) by lia.
  rewrite (nt_rem_nonneg T HT) by lia. cbn [bind].
  pose proof (Z.mod_pos_bound x (_base p) ltac:(lia)) as Hd.
  rewrite array_read_char_of by lia. cbn [bind].
  destruct (list_snoc_inv mid k Hmid) as (mid' & m & -> & Hmid').
  replace (pre ++ (mid' ++ [m]) ++ suffix) with ((pre ++ mid') ++ m :: suffix)
    by (by rewrite <- !app_assoc).
  replace (Z.of_nat (length pre) + Z.of_nat (S k))
    with (Z.of_nat (length (pre ++ mid')) + 1) by (rewrite length_app; lia).
  rewrite put_before_spec. cbn [bind fst snd].
  rewrite (nt_div_nonneg T HT) by lia. cbn [bind].
  rewrite encode_div by lia.
  destruct k as [|k].
  - (* a single digit is left *)
    assert (x / _base p = 0) as ->.
    { apply Z.div_small. change (Z.of_nat 1) with 1 in Hub. rewrite Z.pow_1_r in Hub. lia. }
    cbn [Z.eqb negb]. destruct mid'; [|done]. rewrite app_nil_r. done.
  - destruct Hlb as [|Hlb]; [lia|].
    assert (Hpow : 0 < _base p ^ Z.of_nat k) by (apply Z.pow_pos_nonneg; lia).
    replace (Z.of_nat (S (S k)) - 1) with (Z.succ (Z.of_nat k)) in Hlb by lia.
    rewrite Z.pow_succ_r in Hlb by lia.
    replace (Z.of_nat (S (S k))) with (Z.succ (Z.succ (Z.of_nat k))) in Hub by lia.
    rewrite !Z.pow_succ_r in Hub by lia.
    assert (Hq : _base p ^ Z.of_nat k <= x / _base p).
    { apply Z.div_le_lower_bound; lia. }
    assert (Hq' : x / _base p < _base p ^ Z.of_nat (S k)).
    { apply Z.div_lt_upper_bound; [lia|].
      rewrite Nat2Z.inj_succ, Z.pow_succ_r by lia. lia. }
    assert (x / _base p <= x) by (apply Z.div_le_upper_bound; nia).
    destruct (Z.eqb_spec (x / _base p) 0) as [|_]; [lia|]. cbn [negb].
    rewrite length_app. rewrite <- app_assoc.
    replace (Z.of_nat (length pre + length mid')) with (Z.of_nat (length pre) + Z.of_nat (S k)) by lia.
    rewrite IH; [|done|done|done|lia|lia|].
    + rewrite <- app_assoc. done.
    + split_and!; [lia|done|]. right.
      by replace (Z.of_nat (S k) - 1) with (Z.of_nat k) by lia.
Qed.

Lemma mod_print_to_buffer_spec p x :
  mod_wf p -> 0 <= x <= nt_max T ->
  exists k pre,
    print_to_buffer T p x
    = Ok (with_buffer p (pre ++ encode (_alphabet p) (_base p) k x ++ [NUL]),
          DIGITS_MAX - 1 - Z.of_nat k) /\
    is_digit_count (_base p) x k /\ (k <= 64)%nat /\
    Z.of_nat (length pre) = DIGITS_MAX - 1 - Z.of_nat k.
Proof using HT.
  intros (Hb & Ha & Hbuf) Hx. unfold BASE_MAX in *.
  destruct (buffer_ok_split DIGITS_MAX _ ltac:(unfold DIGITS_MAX; lia) Hbuf)
    as (full & Hfull & Hlen).
  destruct (digit_count_exists T (_base p) x HT ltac:(lia) Hx) as (k & Hk & Hk64).
  pose proof Hk as (Hk1 & _).
  assert (exists pre mid, full = pre ++ mid /\ length mid = k /\
            Z.of_nat (length pre) = DIGITS_MAX - 1 - Z.of_nat k)
    as (pre & mid & -> & Hmid & Hpre).
  { exists (take (length full - k) full), (drop (length full - k) full).
    rewrite take_drop, length_take, length_drop. unfold DIGITS_MAX in *.
    split_and!; [done|lia|lia]. }
  exists k, pre. unfold print_to_buffer. rewrite Hfull.
  replace (DIGITS_MAX - 1) with (Z.of_nat (length pre) + Z.of_nat k) by lia.
  destruct (Z.eqb_spec x 0) as [->|Hx0].
  - assert (k = 1%nat) as -> by (eapply is_digit_count_unique;
      [|exact Hk|apply is_digit_count_zero]; lia).
    rewrite array_read_char_of by lia. cbn [bind].
    destruct mid as [|m [|? ?]]; try done.
    rewrite <- app_assoc. cbn [app]. change (Z.of_nat 1) with 1.
    rewrite put_before_spec. cbn [bind fst snd].
    rewrite encode_zero by lia.
    split_and!; try done; try lia. do 2 f_equal. lia.
  - rewrite <- app_assoc.
    rewrite mod_loop_spec; [|lia|lia|done|unfold DIGITS_MAX in *; lia|lia|done].
    cbn [bind fst snd]. split_and!; try done; try lia. do 2 f_equal. lia.
Qed.

Lemma mod_print_spec p x :
  mod_wf p -> 0 <= x <= nt_max T ->
  exists p' k text,
    print T p x = Ok (p', (Z.of_nat k, text)) /\
    is_digit_count (_base p) x k /\ (k <= 64)%nat /\
    mod_wf p' /\ _base p' = _base p /\ _alphabet p' = _alphabet p /\
    c_str Buffer (encode (_alphabet p) (_base p) k x ++ [NUL]) = Ok text /\
    (alphabet_ok (_base p) (_alphabet p) ->
     text = encode (_alphabet p) (_base p) k x).
Proof using HT.
  intros Hwf Hx. pose proof Hwf as (Hb & Ha & Hbuf). unfold BASE_MAX in *.
  destruct (mod_print_to_buffer_spec p x Hwf Hx) as (k & pre & Hrun & Hk & Hk64 & Hpre).
  unfold print. rewrite Hrun. cbn [bind fst snd with_buffer _buffer].
  replace (Z.to_nat (DIGITS_MAX - 1 - Z.of_nat k)) with (length pre) by lia.
  rewrite drop_app_length.
  destruct (c_str_total Buffer (encode (_alphabet p) (_base p) k x) []) as [text Htext].
  rewrite Htext. cbn [bind].
  replace (DIGITS_MAX - 1 - (DIGITS_MAX - 1 - Z.of_nat k)) with (Z.of_nat k) by lia.
  rewrite wrap_int_small by lia.
  eexists _, k, text. split; [done|]. unfold mod_wf, BASE_MAX.
  cbn [with_buffer _base _alphabet _buffer].
  split_and!; try done; try lia.
  - rewrite app_assoc. apply buffer_ok_intro.
    rewrite length_app, length_encode. lia.
  - intros Hal. rewrite c_str_terminated in Htext; [by injection Htext|].
    apply no_nul_encode; (done || lia).
Qed.

(** [print] to a stream writes the digits, and as many as it returns. *)
Lemma mod_print_ostream_spec p x :
  mod_wf p -> 0 <= x <= nt_max T ->
  exists p' k,
    print_ostream T p x = Ok (p', encode (_alphabet p) (_base p) k x) /\
    is_digit_count (_base p) x k.
Proof using HT.
  intros Hwf Hx.
  destruct (mod_print_to_buffer_spec p x Hwf Hx) as (k & pre & Hrun & Hk & Hk64 & Hpre).
  unfold print_ostream. rewrite Hrun. cbn [bind fst snd with_buffer _buffer].
  replace (Z.to_nat (DIGITS_MAX - 1 - Z.of_nat k)) with (length pre) by lia.
  rewrite drop_app_length.
  replace (DIGITS_MAX - 1 - (DIGITS_MAX - 1 - Z.of_nat k)) with (Z.of_nat k) by lia.
  rewrite wrap_int_small by lia. rewrite Nat2Z.id.
  rewrite take_app_length' by (by rewrite length_encode).
  by eexists _, k.
Qed.

(** *** Configuration *)

Lemma mod_prepare_buffer_spec p :
  length (_buffer p) = Z.to_nat DIGITS_MAX ->
  exists b, prepare_buffer p = Ok (with_buffer p b) /\ buffer_ok DIGITS_MAX b.
Proof.
  intros Hlen. unfold prepare_buffer, DIGITS_MAX in *.
  rewrite array_write_Ok by lia. cbn [bind]. eexists. split; [done|].
  split; [by rewrite length_insert|].
  apply list_lookup_insert_eq. lia.
Qed.

Lemma mod_set_base_spec p base_ :
  mod_wf p -> 2 <= base_ <= BASE_MAX ->
  exists b,
    set_base p base_ = Ok (Make base_ (_alphabet p) b) /\
    mod_wf (Make base_ (_alphabet p) b).
Proof.
  intros (Hb & Ha & Hbuf) Hb'. unfold set_base.
  destruct (mod_prepare_buffer_spec (Make base_ (_alphabet p) (_buffer p)))
    as (b & -> & Hb2); [apply Hbuf|].
  exists b. split; [done|]. unfold mod_wf. cbn [_base _alphabet _buffer].
  split_and!; (done || lia).
Qed.

Lemma mod_setup_default_alphabet_spec p :
  mod_wf p ->
  exists a,
    setup_default_alphabet p = Ok (with_alphabet p a) /\
    mod_wf (with_alphabet p a) /\
    is_default_alphabet (_base p) a /\
    drop (Z.to_nat (_base p)) a = drop (Z.to_nat (_base p)) (_alphabet p).
Proof.
  intros (Hb & Ha & Hbuf). unfold BASE_MAX in *. unfold setup_default_alphabet.
  destruct (Z.leb_spec (_base p) (10 + 26)) as [_|]; [|lia]. cbn [assert bind].
  rewrite attach_digits_and_letters_spec by lia. cbn [bind fst snd].
  rewrite Z.eqb_refl. cbn [assert bind].
  eexists. split; [done|]. unfold mod_wf, BASE_MAX.
  cbn [with_alphabet _base _alphabet _buffer].
  rewrite length_take_default_app by lia.
  split_and!; try done; try lia.
  - apply take_default_app. lia.
  - rewrite drop_app_length'; [done|].
    rewrite length_take. change (length default_alphabet) with 36%nat. lia.
Qed.

Lemma mod_construct_spec g gb base_ :
  2 <= base_ <= BASE_MAX ->
  exists p,
    construct g gb base_ = Ok p /\ mod_wf p /\ _base p = base_ /\
    is_default_alphabet base_ (_alphabet p).
Proof.
  intros Hb. unfold construct, setup_default_alphabet, fresh. cbn [_base _alphabet].
  unfold BASE_MAX in *.
  destruct (Z.leb_spec base_ (10 + 26)) as [_|]; [|lia]. cbn [assert bind].
  rewrite attach_digits_and_letters_spec by (rewrite ?length_uninitialised; lia).
  cbn [bind fst snd]. rewrite Z.eqb_refl. cbn [assert bind].
  destruct (mod_prepare_buffer_spec
              (with_alphabet (Make base_ (uninitialised (Z.to_nat (10 + 26)) g)
                                (uninitialised (Z.to_nat DIGITS_MAX) gb))
                 (take (Z.to_nat base_) default_alphabet ++
                  drop (Z.to_nat base_) (uninitialised (Z.to_nat (10 + 26)) g))))
    as (b & -> & Hbuf).
  { cbn [with_alphabet _buffer]. by rewrite length_uninitialised. }
  eexists. split; [done|]. unfold mod_wf, BASE_MAX.
  cbn [with_buffer with_alphabet _base _alphabet _buffer].
  rewrite length_take_default_app by (rewrite ?length_uninitialised; lia).
  rewrite length_uninitialised.
  split_and!; try done; try lia. apply take_default_app. lia.
Qed.
End modulo_printer_facts.

(** ** The table of pairs *)

Lemma length_flat_map_chunk {A B} (f : A -> list B) (c : nat) (l : list A) :
  (forall x, length (f x) = c) -> length (flat_map f l) = (length l * c)%nat.
Proof.
  intros Hf. induction l as [|a l IH]; [done|].
  cbn [flat_map length]. rewrite length_app, Hf, IH. lia.
Qed.

Lemma flat_map_lookup_chunk {A B} (f : A -> list B) (c : nat) (l : list A) :
  (forall x, length (f x) = c) -> forall n i a, (i < c)%nat -> l !! n = Some a ->
  flat_map f l !! (n * c + i)%nat = f a !! i.
Proof.
  intros Hf. induction l as [|a' l IH]; intros n i a Hi Hn; [done|].
  cbn [flat_map]. destruct n as [|n].
  - injection Hn as ->. rewrite lookup_app_l by (rewrite Hf; lia). done.
  - rewrite lookup_app_r by (rewrite Hf; lia). rewrite Hf.
    replace (S n * c + i - c)%nat with (n * c + i)%nat by lia.
    by apply IH.
Qed.

Lemma length_pair_table base alphabet :
  length (pair_table base alphabet) = (Z.to_nat base * (Z.to_nat base * 2))%nat.
Proof.
  unfold pair_table.
  rewrite (length_flat_map_chunk _ (Z.to_nat base * 2)), length_seq; [done|].
  intros i. by rewrite (length_flat_map_chunk _ 2), length_seq.
Qed.

Lemma pair_table_lookup base alphabet (i j : nat) :
  (i < Z.to_nat base)%nat -> (j < Z.to_nat base)%nat ->
  pair_table base alphabet !! (2 * (i * Z.to_nat base + j))%nat
    = Some (char_of alphabet (Z.of_nat i)) /\
  pair_table base alphabet !! (2 * (i * Z.to_nat base + j) + 1)%nat
    = Some (char_of alphabet (Z.of_nat j)).
Proof.
  intros Hi Hj. unfold pair_table.
  assert (Hinner : forall i' : nat,
             length (flat_map (fun j0 : nat =>
                        [char_of alphabet (Z.of_nat i'); char_of alphabet (Z.of_nat j0)])
                       (seq 0 (Z.to_nat base))) = (Z.to_nat base * 2)%nat).
  { intros i'. by rewrite (length_flat_map_chunk _ 2), length_seq. }
  split.
  - replace (2 * (i * Z.to_nat base + j))%nat
      with (i * (Z.to_nat base * 2) + (j * 2 + 0))%nat by lia.
    rewrite (flat_map_lookup_chunk _ (Z.to_nat base * 2) _ Hinner i (j * 2 + 0) i);
      [|lia|by rewrite lookup_seq_lt].
    rewrite (flat_map_lookup_chunk
               (fun j0 : nat => [char_of alphabet (Z.of_nat i); char_of alphabet (Z.of_nat j0)])
               2 _ (fun _ => eq_refl) j 0 j);
      [done|lia|by rewrite lookup_seq_lt].
  - replace (2 * (i * Z.to_nat base + j) + 1)%nat
      with (i * (Z.to_nat base * 2) + (j * 2 + 1))%nat by lia.
    rewrite (flat_map_lookup_chunk _ (Z.to_nat base * 2) _ Hinner i (j * 2 + 1) i);
      [|lia|by rewrite lookup_seq_lt].
    rewrite (flat_map_lookup_chunk
               (fun j0 : nat => [char_of alphabet (Z.of_nat i); char_of alphabet (Z.of_nat j0)])
               2 _ (fun _ => eq_refl) j 1 j);
      [done|lia|by rewrite lookup_seq_lt].
Qed.

(** Reading the pair of a two-digit value [d2]. *)
Lemma pairs_ok_read base alphabet sqr d2 :
  2 <= base -> pairs_ok base alphabet sqr -> 0 <= d2 < base * base ->
  array_read AlphabetSqr sqr (2 * d2) = Ok (char_of alphabet (d2 / base)) /\
  array_read AlphabetSqr sqr (2 * d2 + 1) = Ok (char_of alphabet (d2 mod base)).
Proof.
  intros Hb Hok Hd. unfold pairs_ok in Hok.
  assert (Hq : 0 <= d2 / base < base).
  { split; [apply Z.div_pos; lia|apply Z.div_lt_upper_bound; lia]. }
  pose proof (Z.mod_pos_bound d2 base ltac:(lia)) as Hr.
  destruct (pair_table_lookup base alphabet (Z.to_nat (d2 / base)) (Z.to_nat (d2 mod base)))
    as [Hfst Hsnd]; [lia..|].
  rewrite !Z2Nat.id in Hfst, Hsnd by lia.
  assert (Hidx : (Z.to_nat (d2 / base) * Z.to_nat base + Z.to_nat (d2 mod base))%nat
                 = Z.to_nat d2).
  { rewrite (Z.div_mod d2 base) at 3 by lia. lia. }
  rewrite Hidx in Hfst, Hsnd. rewrite <- Hok in Hfst, Hsnd.
  rewrite lookup_take_lt in Hfst by lia. rewrite lookup_take_lt in Hsnd by lia.
  split; (apply array_read_Some; [lia|]).
  - by replace (Z.to_nat (2 * d2)) with (2 * Z.to_nat d2)%nat by lia.
  - by replace (Z.to_nat (2 * d2 + 1)) with (2 * Z.to_nat d2 + 1)%nat by lia.
Qed.

(** *** [calculate_alphabet_sqr] *)

Lemma pair_step_spec alphabet (i j : nat) pre m1 m2 rest :
  (i < length alphabet)%nat -> (j < length alphabet)%nat ->
  pair_step alphabet (Z.of_nat i) (Z.of_nat j)
    (pre ++ m1 :: m2 :: rest, Z.of_nat (length pre))
  = Ok (pre ++ char_of alphabet (Z.of_nat i) :: char_of alphabet (Z.of_nat j) :: rest,
        Z.of_nat (length pre) + 2).
Proof.
  intros Hi Hj. unfold pair_step.
  rewrite !array_read_char_of by lia. cbn [bind].
  rewrite array_write_Ok by (rewrite !length_app; cbn [length]; lia).
  cbn [bind]. rewrite Nat2Z.id.
  replace (length pre) with (length pre + 0)%nat at 1 by lia.
  rewrite insert_app_r. cbn [app].
  change (<[0%nat:=?c]> (m1 :: ?l)) with (c :: l).
  rewrite array_write_Ok by (rewrite !length_app; cbn [length]; lia).
  cbn [bind].
  replace (Z.to_nat (Z.of_nat (length pre) + 1)) with (length pre + 1)%nat by lia.
  rewrite insert_app_r. done.
Qed.

Lemma calculate_inner_spec alphabet (i : nat) (n : nat) :
  forall (j0 : nat) pre mid post,
  (i < length alphabet)%nat -> (j0 + n <= length alphabet)%nat ->
  length mid = (n * 2)%nat ->
  for_range n (Z.of_nat j0) (pair_step alphabet (Z.of_nat i))
    (pre ++ mid ++ post, Z.of_nat (length pre))
  = Ok (pre ++
        flat_map (fun j => [char_of alphabet (Z.of_nat i); char_of alphabet (Z.of_nat j)])
          (seq j0 n) ++ post,
        Z.of_nat (length pre) + Z.of_nat (n * 2)).
Proof.
  induction n as [|n IH]; intros j0 pre mid post Hi Hj Hmid.
  - destruct mid; [|done]. cbn [for_range seq flat_map app]. do 2 f_equal. lia.
  - destruct mid as [|m1 [|m2 mid]]; try done.
    cbn [for_range seq flat_map app].
    rewrite pair_step_spec by lia. cbn [bind].
    specialize (IH (S j0)
                  (pre ++ [char_of alphabet (Z.of_nat i); char_of alphabet (Z.of_nat j0)])
                  mid post).
    rewrite length_app in IH. cbn [length] in IH.
    rewrite <- app_assoc in IH. cbn [app] in IH.
    replace (Z.of_nat (length pre) + 2) with (Z.of_nat (length pre + 2)) by lia.
    replace (Z.of_nat j0 + 1) with (Z.of_nat (S j0)) by lia.
    rewrite IH; [|done|lia|cbn [length] in Hmid; lia].
    rewrite <- app_assoc. cbn [app]. do 2 f_equal. lia.
Qed.

Lemma calculate_outer_spec alphabet (b : nat) (n : nat) :
  forall (i0 : nat) pre mid post,
  (b <= length alphabet)%nat -> (i0 + n <= length alphabet)%nat ->
  length mid = (n * (b * 2))%nat ->
  for_range n (Z.of_nat i0) (fun i s => for_range b 0 (pair_step alphabet i) s)
    (pre ++ mid ++ post, Z.of_nat (length pre))
  = Ok (pre ++
        flat_map
          (fun i =>
             flat_map
               (fun j => [char_of alphabet (Z.of_nat i); char_of alphabet (Z.of_nat j)])
               (seq 0 b))
          (seq i0 n) ++ post,
        Z.of_nat (length pre) + Z.of_nat (n * (b * 2))).
Proof.
  induction n as [|n IH]; intros i0 pre mid post Hb Hi Hmid.
  - destruct mid; [|done]. cbn [for_range seq flat_map app]. do 2 f_equal. lia.
  - cbn [for_range seq flat_map].
    rewrite <- (take_drop (b * 2) mid), <- app_assoc.
    pose proof (calculate_inner_spec alphabet i0 b 0 pre (take (b * 2) mid)
                  (drop (b * 2) mid ++ post)) as Hin.
    change (Z.of_nat 0) with 0 in Hin.
    rewrite Hin; [|lia|lia|rewrite length_take; lia]. cbn [bind].
    set (chunk := flat_map _ (seq 0 b)).
    assert (Hchunk : length chunk = (b * 2)%nat).
    { unfold chunk. by rewrite (length_flat_map_chunk _ 2), length_seq. }
    specialize (IH (S i0) (pre ++ chunk) (drop (b * 2) mid) post).
    rewrite length_app, Hchunk in IH. rewrite <- app_assoc in IH.
    replace (Z.of_nat (length pre) + Z.of_nat (b * 2))
      with (Z.of_nat (length pre + b * 2)) by lia.
    replace (Z.of_nat i0 + 1) with (Z.of_nat (S i0)) by lia.
    rewrite IH; [|done|lia|rewrite length_drop; lia].
    rewrite <- !app_assoc. do 2 f_equal. lia.
Qed.

Lemma calculate_alphabet_sqr_spec base alphabet sqr :
  0 <= base <= Z.of_nat (length alphabet) ->
  2 * base * base <= Z.of_nat (length sqr) ->
  shared.calculate_alphabet_sqr base alphabet sqr
  = Ok (pair_table base alphabet ++ drop (Z.to_nat (2 * base * base)) sqr).
Proof.
  intros Hb Hsqr. unfold shared.calculate_alphabet_sqr.
  change (for_range (Z.to_nat base) 0 _ (sqr, 0))
    with (for_range (Z.to_nat base) 0
            (fun i s => for_range (Z.to_nat base) 0 (pair_step alphabet i) s) (sqr, 0)).
  pose proof (calculate_outer_spec alphabet (Z.to_nat base) (Z.to_nat base) 0 []
                (take (Z.to_nat (2 * base * base)) sqr)
                (drop (Z.to_nat (2 * base * base)) sqr)) as H.
  cbn [app length] in H. change (Z.of_nat 0) with 0 in H.
  rewrite take_drop in H. rewrite H; [|lia|lia|rewrite length_take; nia].
  cbn [bind fst snd].
  replace (0 + Z.of_nat (Z.to_nat base * (Z.to_nat base * 2))) with (2 * base * base) by nia.
  rewrite Z.eqb_refl. done.
Qed.

Lemma pairs_ok_calculated base alphabet sqr :
  0 <= base -> pairs_ok base alphabet (pair_table base alphabet ++ sqr).
Proof.
  intros Hb. unfold pairs_ok. apply take_app_length'.
  rewrite length_pair_table. nia.
Qed.

Lemma length_calculated base alphabet (sqr : list ascii) :
  0 <= base -> 2 * base * base <= Z.of_nat (length sqr) ->
  length (pair_table base alphabet ++ drop (Z.to_nat (2 * base * base)) sqr)
  = length sqr.
Proof.
  intros Hb Hsqr. rewrite length_app, length_pair_table, length_drop. nia.
Qed.

(** ** modulo_printer_2_digits *)

Lemma mod_sqr_low b x : 2 <= b -> 0 <= x -> (x mod (b * b)) mod b = x mod b.
Proof.
  intros Hb Hx. rewrite Z.rem_mul_r by lia.
  rewrite (Z.mul_comm b ((x / b) mod b)), Z.mod_add by lia. apply Z.mod_mod. lia.
Qed.

Lemma mod_sqr_high b x : 2 <= b -> 0 <= x -> (x mod (b * b)) / b = (x / b) mod b.
Proof.
  intros Hb Hx. rewrite Z.rem_mul_r by lia.
  rewrite (Z.mul_comm b ((x / b) mod b)), Z.div_add by lia.
  rewrite (Z.div_small (x mod b)) by (apply Z.mod_pos_bound; lia). lia.
Qed.

Lemma encode_div_sqr alphabet b (k : nat) x : 2 <= b -> 0 <= x ->
  encode alphabet b (S (S k)) x
  = encode alphabet b k (x / (b * b))
    ++ [char_of alphabet ((x mod (b * b)) / b); char_of alphabet ((x mod (b * b)) mod b)].
Proof.
  intros Hb Hx. rewrite encode_div by done.
  rewrite encode_div by (done || apply Z.div_pos; lia).
  rewrite Z.div_div by lia. rewrite mod_sqr_low, mod_sqr_high by done.
  by rewrite <- app_assoc.
Qed.

Section modulo_printer_2_digits_facts.
Variable T : number_type.
Hypothesis HT : valid_number_type T.

Import modulo_printer_2_digits.

Lemma mod2_loop_spec (j : nat) : forall fuel p pre mid suffix x,
  2 <= _base p <= 36 -> _base_sqr p = _base p * _base p ->
  pairs_ok (_base p) (_alphabet p) (_alphabet_sqr p) ->
  length mid = (2 * j)%nat -> (j < fuel)%nat ->
  0 <= x <= nt_max T ->
  x < _base p * _base p ^ Z.of_nat (2 * j) ->
  ((1 <= j)%nat -> _base p ^ (Z.of_nat (2 * j) - 1) <= x) ->
  print_to_buffer_loop T fuel p (pre ++ mid ++ suffix)
    (Z.of_nat (length pre) + Z.of_nat (2 * j)) x
  = Ok (pre ++ encode (_alphabet p) (_base p) (2 * j) x ++ suffix,
        Z.of_nat (length pre), x / _base p ^ Z.of_nat (2 * j)).
Proof using HT.
  induction j as [|j IH]; intros fuel p pre mid suffix x Hb Hsqr Hpairs Hmid Hfuel Hx Hhi Hlo;
    (destruct fuel as [|fuel]; [lia|]); cbn [print_to_buffer_loop];
    rewrite (of_short_small T HT) by lia.
  - cbn [Nat.mul Z.of_nat] in *. rewrite Z.pow_0_r in *.
    destruct (Z.geb_spec x (_base p)) as [|_]; [lia|].
    destruct mid; [|done]. cbn [encode digits map app].
    rewrite Z.div_1_r. do 3 f_equal. lia.
  - assert (Hpow : 0 < _base p ^ Z.of_nat (2 * j)) by (apply Z.pow_pos_nonneg; lia).
    assert (Hpow2 : _base p ^ Z.of_nat (2 * S j)
                    = _base p * _base p * _base p ^ Z.of_nat (2 * j)).
    { replace (Z.of_nat (2 * S j)) with (2 + Z.of_nat (2 * j)) by lia.
      rewrite Z.pow_add_r by lia. rewrite Z.pow_2_r. done. }
    assert (Hpow1 : _base p ^ (Z.of_nat (2 * S j) - 1)
                    = _base p * _base p ^ Z.of_nat (2 * j)).
    { replace (Z.of_nat (2 * S j) - 1) with (1 + Z.of_nat (2 * j)) by lia.
      rewrite Z.pow_add_r by lia. by rewrite Z.pow_1_r. }
    specialize (Hlo ltac:(lia)). rewrite Hpow1 in Hlo. rewrite Hpow2 in Hhi.
    destruct (Z.geb_spec x (_base p)) as [_|]; [|nia].
    rewrite Hsqr. rewrite (of_short_small T HT) by nia.
    rewrite (nt_rem_nonneg T HT) by nia. cbn [bind].
    pose proof (Z.mod_pos_bound x (_base p * _base p) ltac:(nia)) as Hm.
    set (m := x mod (_base p * _base p)) in *.
    pose proof (nt_max_lower T HT) as Hmax. change (2 ^ 31 - 1) with 2147483647 in Hmax.
    rewrite (nt_mul_nonneg T HT) by nia. cbn [bind].
    rewrite to_short_small by nia.
    destruct (pairs_ok_read (_base p) _ _ m ltac:(lia) Hpairs Hm) as [Hr0 Hr1].
    rewrite Hr1. cbn [bind].
    destruct (list_snoc_inv mid (S (2 * j)) ltac:(lia)) as (mid1 & m2 & -> & Hmid1).
    destruct (list_snoc_inv mid1 (2 * j) Hmid1) as (mid0 & m1 & -> & Hmid0).
    replace (pre ++ ((mid0 ++ [m1]) ++ [m2]) ++ suffix)
      with ((pre ++ mid0 ++ [m1]) ++ m2 :: suffix) by (by rewrite <- !app_assoc).
    replace (Z.of_nat (length pre) + Z.of_nat (2 * S j))
      with (Z.of_nat (length (pre ++ mid0 ++ [m1])) + 1)
      by (rewrite !length_app; cbn [length]; lia).
    rewrite put_before_spec. cbn [bind fst snd].
    rewrite Hr0. cbn [bind].
    replace ((pre ++ mid0 ++ [m1]) ++ char_of (_alphabet p) (m mod _base p) :: suffix)
      with ((pre ++ mid0) ++ m1 :: char_of (_alphabet p) (m mod _base p) :: suffix)
      by (by rewrite <- !app_assoc).
    replace (Z.of_nat (length (pre ++ mid0 ++ [m1])))
      with (Z.of_nat (length (pre ++ mid0)) + 1)
      by (rewrite !length_app; cbn [length]; lia).
    rewrite put_before_spec. cbn [bind fst snd].
    rewrite (nt_div_nonneg T HT) by nia. cbn [bind].
    assert (Hq : 0 <= x / (_base p * _base p)) by (apply Z.div_pos; nia).
    assert (Hq' : x / (_base p * _base p) <= x) by (apply Z.div_le_upper_bound; nia).
    rewrite <- app_assoc, length_app.
    replace (Z.of_nat (length pre + length mid0))
      with (Z.of_nat (length pre) + Z.of_nat (2 * j)) by lia.
    rewrite IH; [|done|done|done|done|lia|lia| |].
    + replace (2 * S j)%nat with (S (S (2 * j))) by lia.
      rewrite encode_div_sqr by lia. fold m.
      rewrite Z.div_div by nia. rewrite <- app_assoc. cbn [app].
      do 3 f_equal.
      replace (Z.of_nat (S (S (2 * j)))) with (2 + Z.of_nat (2 * j)) by lia.
      rewrite Z.pow_add_r by lia. by rewrite Z.pow_2_r.
    + apply Z.div_lt_upper_bound; nia.
    + intros Hj. apply Z.div_le_lower_bound; [nia|].
      replace (Z.of_nat (2 * j)) with (1 + (Z.of_nat (2 * j) - 1)) in Hlo by lia.
      rewrite Z.pow_add_r, Z.pow_1_r in Hlo by lia. lia.
Qed.

Lemma mod2_print_to_buffer_spec p x :
  mod2_wf p -> 0 <= x <= nt_max T ->
  exists k pre,
    print_to_buffer T p x
    = Ok (with_buffer p (pre ++ encode (_alphabet p) (_base p) k x ++ [NUL]),
          DIGITS_MAX - 1 - Z.of_nat k) /\
    is_digit_count (_base p) x k /\ (k <= 64)%nat /\
    Z.of_nat (length pre) = DIGITS_MAX - 1 - Z.of_nat k.
Proof using HT.
  intros (Hb & Hsqr & Ha & Ha2 & Hpairs & Hbuf) Hx. unfold BASE_MAX in *.
  destruct (buffer_ok_split DIGITS_MAX _ ltac:(unfold DIGITS_MAX; lia) Hbuf)
    as (full & Hfull & Hlen).
  destruct (digit_count_exists T (_base p) x HT ltac:(lia) Hx) as (k & Hk & Hk64).
  pose proof Hk as (Hk1 & Hub & Hlb).
  assert (exists pre mid, full = pre ++ mid /\ length mid = k /\
            Z.of_nat (length pre) = DIGITS_MAX - 1 - Z.of_nat k)
    as (pre & mid & -> & Hmid & Hpre).
  { exists (take (length full - k) full), (drop (length full - k) full).
    rewrite take_drop, length_take, length_drop. unfold DIGITS_MAX in *.
    split_and!; [done|lia|lia]. }
  exists k, pre. unfold print_to_buffer. rewrite Hfull.
  destruct (Z.eqb_spec x 0) as [->|Hx0].
  - assert (k = 1%nat) as -> by (eapply is_digit_count_unique;
      [|exact Hk|apply is_digit_count_zero]; lia).
    rewrite array_read_char_of by lia. cbn [bind].
    destruct mid as [|m [|? ?]]; try done.
    rewrite <- app_assoc. cbn [app].
    replace (DIGITS_MAX - 1) with (Z.of_nat (length pre) + 1) by lia.
    rewrite put_before_spec. cbn [bind fst snd].
    rewrite encode_zero by lia.
    split_and!; try done; try lia. do 2 f_equal. lia.
  - assert (Hpow : forall n : nat, 0 < _base p ^ Z.of_nat n)
      by (intros; apply Z.pow_pos_nonneg; lia).
    destruct (Nat.Even_or_Odd k) as [[j ->]|[j ->]].
    + (* an even number of digits: the loop prints them all *)
      rewrite <- app_assoc.
      replace (DIGITS_MAX - 1) with (Z.of_nat (length pre) + Z.of_nat (2 * j)) by lia.
      destruct Hlb as [|Hlb]; [lia|].
      rewrite mod2_loop_spec; [|lia|done|done|done|unfold DIGITS_MAX in *; lia|lia| |done].
      * cbn [bind fst snd]. rewrite Z.div_small by lia.
        cbn [Z.gtb Z.compare]. split_and!; try done; try lia. do 2 f_equal. lia.
      * specialize (Hpow (2 * j)%nat). nia.
    + (* an odd number: one digit is left for the end *)
      replace (2 * j + 1)%nat with (S (2 * j)) in * by lia.
      destruct mid as [|m0 mid]; [done|]. injection Hmid as Hmid.
      replace (pre ++ m0 :: mid) with ((pre ++ [m0]) ++ mid) by (by rewrite <- app_assoc).
      rewrite <- app_assoc.
      replace (DIGITS_MAX - 1)
        with (Z.of_nat (length (pre ++ [m0])) + Z.of_nat (2 * j))
        by (rewrite length_app; cbn [length]; lia).
      assert (Hlow : _base p ^ Z.of_nat (2 * j) <= x).
      { destruct Hlb as [Hj|Hlb].
        - assert (j = 0%nat) as -> by lia. cbn. lia.
        - by replace (Z.of_nat (S (2 * j)) - 1) with (Z.of_nat (2 * j)) in Hlb by lia. }
      rewrite Nat2Z.inj_succ, Z.pow_succ_r in Hub by lia.
      rewrite mod2_loop_spec; [|lia|done|done|done|unfold DIGITS_MAX in *; lia|lia|done|].
      * cbn [bind fst snd].
        pose proof (digit_at_top (_base p) x (2 * j) ltac:(lia)) as Hdig.
        rewrite Nat2Z.inj_succ, Z.pow_succ_r in Hdig by lia.
        specialize (Hdig ltac:(lia)).
        pose proof (digit_at_range (_base p) x (2 * j) ltac:(lia)) as Hdr.
        rewrite <- Hdig.
        assert (1 <= digit_at (_base p) x (2 * j)).
        { rewrite Hdig. apply Z.div_le_lower_bound; [apply Hpow|lia]. }
        destruct (Z.gtb_spec (digit_at (_base p) x (2 * j)) 0) as [_|]; [|lia].
        rewrite (of_short_small T HT) by lia.
        destruct (Z.ltb_spec (digit_at (_base p) x (2 * j)) (_base p)) as [_|]; [|lia].
        cbn [assert bind].
        rewrite array_read_char_of by lia. cbn [bind].
        rewrite <- app_assoc. cbn [app].
        rewrite length_app. cbn [length].
        replace (Z.of_nat (length pre + 1)) with (Z.of_nat (length pre) + 1) by lia.
        rewrite put_before_spec. cbn [bind fst snd].
        split_and!; try done; try lia. do 2 f_equal. lia.
      * intros Hj. etrans; [|exact Hlow]. apply Z.pow_le_mono_r; lia.
Qed.

Lemma mod2_print_spec p x :
  mod2_wf p -> 0 <= x <= nt_max T ->
  exists p' k text,
    print T p x = Ok (p', (Z.of_nat k, text)) /\
    is_digit_count (_base p) x k /\ (k <= 64)%nat /\
    mod2_wf p' /\ _base p' = _base p /\ _alphabet p' = _alphabet p /\
    c_str Buffer (encode (_alphabet p) (_base p) k x ++ [NUL]) = Ok text /\
    (alphabet_ok (_base p) (_alphabet p) ->
     text = encode (_alphabet p) (_base p) k x).
Proof using HT.
  intros Hwf Hx. pose proof Hwf as (Hb & Hsqr & Ha & Ha2 & Hpairs & Hbuf).
  unfold BASE_MAX in *.
  destruct (mod2_print_to_buffer_spec p x Hwf Hx) as (k & pre & Hrun & Hk & Hk64 & Hpre).
  unfold print. rewrite Hrun. cbn [bind fst snd with_buffer _buffer].
  replace (Z.to_nat (DIGITS_MAX - 1 - Z.of_nat k)) with (length pre) by lia.
  rewrite drop_app_length.
  destruct (c_str_total Buffer (encode (_alphabet p) (_base p) k x) []) as [text Htext].
  rewrite Htext. cbn [bind].
  replace (DIGITS_MAX - 1 - (DIGITS_MAX - 1 - Z.of_nat k)) with (Z.of_nat k) by lia.
  rewrite wrap_int_small by lia.
  eexists _, k, text. split; [done|]. unfold mod2_wf, BASE_MAX.
  cbn [with_buffer _base _base_sqr _alphabet _alphabet_sqr _buffer].
  split_and!; try done; try lia.
  - rewrite app_assoc. apply buffer_ok_intro.
    rewrite length_app, length_encode. lia.
  - intros Hal. rewrite c_str_terminated in Htext; [by injection Htext|].
    apply no_nul_encode; (done || lia).
Qed.

Lemma mod2_print_ostream_spec p x :
  mod2_wf p -> 0 <= x <= nt_max T ->
  exists p' k,
    print_ostream T p x = Ok (p', encode (_alphabet p) (_base p) k x) /\
    is_digit_count (_base p) x k.
Proof using HT.
  intros Hwf Hx.
  destruct (mod2_print_to_buffer_spec p x Hwf Hx) as (k & pre & Hrun & Hk & Hk64 & Hpre).
  unfold print_ostream. rewrite Hrun. cbn [bind fst snd with_buffer _buffer].
  replace (Z.to_nat (DIGITS_MAX - 1 - Z.of_nat k)) with (length pre) by lia.
  rewrite drop_app_length.
  replace (DIGITS_MAX - 1 - (DIGITS_MAX - 1 - Z.of_nat k)) with (Z.of_nat k) by lia.
  rewrite wrap_int_small by lia. rewrite Nat2Z.id.
  rewrite take_app_length' by (by rewrite length_encode).
  by eexists _, k.
Qed.

(** *** Configuration *)

Lemma mod2_wf_sized p : mod2_wf p -> mod2_sized p.
Proof. intros (_ & _ & ? & ? & _ & [? _]). by split_and!. Qed.

Lemma mod2_calculate_spec p :
  mod2_sized p -> 2 <= _base p <= BASE_MAX ->
  exists sqr,
    calculate_alphabet_sqr p = Ok (with_alphabet_sqr p sqr) /\
    length sqr = Z.to_nat (2 * BASE_MAX * BASE_MAX) /\
    pairs_ok (_base p) (_alphabet p) sqr.
Proof.
  intros (Ha & Ha2 & _) Hb. unfold BASE_MAX in *. unfold calculate_alphabet_sqr.
  rewrite calculate_alphabet_sqr_spec by nia. cbn [bind].
  eexists. split; [done|]. split.
  - rewrite length_calculated by nia. done.
  - apply pairs_ok_calculated. lia.
Qed.

Lemma mod2_setup_buffer_size_spec p :
  length (_buffer p) = Z.to_nat DIGITS_MAX ->
  exists b, setup_buffer_size p = Ok (with_buffer p b) /\ buffer_ok DIGITS_MAX b.
Proof.
  intros Hlen. unfold setup_buffer_size, DIGITS_MAX in *.
  rewrite array_write_Ok by lia. cbn [bind]. eexists. split; [done|].
  split; [by rewrite length_insert|].
  apply list_lookup_insert_eq. lia.
Qed.

Lemma mod2_set_base_spec p base_ :
  mod2_sized p -> 2 <= base_ <= BASE_MAX ->
  exists p',
    set_base p base_ = Ok p' /\ mod2_wf p' /\
    _base p' = base_ /\ _alphabet p' = _alphabet p.
Proof.
  intros Hs Hb. pose proof Hs as (Ha & Ha2 & Hbuf). unfold set_base.
  assert (Hbb : to_short (base_ * base_) = base_ * base_)
    by (apply to_short_small; unfold BASE_MAX in *; nia).
  rewrite Hbb.
  destruct (mod2_calculate_spec
              (Make base_ (base_ * base_) (_alphabet p) (_alphabet_sqr p) (_buffer p)))
    as (sqr & -> & Hlen & Hpairs); [done..|].
  cbn [bind _base _alphabet] in *. unfold with_alphabet_sqr.
  cbn [_base _base_sqr _alphabet _alphabet_sqr _buffer].
  destruct (mod2_setup_buffer_size_spec
              (Make base_ (base_ * base_) (_alphabet p) sqr (_buffer p)))
    as (b & -> & Hb2); [done|].
  eexists. split; [done|]. unfold mod2_wf.
  cbn [with_buffer _base _base_sqr _alphabet _alphabet_sqr _buffer].
  split_and!; (done || lia).
Qed.

Lemma mod2_setup_default_alphabet_spec p :
  mod2_wf p ->
  exists p',
    setup_default_alphabet p = Ok p' /\ mod2_wf p' /\
    _base p' = _base p /\ is_default_alphabet (_base p) (_alphabet p') /\
    drop (Z.to_nat (_base p)) (_alphabet p') = drop (Z.to_nat (_base p)) (_alphabet p).
Proof.
  intros Hwf. pose proof Hwf as (Hb & Hsqr & Ha & Ha2 & Hpairs & Hbuf).
  unfold setup_default_alphabet.
  destruct (Z.leb_spec (_base p) BASE_MAX) as [_|]; [|lia]. cbn [assert bind].
  unfold BASE_MAX in Hb, Ha.
  rewrite attach_digits_and_letters_spec by lia. cbn [bind fst snd].
  rewrite Z.eqb_refl. cbn [assert bind].
  set (a := take _ default_alphabet ++ drop _ (_alphabet p)).
  assert (Hla : length a = Z.to_nat BASE_MAX)
    by (unfold a; rewrite length_take_default_app; (done || lia)).
  destruct (mod2_calculate_spec (with_alphabet p a)) as (sqr & -> & Hlen & Hpairs').
  { destruct Hbuf. by split_and!. }
  { unfold BASE_MAX. cbn [with_alphabet _base]. lia. }
  eexists. split; [done|]. unfold mod2_wf, BASE_MAX.
  cbn [with_alphabet with_alphabet_sqr _base _base_sqr _alphabet _alphabet_sqr _buffer] in *.
  split_and!; try done; try lia.
  - apply take_default_app. lia.
  - unfold a. rewrite drop_app_length'; [done|].
    rewrite length_take. change (length default_alphabet) with 36%nat. lia.
Qed.

Lemma mod2_construct_spec g g2 gb s base_ :
  2 <= base_ <= BASE_MAX ->
  exists p,
    construct g g2 gb s base_ = Ok p /\ mod2_wf p /\ _base p = base_ /\
    is_default_alphabet base_ (_alphabet p).
Proof.
  intros Hb. unfold construct.
  destruct (mod2_set_base_spec (fresh g g2 gb s) base_) as (p1 & -> & Hwf1 & Hb1 & _);
    [|done|].
  { unfold mod2_sized, fresh. cbn [_alphabet _alphabet_sqr _buffer].
    by rewrite !length_uninitialised. }
  cbn [bind].
  destruct (mod2_setup_default_alphabet_spec p1 Hwf1) as (p2 & -> & Hwf2 & Hb2 & Hdef & _).
  cbn [bind].
  destruct (mod2_setup_buffer_size_spec p2) as (b & -> & Hbuf).
  { by destruct Hwf2 as (_ & _ & _ & _ & _ & [? _]). }
  eexists. split; [done|].
  destruct Hwf2 as (? & ? & ? & ? & ? & ?). unfold mod2_wf.
  cbn [with_buffer _base _base_sqr _alphabet _alphabet_sqr _buffer].
  rewrite Hb1 in *. split_and!; (done || lia).
Qed.
End modulo_printer_2_digits_facts.

(** ** lr_printer_2_digits *)

Lemma digit_at_shift b x (i m : nat) : 2 <= b -> 0 <= x ->
  digit_at b (x / b ^ Z.of_nat m) i = digit_at b x (i + m).
Proof.
  intros Hb Hx. unfold digit_at.
  assert (0 < b ^ Z.of_nat m) by (apply Z.pow_pos_nonneg; lia).
  assert (0 < b ^ Z.of_nat i) by (apply Z.pow_pos_nonneg; lia).
  rewrite Z.div_div by lia. rewrite <- Z.pow_add_r by lia.
  do 3 f_equal. lia.
Qed.

Lemma digits_ext b (n : nat) x y :
  (forall i : nat, (i < n)%nat -> digit_at b x i = digit_at b y i) ->
  digits b n x = digits b n y.
Proof.
  induction n as [|n IH]; intros H; [done|].
  cbn [digits]. rewrite H by lia. rewrite IH; [done|]. intros. apply H. lia.
Qed.

Lemma digits_app b (n m : nat) x : 2 <= b -> 0 <= x ->
  digits b (n + m) x = digits b n (x / b ^ Z.of_nat m) ++ digits b m x.
Proof.
  intros Hb Hx. induction n as [|n IH]; [done|].
  cbn [Nat.add digits app]. rewrite IH. by rewrite digit_at_shift.
Qed.

Section lr_printer_2_digits_cache.
Variable T : number_type.
Hypothesis HT : valid_number_type T.

Import lr_printer_2_digits.

Lemma lr2_wf_cache_ok p : lr2_wf T p -> lr2_cache_ok T p.
Proof.
  intros ([? ?] & _ & _ & _ & _ & ? & ?). unfold BASE_MAX in *.
  split; [lia|done].
Qed.

Lemma lr2_same_config_refl p : lr2_same_config p p.
Proof. by split_and!. Qed.

Lemma lr2_append_spec p :
  lr2_cache_ok T p ->
  append_helper_data T p
  = if _base p ^ _powers_length p <=? nt_max T
    then Ok (with_powers p (pow_table (_base p) (S (length (_powers p)))), true)
    else if is_signed T then Err SignedOverflow else Ok (p, false).
Proof using HT.
  intros (Hb & Hok & _). unfold append_helper_data, _powers_length.
  rewrite (append_helper_data_spec T HT DIGITS_MAX _ _ _ Hb Hok) by done.
  destruct (_ <=? _); cbn [bind fst snd]; [done|].
  destruct (is_signed T); [done|]. by destruct p.
Qed.

Lemma lr2_max_digit_ptr_spec p num :
  lr2_cache_ok T p ->
  max_digit_ptr p num
  = Ok (if _base p ^ (_powers_length p - 1) <=? num
        then _powers_length p - 2 else _powers_length p - 3).
Proof.
  intros (Hb & Hok & Hlen). unfold max_digit_ptr, _powers_length.
  rewrite (powers_ok_read T _ _ _ _ Hok) by lia. cbn [bind].
  by destruct (_ <=? _).
Qed.

Lemma lr2_grow_spec fuel : forall p num,
  lr2_cache_ok T p -> _reached_max_power p = false -> num <= nt_max T ->
  powers_fit T (_base p) 1 num ->
  (69 < length (_powers p) + fuel)%nat ->
  exists p' r,
    get_max_power_ptr_grow T fuel p num = Ok (p', r) /\
    lr2_same_config p p' /\
    lr2_cache_ok T p' /\ (length (_powers p) <= length (_powers p'))%nat /\
    match r with
    | Some ptr =>
        _reached_max_power p' = true /\
        _base p ^ (_powers_length p' - 2) <= num /\
        ptr = (if _base p ^ (_powers_length p' - 1) <=? num
               then _powers_length p' - 2 else _powers_length p' - 3)
    | None =>
        _reached_max_power p' = false /\ num < _base p ^ (_powers_length p' - 2)
    end.
Proof using HT.
  induction fuel as [|fuel IH]; intros p num Hc Hr Hnum Hno Hfuel.
  - destruct Hc as (Hb & Hok & _).
    pose proof (powers_ok_length T HT (_base p) _ _ ltac:(lia) Hok). lia.
  - pose proof Hc as (Hb & Hok & Hlen2). pose proof Hok as (Heq & Hlen & Hmax & Hsat).
    pose proof (powers_ok_length T HT (_base p) _ _ ltac:(lia) Hok) as Hlen64.
    cbn [get_max_power_ptr_grow]. unfold _powers_length in *.
    rewrite (powers_ok_read T _ _ _ _ Hok) by lia. cbn [bind].
    destruct (Z.leb_spec (_base p ^ (Z.of_nat (length (_powers p)) - 2)) num) as [Hle|Hgt].
    + rewrite lr2_append_spec by done. unfold _powers_length.
      destruct (Z.leb_spec (_base p ^ Z.of_nat (length (_powers p))) (nt_max T)) as [Hfit|Hover];
        [|rewrite (powers_fit_unsigned T (_base p) 1 num (Z.of_nat (length (_powers p))))
            by (done || lia || (replace (Z.of_nat (length (_powers p)) - 1 - Z.of_nat 1)
                                  with (Z.of_nat (length (_powers p)) - 2) by lia; done))];
        cbn [bind fst snd negb].
      * set (p1 := with_powers p (pow_table (_base p) (S (length (_powers p))))).
        assert (Hc1 : lr2_cache_ok T p1).
        { split; [done|]. cbn [p1 with_powers _base _reached_max_power _powers].
          rewrite length_pow_table. split; [|lia].
          rewrite Hr in *. apply powers_ok_grow; (done || lia). }
        destruct (IH p1 num Hc1 Hr Hnum Hno) as (p' & r & Hrun & Hcfg & Hc' & Hlen' & Hpost).
        { cbn [p1 with_powers _powers]. rewrite length_pow_table. lia. }
        exists p', r. split; [done|]. split; [done|]. split; [done|].
        split.
        { cbn [p1 with_powers _powers] in Hlen'. rewrite length_pow_table in Hlen'. lia. }
        done.
      * set (p1 := with_reached_max_power p true).
        assert (Hc1 : lr2_cache_ok T p1).
        { unfold lr2_cache_ok, powers_ok.
          cbn [p1 with_reached_max_power _base _powers _reached_max_power].
          split_and!; try done; try lia. }
        rewrite (lr2_max_digit_ptr_spec p1 num Hc1). cbn [bind].
        exists p1, (Some (if _base p1 ^ (_powers_length p1 - 1) <=? num
                          then _powers_length p1 - 2 else _powers_length p1 - 3)).
        split; [done|]. split; [by split_and!|]. split; [done|].
        split; [done|]. split_and!; done.
    + exists p, None. split; [done|]. split; [by split_and!|].
      split_and!; try done; try lia.
Qed.

Lemma lr2_scan_spec fuel : forall p num i,
  lr2_cache_ok T p -> 0 <= i <= _powers_length p - 1 ->
  num < _base p ^ (_powers_length p - 2) ->
  (length (_powers p) <= fuel + Z.to_nat i)%nat ->
  exists e,
    get_max_power_ptr_scan fuel p num i = Ok e /\
    i <= e <= _powers_length p - 1 /\ num < _base p ^ e /\
    (e = i \/ (i + 2 <= e /\ _base p ^ (e - 2) <= num)).
Proof using HT.
  induction fuel as [|fuel IH]; intros p num i Hc Hi Hnum Hfuel;
    unfold _powers_length in *.
  - lia.
  - pose proof Hc as (Hb & Hok & Hlen2). cbn [get_max_power_ptr_scan].
    rewrite (powers_ok_read T _ _ _ _ Hok) by lia. cbn [bind].
    destruct (Z.leb_spec (_base p ^ i) num) as [Hle|Hgt].
    + assert (i < Z.of_nat (length (_powers p)) - 2).
      { destruct (Z_lt_le_dec i (Z.of_nat (length (_powers p)) - 2)) as [|Hge]; [done|].
        assert (_base p ^ (Z.of_nat (length (_powers p)) - 2) <= _base p ^ i)
          by (apply Z.pow_le_mono_r; lia).
        lia. }
      destruct (IH p num (i + 2) Hc) as (e & Hrun & He & Hub & Hlb);
        unfold _powers_length.
      * lia.
      * done.
      * lia.
      * exists e. split; [done|]. split; [lia|]. split; [done|]. right.
        destruct Hlb as [->|[? Hlb]]; [|split; [lia|done]].
        split; [lia|]. by replace (i + 2 - 2) with i by lia.
    + exists i. split_and!; try done; try lia.
Qed.

(** [get_max_power_ptr] returns the position two below the digit count. *)
Lemma lr2_get_max_power_ptr_spec p num :
  lr2_cache_ok T p -> 1 <= num <= nt_max T ->
  (_reached_max_power p = false -> powers_fit T (_base p) 1 num) ->
  exists p' ptr,
    get_max_power_ptr T p num = Ok (p', ptr) /\
    lr2_same_config p p' /\
    lr2_cache_ok T p' /\ (length (_powers p) <= length (_powers p'))%nat /\
    (_reached_max_power p = true -> p' = p) /\
    -1 <= ptr /\ ptr + 2 <= _powers_length p' /\
    _base p ^ (ptr + 1) <= num < _base p ^ (ptr + 2).
Proof using HT.
  intros Hc Hnum Hno. unfold get_max_power_ptr.
  assert (Hscan : forall p', lr2_cache_ok T p' -> _base p' = _base p ->
            num < _base p ^ (_powers_length p' - 2) ->
            exists k,
              (power_ptr <- get_max_power_ptr_scan (S (length (_powers p'))) p' num 0 ;;
               let power_ptr := power_ptr - 1 in
               pw <- array_read Powers (_powers p') power_ptr ;;
               let power_ptr := if pw <=? num then power_ptr + 1 else power_ptr in
               pw <- array_read Powers (_powers p') power_ptr ;;
               assert (pw >? num) ;;;
               Ok (p', power_ptr - 2)) = Ok (p', k - 2) /\
              1 <= k <= _powers_length p' - 1 /\
              _base p ^ (k - 1) <= num < _base p ^ k).
  { intros p' Hc' Hb' Hlt. pose proof Hc' as (Hb2 & Hok' & Hlen2).
    destruct (lr2_scan_spec (S (length (_powers p'))) p' num 0 Hc')
      as (e & Hrun & He & Hub & Hlb).
    { unfold _powers_length. lia. }
    { by rewrite Hb'. }
    { lia. }
    rewrite Hb' in *. rewrite Hrun. cbn [bind]. unfold _powers_length in *.
    assert (e <> 0) by (intros ->; simpl in Hub; lia).
    destruct Hlb as [|[He2 Hlb]]; [done|].
    rewrite (powers_ok_read T _ _ _ _ Hok') by lia. cbn [bind].
    destruct (Z.leb_spec (_base p ^ (e - 1)) num) as [Hle|Hgt].
    - replace (e - 1 + 1) with e by lia.
      rewrite (powers_ok_read T _ _ _ _ Hok') by lia. cbn [bind].
      destruct (Z.gtb_spec (_base p ^ e) num) as [_|]; [|lia]. cbn [assert bind].
      exists e. split; [done|]. lia.
    - rewrite (powers_ok_read T _ _ _ _ Hok') by lia. cbn [bind].
      destruct (Z.gtb_spec (_base p ^ (e - 1)) num) as [_|]; [|lia]. cbn [assert bind].
      exists (e - 1). split; [done|].
      replace (e - 1 - 1) with (e - 2) by lia. lia. }
  assert (Hsat : forall p', lr2_cache_ok T p' -> _base p' = _base p ->
            _reached_max_power p' = true -> num < _base p ^ _powers_length p').
  { intros p' (_ & (_ & _ & _ & Hs) & _) Hb' Hr'. rewrite <- Hb'. unfold _powers_length.
    specialize (Hs Hr'). lia. }
  assert (Hmax : forall p', lr2_cache_ok T p' -> _base p' = _base p ->
            _reached_max_power p' = true ->
            _base p ^ (_powers_length p' - 2) <= num ->
            let ptr := if _base p ^ (_powers_length p' - 1) <=? num
                       then _powers_length p' - 2 else _powers_length p' - 3 in
            -1 <= ptr /\ ptr + 2 <= _powers_length p' /\
            _base p ^ (ptr + 1) <= num < _base p ^ (ptr + 2)).
  { intros p' Hc' Hb' Hr' Hle. pose proof (Hsat p' Hc' Hb' Hr') as Hlt.
    destruct Hc' as (_ & _ & Hlen2). unfold _powers_length in *.
    destruct (Z.leb_spec (_base p ^ (Z.of_nat (length (_powers p')) - 1)) num) as [Hle'|Hgt'];
      cbn zeta.
    - replace (Z.of_nat (length (_powers p')) - 2 + 1)
        with (Z.of_nat (length (_powers p')) - 1) by lia.
      replace (Z.of_nat (length (_powers p')) - 2 + 2)
        with (Z.of_nat (length (_powers p'))) by lia.
      lia.
    - replace (Z.of_nat (length (_powers p')) - 3 + 1)
        with (Z.of_nat (length (_powers p')) - 2) by lia.
      replace (Z.of_nat (length (_powers p')) - 3 + 2)
        with (Z.of_nat (length (_powers p')) - 1) by lia.
      lia. }
  destruct (_reached_max_power p) eqn:Hr.
  - pose proof Hc as (Hb & Hok & Hlen2). unfold _powers_length in *.
    rewrite (powers_ok_read T _ _ _ _ Hok) by lia. cbn [bind].
    destruct (Z.leb_spec (_base p ^ (Z.of_nat (length (_powers p)) - 2)) num) as [Hle|Hgt].
    + rewrite (lr2_max_digit_ptr_spec p num Hc). cbn [bind fst snd].
      eexists p, _. split; [reflexivity|].
      pose proof (Hmax p Hc eq_refl Hr Hle) as Hm. cbn zeta in Hm.
      unfold _powers_length in *.
      split; [apply lr2_same_config_refl|]. split_and!; try done; try lia.
    + cbn [bind fst snd].
      destruct (Hscan p Hc eq_refl) as (k & Hrun & Hk & Hkb); [done|].
      unfold _powers_length in *. rewrite Hrun.
      exists p, (k - 2). split; [done|].
      replace (k - 2 + 1) with (k - 1) by lia. replace (k - 2 + 2) with k by lia.
      split; [apply lr2_same_config_refl|]. split_and!; try done; try lia.
  - destruct (lr2_grow_spec (S (Z.to_nat DIGITS_MAX)) p num Hc Hr ltac:(lia) (Hno eq_refl))
      as (p' & r & Hrun & Hcfg & Hc' & Hlen' & Hpost).
    { unfold DIGITS_MAX. lia. }
    rewrite Hrun. cbn [bind fst snd]. pose proof Hcfg as (Hb' & _).
    destruct r as [ptr|].
    + destruct Hpost as (Hr' & Hle & ->).
      eexists p', _. split; [reflexivity|].
      pose proof (Hmax p' Hc' Hb' Hr' Hle) as Hm. cbn zeta in Hm.
      split_and!; try done; try lia.
    + destruct Hpost as (Hr' & Hlt).
      destruct (Hscan p' Hc' Hb' Hlt) as (k & Hrun' & Hk & Hkb).
      cbn zeta in Hrun'. rewrite Hrun'. exists p', (k - 2). split; [done|].
      replace (k - 2 + 1) with (k - 1) by lia. replace (k - 2 + 2) with k by lia.
      split_and!; try done; try lia.
Qed.
End lr_printer_2_digits_cache.

Lemma out_fits_written out l (n : nat) :
  out_fits out (length l + n) ->
  out_fits (OutIter (out_room out) (out_written out ++ l)) n.
Proof.
  unfold out_fits. cbn [out_room out_written]. destruct (out_room out); [|done].
  rewrite length_app. lia.
Qed.

Lemma mod_pow_mod b x (m n : nat) : 2 <= b -> (m <= n)%nat ->
  (x mod b ^ Z.of_nat n) mod b ^ Z.of_nat m = x mod b ^ Z.of_nat m.
Proof.
  intros Hb Hmn. apply Z.mod_mod_divide.
  exists (b ^ Z.of_nat (n - m)). rewrite <- Z.pow_add_r by lia. f_equal. lia.
Qed.

Lemma encode_app alphabet b (n m : nat) x : 2 <= b -> 0 <= x ->
  encode alphabet b (n + m) x
  = encode alphabet b n (x / b ^ Z.of_nat m) ++ encode alphabet b m x.
Proof. intros. unfold encode. by rewrite digits_app, map_app. Qed.

Lemma encode_mod alphabet b (k n : nat) x : 2 <= b -> (k <= n)%nat ->
  encode alphabet b k (x mod b ^ Z.of_nat n) = encode alphabet b k x.
Proof. intros. unfold encode. by rewrite digits_mod. Qed.

(** The two characters of a value of two digits. *)
Lemma encode_two alphabet b x : 2 <= b -> 0 <= x < b * b ->
  encode alphabet b 2 x = [char_of alphabet (x / b); char_of alphabet (x mod b)].
Proof.
  intros Hb Hx. unfold encode. cbn [digits map]. rewrite digit_at_0.
  unfold digit_at. change (Z.of_nat 1) with 1. rewrite Z.pow_1_r.
  rewrite (Z.mod_small (x / b)); [done|].
  split; [apply Z.div_pos; lia|apply Z.div_lt_upper_bound; lia].
Qed.

Lemma encode_one alphabet b x : 2 <= b -> 0 <= x < b ->
  encode alphabet b 1 x = [char_of alphabet x].
Proof.
  intros Hb Hx. unfold encode. cbn [digits map]. rewrite digit_at_0.
  by rewrite Z.mod_small.
Qed.

Section lr_printer_2_digits_print.
Variable T : number_type.
Hypothesis HT : valid_number_type T.

Import lr_printer_2_digits.

Lemma lr2_loop_spec (j : nat) : forall fuel p num (m : nat) out,
  lr2_cache_ok T p -> _base p <= 17 -> _base_sqr p = _base p * _base p ->
  pairs_ok (_base p) (_alphabet p) (_alphabet_sqr p) ->
  (m = 1 \/ m = 2)%nat -> (2 * j + m <= length (_powers p))%nat ->
  (j < fuel)%nat ->
  0 <= num < _base p ^ Z.of_nat (2 * j + m) -> num <= nt_max T ->
  out_fits out (2 * j) ->
  print_to_out_iter_loop T fuel p num (Z.of_nat (2 * j + m) - 2) out
  = Ok (num mod _base p ^ Z.of_nat m, Z.of_nat m - 2,
        OutIter (out_room out)
          (out_written out
           ++ encode (_alphabet p) (_base p) (2 * j) (num / _base p ^ Z.of_nat m))).
Proof using HT.
  induction j as [|j IH];
    intros fuel p num m out Hc Hb17 Hsqr Hpairs Hm Hlen Hfuel Hnum Hmax Hfits;
    (destruct fuel as [|fuel]; [lia|]); cbn [print_to_out_iter_loop].
  - cbn [Nat.mul Nat.add] in *.
    destruct (Z.geb_spec (Z.of_nat m - 2) 1) as [|_]; [lia|].
    rewrite Z.mod_small by lia. cbn [encode digits map]. rewrite app_nil_r.
    by destruct out.
  - pose proof Hc as (Hb & Hok & Hlen2).
    set (n := (2 * j + m)%nat).
    replace (Z.of_nat (2 * S j + m) - 2) with (Z.of_nat n) by lia.
    destruct (Z.geb_spec (Z.of_nat n) 1) as [_|]; [|lia].
    rewrite (powers_ok_read T _ _ _ _ Hok) by lia. cbn [bind].
    assert (Hpw : 0 < _base p ^ Z.of_nat n) by (apply Z.pow_pos_nonneg; lia).
    assert (Hpm : 0 < _base p ^ Z.of_nat m) by (apply Z.pow_pos_nonneg; lia).
    rewrite (nt_div_nonneg T HT) by lia. cbn [bind].
    set (q := num / _base p ^ Z.of_nat n).
    assert (Hq : 0 <= q < _base p * _base p).
    { split; [apply Z.div_pos; lia|apply Z.div_lt_upper_bound; [lia|]].
      replace (Z.of_nat (2 * S j + m)) with (2 + Z.of_nat n) in Hnum by lia.
      rewrite Z.pow_add_r, Z.pow_2_r in Hnum by lia. lia. }
    rewrite to_short_small by nia.
    destruct (Z.leb_spec 0 q); [|lia]. rewrite Hsqr.
    destruct (Z.ltb_spec q (_base p * _base p)); [|lia]. cbn [assert bind].
    destruct (pairs_ok_read (_base p) _ _ q ltac:(lia) Hpairs Hq) as [Hr0 Hr1].
    rewrite (Z.mul_comm q 2), Hr0. cbn [bind].
    destruct (put_fits out (char_of (_alphabet p) (q / _base p)) (S (2 * j)))
      as [-> Hfits1]; [apply (out_fits_le _ (2 * S j)); [lia|done]|].
    cbn [bind]. rewrite Hr1. cbn [bind].
    destruct (put_fits _ (char_of (_alphabet p) (q mod _base p)) (2 * j) Hfits1)
      as [-> Hfits2].
    cbn [bind out_room out_written].
    assert (Hqm : q * _base p ^ Z.of_nat n <= num).
    { unfold q. rewrite Z.mul_comm. apply Z.mul_div_le. lia. }
    rewrite (of_short_small T HT) by nia.
    rewrite (nt_mul_nonneg T HT) by nia. cbn [bind].
    rewrite (nt_sub_nonneg T HT) by lia. cbn [bind].
    replace (num - q * _base p ^ Z.of_nat n) with (num mod _base p ^ Z.of_nat n)
      by (unfold q; rewrite Z.mod_eq by lia; lia).
    pose proof (Z.mod_pos_bound num (_base p ^ Z.of_nat n) Hpw) as Hmod.
    assert (num mod _base p ^ Z.of_nat n <= num) by (apply Z.mod_le; lia).
    replace (Z.of_nat n - 2) with (Z.of_nat (2 * j + m) - 2) by lia.
    rewrite IH; [|done|done|done|done|done|lia|lia|done|lia|done].
    cbn [out_room out_written].
    rewrite mod_pow_mod by lia.
    assert (Hnum0 : 0 <= num) by lia.
    assert (E1 : q / _base p = digit_at (_base p) (num / _base p ^ Z.of_nat m) (S (2 * j))).
    { rewrite digit_at_shift by lia. unfold digit_at.
      replace (Z.of_nat (S (2 * j) + m)) with (Z.succ (Z.of_nat n)) by lia.
      rewrite Z.pow_succ_r by lia.
      rewrite (Z.mul_comm (_base p) (_base p ^ Z.of_nat n)).
      rewrite <- (Z.div_div num) by lia. fold q.
      symmetry. apply Z.mod_small. split; [apply Z.div_pos; lia|].
      apply Z.div_lt_upper_bound; lia. }
    assert (E2 : q mod _base p = digit_at (_base p) (num / _base p ^ Z.of_nat m) (2 * j)).
    { rewrite digit_at_shift by lia. unfold digit_at, q. do 3 f_equal. }
    assert (E3 : digits (_base p) (2 * j)
                   ((num mod _base p ^ Z.of_nat n) / _base p ^ Z.of_nat m)
                 = digits (_base p) (2 * j) (num / _base p ^ Z.of_nat m)).
    { apply digits_ext. intros i Hi.
      rewrite !digit_at_shift by lia. apply digit_at_mod; lia. }
    do 3 f_equal. rewrite <- !app_assoc. f_equal. cbn [app].
    replace (2 * S j)%nat with (S (S (2 * j))) by lia.
    unfold encode. cbn [digits map]. by rewrite E1, E2, E3.
Qed.

Lemma lr2_wf_config p p' :
  lr2_wf T p -> lr2_cache_ok T p' -> lr2_same_config p p' -> lr2_wf T p'.
Proof.
  intros (Hb & Hsqr & Ha & Ha2 & Hpairs & _) (_ & Hok & Hlen) (Hb' & Hs' & Ha' & Ha2').
  unfold lr2_wf. rewrite Hs', Ha', Ha2', Hb'.
  rewrite Hb' in Hok. split_and!; try done; try lia.
Qed.

Lemma lr2_print_to_out_iter_spec p x out :
  lr2_wf T p -> 0 <= x <= nt_max T ->
  (_reached_max_power p = false -> powers_fit T (_base p) 1 x) ->
  out_fits out 64 ->
  exists p' k,
    print_to_out_iter T p x out
    = Ok (p', OutIter (out_room out)
                (out_written out ++ encode (_alphabet p) (_base p) k x)) /\
    is_digit_count (_base p) x k /\ (k <= 64)%nat /\
    lr2_wf T p' /\ lr2_same_config p p' /\
    (length (_powers p) <= length (_powers p'))%nat /\
    (_reached_max_power p = true -> p' = p) /\
    (x = 0 -> p' = p) /\
    (k <= length (_powers p'))%nat.
Proof using HT.
  intros Hwf Hx Hno Hfits. pose proof Hwf as (Hb & Hsqr & Ha & Ha2 & Hpairs & Hok & Hlen2).
  pose proof (lr2_wf_cache_ok T p Hwf) as Hc. unfold BASE_MAX in *.
  unfold print_to_out_iter. destruct (Z.eqb_spec x 0) as [->|Hx0].
  - rewrite array_read_char_of by lia. cbn [bind].
    destruct (put_fits out (char_of (_alphabet p) 0) 63 Hfits) as [-> _]. cbn [bind].
    exists p, 1%nat. rewrite encode_zero by lia.
    pose proof (is_digit_count_zero (_base p) ltac:(lia)).
    split_and!; try done; try lia.
  - destruct (lr2_get_max_power_ptr_spec T HT p x Hc ltac:(lia) Hno)
      as (p' & ptr & Hrun & Hcfg & Hc' & Hlen' & Hsame & Hptr & Hptr2 & Hbounds).
    rewrite Hrun. cbn [bind fst snd].
    pose proof Hcfg as (Hb' & Hs' & Ha' & Ha2').
    pose proof Hc' as (_ & Hok' & _).
    pose proof (powers_ok_length T HT (_base p') _ _ ltac:(lia) Hok') as Hlen64.
    pose proof (lr2_wf_config p p' Hwf Hc' Hcfg) as Hwf'.
    unfold _powers_length in *.
    set (k := Z.to_nat (ptr + 2)).
    assert (Hkdc : is_digit_count (_base p) x k).
    { split_and!; [lia| |right].
      - replace (Z.of_nat k) with (ptr + 2) by lia. lia.
      - replace (Z.of_nat k - 1) with (ptr + 1) by lia. lia. }
    assert (exists j m, k = (2 * j + m)%nat /\ (m = 1 \/ m = 2)%nat) as (j & m & Hk & Hm).
    { destruct (Nat.Even_or_Odd k) as [[j Hj]|[j Hj]].
      - exists (j - 1)%nat, 2%nat. split; [lia|by right].
      - exists j, 1%nat. split; [lia|by left]. }
    assert (Hpm : 0 < _base p ^ Z.of_nat m) by (apply Z.pow_pos_nonneg; lia).
    pose proof (lr2_loop_spec j (S (length (_powers p'))) p' x m out Hc') as Hloop.
    replace (Z.of_nat (2 * j + m) - 2) with ptr in Hloop by lia.
    rewrite Hloop; [|lia|rewrite Hs', Hb'; done|by rewrite Hb', Ha', Ha2'|done|lia|lia
                    | |lia|apply (out_fits_le out 64); [lia|done]].
    2:{ rewrite Hb'. replace (Z.of_nat (2 * j + m)) with (ptr + 2) by lia. lia. }
    cbn [bind]. rewrite Hb', Ha', Hs', Ha2'. clear Hloop.
    pose proof (Z.mod_pos_bound x (_base p ^ Z.of_nat m) Hpm) as Hmod.
    assert (Hmodle : x mod _base p ^ Z.of_nat m <= x) by (apply Z.mod_le; lia).
    pose proof (nt_max_lower T HT) as Hmax. change (2 ^ 31 - 1) with 2147483647 in Hmax.
    exists p', k. split; [|split_and!; try done; try lia].
    rewrite Hk, encode_app by lia.
    destruct Hm as [-> | ->].
    + (* one digit is left *)
      replace (Z.of_nat 1 - 2 =? 0) with false by reflexivity.
      replace (Z.of_nat 1 - 2 =? -1) with true by reflexivity.
      cbn [orb assert bind].
      change (Z.of_nat 1) with 1 in *. rewrite Z.pow_1_r in *.
      assert (E : encode (_alphabet p) (_base p) 1 x
                  = [char_of (_alphabet p) (x mod _base p)]).
      { rewrite <- (encode_mod _ _ 1 1 x) by lia. change (Z.of_nat 1) with 1.
        rewrite Z.pow_1_r. apply encode_one; lia. }
      set (out1 := OutIter _ _).
      assert (Hfits1 : out_fits out1 1).
      { apply out_fits_written. rewrite length_encode.
        apply (out_fits_le out 64); [lia|done]. }
      destruct (Z.leb_spec 0 (x mod _base p)); [|lia].
      rewrite (of_short_small T HT) by lia.
      destruct (Z.ltb_spec (x mod _base p) (_base p)); [|lia]. cbn [assert bind].
      rewrite array_read_char_of by lia. cbn [bind].
      destruct (put_fits out1 (char_of (_alphabet p) (x mod _base p)) 0 Hfits1) as [-> _].
      cbn [bind out1 out_room out_written].
      by rewrite E, <- app_assoc.
    + (* two digits are left *)
      replace (Z.of_nat 2 - 2 =? 0) with true by reflexivity.
      cbn [orb assert bind].
      change (Z.of_nat 2) with 2 in *. rewrite Z.pow_2_r in *.
      set (r := x mod (_base p * _base p)) in *.
      assert (E : encode (_alphabet p) (_base p) 2 x
                  = [char_of (_alphabet p) (r / _base p);
                     char_of (_alphabet p) (r mod _base p)]).
      { rewrite <- (encode_mod _ _ 2 2 x) by lia. change (Z.of_nat 2) with 2.
        rewrite Z.pow_2_r. fold r. apply encode_two; lia. }
      set (out1 := OutIter _ _).
      assert (Hfits1 : out_fits out1 2).
      { apply out_fits_written. rewrite length_encode.
        apply (out_fits_le out 64); [lia|done]. }
      destruct (Z.leb_spec 0 r); [|lia].
      rewrite Hsqr. rewrite (of_short_small T HT) by nia.
      destruct (Z.ltb_spec r (_base p * _base p)); [|lia]. cbn [assert bind].
      rewrite !(nt_mul_nonneg T HT r 2) by nia. cbn [bind].
      rewrite (nt_add_nonneg T HT (r * 2)) by nia.
      destruct (pairs_ok_read (_base p) _ _ r ltac:(lia) Hpairs ltac:(lia)) as [Hr0 Hr1].
      rewrite (Z.mul_comm r 2), Hr0. cbn [bind].
      destruct (put_fits out1 (char_of (_alphabet p) (r / _base p)) 1 Hfits1)
        as [-> Hfits2].
      cbn [bind]. rewrite Hr1. cbn [bind].
      destruct (put_fits _ (char_of (_alphabet p) (r mod _base p)) 0 Hfits2) as [-> _].
      cbn [bind out1 out_room out_written].
      rewrite E, <- !app_assoc. done.
Qed.
End lr_printer_2_digits_print.

Section lr_printer_2_digits_api.
Variable T : number_type.
Hypothesis HT : valid_number_type T.

Import lr_printer_2_digits.

Lemma lr2_print_spec p x :
  lr2_wf T p -> 0 <= x <= nt_max T ->
  (_reached_max_power p = false -> powers_fit T (_base p) 1 x) ->
  exists p' k text,
    print T p x = Ok (p', (Z.of_nat k, text)) /\
    is_digit_count (_base p) x k /\ (k <= 64)%nat /\
    lr2_wf T p' /\ lr2_same_config p p' /\
    (length (_powers p) <= length (_powers p'))%nat /\
    (_reached_max_power p = true -> p' = p) /\
    (x = 0 -> p' = p) /\
    (k <= length (_powers p'))%nat /\
    c_str Buffer (encode (_alphabet p) (_base p) k x ++ [NUL]) = Ok text /\
    (alphabet_ok (_base p) (_alphabet p) ->
     text = encode (_alphabet p) (_base p) k x).
Proof using HT.
  intros Hwf Hx Hno. pose proof Hwf as (Hb & Hsqr & Ha & Ha2 & Hpairs & Hok & Hlen2).
  unfold BASE_MAX in *.
  destruct (lr2_print_to_out_iter_spec T HT p x (OutIter None []) Hwf Hx Hno I)
    as (p' & k & Hrun & Hk & Hk64 & Hrest).
  unfold print. rewrite Hrun. cbn [bind fst snd out_room out_written put app].
  destruct (c_str_total Buffer (encode (_alphabet p) (_base p) k x) []) as [text Htext].
  rewrite Htext. cbn [bind]. rewrite length_encode.
  rewrite wrap_int_small by lia.
  exists p', k, text. split; [done|].
  destruct Hrest as (? & ? & ? & ? & ? & ?).
  split_and!; try done.
  intros Hal. rewrite c_str_terminated in Htext; [by injection Htext|].
  apply no_nul_encode; (done || lia).
Qed.

Lemma lr2_print_ostream_spec p x :
  lr2_wf T p -> 0 <= x <= nt_max T ->
  (_reached_max_power p = false -> powers_fit T (_base p) 1 x) ->
  exists p' k,
    print_ostream T p x = Ok (p', encode (_alphabet p) (_base p) k x) /\
    is_digit_count (_base p) x k.
Proof using HT.
  intros Hwf Hx Hno.
  destruct (lr2_print_to_out_iter_spec T HT p x (OutIter (Some DIGITS_MAX) []) Hwf Hx Hno)
    as (p' & k & Hrun & Hk & _).
  { unfold out_fits, DIGITS_MAX. simpl. lia. }
  unfold print_ostream. rewrite Hrun. cbn [bind fst snd out_written app].
  by exists p', k.
Qed.

Lemma lr2_print_file_spec p x :
  lr2_wf T p -> 0 <= x <= nt_max T ->
  (_reached_max_power p = false -> powers_fit T (_base p) 1 x) ->
  exists p' k text,
    print_file T p x = Ok (p', (Z.of_nat k, text)) /\
    is_digit_count (_base p) x k /\
    (alphabet_ok (_base p) (_alphabet p) ->
     text = encode (_alphabet p) (_base p) k x).
Proof using HT.
  intros Hwf Hx Hno. pose proof Hwf as (Hb & Hsqr & Ha & Ha2 & Hpairs & Hok & Hlen2).
  unfold BASE_MAX in *.
  destruct (lr2_print_to_out_iter_spec T HT p x (OutIter (Some DIGITS_MAX) []) Hwf Hx Hno)
    as (p' & k & Hrun & Hk & Hk64 & _).
  { unfold out_fits, DIGITS_MAX. simpl. lia. }
  unfold print_file. rewrite Hrun. cbn [bind fst snd out_room out_written app].
  unfold put. cbn [out_room out_written]. rewrite length_encode.
  destruct (Z.ltb_spec (Z.of_nat k) DIGITS_MAX) as [_|]; [|unfold DIGITS_MAX in *; lia].
  cbn [bind out_written].
  destruct (c_str_total Buffer (encode (_alphabet p) (_base p) k x) []) as [text Htext].
  rewrite Htext. cbn [bind].
  rewrite wrap_int_small by lia.
  exists p', k, text. split_and!; try done.
  intros Hal. rewrite c_str_terminated in Htext; [by injection Htext|].
  apply no_nul_encode; (done || lia).
Qed.

(** *** Configuration *)

Lemma lr2_wf_sized p : lr2_wf T p -> lr2_sized p.
Proof. intros (_ & _ & ? & ? & _). by split. Qed.

Lemma lr2_calculate_spec p :
  lr2_sized p -> 2 <= _base p <= BASE_MAX ->
  exists sqr,
    calculate_alphabet_sqr p = Ok (with_alphabet_sqr p sqr) /\
    length sqr = Z.to_nat (BASE_MAX * BASE_MAX * 2) /\
    pairs_ok (_base p) (_alphabet p) sqr.
Proof.
  intros (Ha & Ha2) Hb. unfold BASE_MAX in *. unfold calculate_alphabet_sqr.
  rewrite calculate_alphabet_sqr_spec by nia. cbn [bind].
  eexists. split; [done|]. split.
  - rewrite length_calculated by nia. done.
  - apply pairs_ok_calculated. lia.
Qed.

Lemma lr2_set_base_spec p base_ :
  lr2_sized p -> 2 <= base_ <= BASE_MAX ->
  exists p',
    set_base T p base_ = Ok p' /\ lr2_wf T p' /\
    _base p' = base_ /\ _alphabet p' = _alphabet p /\
    _powers p' = pow_table base_ 4 /\ _reached_max_power p' = false.
Proof using HT.
  intros Hs Hb. pose proof Hs as (Ha & Ha2). unfold set_base.
  assert (Hbb : to_short (base_ * base_) = base_ * base_)
    by (apply to_short_small; unfold BASE_MAX in *; nia).
  rewrite Hbb.
  destruct (lr2_calculate_spec
              (Make base_ (base_ * base_) (_alphabet p) (_alphabet_sqr p)
                 (_reached_max_power p) (_powers p)))
    as (sqr & -> & Hlen & Hpairs); [done..|].
  cbn [bind _base _alphabet] in *. unfold with_alphabet_sqr, init_helper_data.
  cbn [_base _base_sqr _alphabet _alphabet_sqr _reached_max_power _powers].
  rewrite (init_helper_data_spec T HT) by (unfold BASE_MAX, DIGITS_MAX in *; lia).
  cbn [bind]. eexists. split; [done|]. unfold lr2_wf.
  cbn [with_reached_max_power with_powers _base _base_sqr _alphabet _alphabet_sqr
         _reached_max_power _powers].
  rewrite length_pow_table.
  split_and!; try done; try lia.
  apply powers_ok_init; [done|unfold BASE_MAX in *; lia].
Qed.

Lemma lr2_setup_default_alphabet_spec p :
  lr2_wf T p -> _base p <= 16 ->
  exists p',
    setup_default_alphabet p = Ok p' /\ lr2_wf T p' /\
    _base p' = _base p /\ is_default_alphabet (_base p) (_alphabet p') /\
    drop (Z.to_nat (_base p)) (_alphabet p') = drop (Z.to_nat (_base p)) (_alphabet p) /\
    _powers p' = _powers p /\ _reached_max_power p' = _reached_max_power p.
Proof.
  intros Hwf Hb16. pose proof Hwf as (Hb & Hsqr & Ha & Ha2 & Hpairs & Hok & Hlen2).
  unfold setup_default_alphabet.
  destruct (Z.leb_spec (_base p) (10 + 6)) as [_|]; [|lia]. cbn [assert bind].
  unfold BASE_MAX in Hb, Ha.
  rewrite attach_digits_and_letters_spec by lia. cbn [bind fst snd].
  rewrite Z.eqb_refl. cbn [assert bind].
  set (a := take _ default_alphabet ++ drop _ (_alphabet p)).
  assert (Hla : length a = Z.to_nat BASE_MAX)
    by (unfold a; rewrite length_take_default_app; (done || lia)).
  destruct (lr2_calculate_spec (with_alphabet p a)) as (sqr & -> & Hlen & Hpairs').
  { by split. }
  { unfold BASE_MAX. cbn [with_alphabet _base]. lia. }
  eexists. split; [done|]. unfold lr2_wf, BASE_MAX.
  cbn [with_alphabet with_alphabet_sqr _base _base_sqr _alphabet _alphabet_sqr
         _reached_max_power _powers] in *.
  split_and!; try done; try lia.
  - apply take_default_app. lia.
  - unfold a. rewrite drop_app_length'; [done|].
    rewrite length_take. change (length default_alphabet) with 36%nat. lia.
Qed.

(** The default alphabet is refused for a base above 16. *)
Lemma lr2_setup_default_alphabet_refused p :
  16 < _base p -> setup_default_alphabet p = Err AssertFailed.
Proof.
  intros Hb. unfold setup_default_alphabet.
  destruct (Z.leb_spec (_base p) (10 + 6)) as [|_]; [lia|]. done.
Qed.

Lemma lr2_construct_spec g g2 s base_ :
  2 <= base_ <= 16 ->
  exists p,
    construct T g g2 s base_ = Ok p /\ lr2_wf T p /\ _base p = base_ /\
    is_default_alphabet base_ (_alphabet p) /\
    _powers p = pow_table base_ 4 /\ _reached_max_power p = false.
Proof using HT.
  intros Hb. unfold construct.
  destruct (lr2_set_base_spec (fresh g g2 s) base_)
    as (p1 & -> & Hwf1 & Hb1 & _ & Hpw1 & Hr1).
  { unfold lr2_sized, fresh. cbn [_alphabet _alphabet_sqr].
    by rewrite !length_uninitialised. }
  { unfold BASE_MAX. lia. }
  cbn [bind].
  destruct (lr2_setup_default_alphabet_spec p1 Hwf1 ltac:(lia))
    as (p2 & -> & Hwf2 & Hb2 & Hdef & _ & Hpw2 & Hr2).
  exists p2. rewrite Hb1 in *. split_and!; try done; congruence.
Qed.
End lr_printer_2_digits_api.

(** ** The flag of the table of powers *)

Section flag.
Variable T : number_type.
Hypothesis HT : valid_number_type T.

(** An [lr_printer] sets the flag exactly when the table, at its end,
    does not reach beyond the number. *)
Lemma lr_get_max_power_ptr_flag p num p' ptr :
  lr_cache_ok T p -> num <= nt_max T ->
  lr_printer._reached_max_power p = false ->
  powers_fit T (lr_printer._base p) 0 num ->
  lr_printer.get_max_power_ptr T p num = Ok (p', ptr) ->
  (lr_printer._reached_max_power p' = true <->
   lr_printer._base p ^ (lr_printer._powers_length p' - 1) <= num).
Proof using HT.
  intros Hc Hnum Hr Hno. unfold lr_printer.get_max_power_ptr. rewrite Hr.
  destruct (lr_grow_spec T HT (S (Z.to_nat lr_printer.MAX_DIGITS)) p num Hc Hr Hnum Hno)
    as (p1 & r & Hrun & _ & _ & _ & _ & Hpost).
  { unfold lr_printer.MAX_DIGITS. lia. }
  rewrite Hrun. cbn [bind fst snd]. destruct r as [ptr0|].
  - intros [= <- <-]. destruct Hpost as (Hr1 & -> & Hle). done.
  - intros H. bind_inv H. simplify_eq.
    destruct Hpost as (Hr1 & Hlt). rewrite Hr1. split; [done|lia].
Qed.

Lemma lr_print_state p x p' r :
  x <> 0 -> lr_printer.print T p x = Ok (p', r) ->
  exists ptr, lr_printer.get_max_power_ptr T p x = Ok (p', ptr).
Proof.
  intros Hx. unfold lr_printer.print, lr_printer.print_to_out_iter.
  destruct (Z.eqb_spec x 0); [done|]. intros H.
  destruct (lr_printer.get_max_power_ptr T p x) as [[p1 ptr]|] eqn:E;
    cbn [bind fst snd] in H; [|discriminate H].
  bind_inv H. simplify_eq. by exists ptr.
Qed.

Lemma lr2_get_max_power_ptr_flag p num p' ptr :
  lr2_cache_ok T p -> num <= nt_max T ->
  lr_printer_2_digits._reached_max_power p = false ->
  powers_fit T (lr_printer_2_digits._base p) 1 num ->
  lr_printer_2_digits.get_max_power_ptr T p num = Ok (p', ptr) ->
  (lr_printer_2_digits._reached_max_power p' = true <->
   lr_printer_2_digits._base p ^ (lr_printer_2_digits._powers_length p' - 2) <= num).
Proof using HT.
  intros Hc Hnum Hr Hno. unfold lr_printer_2_digits.get_max_power_ptr. rewrite Hr.
  destruct (lr2_grow_spec T HT (S (Z.to_nat lr_printer_2_digits.DIGITS_MAX)) p num
              Hc Hr Hnum Hno)
    as (p1 & r & Hrun & _ & _ & _ & Hpost).
  { unfold lr_printer_2_digits.DIGITS_MAX. lia. }
  rewrite Hrun. cbn [bind fst snd]. destruct r as [ptr0|].
  - intros [= <- <-]. destruct Hpost as (Hr1 & Hle & _). done.
  - intros H. bind_inv H. simplify_eq.
    destruct Hpost as (Hr1 & Hlt). rewrite Hr1. split; [done|lia].
Qed.

Lemma lr2_print_state p x p' r :
  x <> 0 -> lr_printer_2_digits.print T p x = Ok (p', r) ->
  exists ptr, lr_printer_2_digits.get_max_power_ptr T p x = Ok (p', ptr).
Proof.
  intros Hx. unfold lr_printer_2_digits.print, lr_printer_2_digits.print_to_out_iter.
  destruct (Z.eqb_spec x 0); [done|]. intros H.
  destruct (lr_printer_2_digits.get_max_power_ptr T p x) as [[p1 ptr]|] eqn:E;
    cbn [bind fst snd] in H; [|discriminate H].
  destruct (lr_printer_2_digits.print_to_out_iter_loop _ _ _ _ _ _) as [[[left q] o]|];
    cbn [bind] in H; [|discriminate H].
  exists ptr. f_equal. f_equal.
  destruct (assert _); cbn [bind] in H; [|discriminate H].
  destruct (q =? 0).
  - bind_inv H. by simplify_eq.
  - destruct (q =? -1).
    + bind_inv H. by simplify_eq.
    + bind_inv H. by simplify_eq.
Qed.
End flag.

(** ** Reading a text back *)

Lemma index_of_lookup l : NoDup l -> forall (i : nat) c,
  l !! i = Some c -> index_of c l = Some (Z.of_nat i).
Proof.
  induction 1 as [|c' l Hnotin Hnd IH]; intros i c Hi; [done|].
  cbn [index_of]. destruct i as [|i].
  - injection Hi as ->. by rewrite Ascii.eqb_refl.
  - cbn in Hi. destruct (Ascii.eqb_spec c c') as [->|_].
    + exfalso. apply Hnotin. by eapply list_elem_of_lookup_2.
    + rewrite (IH i c Hi). cbn [option_map]. f_equal. lia.
Qed.

Lemma NoDup_default_alphabet : NoDup default_alphabet.
Proof.
  unfold default_alphabet. cbn [list_ascii_of_string].
  repeat (apply NoDup_cons_2;
          [rewrite ?elem_of_cons, elem_of_nil; intros H; repeat destruct H as [H|H];
           discriminate H || done|]).
  apply NoDup_nil_2.
Qed.

Lemma digit_of_char_of base d :
  2 <= base <= 36 -> 0 <= d < base ->
  digit_of default_alphabet base (char_of default_alphabet d) = Some d.
Proof.
  intros Hb Hd. unfold digit_of, char_of.
  destruct (lookup_lt_is_Some_2 default_alphabet (Z.to_nat d)) as [c Hc].
  { change (length default_alphabet) with 36%nat. lia. }
  rewrite Hc. cbn [default from_option id].
  rewrite (index_of_lookup _
             (sublist_NoDup _ _ NoDup_default_alphabet
                (sublist_take default_alphabet (Z.to_nat base)))
             (Z.to_nat d) c).
  - f_equal. lia.
  - rewrite lookup_take_lt by lia. done.
Qed.

Lemma parse_encode_from base (k : nat) x acc :
  2 <= base <= 36 -> 0 <= x ->
  fold_left
    (fun acc c =>
       match acc, digit_of default_alphabet base c with
       | Some a, Some d => Some (a * base + d)
       | _, _ => None
       end)
    (encode default_alphabet base k x) (Some acc)
  = Some (acc * base ^ Z.of_nat k + x mod base ^ Z.of_nat k).
Proof.
  intros Hb Hx. revert acc. induction k as [|k IH]; intros acc.
  - cbn. rewrite Z.mod_1_r. f_equal. lia.
  - unfold encode in *. cbn [digits map fold_left].
    rewrite digit_of_char_of by (done || apply digit_at_range; lia).
    rewrite IH. f_equal. unfold digit_at.
    rewrite Nat2Z.inj_succ, Z.pow_succ_r by lia.
    assert (0 < base ^ Z.of_nat k) by (apply Z.pow_pos_nonneg; lia).
    rewrite (Z.mul_comm base (base ^ Z.of_nat k)).
    rewrite Z.rem_mul_r by lia. lia.
Qed.

(** The text of a number reads back as the number. *)
Lemma parse_encode base (k : nat) x :
  2 <= base <= 36 -> is_digit_count base x k -> 0 <= x ->
  parse default_alphabet base (encode default_alphabet base k x) = Some x.
Proof.
  intros Hb (_ & Hub & _) Hx. unfold parse. rewrite parse_encode_from by done.
  rewrite Z.mod_small by lia. f_equal.
Qed.

Lemma encode_default base alphabet k x :
  2 <= base -> is_default_alphabet base alphabet ->
  encode alphabet base k x = encode default_alphabet base k x.
Proof. intros Hb Hd. by apply encode_same_alphabet. Qed.

(** ** The sample printers *)

Lemma valid_int : valid_number_type t_int.
Proof. unfold valid_number_type. cbn. lia. Qed.

Lemma valid_long_long : valid_number_type t_long_long.
Proof. unfold valid_number_type. cbn. lia. Qed.

Lemma sample_lr_ready : lr_ready t_int 10 sample_lr.
Proof.
  unfold lr_ready, lr_wf, powers_ok. split_and!; try reflexivity; try (cbn; lia);
    try (vm_compute; discriminate); try (intros _; vm_compute; reflexivity).
Qed.

Lemma sample_lr2_ready : lr2_ready t_int 10 sample_lr2.
Proof.
  unfold lr2_ready, lr2_wf, powers_ok, pairs_ok.
  split_and!; try reflexivity; try (cbn; lia);
    try (vm_compute; discriminate); try (intros _; vm_compute; reflexivity).
Qed.

Lemma sample_mod_ready : mod_ready 10 sample_mod.
Proof.
  unfold mod_ready, mod_wf, buffer_ok. split_and!; try reflexivity; try (cbn; lia);
    try (vm_compute; discriminate).
Qed.

Lemma sample_mod2_ready : mod2_ready 10 sample_mod2.
Proof.
  unfold mod2_ready, mod2_wf, buffer_ok, pairs_ok.
  split_and!; try reflexivity; try (cbn; lia); try (vm_compute; discriminate).
Qed.

(** ** More on alphabets and tables *)

Lemma is_default_alphabet_le b b' alphabet :
  b' <= b -> is_default_alphabet b alphabet -> is_default_alphabet b' alphabet.
Proof.
  unfold is_default_alphabet. intros Hle H.
  destruct (Z_le_gt_dec b' 0) as [Hneg|Hpos].
  - by replace (Z.to_nat b') with 0%nat by lia.
  - replace (Z.to_nat b') with (Nat.min (Z.to_nat b') (Z.to_nat b)) by lia.
    by rewrite <- !take_take, H.
Qed.

Lemma pow_table_prefix b (n m : nat) :
  (n <= m)%nat -> take n (pow_table b m) = pow_table b n.
Proof.
  intros Hnm. unfold pow_table.
  replace m with (n + (m - n))%nat by lia. rewrite seq_app, map_app.
  rewrite take_app_length'; [done|]. by rewrite length_map, length_seq.
Qed.

Lemma powers_ok_prefix T b r r' pw pw' :
  powers_ok T b r pw -> powers_ok T b r' pw' -> (length pw <= length pw')%nat ->
  take (length pw) pw' = pw.
Proof.
  intros (Heq & _) (Heq' & _) Hle. rewrite Heq', (pow_table_prefix b _ _ Hle).
  by rewrite <- Heq.
Qed.

(** What the invariant says of the entries. *)
Lemma powers_ok_entries T b r pw :
  valid_number_type T -> 2 <= b -> powers_ok T b r pw ->
  pw !! 0%nat = Some 1 /\
  (forall k : nat, (k < length pw)%nat -> pw !! k = Some (b ^ Z.of_nat k)) /\
  (forall (i j : nat) x y, pw !! i = Some x -> pw !! j = Some y -> (i < j)%nat -> x < y) /\
  (forall (k : nat) x, pw !! k = Some x -> 1 <= x <= nt_max T) /\
  (r = true ->
   exists top, last pw = Some top /\ top <= nt_max T /\ nt_max T < top * b).
Proof.
  intros HT Hb Hok. pose proof Hok as (Heq & Hlen & Hmax & Hsat).
  assert (Hk : forall k : nat, (k < length pw)%nat -> pw !! k = Some (b ^ Z.of_nat k)).
  { intros k Hk. rewrite Heq. by apply pow_table_lookup. }
  split_and!.
  - by rewrite (Hk 0%nat) by lia.
  - done.
  - intros i j x y Hi Hj Hij.
    pose proof (lookup_lt_Some _ _ _ Hi). pose proof (lookup_lt_Some _ _ _ Hj).
    rewrite Hk in Hi, Hj by done. injection Hi as <-. injection Hj as <-.
    apply Z.pow_lt_mono_r; lia.
  - intros k x Hx. pose proof (lookup_lt_Some _ _ _ Hx). rewrite Hk in Hx by done.
    injection Hx as <-. apply (powers_ok_below_max T HT b r pw); (done || lia).
  - intros Hr. exists (b ^ (Z.of_nat (length pw) - 1)).
    rewrite last_lookup. replace (Nat.pred (length pw)) with (length pw - 1)%nat by lia.
    rewrite Hk by lia. replace (Z.of_nat (length pw - 1)) with (Z.of_nat (length pw) - 1) by lia.
    split_and!; [done|done|]. specialize (Hsat Hr).
    replace (Z.of_nat (length pw)) with (Z.succ (Z.of_nat (length pw) - 1)) in Hsat by lia.
    rewrite Z.pow_succ_r in Hsat by lia. lia.
Qed.

(** The table has at most as many entries as the type has bits. *)
Lemma powers_ok_length_bits T b r pw :
  valid_number_type T -> 2 <= b -> powers_ok T b r pw ->
  Z.of_nat (length pw) <= bits T.
Proof.
  intros HT Hb (_ & Hlen & Hmax & _).
  assert (nt_max T < 2 ^ bits T).
  { pose proof (modulus_double T HT). pose proof (half_modulus_large T HT).
    unfold nt_max. destruct (is_signed T); lia. }
  assert (Z.of_nat (length pw - 1) < bits T).
  { apply (pow_bound_exponent b); [lia|unfold valid_number_type in HT; lia|].
    replace (Z.of_nat (length pw - 1)) with (Z.of_nat (length pw) - 1) by lia.
    lia. }
  lia.
Qed.

(** ** Printing with the default alphabet *)

Section default_alphabet_prints.
Variable T : number_type.
Hypothesis HT : valid_number_type T.
Variables b v : Z.
Hypothesis Hv : 0 <= v <= nt_max T.

Lemma lr_ready_print p :
  lr_ready T b p -> powers_fit T b 0 v ->
  exists p' k,
    lr_printer.print T p v = Ok (p', (Z.of_nat k, encode default_alphabet b k v)) /\
    is_digit_count b v k /\ lr_ready T b p'.
Proof using HT Hv.
  intros (Hwf & Hb & Hdef) Hno. pose proof Hwf as ([Hb2 _] & _).
  destruct (lr_print_spec T HT p v Hwf Hv ltac:(by rewrite Hb))
    as (p' & k & text & Hrun & Hk & _ & Hwf' & Hb' & Ha' & _ & _ & _ & _ & _ & Htext).
  rewrite Hb in *. rewrite (Htext (is_default_alphabet_ok _ _ Hdef)) in Hrun.
  rewrite (encode_default b _ k v ltac:(lia) Hdef) in Hrun.
  exists p', k. split_and!; try done. split_and!; [done|congruence|congruence].
Qed.

Lemma lr2_ready_print p :
  lr2_ready T b p -> powers_fit T b 1 v ->
  exists p' k,
    lr_printer_2_digits.print T p v
    = Ok (p', (Z.of_nat k, encode default_alphabet b k v)) /\
    is_digit_count b v k /\ lr2_ready T b p'.
Proof using HT Hv.
  intros (Hwf & Hb & Hdef) Hno. pose proof Hwf as ([Hb2 _] & _).
  destruct (lr2_print_spec T HT p v Hwf Hv ltac:(by rewrite Hb))
    as (p' & k & text & Hrun & Hk & _ & Hwf' & (Hb' & _ & Ha' & _) & _ & _ & _ & _ & _ & Htext).
  rewrite Hb in *. rewrite (Htext (is_default_alphabet_ok _ _ Hdef)) in Hrun.
  rewrite (encode_default b _ k v ltac:(lia) Hdef) in Hrun.
  exists p', k. split_and!; try done. split_and!; [done|congruence|congruence].
Qed.

Lemma mod_ready_print p :
  mod_ready b p ->
  exists p' k,
    modulo_printer.print T p v
    = Ok (p', (Z.of_nat k, encode default_alphabet b k v)) /\
    is_digit_count b v k /\ mod_ready b p'.
Proof using HT Hv.
  intros (Hwf & Hb & Hdef). pose proof Hwf as ([Hb2 _] & _).
  destruct (mod_print_spec T HT p v Hwf Hv)
    as (p' & k & text & Hrun & Hk & _ & Hwf' & Hb' & Ha' & _ & Htext).
  rewrite Hb in *. rewrite (Htext (is_default_alphabet_ok _ _ Hdef)) in Hrun.
  rewrite (encode_default b _ k v ltac:(lia) Hdef) in Hrun.
  exists p', k. split_and!; try done. split_and!; [done|congruence|congruence].
Qed.

Lemma mod2_ready_print p :
  mod2_ready b p ->
  exists p' k,
    modulo_printer_2_digits.print T p v
    = Ok (p', (Z.of_nat k, encode default_alphabet b k v)) /\
    is_digit_count b v k /\ mod2_ready b p'.
Proof using HT Hv.
  intros (Hwf & Hb & Hdef). pose proof Hwf as ([Hb2 _] & _).
  destruct (mod2_print_spec T HT p v Hwf Hv)
    as (p' & k & text & Hrun & Hk & _ & Hwf' & Hb' & Ha' & _ & Htext).
  rewrite Hb in *. rewrite (Htext (is_default_alphabet_ok _ _ Hdef)) in Hrun.
  rewrite (encode_default b _ k v ltac:(lia) Hdef) in Hrun.
  exists p', k. split_and!; try done. split_and!; [done|congruence|congruence].
Qed.
End default_alphabet_prints.

(** The constructors leave a printer that is ready. *)
Lemma lr_construct_ready T g b :
  valid_number_type T -> 2 <= b <= 36 ->
  exists p, lr_printer.construct T g b = Ok p /\ lr_ready T b p.
Proof.
  intros HT Hb. destruct (lr_construct_spec T HT g b Hb) as (p & ? & ? & ? & ? & _).
  by exists p.
Qed.

Lemma lr2_construct_ready T g g2 s b :
  valid_number_type T -> 2 <= b <= 16 ->
  exists p, lr_printer_2_digits.construct T g g2 s b = Ok p /\ lr2_ready T b p.
Proof.
  intros HT Hb. destruct (lr2_construct_spec T HT g g2 s b Hb) as (p & ? & ? & ? & ? & _).
  by exists p.
Qed.

Lemma mod_construct_ready g gb b :
  2 <= b <= 36 ->
  exists p, modulo_printer.construct g gb b = Ok p /\ mod_ready b p.
Proof.
  intros Hb. destruct (mod_construct_spec g gb b Hb) as (p & ? & ? & ? & ?).
  by exists p.
Qed.

Lemma mod2_construct_ready g g2 gb s b :
  2 <= b <= 36 ->
  exists p, modulo_printer_2_digits.construct g g2 gb s b = Ok p /\ mod2_ready b p.
Proof.
  intros Hb. destruct (mod2_construct_spec g g2 gb s b Hb) as (p & ? & ? & ? & ?).
  by exists p.
Qed.

(** X16. The agreement of the four classes, where the table of powers can be
    computed: four printers, one of each class, that have the same base and
    the same alphabet return the same digit count for a value and leave the
    same text. *)
Lemma printers_agree (T : number_type) (v : Z)
    (p1 : lr_printer.t) (p2 : lr_printer_2_digits.t)
    (p3 : modulo_printer.t) (p4 : modulo_printer_2_digits.t) :
  valid_number_type T -> 0 <= v <= nt_max T ->
  lr_wf T p1 -> lr2_wf T p2 -> mod_wf p3 -> mod2_wf p4 ->
  powers_fit T (lr_printer._base p1) 1 v ->
  lr_printer_2_digits._base p2 = lr_printer._base p1 ->
  modulo_printer._base p3 = lr_printer._base p1 ->
  modulo_printer_2_digits._base p4 = lr_printer._base p1 ->
  same_alphabet (lr_printer._base p1) (lr_printer._alphabet p1)
    (lr_printer_2_digits._alphabet p2) ->
  same_alphabet (lr_printer._base p1) (lr_printer._alphabet p1)
    (modulo_printer._alphabet p3) ->
  same_alphabet (lr_printer._base p1) (lr_printer._alphabet p1)
    (modulo_printer_2_digits._alphabet p4) ->
  exists n text p1' p2' p3' p4',
    lr_printer.print T p1 v = Ok (p1', (n, text)) /\
    lr_printer_2_digits.print T p2 v = Ok (p2', (n, text)) /\
    modulo_printer.print T p3 v = Ok (p3', (n, text)) /\
    modulo_printer_2_digits.print T p4 v = Ok (p4', (n, text)).
Proof.
  intros HT Hv Hwf1 Hwf2 Hwf3 Hwf4 Hno Hb2 Hb3 Hb4 Ha2 Ha3 Ha4.
  pose proof Hwf1 as ([Hb _] & _).
  destruct (lr_print_spec T HT p1 v Hwf1 Hv)
    as (p1' & k1 & t1 & Hrun1 & Hk1 & _ & _ & _ & _ & _ & _ & _ & _ & Ht1 & _).
  { intros _. apply (powers_fit_ahead T _ 1 0); [lia|lia|done]. }
  destruct (lr2_print_spec T HT p2 v Hwf2 Hv)
    as (p2' & k2 & t2 & Hrun2 & Hk2 & _ & _ & _ & _ & _ & _ & _ & Ht2 & _).
  { intros _. by rewrite Hb2. }
  destruct (mod_print_spec T HT p3 v Hwf3 Hv)
    as (p3' & k3 & t3 & Hrun3 & Hk3 & _ & _ & _ & _ & Ht3 & _).
  destruct (mod2_print_spec T HT p4 v Hwf4 Hv)
    as (p4' & k4 & t4 & Hrun4 & Hk4 & _ & _ & _ & _ & Ht4 & _).
  rewrite Hb2 in *. rewrite Hb3 in *. rewrite Hb4 in *.
  assert (k2 = k1) as -> by (eapply is_digit_count_unique; [|done..]; lia).
  assert (k3 = k1) as -> by (eapply is_digit_count_unique; [|done..]; lia).
  assert (k4 = k1) as -> by (eapply is_digit_count_unique; [|done..]; lia).
  rewrite <- (encode_same_alphabet (lr_printer._base p1) _ _ k1 v ltac:(lia) Ha2) in Ht2.
  rewrite <- (encode_same_alphabet (lr_printer._base p1) _ _ k1 v ltac:(lia) Ha3) in Ht3.
  rewrite <- (encode_same_alphabet (lr_printer._base p1) _ _ k1 v ltac:(lia) Ha4) in Ht4.
  assert (t2 = t1) as -> by congruence.
  assert (t3 = t1) as -> by congruence.
  assert (t4 = t1) as -> by congruence.
  by exists (Z.of_nat k1), t1, p1', p2', p3', p4'.
Qed.

Lemma printers_agree_witness :
  exists n text p1' p2' p3' p4',
    lr_printer.print t_int sample_lr 5607 = Ok (p1', (n, text)) /\
    lr_printer_2_digits.print t_int sample_lr2 5607 = Ok (p2', (n, text)) /\
    modulo_printer.print t_int sample_mod 5607 = Ok (p3', (n, text)) /\
    modulo_printer_2_digits.print t_int sample_mod2 5607 = Ok (p4', (n, text)).
Proof.
  apply (printers_agree t_int 5607 sample_lr sample_lr2 sample_mod sample_mod2).
  - exact valid_int.
  - vm_compute. split; discriminate.
  - apply sample_lr_ready.
  - apply sample_lr2_ready.
  - apply sample_mod_ready.
  - apply sample_mod2_ready.
  - right. exists 4%nat. vm_compute. split; [reflexivity|discriminate].
  - reflexivity.
  - reflexivity.
  - reflexivity.
  - reflexivity.
  - reflexivity.
  - reflexivity.
Defined.

(** * The claims and what holds around them *)

(** C1 (amended). Round trip: for every non-negative value [v] of the numeric
    type and every base [b] in [2,36], the text that [print] produces with the
    default alphabet reads back, digit by digit through the alphabet, as [v]
    itself, for [modulo_printer] and [modulo_printer_2_digits]; for
    [lr_printer] where the numeric type is unsigned or holds a power of [b]
    above [v]; for [lr_printer_2_digits] for the bases in [2,16], the ones
    that its default alphabet accepts, where the numeric type is unsigned or
    holds the power of [b] that follows the first one above [v].  The
    constructor builds such a printer, and [print] leaves it such a
    printer. *)
Theorem round_trip (T : number_type) (b v : Z) :
  valid_number_type T -> 0 <= v <= nt_max T -> 2 <= b <= 36 ->
  ((forall g, exists p, lr_printer.construct T g b = Ok p /\ lr_ready T b p) /\
   (forall p, lr_ready T b p -> powers_fit T b 0 v ->
    exists p' n text,
      lr_printer.print T p v = Ok (p', (n, text)) /\
      parse default_alphabet b text = Some v /\ lr_ready T b p')) /\
  ((forall g gb, exists p, modulo_printer.construct g gb b = Ok p /\ mod_ready b p) /\
   (forall p, mod_ready b p ->
    exists p' n text,
      modulo_printer.print T p v = Ok (p', (n, text)) /\
      parse default_alphabet b text = Some v /\ mod_ready b p')) /\
  ((forall g g2 gb s,
    exists p, modulo_printer_2_digits.construct g g2 gb s b = Ok p /\ mod2_ready b p) /\
   (forall p, mod2_ready b p ->
    exists p' n text,
      modulo_printer_2_digits.print T p v = Ok (p', (n, text)) /\
      parse default_alphabet b text = Some v /\ mod2_ready b p')) /\
  (b <= 16 ->
   (forall g g2 s,
    exists p, lr_printer_2_digits.construct T g g2 s b = Ok p /\ lr2_ready T b p) /\
   (forall p, lr2_ready T b p -> powers_fit T b 1 v ->
    exists p' n text,
      lr_printer_2_digits.print T p v = Ok (p', (n, text)) /\
      parse default_alphabet b text = Some v /\ lr2_ready T b p')).
Proof.
  intros HT Hv Hb. split_and!.
  - intros g. by apply lr_construct_ready.
  - intros p Hp Hno.
    destruct (lr_ready_print T HT b v Hv p Hp Hno) as (p' & k & Hrun & Hk & Hp').
    eexists p', _, _. split_and!; [exact Hrun| |done]. apply parse_encode; (done || lia).
  - intros g gb. by apply mod_construct_ready.
  - intros p Hp. destruct (mod_ready_print T HT b v Hv p Hp) as (p' & k & Hrun & Hk & Hp').
    eexists p', _, _. split_and!; [exact Hrun| |done]. apply parse_encode; (done || lia).
  - intros g g2 gb s. by apply mod2_construct_ready.
  - intros p Hp. destruct (mod2_ready_print T HT b v Hv p Hp) as (p' & k & Hrun & Hk & Hp').
    eexists p', _, _. split_and!; [exact Hrun| |done]. apply parse_encode; (done || lia).
  - intros Hb16. split.
    + intros g g2 s. apply lr2_construct_ready; (done || lia).
    + intros p Hp Hno.
      destruct (lr2_ready_print T HT b v Hv p Hp Hno) as (p' & k & Hrun & Hk & Hp').
      eexists p', _, _. split_and!; [exact Hrun| |done]. apply parse_encode; (done || lia).
Qed.

Lemma round_trip_witness :
  (exists p' n text,
     lr_printer.print t_int sample_lr 99999999 = Ok (p', (n, text)) /\
     parse default_alphabet 10 text = Some 99999999) /\
  (exists p' n text,
     lr_printer_2_digits.print t_int sample_lr2 99999999 = Ok (p', (n, text)) /\
     parse default_alphabet 10 text = Some 99999999) /\
  (exists p' n text,
     modulo_printer.print t_int sample_mod 99999999 = Ok (p', (n, text)) /\
     parse default_alphabet 10 text = Some 99999999) /\
  (exists p' n text,
     modulo_printer_2_digits.print t_int sample_mod2 99999999 = Ok (p', (n, text)) /\
     parse default_alphabet 10 text = Some 99999999).
Proof.
  assert (Hv : 0 <= 99999999 <= nt_max t_int) by (vm_compute; split; discriminate).
  assert (Hb : 2 <= 10 <= 36) by lia.
  assert (Hfit0 : powers_fit t_int 10 0 99999999).
  { right. exists 8%nat. vm_compute. split; [reflexivity|discriminate]. }
  assert (Hfit1 : powers_fit t_int 10 1 99999999).
  { right. exists 8%nat. vm_compute. split; [reflexivity|discriminate]. }
  destruct (round_trip t_int 10 99999999 valid_int Hv Hb)
    as ((_ & H1) & (_ & H3) & (_ & H4) & H2).
  destruct (H2 ltac:(lia)) as (_ & H2').
  destruct (H1 sample_lr sample_lr_ready Hfit0) as (p1 & n1 & t1 & E1 & P1 & _).
  destruct (H2' sample_lr2 sample_lr2_ready Hfit1) as (p2 & n2 & t2 & E2 & P2 & _).
  destruct (H3 sample_mod sample_mod_ready) as (p3 & n3 & t3 & E3 & P3 & _).
  destruct (H4 sample_mod2 sample_mod2_ready) as (p4 & n4 & t4 & E4 & P4 & _).
  split; [exists p1, n1, t1; split; [exact E1|exact P1]|].
  split; [exists p2, n2, t2; split; [exact E2|exact P2]|].
  split; [exists p3, n3, t3; split; [exact E3|exact P3]|].
  exists p4, n4, t4; split; [exact E4|exact P4].
Defined.

(** C1, as stated, fails for [lr_printer_2_digits]: in base 17 its
    constructor stops at the assertion of [setup_default_alphabet], and
    nothing is printed. *)
Lemma round_trip_lr_printer_2_digits_base_17 :
  lr_printer_2_digits.construct t_int (fun _ => NUL) (fun _ => NUL) 0 17
  = Err AssertFailed /\
  ~ (exists p p' n text,
       lr_printer_2_digits.construct t_int (fun _ => NUL) (fun _ => NUL) 0 17 = Ok p /\
       lr_printer_2_digits.print t_int p 7 = Ok (p', (n, text)) /\
       parse default_alphabet 17 text = Some 7).
Proof.
  assert (H : lr_printer_2_digits.construct t_int (fun _ => NUL) (fun _ => NUL) 0 17
              = Err AssertFailed) by (vm_compute; reflexivity).
  split; [exact H|]. intros (p & p' & n & text & Hp & _). rewrite H in Hp. discriminate.
Qed.

(** C2. Cross-strategy agreement, at the value 2147483647 that [test_printer]
    prints with every class, for [int] in base 10: the two modulo printers
    return 10 digits and the text "2147483647"; [lr_printer] and
    [lr_printer_2_digits] overflow in the product of [append_helper_data],
    and return nothing. *)
Theorem cross_strategy_agreement_int_max :
  lr_printer.print t_int sample_lr 2147483647 = Err SignedOverflow /\
  lr_printer_2_digits.print t_int sample_lr2 2147483647 = Err SignedOverflow /\
  (exists p, modulo_printer.print t_int sample_mod 2147483647
             = Ok (p, (10, text "2147483647"))) /\
  (exists p, modulo_printer_2_digits.print t_int sample_mod2 2147483647
             = Ok (p, (10, text "2147483647"))).
Proof.
  split_and!.
  - vm_compute. reflexivity.
  - vm_compute. reflexivity.
  - eexists. vm_compute. reflexivity.
  - eexists. vm_compute. reflexivity.
Qed.

(** What [print] does to the table of powers and to its flag. *)
Lemma lr_print_table T p x :
  valid_number_type T -> lr_wf T p -> 0 <= x <= nt_max T ->
  powers_fit T (lr_printer._base p) 0 x ->
  exists p' r,
    lr_printer.print T p x = Ok (p', r) /\ lr_wf T p' /\
    lr_printer._base p' = lr_printer._base p /\
    take (length (lr_printer._powers p)) (lr_printer._powers p') = lr_printer._powers p /\
    (lr_printer._reached_max_power p = true -> p' = p) /\
    (x = 0 -> p' = p) /\
    (lr_printer._reached_max_power p = false -> x <> 0 ->
     (lr_printer._reached_max_power p' = true <->
      lr_printer._base p ^ (lr_printer._powers_length p' - 1) <= x)).
Proof.
  intros HT Hwf Hx Hno.
  destruct (lr_print_spec T HT p x Hwf Hx (fun _ => Hno))
    as (p' & k & text & Hrun & _ & _ & Hwf' & Hb' & _ & Hlen & Hsame & Hzero & _).
  exists p', (Z.of_nat k, text). split_and!; try done.
  - destruct Hwf as (_ & _ & Hok). destruct Hwf' as (_ & _ & Hok'). rewrite Hb' in Hok'.
    by apply (powers_ok_prefix T _ _ _ _ _ Hok Hok').
  - intros Hr Hx0. destruct (lr_print_state T p x p' _ Hx0 Hrun) as (ptr & Hget).
    apply (lr_get_max_power_ptr_flag T HT p x p' ptr); try done; try lia.
    by apply lr_wf_cache_ok.
Qed.

Lemma lr2_print_table T p x :
  valid_number_type T -> lr2_wf T p -> 0 <= x <= nt_max T ->
  powers_fit T (lr_printer_2_digits._base p) 1 x ->
  exists p' r,
    lr_printer_2_digits.print T p x = Ok (p', r) /\ lr2_wf T p' /\
    lr_printer_2_digits._base p' = lr_printer_2_digits._base p /\
    take (length (lr_printer_2_digits._powers p)) (lr_printer_2_digits._powers p')
    = lr_printer_2_digits._powers p /\
    (lr_printer_2_digits._reached_max_power p = true -> p' = p) /\
    (x = 0 -> p' = p) /\
    (lr_printer_2_digits._reached_max_power p = false -> x <> 0 ->
     (lr_printer_2_digits._reached_max_power p' = true <->
      lr_printer_2_digits._base p ^ (lr_printer_2_digits._powers_length p' - 2) <= x)).
Proof.
  intros HT Hwf Hx Hno.
  destruct (lr2_print_spec T HT p x Hwf Hx (fun _ => Hno))
    as (p' & k & text & Hrun & _ & _ & Hwf' & (Hb' & _) & Hlen & Hsame & Hzero & _).
  exists p', (Z.of_nat k, text). split_and!; try done.
  - destruct Hwf as (_ & _ & _ & _ & _ & Hok & _).
    destruct Hwf' as (_ & _ & _ & _ & _ & Hok' & _). rewrite Hb' in Hok'.
    by apply (powers_ok_prefix T _ _ _ _ _ Hok Hok').
  - intros Hr Hx0. destruct (lr2_print_state T p x p' _ Hx0 Hrun) as (ptr & Hget).
    apply (lr2_get_max_power_ptr_flag T HT p x p' ptr); try done; try lia.
    by apply lr2_wf_cache_ok.
Qed.

(** X17. The table of powers where it can be computed: after construction, after
    [set_base] and after every [print] of an [lr_printer] or an
    [lr_printer_2_digits] that asks for representable powers only, entry [k]
    of the table is [base ^ k], the entries increase strictly, entry 0 is 1
    (with three more entries grown at once), every entry is representable,
    and a set flag says that the last entry is the largest representable
    power.  [print] extends the table only; it sets the flag exactly when the
    table cannot be extended beyond the value printed, and once the flag is
    set it leaves table and flag as they are. *)
Lemma power_table_where_computed (T : number_type) :
  valid_number_type T ->
  (forall b r pw, 2 <= b -> powers_ok T b r pw ->
     pw !! 0%nat = Some 1 /\
     (forall k : nat, (k < length pw)%nat -> pw !! k = Some (b ^ Z.of_nat k)) /\
     (forall (i j : nat) x y,
        pw !! i = Some x -> pw !! j = Some y -> (i < j)%nat -> x < y) /\
     (forall (k : nat) x, pw !! k = Some x -> 1 <= x <= nt_max T) /\
     (r = true ->
      exists top, last pw = Some top /\ top <= nt_max T /\ nt_max T < top * b)) /\
  ((forall g b, 2 <= b <= 36 ->
      exists p,
        lr_printer.construct T g b = Ok p /\ lr_wf T p /\ lr_printer._base p = b /\
        lr_printer._powers p = [1; b; b * b; b * b * b] /\
        lr_printer._reached_max_power p = false) /\
   (forall p b, length (lr_printer._alphabet p) = 36%nat -> 2 <= b <= 36 ->
      exists p',
        lr_printer.set_base T p b = Ok p' /\ lr_wf T p' /\ lr_printer._base p' = b /\
        lr_printer._powers p' = [1; b; b * b; b * b * b] /\
        lr_printer._reached_max_power p' = false) /\
   (forall p x, lr_wf T p -> 0 <= x <= nt_max T ->
      powers_fit T (lr_printer._base p) 0 x ->
      exists p' r,
        lr_printer.print T p x = Ok (p', r) /\ lr_wf T p' /\
        lr_printer._base p' = lr_printer._base p /\
        take (length (lr_printer._powers p)) (lr_printer._powers p')
        = lr_printer._powers p /\
        (lr_printer._reached_max_power p = true -> p' = p) /\
        (x = 0 -> p' = p) /\
        (lr_printer._reached_max_power p = false -> x <> 0 ->
         (lr_printer._reached_max_power p' = true <->
          lr_printer._base p ^ (lr_printer._powers_length p' - 1) <= x)))) /\
  ((forall g g2 s b, 2 <= b <= 16 ->
      exists p,
        lr_printer_2_digits.construct T g g2 s b = Ok p /\ lr2_wf T p /\
        lr_printer_2_digits._base p = b /\
        lr_printer_2_digits._powers p = [1; b; b * b; b * b * b] /\
        lr_printer_2_digits._reached_max_power p = false) /\
   (forall p b, lr2_sized p -> 2 <= b <= 17 ->
      exists p',
        lr_printer_2_digits.set_base T p b = Ok p' /\ lr2_wf T p' /\
        lr_printer_2_digits._base p' = b /\
        lr_printer_2_digits._powers p' = [1; b; b * b; b * b * b] /\
        lr_printer_2_digits._reached_max_power p' = false) /\
   (forall p x, lr2_wf T p -> 0 <= x <= nt_max T ->
      powers_fit T (lr_printer_2_digits._base p) 1 x ->
      exists p' r,
        lr_printer_2_digits.print T p x = Ok (p', r) /\ lr2_wf T p' /\
        lr_printer_2_digits._base p' = lr_printer_2_digits._base p /\
        take (length (lr_printer_2_digits._powers p)) (lr_printer_2_digits._powers p')
        = lr_printer_2_digits._powers p /\
        (lr_printer_2_digits._reached_max_power p = true -> p' = p) /\
        (x = 0 -> p' = p) /\
        (lr_printer_2_digits._reached_max_power p = false -> x <> 0 ->
         (lr_printer_2_digits._reached_max_power p' = true <->
          lr_printer_2_digits._base p ^ (lr_printer_2_digits._powers_length p' - 2)
          <= x)))).
Proof.
  intros HT.
  assert (Hfour : forall b, pow_table b 4 = [1; b; b * b; b * b * b]).
  { intros b. unfold pow_table. cbn [seq map].
    change (Z.of_nat 0) with 0. change (Z.of_nat 1) with 1.
    change (Z.of_nat 2) with 2. change (Z.of_nat 3) with 3.
    rewrite Z.pow_0_r, Z.pow_1_r, Z.pow_2_r.
    replace (b ^ 3) with (b * b * b) by lia. reflexivity. }
  split_and!.
  - intros b r pw Hb Hok. by apply powers_ok_entries.
  - intros g b Hb. destruct (lr_construct_spec T HT g b Hb) as (p & ? & ? & ? & _ & Hpw & ?).
    exists p. rewrite Hpw, Hfour. split_and!; done.
  - intros p b Ha Hb. destruct (lr_set_base_spec T HT p b Hb Ha) as [Hrun Hwf].
    eexists. split; [exact Hrun|]. cbn [lr_printer._base lr_printer._powers
      lr_printer._reached_max_power]. split; [exact Hwf|]. by rewrite Hfour.
  - intros p x Hwf Hx Hno. by apply lr_print_table.
  - intros g g2 s b Hb.
    destruct (lr2_construct_spec T HT g g2 s b Hb) as (p & ? & ? & ? & _ & Hpw & ?).
    exists p. rewrite Hpw, Hfour. split_and!; done.
  - intros p b Hs Hb.
    destruct (lr2_set_base_spec T HT p b Hs Hb) as (p' & ? & ? & ? & _ & Hpw & ?).
    exists p'. rewrite Hpw, Hfour. by split_and!.
  - intros p x Hwf Hx Hno. by apply lr2_print_table.
Qed.

Lemma power_table_where_computed_witness :
  exists p' r,
    lr_printer.print t_int sample_lr 999999999 = Ok (p', r) /\
    lr_wf t_int p' /\
    take 4 (lr_printer._powers p') = [1; 10; 100; 1000] /\
    (lr_printer._reached_max_power p' = true <->
     10 ^ (lr_printer._powers_length p' - 1) <= 999999999).
Proof.
  destruct (power_table_where_computed t_int valid_int) as (_ & (_ & _ & H) & _).
  assert (Hv : 0 <= 999999999 <= nt_max t_int) by (vm_compute; split; discriminate).
  assert (Hfit : powers_fit t_int 10 0 999999999).
  { right. exists 9%nat. vm_compute. split; [reflexivity|discriminate]. }
  destruct sample_lr_ready as (Hwf & _).
  destruct (H sample_lr 999999999 Hwf Hv Hfit) as (p' & r & H1 & H2 & _ & H3 & _ & _ & H4).
  exists p', r. split; [exact H1|]. split; [exact H2|]. split; [exact H3|].
  apply H4; [reflexivity|discriminate].
Defined.

(** C3. Power-table invariant, at the append that the claim calls a failure,
    for [int] in base 10: on the table whose top entry is 1000000000, the
    largest power of 10 that an [int] holds, [append_helper_data] overflows in
    its product; it does not return [false], so that [_reached_max_power] is
    never set.  The [print] of 1000000000 by an [lr_printer], and of 100000000
    by an [lr_printer_2_digits], ask for that append and return nothing. *)
Theorem power_table_invariant_top_power :
  last (pow_table 10 10) = Some 1000000000 /\
  nt_max t_int < 1000000000 * 10 /\
  shared.append_helper_data t_int lr_printer.MAX_DIGITS 10 (pow_table 10 10)
  = Err SignedOverflow /\
  lr_printer.print t_int sample_lr 1000000000 = Err SignedOverflow /\
  lr_printer_2_digits.print t_int sample_lr2 100000000 = Err SignedOverflow.
Proof.
  split_and!.
  - reflexivity.
  - vm_compute. reflexivity.
  - vm_compute. reflexivity.
  - vm_compute. reflexivity.
  - vm_compute. reflexivity.
Qed.

Section leading_power_facts.
Variable T : number_type.
Hypothesis HT : valid_number_type T.


End leading_power_facts.




Section remainder_facts.
Variable T : number_type.
Hypothesis HT : valid_number_type T.

(** The loop of an [lr_printer], started at the pointer that
    [get_max_power_ptr] returned, leaves nothing of the number. *)
Lemma lr_loop_exhausts p num out :
  lr_wf T p -> 1 <= num <= nt_max T -> out_fits out 64 ->
  powers_fit T (lr_printer._base p) 0 num ->
  exists p' ptr out',
    lr_printer.get_max_power_ptr T p num = Ok (p', ptr) /\
    lr_printer.print_to_out_iter_loop T (S (length (lr_printer._powers p')))
      p' num ptr out = Ok (0, out').
Proof using HT.
  intros Hwf Hnum Hfits Hno. pose proof Hwf as (Hb & Ha & Hok).
  pose proof (lr_wf_cache_ok T p Hwf) as Hc. unfold lr_printer.MAX_BASE in *.
  destruct (lr_get_max_power_ptr_spec T HT p num Hc Hnum (fun _ => Hno))
    as (p' & ptr & Hrun & Hb' & Ha' & Hc' & _ & _ & Hptr & Hbounds & _).
  pose proof Hc' as [_ Hok'].
  pose proof (powers_ok_length T HT (lr_printer._base p') _ _ ltac:(lia) Hok') as Hlen64.
  unfold lr_printer._powers_length in *.
  pose proof (lr_loop_spec T HT (Z.to_nat (ptr + 1))
                (S (length (lr_printer._powers p'))) p' num out Hc') as Hloop.
  replace (Z.of_nat (Z.to_nat (ptr + 1)) - 1) with ptr in Hloop by lia.
  exists p', ptr. eexists. split; [exact Hrun|]. apply Hloop; try lia.
  - rewrite Ha'. lia.
  - rewrite Hb'. replace (Z.of_nat (Z.to_nat (ptr + 1))) with (ptr + 1) by lia. lia.
  - apply (out_fits_le out 64); [lia|done].
Qed.

(** The loop of an [lr_printer_2_digits] leaves the last pair of digits, or
    the last digit. *)
Lemma lr2_loop_leaves p num out :
  lr2_wf T p -> 1 <= num <= nt_max T -> out_fits out 64 ->
  powers_fit T (lr_printer_2_digits._base p) 1 num ->
  exists p' ptr left ptr' out',
    lr_printer_2_digits.get_max_power_ptr T p num = Ok (p', ptr) /\
    lr_printer_2_digits.print_to_out_iter_loop T
      (S (length (lr_printer_2_digits._powers p'))) p' num ptr out
    = Ok (left, ptr', out') /\
    ((ptr' = 0 /\ 0 <= left < lr_printer_2_digits._base_sqr p') \/
     (ptr' = -1 /\ 0 <= left < lr_printer_2_digits._base p')).
Proof using HT.
  intros Hwf Hnum Hfits Hno.
  pose proof Hwf as (Hb & Hsqr & Ha & Ha2 & Hpairs & Hok & Hlen2).
  pose proof (lr2_wf_cache_ok T p Hwf) as Hc. unfold lr_printer_2_digits.BASE_MAX in *.
  destruct (lr2_get_max_power_ptr_spec T HT p num Hc Hnum (fun _ => Hno))
    as (p' & ptr & Hrun & Hcfg & Hc' & _ & _ & Hptr & Hptr2 & Hbounds).
  pose proof Hcfg as (Hb' & Hs' & Ha' & Ha2').
  pose proof Hc' as (_ & Hok' & _).
  pose proof (powers_ok_length T HT (lr_printer_2_digits._base p') _ _ ltac:(lia) Hok')
    as Hlen64.
  unfold lr_printer_2_digits._powers_length in *.
  set (k := Z.to_nat (ptr + 2)).
  assert (exists j m, k = (2 * j + m)%nat /\ (m = 1 \/ m = 2)%nat) as (j & m & Hk & Hm).
  { destruct (Nat.Even_or_Odd k) as [[j Hj]|[j Hj]].
    - exists (j - 1)%nat, 2%nat. split; [lia|by right].
    - exists j, 1%nat. split; [lia|by left]. }
  assert (Hpm : 0 < lr_printer_2_digits._base p ^ Z.of_nat m)
    by (apply Z.pow_pos_nonneg; lia).
  pose proof (lr2_loop_spec T HT j (S (length (lr_printer_2_digits._powers p')))
                p' num m out Hc') as Hloop.
  replace (Z.of_nat (2 * j + m) - 2) with ptr in Hloop by lia.
  exists p', ptr. do 3 eexists. split; [exact Hrun|]. split.
  - apply Hloop; try done; try lia.
    + by rewrite Hb', Ha', Ha2'.
    + rewrite Hb'. replace (Z.of_nat (2 * j + m)) with (ptr + 2) by lia. lia.
    + apply (out_fits_le out 64); [lia|done].
  - rewrite Hb', Hs', Hsqr.
    pose proof (Z.mod_pos_bound num (lr_printer_2_digits._base p ^ Z.of_nat m) Hpm)
      as Hmod.
    destruct Hm as [-> | ->].
    + right. change (Z.of_nat 1) with 1 in *. rewrite Z.pow_1_r in *. by split.
    + left. change (Z.of_nat 2) with 2 in *. rewrite Z.pow_2_r in *. by split.
Qed.
End remainder_facts.

(** X18. What is left of the number, where the table of powers can be computed:
    in an [lr_printer], after the loop has gone from the leading power down
    to the power 1 nothing is left of the number, so that
    [assert( num == 0 )] holds and [print_to_out_iter] returns; in an
    [lr_printer_2_digits] the loop ends at the pointer 0 with less than the
    square of the base left, or at the pointer -1 with less than the base
    left, so that its asserts hold and [print_to_out_iter] returns. *)
Lemma remainder_exhausted_where_computed (T : number_type) :
  valid_number_type T ->
  (forall p num out, lr_wf T p -> 0 <= num <= nt_max T -> out_fits out 64 ->
     powers_fit T (lr_printer._base p) 0 num ->
     (exists r, lr_printer.print_to_out_iter T p num out = Ok r) /\
     (num <> 0 ->
      exists p' ptr out',
        lr_printer.get_max_power_ptr T p num = Ok (p', ptr) /\
        lr_printer.print_to_out_iter_loop T (S (length (lr_printer._powers p')))
          p' num ptr out = Ok (0, out'))) /\
  (forall p num out, lr2_wf T p -> 0 <= num <= nt_max T -> out_fits out 64 ->
     powers_fit T (lr_printer_2_digits._base p) 1 num ->
     (exists r, lr_printer_2_digits.print_to_out_iter T p num out = Ok r) /\
     (num <> 0 ->
      exists p' ptr left ptr' out',
        lr_printer_2_digits.get_max_power_ptr T p num = Ok (p', ptr) /\
        lr_printer_2_digits.print_to_out_iter_loop T
          (S (length (lr_printer_2_digits._powers p'))) p' num ptr out
        = Ok (left, ptr', out') /\
        ((ptr' = 0 /\ 0 <= left < lr_printer_2_digits._base_sqr p') \/
         (ptr' = -1 /\ 0 <= left < lr_printer_2_digits._base p')))).
Proof.
  intros HT. split; intros p num out Hwf Hnum Hfits Hno; split.
  - destruct (lr_print_to_out_iter_spec T HT p num out Hwf Hnum (fun _ => Hno) Hfits)
      as (p' & k & Hrun & _).
    eexists. exact Hrun.
  - intros Hnz. apply lr_loop_exhausts; try done. lia.
  - destruct (lr2_print_to_out_iter_spec T HT p num out Hwf Hnum (fun _ => Hno) Hfits)
      as (p' & k & Hrun & _).
    eexists. exact Hrun.
  - intros Hnz. apply lr2_loop_leaves; try done. lia.
Qed.

Lemma remainder_exhausted_where_computed_witness :
  exists p' ptr out',
    lr_printer.get_max_power_ptr t_int sample_lr 5607 = Ok (p', ptr) /\
    lr_printer.print_to_out_iter_loop t_int (S (length (lr_printer._powers p')))
      p' 5607 ptr (OutIter None []) = Ok (0, out').
Proof.
  refine (proj2 (proj1 (remainder_exhausted_where_computed t_int valid_int)
                   sample_lr 5607 (OutIter None []) _ _ _ _) _).
  - apply sample_lr_ready.
  - vm_compute. split; discriminate.
  - exact I.
  - right. exists 4%nat. vm_compute. split; [reflexivity|discriminate].
  - discriminate.
Defined.

(** C5. Remainder exhaustion, at the value 2147483647 that [test_printer]
    prints, for [int] in base 10: [get_max_power_ptr] of an [lr_printer] and
    of an [lr_printer_2_digits] overflows in the product of
    [append_helper_data]; the loop that extracts the digits is not reached,
    and [print_to_out_iter] returns nothing. *)
Theorem remainder_exhaustion_int_max :
  lr_printer.get_max_power_ptr t_int sample_lr 2147483647 = Err SignedOverflow /\
  lr_printer.print_to_out_iter t_int sample_lr 2147483647 (OutIter None [])
  = Err SignedOverflow /\
  lr_printer_2_digits.get_max_power_ptr t_int sample_lr2 2147483647
  = Err SignedOverflow /\
  lr_printer_2_digits.print_to_out_iter t_int sample_lr2 2147483647 (OutIter None [])
  = Err SignedOverflow.
Proof. split_and!; vm_compute; reflexivity. Qed.

Section boundary_facts.
Variable T : number_type.
Hypothesis HT : valid_number_type T.
Hypothesis Hunsigned : is_signed T = false.

(** A complete table has as many entries as the largest number has digits. *)
Lemma powers_ok_saturated b pw k :
  2 <= b -> powers_ok T b true pw -> is_digit_count b (nt_max T) k ->
  length pw = k /\ last pw = Some (b ^ (Z.of_nat k - 1)) /\
  b ^ (Z.of_nat k - 1) <= nt_max T < b ^ (Z.of_nat k - 1) * b.
Proof.
  intros Hb Hok Hk. pose proof Hok as (Heq & Hlen & Hmax & Hsat).
  specialize (Hsat eq_refl).
  assert (Hdc : is_digit_count b (nt_max T) (length pw)) by (split_and!; [done..|by right]).
  pose proof (is_digit_count_unique b _ _ _ Hb Hdc Hk) as <-.
  split; [done|]. split.
  - rewrite last_lookup.
    transitivity (pow_table b (length pw) !! pred (length pw)); [by rewrite <- Heq|].
    rewrite pow_table_lookup by lia. f_equal. f_equal. lia.
  - split; [done|].
    replace (b ^ (Z.of_nat (length pw) - 1) * b) with (b ^ Z.of_nat (length pw)); [done|].
    replace (Z.of_nat (length pw)) with (Z.succ (Z.of_nat (length pw) - 1)) at 1 by lia.
    rewrite Z.pow_succ_r by lia. lia.
Qed.

(** In an unsigned type the largest value saturates the table. *)
Lemma lr_print_max p :
  lr_wf T p ->
  exists p' k text,
    lr_printer.print T p (nt_max T) = Ok (p', (Z.of_nat k, text)) /\
    is_digit_count (lr_printer._base p) (nt_max T) k /\
    (alphabet_ok (lr_printer._base p) (lr_printer._alphabet p) ->
     text = encode (lr_printer._alphabet p) (lr_printer._base p) k (nt_max T)) /\
    lr_wf T p' /\ lr_printer._base p' = lr_printer._base p /\
    lr_printer._reached_max_power p' = true /\
    length (lr_printer._powers p') = k /\
    last (lr_printer._powers p') = Some (lr_printer._base p ^ (Z.of_nat k - 1)) /\
    lr_printer._base p ^ (Z.of_nat k - 1) <= nt_max T
      < lr_printer._base p ^ (Z.of_nat k - 1) * lr_printer._base p /\
    lr_printer.append_helper_data T p' = Ok (p', false).
Proof using HT Hunsigned.
  intros Hwf. pose proof (nt_max_lower T HT) as Hmax.
  change (2 ^ 31 - 1) with 2147483647 in Hmax.
  destruct (lr_print_spec T HT p (nt_max T) Hwf ltac:(lia) (fun _ => or_introl Hunsigned))
    as (p' & k & text & Hrun & Hk & _ & Hwf' & Hb' & _ & _ & Hsame & _ & _ & _ & Htext).
  exists p', k, text. pose proof Hwf' as (Hb2 & _ & Hok'). rewrite Hb' in *.
  assert (Hr : lr_printer._reached_max_power p' = true).
  { destruct (lr_printer._reached_max_power p) eqn:Hr; [by rewrite (Hsame eq_refl)|].
    destruct (lr_print_state T p (nt_max T) p' _ ltac:(lia) Hrun) as (ptr & Hget).
    apply (lr_get_max_power_ptr_flag T HT p (nt_max T) p' ptr
             (lr_wf_cache_ok T p Hwf) ltac:(lia) Hr (or_introl Hunsigned) Hget).
    by destruct Hok' as (_ & _ & Htop & _). }
  rewrite Hr in Hok'.
  destruct (powers_ok_saturated (lr_printer._base p) _ k ltac:(lia) Hok' Hk)
    as (Hlen & Hlast & Hbounds).
  split_and!; try done; try lia.
  rewrite (lr_append_spec T HT p' (lr_wf_cache_ok T p' Hwf')).
  unfold lr_printer._powers_length. rewrite Hb', Hlen.
  destruct (Z.leb_spec (lr_printer._base p ^ Z.of_nat k) (nt_max T)) as [Hle|];
    [|by rewrite Hunsigned].
  destruct Hk as (_ & Hlt & _). lia.
Qed.

Lemma lr2_print_max p :
  lr2_wf T p ->
  exists p' k text,
    lr_printer_2_digits.print T p (nt_max T) = Ok (p', (Z.of_nat k, text)) /\
    is_digit_count (lr_printer_2_digits._base p) (nt_max T) k /\
    (alphabet_ok (lr_printer_2_digits._base p) (lr_printer_2_digits._alphabet p) ->
     text = encode (lr_printer_2_digits._alphabet p) (lr_printer_2_digits._base p)
              k (nt_max T)) /\
    lr2_wf T p' /\ lr_printer_2_digits._base p' = lr_printer_2_digits._base p /\
    lr_printer_2_digits._reached_max_power p' = true /\
    length (lr_printer_2_digits._powers p') = k /\
    last (lr_printer_2_digits._powers p')
    = Some (lr_printer_2_digits._base p ^ (Z.of_nat k - 1)) /\
    lr_printer_2_digits._base p ^ (Z.of_nat k - 1) <= nt_max T
      < lr_printer_2_digits._base p ^ (Z.of_nat k - 1) * lr_printer_2_digits._base p /\
    lr_printer_2_digits.append_helper_data T p' = Ok (p', false).
Proof using HT Hunsigned.
  intros Hwf. pose proof (nt_max_lower T HT) as Hmax.
  change (2 ^ 31 - 1) with 2147483647 in Hmax.
  destruct (lr2_print_spec T HT p (nt_max T) Hwf ltac:(lia) (fun _ => or_introl Hunsigned))
    as (p' & k & text & Hrun & Hk & _ & Hwf' & (Hb' & _) & _ & Hsame & _ & _ & _ & Htext).
  exists p', k, text. pose proof Hwf' as (Hb2 & _ & _ & _ & _ & Hok' & Hlen2).
  rewrite Hb' in *.
  assert (Hr : lr_printer_2_digits._reached_max_power p' = true).
  { destruct (lr_printer_2_digits._reached_max_power p) eqn:Hr;
      [by rewrite (Hsame eq_refl)|].
    destruct (lr2_print_state T p (nt_max T) p' _ ltac:(lia) Hrun) as (ptr & Hget).
    apply (lr2_get_max_power_ptr_flag T HT p (nt_max T) p' ptr
             (lr2_wf_cache_ok T p Hwf) ltac:(lia) Hr (or_introl Hunsigned) Hget).
    destruct Hok' as (_ & _ & Htop & _). unfold lr_printer_2_digits._powers_length.
    etrans; [|exact Htop]. apply Z.pow_le_mono_r; lia. }
  rewrite Hr in Hok'.
  destruct (powers_ok_saturated (lr_printer_2_digits._base p) _ k ltac:(lia) Hok' Hk)
    as (Hlen & Hlast & Hbounds).
  split_and!; try done; try lia.
  rewrite (lr2_append_spec T HT p' (lr2_wf_cache_ok T p' Hwf')).
  unfold lr_printer_2_digits._powers_length. rewrite Hb', Hlen.
  destruct (Z.leb_spec (lr_printer_2_digits._base p ^ Z.of_nat k) (nt_max T)) as [Hle|];
    [|by rewrite Hunsigned].
  destruct Hk as (_ & Hlt & _). lia.
Qed.
End boundary_facts.

Lemma valid_unsigned : valid_number_type t_unsigned.
Proof. unfold valid_number_type. cbn. lia. Qed.

(** X19. The boundary value of an unsigned type: printing the largest value does
    not overflow the table of powers: [print] returns the count of digits and
    the text of that value, and leaves a saturated table whose top entry is
    the largest power of the base that the type holds, to which
    [append_helper_data] refuses to add (its divide-back check finds the
    product reduced). *)
Lemma boundary_value_unsigned (T : number_type) :
  valid_number_type T -> is_signed T = false ->
  (forall p, lr_wf T p ->
     exists p' k text,
       lr_printer.print T p (nt_max T) = Ok (p', (Z.of_nat k, text)) /\
       is_digit_count (lr_printer._base p) (nt_max T) k /\
       (alphabet_ok (lr_printer._base p) (lr_printer._alphabet p) ->
        text = encode (lr_printer._alphabet p) (lr_printer._base p) k (nt_max T)) /\
       lr_wf T p' /\ lr_printer._base p' = lr_printer._base p /\
       lr_printer._reached_max_power p' = true /\
       length (lr_printer._powers p') = k /\
       last (lr_printer._powers p') = Some (lr_printer._base p ^ (Z.of_nat k - 1)) /\
       lr_printer._base p ^ (Z.of_nat k - 1) <= nt_max T
         < lr_printer._base p ^ (Z.of_nat k - 1) * lr_printer._base p /\
       lr_printer.append_helper_data T p' = Ok (p', false)) /\
  (forall p, lr2_wf T p ->
     exists p' k text,
       lr_printer_2_digits.print T p (nt_max T) = Ok (p', (Z.of_nat k, text)) /\
       is_digit_count (lr_printer_2_digits._base p) (nt_max T) k /\
       (alphabet_ok (lr_printer_2_digits._base p) (lr_printer_2_digits._alphabet p) ->
        text = encode (lr_printer_2_digits._alphabet p) (lr_printer_2_digits._base p)
                 k (nt_max T)) /\
       lr2_wf T p' /\ lr_printer_2_digits._base p' = lr_printer_2_digits._base p /\
       lr_printer_2_digits._reached_max_power p' = true /\
       length (lr_printer_2_digits._powers p') = k /\
       last (lr_printer_2_digits._powers p')
       = Some (lr_printer_2_digits._base p ^ (Z.of_nat k - 1)) /\
       lr_printer_2_digits._base p ^ (Z.of_nat k - 1) <= nt_max T
         < lr_printer_2_digits._base p ^ (Z.of_nat k - 1)
           * lr_printer_2_digits._base p /\
       lr_printer_2_digits.append_helper_data T p' = Ok (p', false)).
Proof.
  intros HT Hs. split.
  - intros p Hwf. by apply lr_print_max.
  - intros p Hwf. by apply lr2_print_max.
Qed.

Lemma boundary_value_unsigned_witness :
  exists p p' k text,
    lr_printer.construct t_unsigned (fun _ => NUL) 10 = Ok p /\
    lr_printer.print t_unsigned p (nt_max t_unsigned) = Ok (p', (Z.of_nat k, text)) /\
    is_digit_count 10 (nt_max t_unsigned) k /\
    lr_printer._reached_max_power p' = true /\
    length (lr_printer._powers p') = k.
Proof.
  destruct (lr_construct_spec t_unsigned valid_unsigned (fun _ => NUL) 10 ltac:(vm_compute; split; discriminate))
    as (p & Hp & Hwf & Hb & _).
  destruct (proj1 (boundary_value_unsigned t_unsigned valid_unsigned eq_refl) p Hwf)
    as (p' & k & text & H1 & H2 & _ & _ & _ & H3 & H4 & _).
  rewrite Hb in H2.
  exists p, p', k, text.
  split; [exact Hp|]. split; [exact H1|]. split; [exact H2|]. split; [exact H3|exact H4].
Defined.

(** C6. Boundary value, for a 32-bit signed int in base 10, on the
    [lr_printer] that the constructor builds: the product 1000000000 * 10 of
    [append_helper_data] is not representable, so that the [print] of
    2147483647 overflows before the divide-back check is made; the table is
    not saturated, and [print] returns neither a digit count nor a text.  The
    [print] of 999999999 still returns, with 1000000000 on top of the table
    and the flag not set; the next append overflows. *)
Theorem boundary_value_int_max :
  nt_max t_int = 2147483647 /\
  lr_printer.construct t_int (fun _ => NUL) 10 = Ok sample_lr /\
  lr_printer.print t_int sample_lr 2147483647 = Err SignedOverflow /\
  nt_mul t_int 1000000000 10 = Err SignedOverflow /\
  (exists p',
     lr_printer.print t_int sample_lr 999999999 = Ok (p', (9, text "999999999")) /\
     lr_printer._powers p'
     = [1; 10; 100; 1000; 10000; 100000; 1000000; 10000000; 100000000; 1000000000] /\
     lr_printer._reached_max_power p' = false /\
     lr_printer.append_helper_data t_int p' = Err SignedOverflow).
Proof.
  split_and!.
  - reflexivity.
  - vm_compute. reflexivity.
  - vm_compute. reflexivity.
  - vm_compute. reflexivity.
  - eexists. split; [vm_compute; reflexivity|]. by vm_compute.
Qed.

Lemma c_str_one_char a c : c_str a [c; NUL] = Ok (one_char c).
Proof. unfold one_char. cbn. by destruct (Ascii.eqb c NUL). Qed.

(** The scratch buffer of a modulo printer after the digit of zero went in. *)
Lemma put_before_last capacity buffer c :
  2 <= capacity -> buffer_ok capacity buffer ->
  exists pre,
    put_before buffer (capacity - 1) c = Ok (pre ++ [c; NUL], capacity - 2) /\
    Z.of_nat (length pre) = capacity - 2.
Proof.
  intros Hcap Hok.
  destruct (buffer_ok_split capacity buffer ltac:(lia) Hok) as (pre & -> & Hpre).
  destruct (list_snoc_inv pre (Z.to_nat (capacity - 2)) ltac:(lia)) as (pre' & m & -> & Hpre').
  exists pre'. rewrite <- app_assoc. cbn [app].
  replace (capacity - 1) with (Z.of_nat (length pre') + 1) by lia.
  rewrite put_before_spec. split; [|lia]. do 2 f_equal. lia.
Qed.

Section zero_facts.
Variable T : number_type.

Lemma lr_print_zero p c :
  lr_printer._alphabet p !! 0%nat = Some c ->
  lr_printer.print T p 0 = Ok (p, (1, one_char c)) /\
  lr_printer.print_ostream T p 0 = Ok (p, [c]) /\
  lr_printer.print_file T p 0 = Ok (p, (1, one_char c)).
Proof.
  intros Hc.
  unfold lr_printer.print, lr_printer.print_ostream, lr_printer.print_file,
    lr_printer.print_to_out_iter.
  cbn [Z.eqb]. rewrite (array_read_Some Alphabet _ 0 c) by done.
  cbv -[Ascii.eqb NUL]. destruct (Ascii.eqb c NUL); split_and!; reflexivity.
Qed.

Lemma lr2_print_zero p c :
  lr_printer_2_digits._alphabet p !! 0%nat = Some c ->
  lr_printer_2_digits.print T p 0 = Ok (p, (1, one_char c)) /\
  lr_printer_2_digits.print_ostream T p 0 = Ok (p, [c]) /\
  lr_printer_2_digits.print_file T p 0 = Ok (p, (1, one_char c)).
Proof.
  intros Hc.
  unfold lr_printer_2_digits.print, lr_printer_2_digits.print_ostream,
    lr_printer_2_digits.print_file, lr_printer_2_digits.print_to_out_iter.
  cbn [Z.eqb]. rewrite (array_read_Some Alphabet _ 0 c) by done.
  cbv -[Ascii.eqb NUL]. destruct (Ascii.eqb c NUL); split_and!; reflexivity.
Qed.

Lemma mod_print_zero p c :
  modulo_printer._alphabet p !! 0%nat = Some c ->
  buffer_ok modulo_printer.DIGITS_MAX (modulo_printer._buffer p) ->
  exists p',
    modulo_printer.print T p 0 = Ok (p', (1, one_char c)) /\
    modulo_printer.print_ostream T p 0 = Ok (p', [c]).
Proof.
  intros Hc Hbuf.
  destruct (put_before_last modulo_printer.DIGITS_MAX _ c ltac:(done) Hbuf)
    as (pre & Hput & Hpre).
  unfold modulo_printer.print, modulo_printer.print_ostream,
    modulo_printer.print_to_buffer.
  cbn [Z.eqb]. rewrite (array_read_Some Alphabet _ 0 c) by done.
  cbn [bind]. rewrite Hput. cbn [bind fst snd modulo_printer.with_buffer
    modulo_printer._buffer].
  replace (Z.to_nat (modulo_printer.DIGITS_MAX - 2)) with (length pre) by lia.
  rewrite drop_app_length, c_str_one_char. cbn [bind].
  replace (wrap t_int (modulo_printer.DIGITS_MAX - 1 - (modulo_printer.DIGITS_MAX - 2)))
    with 1 by reflexivity.
  eexists. split; reflexivity.
Qed.

Lemma mod2_print_zero p c :
  modulo_printer_2_digits._alphabet p !! 0%nat = Some c ->
  buffer_ok modulo_printer_2_digits.DIGITS_MAX (modulo_printer_2_digits._buffer p) ->
  exists p',
    modulo_printer_2_digits.print T p 0 = Ok (p', (1, one_char c)) /\
    modulo_printer_2_digits.print_ostream T p 0 = Ok (p', [c]).
Proof.
  intros Hc Hbuf.
  destruct (put_before_last modulo_printer_2_digits.DIGITS_MAX _ c ltac:(done) Hbuf)
    as (pre & Hput & Hpre).
  unfold modulo_printer_2_digits.print, modulo_printer_2_digits.print_ostream,
    modulo_printer_2_digits.print_to_buffer.
  cbn [Z.eqb]. rewrite (array_read_Some Alphabet _ 0 c) by done.
  cbn [bind]. rewrite Hput. cbn [bind fst snd modulo_printer_2_digits.with_buffer
    modulo_printer_2_digits._buffer].
  replace (Z.to_nat (modulo_printer_2_digits.DIGITS_MAX - 2)) with (length pre) by lia.
  rewrite drop_app_length, c_str_one_char. cbn [bind].
  replace (wrap t_int (modulo_printer_2_digits.DIGITS_MAX - 1
                       - (modulo_printer_2_digits.DIGITS_MAX - 2)))
    with 1 by reflexivity.
  eexists. split; reflexivity.
Qed.
End zero_facts.

(** C7. Zero handling: whatever the base and the tables are, each of the four
    classes prints 0 as the one character [_alphabet[0]]: the stream variant
    writes that character and nothing else, and the buffer variant returns the
    count 1 and leaves the C string of that character (which is the empty
    string when the alphabet starts with the NUL character).  The modulo
    printers find the terminator that their constructor has put at the end of
    [_buffer]. *)
Theorem zero_handling (T : number_type) :
  (forall p c, lr_printer._alphabet p !! 0%nat = Some c ->
     lr_printer.print T p 0 = Ok (p, (1, one_char c)) /\
     lr_printer.print_ostream T p 0 = Ok (p, [c]) /\
     lr_printer.print_file T p 0 = Ok (p, (1, one_char c))) /\
  (forall p c, lr_printer_2_digits._alphabet p !! 0%nat = Some c ->
     lr_printer_2_digits.print T p 0 = Ok (p, (1, one_char c)) /\
     lr_printer_2_digits.print_ostream T p 0 = Ok (p, [c]) /\
     lr_printer_2_digits.print_file T p 0 = Ok (p, (1, one_char c))) /\
  (forall p c, modulo_printer._alphabet p !! 0%nat = Some c ->
     buffer_ok modulo_printer.DIGITS_MAX (modulo_printer._buffer p) ->
     exists p',
       modulo_printer.print T p 0 = Ok (p', (1, one_char c)) /\
       modulo_printer.print_ostream T p 0 = Ok (p', [c])) /\
  (forall p c, modulo_printer_2_digits._alphabet p !! 0%nat = Some c ->
     buffer_ok modulo_printer_2_digits.DIGITS_MAX (modulo_printer_2_digits._buffer p) ->
     exists p',
       modulo_printer_2_digits.print T p 0 = Ok (p', (1, one_char c)) /\
       modulo_printer_2_digits.print_ostream T p 0 = Ok (p', [c])) /\
  (forall c, c <> NUL -> one_char c = [c]).
Proof.
  split_and!.
  - apply lr_print_zero.
  - apply lr2_print_zero.
  - apply mod_print_zero.
  - apply mod2_print_zero.
  - intros c Hc. unfold one_char. by destruct (Ascii.eqb_spec c NUL).
Qed.

Lemma zero_handling_witness :
  lr_printer.print t_int sample_lr 0 = Ok (sample_lr, (1, text "0")) /\
  exists p', modulo_printer.print t_int sample_mod 0 = Ok (p', (1, text "0")).
Proof.
  destruct (zero_handling t_int) as (Hlr & _ & Hmod & _). split.
  - apply (Hlr sample_lr "0"%char). reflexivity.
  - destruct (Hmod sample_mod "0"%char) as (p' & Hp & _).
    + reflexivity.
    + apply sample_mod_ready.
    + exists p'. exact Hp.
Defined.

(** ** Changing the base *)

Lemma digits_255_base_8 k :
  is_digit_count 8 255 k ->
  Z.of_nat k = 3 /\ encode default_alphabet 8 k 255 = text "377".
Proof.
  intros Hk.
  assert (H3 : is_digit_count 8 255 3) by (split_and!; [lia|by vm_compute|right; by vm_compute]).
  rewrite (is_digit_count_unique 8 255 k 3 ltac:(lia) Hk H3). split; reflexivity.
Qed.

Lemma digits_255_base_16 k :
  is_digit_count 16 255 k ->
  Z.of_nat k = 2 /\ encode default_alphabet 16 k 255 = text "ff".
Proof.
  intros Hk.
  assert (H2 : is_digit_count 16 255 2) by (split_and!; [lia|by vm_compute|right; by vm_compute]).
  rewrite (is_digit_count_unique 16 255 k 2 ltac:(lia) Hk H2). split; reflexivity.
Qed.

Section base_change.
Variable T : number_type.
Hypothesis HT : valid_number_type T.

Lemma value_255 : 0 <= 255 <= nt_max T.
Proof using HT.
  pose proof (nt_max_lower T HT) as H. change (2 ^ 31 - 1) with 2147483647 in H. lia.
Qed.

(** The powers that printing 255 asks for are representable. *)
Lemma fit_255_base_8 : powers_fit T 8 1 255.
Proof using HT.
  pose proof (nt_max_lower T HT) as H. change (2 ^ 31 - 1) with 2147483647 in H.
  right. exists 3%nat. change (8 ^ Z.of_nat 3) with 512.
  change (8 ^ Z.of_nat (3 + 1)) with 4096. lia.
Qed.

Lemma fit_255_base_16 : powers_fit T 16 1 255.
Proof using HT.
  pose proof (nt_max_lower T HT) as H. change (2 ^ 31 - 1) with 2147483647 in H.
  right. exists 2%nat. change (16 ^ Z.of_nat 2) with 256.
  change (16 ^ Z.of_nat (2 + 1)) with 4096. lia.
Qed.

(** *** [set_base( 8 )] on a printer of a larger base *)

Lemma lr_to_octal b0 p :
  8 <= b0 -> lr_ready T b0 p ->
  exists p0,
    lr_printer.set_base T p 8 = Ok p0 /\
    lr_printer._powers p0 = [1; 8; 64; 512] /\
    lr_printer._reached_max_power p0 = false /\
    lr_ready T 8 p0.
Proof using HT.
  intros Hb0 (Hwf & Hb & Hdef). pose proof Hwf as (_ & Ha & _).
  destruct (lr_set_base_spec T HT p 8 ltac:(done) Ha) as [Hset Hwf0].
  eexists. split; [exact Hset|]. split; [reflexivity|]. split; [reflexivity|].
  split; [exact Hwf0|]. split; [reflexivity|].
  apply (is_default_alphabet_le b0); [lia|done].
Qed.

Lemma lr2_to_octal b0 p :
  8 <= b0 -> lr2_ready T b0 p ->
  exists p0,
    lr_printer_2_digits.set_base T p 8 = Ok p0 /\
    lr_printer_2_digits._powers p0 = [1; 8; 64; 512] /\
    lr_printer_2_digits._reached_max_power p0 = false /\
    lr_printer_2_digits._base_sqr p0 = 64 /\
    pairs_ok 8 (lr_printer_2_digits._alphabet p0) (lr_printer_2_digits._alphabet_sqr p0) /\
    lr2_ready T 8 p0.
Proof using HT.
  intros Hb0 (Hwf & Hb & Hdef).
  destruct (lr2_set_base_spec T HT p 8 (lr2_wf_sized T p Hwf) ltac:(done))
    as (p0 & Hset & Hwf0 & Hb8 & Ha0 & Hpw0 & Hfl0).
  pose proof Hwf0 as (_ & Hsqr & _ & _ & Hpairs & _). rewrite Hb8 in Hsqr, Hpairs.
  exists p0. split; [exact Hset|]. split; [by rewrite Hpw0|]. split; [exact Hfl0|].
  split; [exact Hsqr|]. split; [exact Hpairs|].
  split; [exact Hwf0|]. split; [exact Hb8|]. rewrite Ha0.
  apply (is_default_alphabet_le b0); [lia|done].
Qed.

Lemma mod_to_octal b0 p :
  8 <= b0 -> mod_ready b0 p ->
  exists p0, modulo_printer.set_base p 8 = Ok p0 /\ mod_ready 8 p0.
Proof.
  intros Hb0 (Hwf & Hb & Hdef).
  destruct (mod_set_base_spec p 8 Hwf ltac:(done)) as (b & Hset & Hwf0).
  eexists. split; [exact Hset|]. split; [exact Hwf0|]. split; [reflexivity|].
  apply (is_default_alphabet_le b0); [lia|done].
Qed.

Lemma mod2_to_octal b0 p :
  8 <= b0 -> mod2_ready b0 p ->
  exists p0,
    modulo_printer_2_digits.set_base p 8 = Ok p0 /\
    modulo_printer_2_digits._base_sqr p0 = 64 /\
    pairs_ok 8 (modulo_printer_2_digits._alphabet p0)
      (modulo_printer_2_digits._alphabet_sqr p0) /\
    mod2_ready 8 p0.
Proof.
  intros Hb0 (Hwf & Hb & Hdef).
  destruct (mod2_set_base_spec p 8 (mod2_wf_sized p Hwf) ltac:(done))
    as (p0 & Hset & Hwf0 & Hb8 & Ha0).
  pose proof Hwf0 as (_ & Hsqr & _ & _ & Hpairs & _). rewrite Hb8 in Hsqr, Hpairs.
  exists p0. split; [exact Hset|]. split; [exact Hsqr|]. split; [exact Hpairs|].
  split; [exact Hwf0|]. split; [exact Hb8|]. rewrite Ha0.
  apply (is_default_alphabet_le b0); [lia|done].
Qed.

(** *** From base 8 to base 16 *)

Lemma lr_base_change p :
  lr_ready T 8 p ->
  exists p1 p2 p3 p4,
    lr_printer.print T p 255 = Ok (p1, (3, text "377")) /\
    lr_printer.set_base T p1 16 = Ok p2 /\
    lr_printer._powers p2 = [1; 16; 256; 4096] /\
    lr_printer._reached_max_power p2 = false /\
    lr_printer.setup_default_alphabet p2 = Ok p3 /\
    lr_ready T 16 p3 /\
    lr_printer.print T p3 255 = Ok (p4, (2, text "ff")).
Proof using HT.
  intros Hr.
  assert (Hf8 : powers_fit T 8 0 255)
    by (apply (powers_fit_ahead T 8 1 0); [lia|lia|apply fit_255_base_8]).
  assert (Hf16 : powers_fit T 16 0 255)
    by (apply (powers_fit_ahead T 16 1 0); [lia|lia|apply fit_255_base_16]).
  destruct (lr_ready_print T HT 8 255 value_255 p Hr Hf8) as (p1 & k & Hrun & Hk & Hr1).
  destruct (digits_255_base_8 k Hk) as [E1 E2]. rewrite E1, E2 in Hrun.
  destruct Hr1 as (Hwf1 & _ & _). pose proof Hwf1 as (_ & Ha1 & _).
  destruct (lr_set_base_spec T HT p1 16 ltac:(done) Ha1) as [Hset Hwf2].
  destruct (lr_setup_default_alphabet_spec T _ Hwf2) as (a & Hsetup & Hwf3 & Hdef3 & _).
  assert (Hr3 : lr_ready T 16 (lr_printer.with_alphabet
                 (lr_printer.Make 16 (lr_printer._alphabet p1) false (pow_table 16 4)) a))
    by by split_and!.
  destruct (lr_ready_print T HT 16 255 value_255 _ Hr3 Hf16) as (p4 & k' & Hrun' & Hk' & _).
  destruct (digits_255_base_16 k' Hk') as [E1' E2']. rewrite E1', E2' in Hrun'.
  do 4 eexists. split_and!; [exact Hrun|exact Hset|reflexivity|reflexivity|exact Hsetup
                             |exact Hr3|exact Hrun'].
Qed.

Lemma lr2_base_change p :
  lr2_ready T 8 p ->
  exists p1 p2 p3 p4,
    lr_printer_2_digits.print T p 255 = Ok (p1, (3, text "377")) /\
    lr_printer_2_digits.set_base T p1 16 = Ok p2 /\
    lr_printer_2_digits._powers p2 = [1; 16; 256; 4096] /\
    lr_printer_2_digits._reached_max_power p2 = false /\
    lr_printer_2_digits._base_sqr p2 = 256 /\
    pairs_ok 16 (lr_printer_2_digits._alphabet p2) (lr_printer_2_digits._alphabet_sqr p2) /\
    lr_printer_2_digits.setup_default_alphabet p2 = Ok p3 /\
    pairs_ok 16 (lr_printer_2_digits._alphabet p3) (lr_printer_2_digits._alphabet_sqr p3) /\
    lr2_ready T 16 p3 /\
    lr_printer_2_digits.print T p3 255 = Ok (p4, (2, text "ff")).
Proof using HT.
  intros Hr.
  destruct (lr2_ready_print T HT 8 255 value_255 p Hr fit_255_base_8)
    as (p1 & k & Hrun & Hk & Hr1).
  destruct (digits_255_base_8 k Hk) as [E1 E2]. rewrite E1, E2 in Hrun.
  destruct Hr1 as (Hwf1 & _ & _).
  destruct (lr2_set_base_spec T HT p1 16 (lr2_wf_sized T p1 Hwf1) ltac:(done))
    as (p2 & Hset & Hwf2 & Hb2 & _ & Hpw2 & Hfl2).
  destruct (lr2_setup_default_alphabet_spec T p2 Hwf2 ltac:(lia))
    as (p3 & Hsetup & Hwf3 & Hb3 & Hdef3 & _).
  rewrite Hb2 in Hb3, Hdef3.
  assert (Hr3 : lr2_ready T 16 p3) by by split_and!.
  destruct (lr2_ready_print T HT 16 255 value_255 _ Hr3 fit_255_base_16)
    as (p4 & k' & Hrun' & Hk' & _).
  destruct (digits_255_base_16 k' Hk') as [E1' E2']. rewrite E1', E2' in Hrun'.
  pose proof Hwf2 as (_ & Hsqr2 & _ & _ & Hpairs2 & _). rewrite Hb2 in Hsqr2, Hpairs2.
  pose proof Hwf3 as (_ & _ & _ & _ & Hpairs3 & _). rewrite Hb3 in Hpairs3.
  exists p1, p2, p3, p4.
  split_and!; [exact Hrun|exact Hset|by rewrite Hpw2|exact Hfl2|exact Hsqr2|exact Hpairs2
               |exact Hsetup|exact Hpairs3|exact Hr3|exact Hrun'].
Qed.

Lemma mod_base_change p :
  mod_ready 8 p ->
  exists p1 p2 p3 p4,
    modulo_printer.print T p 255 = Ok (p1, (3, text "377")) /\
    modulo_printer.set_base p1 16 = Ok p2 /\
    modulo_printer.setup_default_alphabet p2 = Ok p3 /\
    mod_ready 16 p3 /\
    modulo_printer.print T p3 255 = Ok (p4, (2, text "ff")).
Proof using HT.
  intros Hr.
  destruct (mod_ready_print T HT 8 255 value_255 p Hr) as (p1 & k & Hrun & Hk & Hr1).
  destruct (digits_255_base_8 k Hk) as [E1 E2]. rewrite E1, E2 in Hrun.
  destruct Hr1 as (Hwf1 & _ & _).
  destruct (mod_set_base_spec p1 16 Hwf1 ltac:(done)) as (b & Hset & Hwf2).
  destruct (mod_setup_default_alphabet_spec _ Hwf2) as (a & Hsetup & Hwf3 & Hdef3 & _).
  assert (Hr3 : mod_ready 16 (modulo_printer.with_alphabet
                 (modulo_printer.Make 16 (modulo_printer._alphabet p1) b) a))
    by by split_and!.
  destruct (mod_ready_print T HT 16 255 value_255 _ Hr3) as (p4 & k' & Hrun' & Hk' & _).
  destruct (digits_255_base_16 k' Hk') as [E1' E2']. rewrite E1', E2' in Hrun'.
  do 4 eexists. split_and!; [exact Hrun|exact Hset|exact Hsetup|exact Hr3|exact Hrun'].
Qed.

Lemma mod2_base_change p :
  mod2_ready 8 p ->
  exists p1 p2 p3 p4,
    modulo_printer_2_digits.print T p 255 = Ok (p1, (3, text "377")) /\
    modulo_printer_2_digits.set_base p1 16 = Ok p2 /\
    modulo_printer_2_digits._base_sqr p2 = 256 /\
    pairs_ok 16 (modulo_printer_2_digits._alphabet p2)
      (modulo_printer_2_digits._alphabet_sqr p2) /\
    modulo_printer_2_digits.setup_default_alphabet p2 = Ok p3 /\
    pairs_ok 16 (modulo_printer_2_digits._alphabet p3)
      (modulo_printer_2_digits._alphabet_sqr p3) /\
    mod2_ready 16 p3 /\
    modulo_printer_2_digits.print T p3 255 = Ok (p4, (2, text "ff")).
Proof using HT.
  intros Hr.
  destruct (mod2_ready_print T HT 8 255 value_255 p Hr) as (p1 & k & Hrun & Hk & Hr1).
  destruct (digits_255_base_8 k Hk) as [E1 E2]. rewrite E1, E2 in Hrun.
  destruct Hr1 as (Hwf1 & _ & _).
  destruct (mod2_set_base_spec p1 16 (mod2_wf_sized p1 Hwf1) ltac:(done))
    as (p2 & Hset & Hwf2 & Hb2 & _).
  destruct (mod2_setup_default_alphabet_spec p2 Hwf2)
    as (p3 & Hsetup & Hwf3 & Hb3 & Hdef3 & _).
  rewrite Hb2 in Hb3, Hdef3.
  assert (Hr3 : mod2_ready 16 p3) by by split_and!.
  destruct (mod2_ready_print T HT 16 255 value_255 _ Hr3) as (p4 & k' & Hrun' & Hk' & _).
  destruct (digits_255_base_16 k' Hk') as [E1' E2']. rewrite E1', E2' in Hrun'.
  pose proof Hwf2 as (_ & Hsqr2 & _ & _ & Hpairs2 & _). rewrite Hb2 in Hsqr2, Hpairs2.
  pose proof Hwf3 as (_ & _ & _ & _ & Hpairs3 & _). rewrite Hb3 in Hpairs3.
  exists p1, p2, p3, p4.
  split_and!; [exact Hrun|exact Hset|exact Hsqr2|exact Hpairs2|exact Hsetup|exact Hpairs3
               |exact Hr3|exact Hrun'].
Qed.
End base_change.

(** C8. Base change consistency: an instance of any of the four classes that
    prints in a base of 8 at least with the default alphabet, as the
    constructors build it, prints 255 as "377" (3 digits) after
    [set_base(8)]; after [set_base(16)] and [setup_default_alphabet()] the
    same instance prints 255 as "ff" (2 digits).  Each [set_base] resets the
    derived state: the table of powers starts anew, at 1, 8, 64, 512 and at
    1, 16, 256, 4096, with the flag down, and in the paired classes the
    square of the base is recomputed and the table of pairs is computed anew
    for the new base; [setup_default_alphabet] computes the table of pairs
    anew for the new alphabet. *)
Theorem base_change_consistency (T : number_type) :
  valid_number_type T ->
  (forall b0 p, 8 <= b0 -> lr_ready T b0 p ->
     exists p0 p1 p2 p3 p4,
       lr_printer.set_base T p 8 = Ok p0 /\
       lr_printer._powers p0 = [1; 8; 64; 512] /\
       lr_printer._reached_max_power p0 = false /\
       lr_printer.print T p0 255 = Ok (p1, (3, text "377")) /\
       lr_printer.set_base T p1 16 = Ok p2 /\
       lr_printer._powers p2 = [1; 16; 256; 4096] /\
       lr_printer._reached_max_power p2 = false /\
       lr_printer.setup_default_alphabet p2 = Ok p3 /\
       lr_ready T 16 p3 /\
       lr_printer.print T p3 255 = Ok (p4, (2, text "ff"))) /\
  (forall b0 p, 8 <= b0 -> lr2_ready T b0 p ->
     exists p0 p1 p2 p3 p4,
       lr_printer_2_digits.set_base T p 8 = Ok p0 /\
       lr_printer_2_digits._powers p0 = [1; 8; 64; 512] /\
       lr_printer_2_digits._reached_max_power p0 = false /\
       lr_printer_2_digits._base_sqr p0 = 64 /\
       pairs_ok 8 (lr_printer_2_digits._alphabet p0)
         (lr_printer_2_digits._alphabet_sqr p0) /\
       lr_printer_2_digits.print T p0 255 = Ok (p1, (3, text "377")) /\
       lr_printer_2_digits.set_base T p1 16 = Ok p2 /\
       lr_printer_2_digits._powers p2 = [1; 16; 256; 4096] /\
       lr_printer_2_digits._reached_max_power p2 = false /\
       lr_printer_2_digits._base_sqr p2 = 256 /\
       pairs_ok 16 (lr_printer_2_digits._alphabet p2)
         (lr_printer_2_digits._alphabet_sqr p2) /\
       lr_printer_2_digits.setup_default_alphabet p2 = Ok p3 /\
       pairs_ok 16 (lr_printer_2_digits._alphabet p3)
         (lr_printer_2_digits._alphabet_sqr p3) /\
       lr2_ready T 16 p3 /\
       lr_printer_2_digits.print T p3 255 = Ok (p4, (2, text "ff"))) /\
  (forall b0 p, 8 <= b0 -> mod_ready b0 p ->
     exists p0 p1 p2 p3 p4,
       modulo_printer.set_base p 8 = Ok p0 /\
       modulo_printer.print T p0 255 = Ok (p1, (3, text "377")) /\
       modulo_printer.set_base p1 16 = Ok p2 /\
       modulo_printer.setup_default_alphabet p2 = Ok p3 /\
       mod_ready 16 p3 /\
       modulo_printer.print T p3 255 = Ok (p4, (2, text "ff"))) /\
  (forall b0 p, 8 <= b0 -> mod2_ready b0 p ->
     exists p0 p1 p2 p3 p4,
       modulo_printer_2_digits.set_base p 8 = Ok p0 /\
       modulo_printer_2_digits._base_sqr p0 = 64 /\
       pairs_ok 8 (modulo_printer_2_digits._alphabet p0)
         (modulo_printer_2_digits._alphabet_sqr p0) /\
       modulo_printer_2_digits.print T p0 255 = Ok (p1, (3, text "377")) /\
       modulo_printer_2_digits.set_base p1 16 = Ok p2 /\
       modulo_printer_2_digits._base_sqr p2 = 256 /\
       pairs_ok 16 (modulo_printer_2_digits._alphabet p2)
         (modulo_printer_2_digits._alphabet_sqr p2) /\
       modulo_printer_2_digits.setup_default_alphabet p2 = Ok p3 /\
       pairs_ok 16 (modulo_printer_2_digits._alphabet p3)
         (modulo_printer_2_digits._alphabet_sqr p3) /\
       mod2_ready 16 p3 /\
       modulo_printer_2_digits.print T p3 255 = Ok (p4, (2, text "ff"))).
Proof.
  intros HT. split_and!; intros b0 p Hb0 Hr.
  - destruct (lr_to_octal T HT b0 p Hb0 Hr) as (p0 & H1 & H2 & H3 & Hr0).
    destruct (lr_base_change T HT p0 Hr0) as (p1 & p2 & p3 & p4 & H4 & H5 & H6 & H7 & H8 & H9 & H10).
    exists p0, p1, p2, p3, p4.
    split_and!; [exact H1|exact H2|exact H3|exact H4|exact H5|exact H6|exact H7|exact H8
                 |exact H9|exact H10].
  - destruct (lr2_to_octal T HT b0 p Hb0 Hr) as (p0 & H1 & H2 & H3 & H4 & H5 & Hr0).
    destruct (lr2_base_change T HT p0 Hr0)
      as (p1 & p2 & p3 & p4 & H6 & H7 & H8 & H9 & H10 & H11 & H12 & H13 & H14 & H15).
    exists p0, p1, p2, p3, p4.
    split_and!; [exact H1|exact H2|exact H3|exact H4|exact H5|exact H6|exact H7|exact H8
                 |exact H9|exact H10|exact H11|exact H12|exact H13|exact H14|exact H15].
  - destruct (mod_to_octal b0 p Hb0 Hr) as (p0 & H1 & Hr0).
    destruct (mod_base_change T HT p0 Hr0) as (p1 & p2 & p3 & p4 & H2 & H3 & H4 & H5 & H6).
    exists p0, p1, p2, p3, p4.
    split_and!; [exact H1|exact H2|exact H3|exact H4|exact H5|exact H6].
  - destruct (mod2_to_octal b0 p Hb0 Hr) as (p0 & H1 & H2 & H3 & Hr0).
    destruct (mod2_base_change T HT p0 Hr0)
      as (p1 & p2 & p3 & p4 & H4 & H5 & H6 & H7 & H8 & H9 & H10 & H11).
    exists p0, p1, p2, p3, p4.
    split_and!; [exact H1|exact H2|exact H3|exact H4|exact H5|exact H6|exact H7|exact H8
                 |exact H9|exact H10|exact H11].
Qed.

Lemma base_change_consistency_witness :
  (exists p0 p1 p2 p3 p4,
     lr_printer.set_base t_int sample_lr 8 = Ok p0 /\
     lr_printer.print t_int p0 255 = Ok (p1, (3, text "377")) /\
     lr_printer.set_base t_int p1 16 = Ok p2 /\
     lr_printer.setup_default_alphabet p2 = Ok p3 /\
     lr_printer.print t_int p3 255 = Ok (p4, (2, text "ff"))) /\
  (exists p0 p1 p2 p3 p4,
     lr_printer_2_digits.set_base t_int sample_lr2 8 = Ok p0 /\
     lr_printer_2_digits.print t_int p0 255 = Ok (p1, (3, text "377")) /\
     lr_printer_2_digits.set_base t_int p1 16 = Ok p2 /\
     lr_printer_2_digits.setup_default_alphabet p2 = Ok p3 /\
     lr_printer_2_digits.print t_int p3 255 = Ok (p4, (2, text "ff"))) /\
  (exists p0 p1 p2 p3 p4,
     modulo_printer.set_base sample_mod 8 = Ok p0 /\
     modulo_printer.print t_int p0 255 = Ok (p1, (3, text "377")) /\
     modulo_printer.set_base p1 16 = Ok p2 /\
     modulo_printer.setup_default_alphabet p2 = Ok p3 /\
     modulo_printer.print t_int p3 255 = Ok (p4, (2, text "ff"))) /\
  (exists p0 p1 p2 p3 p4,
     modulo_printer_2_digits.set_base sample_mod2 8 = Ok p0 /\
     modulo_printer_2_digits.print t_int p0 255 = Ok (p1, (3, text "377")) /\
     modulo_printer_2_digits.set_base p1 16 = Ok p2 /\
     modulo_printer_2_digits.setup_default_alphabet p2 = Ok p3 /\
     modulo_printer_2_digits.print t_int p3 255 = Ok (p4, (2, text "ff"))).
Proof.
  destruct (base_change_consistency t_int valid_int) as (H1 & H2 & H3 & H4).
  assert (Hb0 : 8 <= 10) by lia.
  split_and!.
  - destruct (H1 10 sample_lr Hb0 sample_lr_ready)
      as (p0 & p1 & p2 & p3 & p4 & E1 & _ & _ & E2 & E3 & _ & _ & E4 & _ & E5).
    exists p0, p1, p2, p3, p4.
    split; [exact E1|]. split; [exact E2|]. split; [exact E3|]. split; [exact E4|exact E5].
  - destruct (H2 10 sample_lr2 Hb0 sample_lr2_ready)
      as (p0 & p1 & p2 & p3 & p4 & E1 & _ & _ & _ & _ & E2 & E3 & _ & _ & _ & _ & E4 & _ & _ & E5).
    exists p0, p1, p2, p3, p4.
    split; [exact E1|]. split; [exact E2|]. split; [exact E3|]. split; [exact E4|exact E5].
  - destruct (H3 10 sample_mod Hb0 sample_mod_ready)
      as (p0 & p1 & p2 & p3 & p4 & E1 & E2 & E3 & E4 & _ & E5).
    exists p0, p1, p2, p3, p4.
    split; [exact E1|]. split; [exact E2|]. split; [exact E3|]. split; [exact E4|exact E5].
  - destruct (H4 10 sample_mod2 Hb0 sample_mod2_ready)
      as (p0 & p1 & p2 & p3 & p4 & E1 & _ & _ & E2 & E3 & _ & _ & E4 & _ & _ & E5).
    exists p0, p1, p2, p3, p4.
    split; [exact E1|]. split; [exact E2|]. split; [exact E3|]. split; [exact E4|exact E5].
Defined.

(** ** The default alphabet and the largest bases *)

Lemma default_alphabet_filled b a old :
  is_default_alphabet b a ->
  drop (Z.to_nat b) a = drop (Z.to_nat b) old ->
  a = take (Z.to_nat b) default_alphabet ++ drop (Z.to_nat b) old.
Proof.
  unfold is_default_alphabet. intros Htake Hdrop.
  by rewrite <- Htake, <- Hdrop, take_drop.
Qed.

Section caps.
Variable T : number_type.

Lemma lr_default_alphabet p :
  lr_wf T p ->
  exists p',
    lr_printer.setup_default_alphabet p = Ok p' /\
    lr_printer._alphabet p'
    = take (Z.to_nat (lr_printer._base p)) default_alphabet
      ++ drop (Z.to_nat (lr_printer._base p)) (lr_printer._alphabet p).
Proof.
  intros Hwf.
  destruct (lr_setup_default_alphabet_spec T p Hwf) as (a & Hrun & _ & Hdef & Hdrop).
  eexists. split; [exact Hrun|]. destruct p. by apply default_alphabet_filled.
Qed.

Lemma lr_cap p :
  36 < lr_printer._base p -> lr_printer.setup_default_alphabet p = Err AssertFailed.
Proof.
  intros Hb. unfold lr_printer.setup_default_alphabet.
  by destruct (Z.leb_spec (lr_printer._base p) (10 + 26)); [lia|].
Qed.

Lemma lr2_default_alphabet p :
  lr2_wf T p -> lr_printer_2_digits._base p <= 16 ->
  exists p',
    lr_printer_2_digits.setup_default_alphabet p = Ok p' /\
    lr_printer_2_digits._alphabet p'
    = take (Z.to_nat (lr_printer_2_digits._base p)) default_alphabet
      ++ drop (Z.to_nat (lr_printer_2_digits._base p)) (lr_printer_2_digits._alphabet p) /\
    pairs_ok (lr_printer_2_digits._base p) (lr_printer_2_digits._alphabet p')
      (lr_printer_2_digits._alphabet_sqr p').
Proof.
  intros Hwf Hb.
  destruct (lr2_setup_default_alphabet_spec T p Hwf Hb)
    as (p' & Hrun & Hwf' & Hb' & Hdef & Hdrop & _).
  exists p'. split; [exact Hrun|]. split; [by apply default_alphabet_filled|].
  destruct Hwf' as (_ & _ & _ & _ & Hpairs & _). by rewrite Hb' in Hpairs.
Qed.

Lemma mod_default_alphabet p :
  mod_wf p ->
  exists p',
    modulo_printer.setup_default_alphabet p = Ok p' /\
    modulo_printer._alphabet p'
    = take (Z.to_nat (modulo_printer._base p)) default_alphabet
      ++ drop (Z.to_nat (modulo_printer._base p)) (modulo_printer._alphabet p).
Proof.
  intros Hwf.
  destruct (mod_setup_default_alphabet_spec p Hwf) as (a & Hrun & _ & Hdef & Hdrop).
  eexists. split; [exact Hrun|]. destruct p. by apply default_alphabet_filled.
Qed.

Lemma mod_cap p :
  36 < modulo_printer._base p ->
  modulo_printer.setup_default_alphabet p = Err AssertFailed.
Proof.
  intros Hb. unfold modulo_printer.setup_default_alphabet.
  by destruct (Z.leb_spec (modulo_printer._base p) (10 + 26)); [lia|].
Qed.

Lemma mod2_default_alphabet p :
  mod2_wf p ->
  exists p',
    modulo_printer_2_digits.setup_default_alphabet p = Ok p' /\
    modulo_printer_2_digits._alphabet p'
    = take (Z.to_nat (modulo_printer_2_digits._base p)) default_alphabet
      ++ drop (Z.to_nat (modulo_printer_2_digits._base p))
           (modulo_printer_2_digits._alphabet p) /\
    pairs_ok (modulo_printer_2_digits._base p) (modulo_printer_2_digits._alphabet p')
      (modulo_printer_2_digits._alphabet_sqr p').
Proof.
  intros Hwf.
  destruct (mod2_setup_default_alphabet_spec p Hwf)
    as (p' & Hrun & Hwf' & Hb' & Hdef & Hdrop).
  exists p'. split; [exact Hrun|]. split; [by apply default_alphabet_filled|].
  destruct Hwf' as (_ & _ & _ & _ & Hpairs & _). by rewrite Hb' in Hpairs.
Qed.

Lemma mod2_cap p :
  36 < modulo_printer_2_digits._base p ->
  modulo_printer_2_digits.setup_default_alphabet p = Err AssertFailed.
Proof.
  intros Hb. unfold modulo_printer_2_digits.setup_default_alphabet.
  unfold modulo_printer_2_digits.BASE_MAX.
  by destruct (Z.leb_spec (modulo_printer_2_digits._base p) (10 + 26)); [lia|].
Qed.
End caps.

(** C9 (amended). Default alphabet and base caps: [setup_default_alphabet]
    fills the positions 0..base-1 of the alphabet with the characters '0'-'9'
    followed by 'a'-'z' and leaves the others as they are (the paired classes
    recompute the table of pairs from it), and asserts that the base does not
    exceed the maximum of its class.  That maximum is 36 in [lr_printer],
    [modulo_printer] and [modulo_printer_2_digits], and 16 in
    [lr_printer_2_digits] (whose arrays have room for 17 digits). *)
Theorem default_alphabet_and_caps (T : number_type) :
  default_alphabet = text "0123456789abcdefghijklmnopqrstuvwxyz" /\
  ((forall p, lr_wf T p ->
      exists p',
        lr_printer.setup_default_alphabet p = Ok p' /\
        lr_printer._alphabet p'
        = take (Z.to_nat (lr_printer._base p)) default_alphabet
          ++ drop (Z.to_nat (lr_printer._base p)) (lr_printer._alphabet p)) /\
   (forall p, 36 < lr_printer._base p ->
      lr_printer.setup_default_alphabet p = Err AssertFailed)) /\
  ((forall p, lr2_wf T p -> lr_printer_2_digits._base p <= 16 ->
      exists p',
        lr_printer_2_digits.setup_default_alphabet p = Ok p' /\
        lr_printer_2_digits._alphabet p'
        = take (Z.to_nat (lr_printer_2_digits._base p)) default_alphabet
          ++ drop (Z.to_nat (lr_printer_2_digits._base p))
               (lr_printer_2_digits._alphabet p) /\
        pairs_ok (lr_printer_2_digits._base p) (lr_printer_2_digits._alphabet p')
          (lr_printer_2_digits._alphabet_sqr p')) /\
   (forall p, 16 < lr_printer_2_digits._base p ->
      lr_printer_2_digits.setup_default_alphabet p = Err AssertFailed)) /\
  ((forall p, mod_wf p ->
      exists p',
        modulo_printer.setup_default_alphabet p = Ok p' /\
        modulo_printer._alphabet p'
        = take (Z.to_nat (modulo_printer._base p)) default_alphabet
          ++ drop (Z.to_nat (modulo_printer._base p)) (modulo_printer._alphabet p)) /\
   (forall p, 36 < modulo_printer._base p ->
      modulo_printer.setup_default_alphabet p = Err AssertFailed)) /\
  ((forall p, mod2_wf p ->
      exists p',
        modulo_printer_2_digits.setup_default_alphabet p = Ok p' /\
        modulo_printer_2_digits._alphabet p'
        = take (Z.to_nat (modulo_printer_2_digits._base p)) default_alphabet
          ++ drop (Z.to_nat (modulo_printer_2_digits._base p))
               (modulo_printer_2_digits._alphabet p) /\
        pairs_ok (modulo_printer_2_digits._base p) (modulo_printer_2_digits._alphabet p')
          (modulo_printer_2_digits._alphabet_sqr p')) /\
   (forall p, 36 < modulo_printer_2_digits._base p ->
      modulo_printer_2_digits.setup_default_alphabet p = Err AssertFailed)).
Proof.
  split_and!.
  - reflexivity.
  - apply lr_default_alphabet.
  - apply lr_cap.
  - apply lr2_default_alphabet.
  - apply lr2_setup_default_alphabet_refused.
  - apply mod_default_alphabet.
  - apply mod_cap.
  - apply mod2_default_alphabet.
  - apply mod2_cap.
Qed.

Lemma default_alphabet_and_caps_witness :
  exists p',
    lr_printer.setup_default_alphabet sample_lr = Ok p' /\
    lr_printer._alphabet p'
    = take (Z.to_nat (lr_printer._base sample_lr)) default_alphabet
      ++ drop (Z.to_nat (lr_printer._base sample_lr)) (lr_printer._alphabet sample_lr).
Proof.
  destruct (default_alphabet_and_caps t_int) as (_ & (H & _) & _).
  apply H. apply sample_lr_ready.
Defined.

(** C9 as it was written gives 17 as the largest base of the paired classes.
    An [lr_printer_2_digits] takes the base 17 in [set_base], and its
    [setup_default_alphabet] then fails the assertion; a
    [modulo_printer_2_digits] takes the base 36 in both, and fills the 36
    positions. *)
Lemma default_alphabet_caps_of_paired_classes :
  (exists p,
     lr_printer_2_digits.set_base t_int sample_lr2 17 = Ok p /\
     lr_printer_2_digits._base p = 17 /\
     lr_printer_2_digits.setup_default_alphabet p = Err AssertFailed) /\
  (exists p p',
     modulo_printer_2_digits.set_base sample_mod2 36 = Ok p /\
     modulo_printer_2_digits._base p = 36 /\
     modulo_printer_2_digits.setup_default_alphabet p = Ok p' /\
     modulo_printer_2_digits._alphabet p' = default_alphabet).
Proof.
  split.
  - destruct (lr2_set_base_spec t_int valid_int sample_lr2 17)
      as (p & Hrun & _ & Hb & _).
    { apply (lr2_wf_sized t_int), sample_lr2_ready. }
    { done. }
    exists p. split; [exact Hrun|]. split; [exact Hb|].
    apply lr2_setup_default_alphabet_refused. lia.
  - destruct (mod2_set_base_spec sample_mod2 36) as (p & Hrun & Hwf & Hb & Ha).
    { apply mod2_wf_sized, sample_mod2_ready. }
    { done. }
    destruct (mod2_default_alphabet p Hwf) as (p' & Hrun' & Ha' & _).
    exists p, p'. split; [exact Hrun|]. split; [exact Hb|]. split; [exact Hrun'|].
    rewrite Ha', Hb, Ha. reflexivity.
Qed.

(** ** The capacities of the arrays

    A read or a write outside an array is an error [OutOfBounds] of the
    model, so that a function that returns [Ok] has kept every access inside
    its array. *)

Section bounds.
Variable T : number_type.
Hypothesis HT : valid_number_type T.

Lemma lr_table_bound p num :
  lr_cache_ok T p -> 1 <= num <= nt_max T ->
  powers_fit T (lr_printer._base p) 0 num ->
  exists p' ptr,
    lr_printer.get_max_power_ptr T p num = Ok (p', ptr) /\
    lr_printer._powers_length p' <= bits T /\
    lr_printer._powers_length p' < lr_printer.MAX_DIGITS /\
    0 <= ptr < lr_printer._powers_length p'.
Proof using HT.
  intros Hc Hnum Hno.
  destruct (lr_get_max_power_ptr_spec T HT p num Hc Hnum (fun _ => Hno))
    as (p' & ptr & Hrun & _ & _ & (Hb' & Hok') & _ & _ & Hptr & _).
  pose proof (powers_ok_length_bits T (lr_printer._base p') _ _ HT ltac:(lia) Hok') as Hlen.
  exists p', ptr. unfold lr_printer._powers_length, lr_printer.MAX_DIGITS in *.
  destruct HT. split_and!; (done || lia).
Qed.

Lemma lr2_table_bound p num :
  lr2_cache_ok T p -> 1 <= num <= nt_max T ->
  powers_fit T (lr_printer_2_digits._base p) 1 num ->
  exists p' ptr,
    lr_printer_2_digits.get_max_power_ptr T p num = Ok (p', ptr) /\
    lr_printer_2_digits._powers_length p' <= bits T /\
    lr_printer_2_digits._powers_length p' < lr_printer_2_digits.DIGITS_MAX /\
    -1 <= ptr /\ ptr + 2 <= lr_printer_2_digits._powers_length p'.
Proof using HT.
  intros Hc Hnum Hno.
  destruct (lr2_get_max_power_ptr_spec T HT p num Hc Hnum (fun _ => Hno))
    as (p' & ptr & Hrun & _ & (Hb' & Hok' & _) & _ & _ & Hptr & Hptr2 & _).
  pose proof (powers_ok_length_bits T (lr_printer_2_digits._base p') _ _ HT ltac:(lia) Hok') as Hlen.
  exists p', ptr.
  unfold lr_printer_2_digits._powers_length, lr_printer_2_digits.DIGITS_MAX in *.
  destruct HT. split_and!; (done || lia).
Qed.

Lemma lr_prints_in_bounds p x :
  lr_wf T p -> 0 <= x <= nt_max T ->
  powers_fit T (lr_printer._base p) 0 x ->
  (exists p' r,
     lr_printer.print T p x = Ok (p', r) /\ lr_wf T p' /\
     lr_printer._powers_length p' <= bits T) /\
  (exists r, lr_printer.print_ostream T p x = Ok r) /\
  (exists r, lr_printer.print_file T p x = Ok r).
Proof using HT.
  intros Hwf Hx Hno. split_and!.
  - destruct (lr_print_spec T HT p x Hwf Hx (fun _ => Hno)) as (p' & k & text & Hrun & _ & _ & Hwf' & _).
    exists p', (Z.of_nat k, text). split; [exact Hrun|]. split; [exact Hwf'|].
    destruct Hwf' as (Hb' & _ & Hok').
    apply (powers_ok_length_bits T (lr_printer._base p') _ _ HT ltac:(lia) Hok').
  - destruct (lr_print_ostream_spec T HT p x Hwf Hx (fun _ => Hno)) as (p' & k & Hrun & _).
    eexists. exact Hrun.
  - destruct (lr_print_file_spec T HT p x Hwf Hx (fun _ => Hno)) as (p' & k & text & Hrun & _).
    eexists. exact Hrun.
Qed.

Lemma lr2_prints_in_bounds p x :
  lr2_wf T p -> 0 <= x <= nt_max T ->
  powers_fit T (lr_printer_2_digits._base p) 1 x ->
  (exists p' r,
     lr_printer_2_digits.print T p x = Ok (p', r) /\ lr2_wf T p' /\
     lr_printer_2_digits._powers_length p' <= bits T) /\
  (exists r, lr_printer_2_digits.print_ostream T p x = Ok r) /\
  (exists r, lr_printer_2_digits.print_file T p x = Ok r).
Proof using HT.
  intros Hwf Hx Hno. split_and!.
  - destruct (lr2_print_spec T HT p x Hwf Hx (fun _ => Hno)) as (p' & k & text & Hrun & _ & _ & Hwf' & _).
    exists p', (Z.of_nat k, text). split; [exact Hrun|]. split; [exact Hwf'|].
    destruct Hwf' as (Hb' & _ & _ & _ & _ & Hok' & _).
    apply (powers_ok_length_bits T (lr_printer_2_digits._base p') _ _ HT ltac:(lia) Hok').
  - destruct (lr2_print_ostream_spec T HT p x Hwf Hx (fun _ => Hno)) as (p' & k & Hrun & _).
    eexists. exact Hrun.
  - destruct (lr2_print_file_spec T HT p x Hwf Hx (fun _ => Hno)) as (p' & k & text & Hrun & _).
    eexists. exact Hrun.
Qed.

Lemma mod_prints_in_bounds p x :
  mod_wf p -> 0 <= x <= nt_max T ->
  (exists p' ptr,
     modulo_printer.print_to_buffer T p x = Ok (p', ptr) /\
     modulo_printer.DIGITS_MAX - 1 - 64 <= ptr < modulo_printer.DIGITS_MAX - 1 /\
     buffer_ok modulo_printer.DIGITS_MAX (modulo_printer._buffer p')) /\
  (exists r, modulo_printer.print T p x = Ok r) /\
  (exists r, modulo_printer.print_ostream T p x = Ok r).
Proof using HT.
  intros Hwf Hx. split_and!.
  - destruct (mod_print_to_buffer_spec T HT p x Hwf Hx)
      as (k & pre & Hrun & (Hk & _) & Hk64 & Hpre).
    do 2 eexists. split; [exact Hrun|]. split; [lia|].
    cbn [modulo_printer.with_buffer modulo_printer._buffer].
    rewrite app_assoc. apply buffer_ok_intro.
    rewrite length_app, length_encode. lia.
  - destruct (mod_print_spec T HT p x Hwf Hx) as (p' & k & text & Hrun & _).
    eexists. exact Hrun.
  - destruct (mod_print_ostream_spec T HT p x Hwf Hx) as (p' & k & Hrun & _).
    eexists. exact Hrun.
Qed.

Lemma mod2_prints_in_bounds p x :
  mod2_wf p -> 0 <= x <= nt_max T ->
  (exists p' ptr,
     modulo_printer_2_digits.print_to_buffer T p x = Ok (p', ptr) /\
     modulo_printer_2_digits.DIGITS_MAX - 1 - 64 <= ptr
       < modulo_printer_2_digits.DIGITS_MAX - 1 /\
     buffer_ok modulo_printer_2_digits.DIGITS_MAX
       (modulo_printer_2_digits._buffer p')) /\
  (exists r, modulo_printer_2_digits.print T p x = Ok r) /\
  (exists r, modulo_printer_2_digits.print_ostream T p x = Ok r).
Proof using HT.
  intros Hwf Hx. split_and!.
  - destruct (mod2_print_to_buffer_spec T HT p x Hwf Hx)
      as (k & pre & Hrun & (Hk & _) & Hk64 & Hpre).
    do 2 eexists. split; [exact Hrun|]. split; [lia|].
    cbn [modulo_printer_2_digits.with_buffer modulo_printer_2_digits._buffer].
    rewrite app_assoc. apply buffer_ok_intro.
    rewrite length_app, length_encode. lia.
  - destruct (mod2_print_spec T HT p x Hwf Hx) as (p' & k & text & Hrun & _).
    eexists. exact Hrun.
  - destruct (mod2_print_ostream_spec T HT p x Hwf Hx) as (p' & k & Hrun & _).
    eexists. exact Hrun.
Qed.
End bounds.

(** X20. The bounds of the fixed arrays, where the table of powers can be
    computed: for a number type of 32 to 64 bits and every value of it from 0
    on, no access of a print leaves an array.  The table of powers, to which
    [append_helper_data] adds without a check of the length, never has more
    entries than the type has bits, which is below the 70 resp. 69 cells of
    [_powers], for every base from 2 on; the pointer returned by
    [get_max_power_ptr] is inside the table (from -1 on in
    [lr_printer_2_digits], which does not read there).  The modulo printers
    write 64 digits at most before the terminator of [_buffer], so that their
    pointer stays at 6 resp. 4 cells or more from its start, and they leave
    the terminator in place.  All variants of [print] return. *)
Lemma bounds_kept_where_computed (T : number_type) :
  valid_number_type T ->
  (forall p num, lr_cache_ok T p -> 1 <= num <= nt_max T ->
     powers_fit T (lr_printer._base p) 0 num ->
     exists p' ptr,
       lr_printer.get_max_power_ptr T p num = Ok (p', ptr) /\
       lr_printer._powers_length p' <= bits T /\
       lr_printer._powers_length p' < lr_printer.MAX_DIGITS /\
       0 <= ptr < lr_printer._powers_length p') /\
  (forall p num, lr2_cache_ok T p -> 1 <= num <= nt_max T ->
     powers_fit T (lr_printer_2_digits._base p) 1 num ->
     exists p' ptr,
       lr_printer_2_digits.get_max_power_ptr T p num = Ok (p', ptr) /\
       lr_printer_2_digits._powers_length p' <= bits T /\
       lr_printer_2_digits._powers_length p' < lr_printer_2_digits.DIGITS_MAX /\
       -1 <= ptr /\ ptr + 2 <= lr_printer_2_digits._powers_length p') /\
  (forall p x, lr_wf T p -> 0 <= x <= nt_max T ->
     powers_fit T (lr_printer._base p) 0 x ->
     (exists p' r,
        lr_printer.print T p x = Ok (p', r) /\ lr_wf T p' /\
        lr_printer._powers_length p' <= bits T) /\
     (exists r, lr_printer.print_ostream T p x = Ok r) /\
     (exists r, lr_printer.print_file T p x = Ok r)) /\
  (forall p x, lr2_wf T p -> 0 <= x <= nt_max T ->
     powers_fit T (lr_printer_2_digits._base p) 1 x ->
     (exists p' r,
        lr_printer_2_digits.print T p x = Ok (p', r) /\ lr2_wf T p' /\
        lr_printer_2_digits._powers_length p' <= bits T) /\
     (exists r, lr_printer_2_digits.print_ostream T p x = Ok r) /\
     (exists r, lr_printer_2_digits.print_file T p x = Ok r)) /\
  (forall p x, mod_wf p -> 0 <= x <= nt_max T ->
     (exists p' ptr,
        modulo_printer.print_to_buffer T p x = Ok (p', ptr) /\
        modulo_printer.DIGITS_MAX - 1 - 64 <= ptr < modulo_printer.DIGITS_MAX - 1 /\
        buffer_ok modulo_printer.DIGITS_MAX (modulo_printer._buffer p')) /\
     (exists r, modulo_printer.print T p x = Ok r) /\
     (exists r, modulo_printer.print_ostream T p x = Ok r)) /\
  (forall p x, mod2_wf p -> 0 <= x <= nt_max T ->
     (exists p' ptr,
        modulo_printer_2_digits.print_to_buffer T p x = Ok (p', ptr) /\
        modulo_printer_2_digits.DIGITS_MAX - 1 - 64 <= ptr
          < modulo_printer_2_digits.DIGITS_MAX - 1 /\
        buffer_ok modulo_printer_2_digits.DIGITS_MAX
          (modulo_printer_2_digits._buffer p')) /\
     (exists r, modulo_printer_2_digits.print T p x = Ok r) /\
     (exists r, modulo_printer_2_digits.print_ostream T p x = Ok r)) /\
  bits T < lr_printer_2_digits.DIGITS_MAX < lr_printer.MAX_DIGITS /\
  0 < modulo_printer_2_digits.DIGITS_MAX - 1 - 64
    < modulo_printer.DIGITS_MAX - 1 - 64.
Proof.
  intros HT. split_and!.
  - intros p num. by apply lr_table_bound.
  - intros p num. by apply lr2_table_bound.
  - intros p x. by apply lr_prints_in_bounds.
  - intros p x. by apply lr2_prints_in_bounds.
  - intros p x. by apply mod_prints_in_bounds.
  - intros p x. by apply mod2_prints_in_bounds.
  - destruct HT. unfold lr_printer_2_digits.DIGITS_MAX. lia.
  - done.
  - done.
  - done.
Qed.

Lemma bounds_kept_where_computed_witness :
  (exists p' r,
     lr_printer.print t_long_long sample_lr 999999999999999999 = Ok (p', r) /\
     lr_wf t_long_long p' /\ lr_printer._powers_length p' <= 64) /\
  (exists p' ptr,
     modulo_printer_2_digits.print_to_buffer t_long_long sample_mod2 9223372036854775807
     = Ok (p', ptr) /\
     modulo_printer_2_digits.DIGITS_MAX - 1 - 64 <= ptr
       < modulo_printer_2_digits.DIGITS_MAX - 1 /\
     buffer_ok modulo_printer_2_digits.DIGITS_MAX (modulo_printer_2_digits._buffer p')).
Proof.
  destruct (bounds_kept_where_computed t_long_long valid_long_long)
    as (_ & _ & H1 & _ & _ & H2 & _).
  split.
  - refine (proj1 (H1 sample_lr 999999999999999999 _ _ _)).
    + unfold lr_wf, powers_ok. split_and!; try reflexivity; try (cbn; lia);
        try (vm_compute; discriminate); try (intros _; vm_compute; reflexivity).
    + vm_compute. split; discriminate.
    + right. exists 18%nat. vm_compute. split; [reflexivity|discriminate].
  - apply (H2 sample_mod2 9223372036854775807).
    + apply sample_mod2_ready.
    + vm_compute. split; discriminate.
Defined.

(** C10. Bounds safety of the fixed arrays, for [long long] in base 10: what
    keeps the table of powers inside [_powers] is the refusal of
    [append_helper_data], which has no check of the length; on the table whose
    top entry is 1000000000000000000, the largest power of 10 that a
    [long long] holds, the product overflows instead, and the [print] of the
    largest [long long] by an [lr_printer] or an [lr_printer_2_digits] that
    the constructor has built ends there. *)
Theorem bounds_safety_long_long_max :
  nt_max t_long_long = 9223372036854775807 /\
  last (pow_table 10 19) = Some 1000000000000000000 /\
  shared.append_helper_data t_long_long lr_printer.MAX_DIGITS 10 (pow_table 10 19)
  = Err SignedOverflow /\
  (exists p,
     lr_printer.construct t_long_long (fun _ => NUL) 10 = Ok p /\
     lr_printer.print t_long_long p 9223372036854775807 = Err SignedOverflow) /\
  (exists p,
     lr_printer_2_digits.construct t_long_long (fun _ => NUL) (fun _ => NUL) 0 10 = Ok p /\
     lr_printer_2_digits.print t_long_long p 9223372036854775807 = Err SignedOverflow).
Proof.
  split_and!.
  - reflexivity.
  - reflexivity.
  - vm_compute. reflexivity.
  - eexists. split; [vm_compute; reflexivity|]. vm_compute. reflexivity.
  - eexists. split; [vm_compute; reflexivity|]. vm_compute. reflexivity.
Qed.

(** * More properties of the printers *)

(** ** What a print depends on *)

Section independence.
Variable T : number_type.
Hypothesis HT : valid_number_type T.

Lemma lr_print_after p x y :
  lr_wf T p -> 0 <= x <= nt_max T -> 0 <= y <= nt_max T ->
  powers_fit T (lr_printer._base p) 0 x -> powers_fit T (lr_printer._base p) 0 y ->
  exists p1 r p2 p3 n text,
    lr_printer.print T p y = Ok (p1, r) /\
    lr_printer.print T p1 x = Ok (p2, (n, text)) /\
    lr_printer.print T p x = Ok (p3, (n, text)).
Proof using HT.
  intros Hwf Hx Hy Hfx Hfy. pose proof Hwf as ([Hb _] & _).
  destruct (lr_print_spec T HT p y Hwf Hy (fun _ => Hfy))
    as (p1 & ky & ty & Hruny & _ & _ & Hwf1 & Hb1 & Ha1 & _).
  destruct (lr_print_spec T HT p1 x Hwf1 Hx ltac:(intros _; by rewrite Hb1))
    as (p2 & k2 & t2 & Hrun2 & Hk2 & _ & _ & _ & _ & _ & _ & _ & _ & Ht2 & _).
  destruct (lr_print_spec T HT p x Hwf Hx (fun _ => Hfx))
    as (p3 & k3 & t3 & Hrun3 & Hk3 & _ & _ & _ & _ & _ & _ & _ & _ & Ht3 & _).
  rewrite Hb1, Ha1 in *.
  assert (k3 = k2) as -> by (eapply is_digit_count_unique; [|done..]; lia).
  assert (t3 = t2) as -> by congruence.
  by exists p1, (Z.of_nat ky, ty), p2, p3, (Z.of_nat k2), t2.
Qed.

Lemma lr2_print_after p x y :
  lr2_wf T p -> 0 <= x <= nt_max T -> 0 <= y <= nt_max T ->
  powers_fit T (lr_printer_2_digits._base p) 1 x ->
  powers_fit T (lr_printer_2_digits._base p) 1 y ->
  exists p1 r p2 p3 n text,
    lr_printer_2_digits.print T p y = Ok (p1, r) /\
    lr_printer_2_digits.print T p1 x = Ok (p2, (n, text)) /\
    lr_printer_2_digits.print T p x = Ok (p3, (n, text)).
Proof using HT.
  intros Hwf Hx Hy Hfx Hfy. pose proof Hwf as ([Hb _] & _).
  destruct (lr2_print_spec T HT p y Hwf Hy (fun _ => Hfy))
    as (p1 & ky & ty & Hruny & _ & _ & Hwf1 & (Hb1 & _ & Ha1 & _) & _).
  destruct (lr2_print_spec T HT p1 x Hwf1 Hx ltac:(intros _; by rewrite Hb1))
    as (p2 & k2 & t2 & Hrun2 & Hk2 & _ & _ & _ & _ & _ & _ & _ & Ht2 & _).
  destruct (lr2_print_spec T HT p x Hwf Hx (fun _ => Hfx))
    as (p3 & k3 & t3 & Hrun3 & Hk3 & _ & _ & _ & _ & _ & _ & _ & Ht3 & _).
  rewrite Hb1, Ha1 in *.
  assert (k3 = k2) as -> by (eapply is_digit_count_unique; [|done..]; lia).
  assert (t3 = t2) as -> by congruence.
  by exists p1, (Z.of_nat ky, ty), p2, p3, (Z.of_nat k2), t2.
Qed.

Lemma mod_print_after p x y :
  mod_wf p -> 0 <= x <= nt_max T -> 0 <= y <= nt_max T ->
  exists p1 r p2 p3 n text,
    modulo_printer.print T p y = Ok (p1, r) /\
    modulo_printer.print T p1 x = Ok (p2, (n, text)) /\
    modulo_printer.print T p x = Ok (p3, (n, text)).
Proof using HT.
  intros Hwf Hx Hy. pose proof Hwf as ([Hb _] & _).
  destruct (mod_print_spec T HT p y Hwf Hy)
    as (p1 & ky & ty & Hruny & _ & _ & Hwf1 & Hb1 & Ha1 & _).
  destruct (mod_print_spec T HT p1 x Hwf1 Hx)
    as (p2 & k2 & t2 & Hrun2 & Hk2 & _ & _ & _ & _ & Ht2 & _).
  destruct (mod_print_spec T HT p x Hwf Hx)
    as (p3 & k3 & t3 & Hrun3 & Hk3 & _ & _ & _ & _ & Ht3 & _).
  rewrite Hb1, Ha1 in *.
  assert (k3 = k2) as -> by (eapply is_digit_count_unique; [|done..]; lia).
  assert (t3 = t2) as -> by congruence.
  by exists p1, (Z.of_nat ky, ty), p2, p3, (Z.of_nat k2), t2.
Qed.

Lemma mod2_print_after p x y :
  mod2_wf p -> 0 <= x <= nt_max T -> 0 <= y <= nt_max T ->
  exists p1 r p2 p3 n text,
    modulo_printer_2_digits.print T p y = Ok (p1, r) /\
    modulo_printer_2_digits.print T p1 x = Ok (p2, (n, text)) /\
    modulo_printer_2_digits.print T p x = Ok (p3, (n, text)).
Proof using HT.
  intros Hwf Hx Hy. pose proof Hwf as ([Hb _] & _).
  destruct (mod2_print_spec T HT p y Hwf Hy)
    as (p1 & ky & ty & Hruny & _ & _ & Hwf1 & Hb1 & Ha1 & _).
  destruct (mod2_print_spec T HT p1 x Hwf1 Hx)
    as (p2 & k2 & t2 & Hrun2 & Hk2 & _ & _ & _ & _ & Ht2 & _).
  destruct (mod2_print_spec T HT p x Hwf Hx)
    as (p3 & k3 & t3 & Hrun3 & Hk3 & _ & _ & _ & _ & Ht3 & _).
  rewrite Hb1, Ha1 in *.
  assert (k3 = k2) as -> by (eapply is_digit_count_unique; [|done..]; lia).
  assert (t3 = t2) as -> by congruence.
  by exists p1, (Z.of_nat ky, ty), p2, p3, (Z.of_nat k2), t2.
Qed.
End independence.

(** X1. The table of powers is a cache and nothing more: what an [lr_printer]
    or an [lr_printer_2_digits] returns for [x] after it has printed any [y]
    is what it returns for [x] without that print, where the powers that the
    two values ask for are representable. *)
Theorem print_regardless_of_cache (T : number_type) (x y : Z) :
  valid_number_type T -> 0 <= x <= nt_max T -> 0 <= y <= nt_max T ->
  (forall p, lr_wf T p ->
     powers_fit T (lr_printer._base p) 0 x -> powers_fit T (lr_printer._base p) 0 y ->
     exists p1 r p2 p3 n text,
       lr_printer.print T p y = Ok (p1, r) /\
       lr_printer.print T p1 x = Ok (p2, (n, text)) /\
       lr_printer.print T p x = Ok (p3, (n, text))) /\
  (forall p, lr2_wf T p ->
     powers_fit T (lr_printer_2_digits._base p) 1 x ->
     powers_fit T (lr_printer_2_digits._base p) 1 y ->
     exists p1 r p2 p3 n text,
       lr_printer_2_digits.print T p y = Ok (p1, r) /\
       lr_printer_2_digits.print T p1 x = Ok (p2, (n, text)) /\
       lr_printer_2_digits.print T p x = Ok (p3, (n, text))).
Proof.
  intros HT Hx Hy. split; intros p Hwf Hfx Hfy.
  - by apply lr_print_after.
  - by apply lr2_print_after.
Qed.

Lemma print_regardless_of_cache_witness :
  exists p1 r p2 p3 n text,
    lr_printer.print t_int sample_lr 999999999 = Ok (p1, r) /\
    lr_printer.print t_int p1 43 = Ok (p2, (n, text)) /\
    lr_printer.print t_int sample_lr 43 = Ok (p3, (n, text)).
Proof.
  apply (proj1 (print_regardless_of_cache t_int 43 999999999 valid_int
                  ltac:(vm_compute; split; discriminate)
                  ltac:(vm_compute; split; discriminate))).
  - apply sample_lr_ready.
  - right. exists 2%nat. vm_compute. split; [reflexivity|discriminate].
  - right. exists 9%nat. vm_compute. split; [reflexivity|discriminate].
Defined.

(** X2. The modulo printers write over [_buffer] at every print: what they
    return for [x] after they have printed any [y] is what they return for [x]
    without that print. *)
Theorem print_regardless_of_buffer (T : number_type) (x y : Z) :
  valid_number_type T -> 0 <= x <= nt_max T -> 0 <= y <= nt_max T ->
  (forall p, mod_wf p ->
     exists p1 r p2 p3 n text,
       modulo_printer.print T p y = Ok (p1, r) /\
       modulo_printer.print T p1 x = Ok (p2, (n, text)) /\
       modulo_printer.print T p x = Ok (p3, (n, text))) /\
  (forall p, mod2_wf p ->
     exists p1 r p2 p3 n text,
       modulo_printer_2_digits.print T p y = Ok (p1, r) /\
       modulo_printer_2_digits.print T p1 x = Ok (p2, (n, text)) /\
       modulo_printer_2_digits.print T p x = Ok (p3, (n, text))).
Proof.
  intros HT Hx Hy. split; intros p Hwf.
  - by apply mod_print_after.
  - by apply mod2_print_after.
Qed.

Lemma print_regardless_of_buffer_witness :
  exists p1 r p2 p3 n text,
    modulo_printer.print t_int sample_mod 2147483647 = Ok (p1, r) /\
    modulo_printer.print t_int p1 43 = Ok (p2, (n, text)) /\
    modulo_printer.print t_int sample_mod 43 = Ok (p3, (n, text)).
Proof.
  apply (proj1 (print_regardless_of_buffer t_int 43 2147483647 valid_int
                  ltac:(vm_compute; split; discriminate)
                  ltac:(vm_compute; split; discriminate))).
  apply sample_mod_ready.
Defined.

(** ** The three sinks *)

Section sinks.
Variable T : number_type.
Hypothesis HT : valid_number_type T.





Lemma mod_sinks p x :
  mod_wf p -> 0 <= x <= nt_max T ->
  exists (k : nat) digits text p',
    modulo_printer.print_ostream T p x = Ok (p', digits) /\
    length digits = k /\
    modulo_printer.print T p x = Ok (p', (Z.of_nat k, text)) /\
    modulo_printer.print_file T p x = Ok (p', (Z.of_nat k, text)) /\
    c_str Buffer (digits ++ [NUL]) = Ok text /\
    (alphabet_ok (modulo_printer._base p) (modulo_printer._alphabet p) ->
     text = digits).
Proof using HT.
  intros Hwf Hx. pose proof Hwf as (Hb & Ha & Hbuf).
  unfold modulo_printer.BASE_MAX in *.
  destruct (mod_print_to_buffer_spec T HT p x Hwf Hx)
    as (k & pre & Hrun & Hk & Hk64 & Hpre).
  unfold modulo_printer.print_ostream, modulo_printer.print, modulo_printer.print_file.
  rewrite Hrun. cbn [bind fst snd modulo_printer.with_buffer modulo_printer._buffer].
  replace (Z.to_nat (modulo_printer.DIGITS_MAX - 1 - Z.of_nat k)) with (length pre)
    by lia.
  rewrite drop_app_length.
  replace (modulo_printer.DIGITS_MAX - 1 - (modulo_printer.DIGITS_MAX - 1 - Z.of_nat k))
    with (Z.of_nat k) by lia.
  rewrite wrap_int_small by lia. rewrite Nat2Z.id.
  rewrite take_app_length' by (by rewrite length_encode).
  destruct (c_str_total Buffer
              (encode (modulo_printer._alphabet p) (modulo_printer._base p) k x) [])
    as [text Htext].
  rewrite Htext. cbn [bind].
  eexists k, _, text, _. split_and!; try done; [apply length_encode|].
  intros Hal. rewrite c_str_terminated in Htext; [by injection Htext|].
  apply no_nul_encode; (done || lia).
Qed.

Lemma mod2_sinks p x :
  mod2_wf p -> 0 <= x <= nt_max T ->
  exists (k : nat) digits text p',
    modulo_printer_2_digits.print_ostream T p x = Ok (p', digits) /\
    length digits = k /\
    modulo_printer_2_digits.print T p x = Ok (p', (Z.of_nat k, text)) /\
    modulo_printer_2_digits.print_file T p x = Ok (p', (Z.of_nat k, text)) /\
    c_str Buffer (digits ++ [NUL]) = Ok text /\
    (alphabet_ok (modulo_printer_2_digits._base p)
       (modulo_printer_2_digits._alphabet p) -> text = digits).
Proof using HT.
  intros Hwf Hx. pose proof Hwf as (Hb & _ & Ha & _).
  unfold modulo_printer_2_digits.BASE_MAX in *.
  destruct (mod2_print_to_buffer_spec T HT p x Hwf Hx)
    as (k & pre & Hrun & Hk & Hk64 & Hpre).
  unfold modulo_printer_2_digits.print_ostream, modulo_printer_2_digits.print,
    modulo_printer_2_digits.print_file.
  rewrite Hrun. cbn [bind fst snd modulo_printer_2_digits.with_buffer
    modulo_printer_2_digits._buffer].
  replace (Z.to_nat (modulo_printer_2_digits.DIGITS_MAX - 1 - Z.of_nat k))
    with (length pre) by lia.
  rewrite drop_app_length.
  replace (modulo_printer_2_digits.DIGITS_MAX - 1
           - (modulo_printer_2_digits.DIGITS_MAX - 1 - Z.of_nat k))
    with (Z.of_nat k) by lia.
  rewrite wrap_int_small by lia. rewrite Nat2Z.id.
  rewrite take_app_length' by (by rewrite length_encode).
  destruct (c_str_total Buffer
              (encode (modulo_printer_2_digits._alphabet p)
                 (modulo_printer_2_digits._base p) k x) [])
    as [text Htext].
  rewrite Htext. cbn [bind].
  eexists k, _, text, _. split_and!; try done; [apply length_encode|].
  intros Hal. rewrite c_str_terminated in Htext; [by injection Htext|].
  apply no_nul_encode; (done || lia).
Qed.
End sinks.



(** X4. The three [print] of a [modulo_printer] and of a
    [modulo_printer_2_digits] deliver the same digits and leave the same
    [_buffer]: the stream receives as many characters as the other two return
    as count, the buffer and the file receive these characters as a C
    string. *)
Theorem modulo_sinks_agree (T : number_type) (x : Z) :
  valid_number_type T -> 0 <= x <= nt_max T ->
  (forall p, mod_wf p ->
     exists (k : nat) digits text p',
       modulo_printer.print_ostream T p x = Ok (p', digits) /\
       length digits = k /\
       modulo_printer.print T p x = Ok (p', (Z.of_nat k, text)) /\
       modulo_printer.print_file T p x = Ok (p', (Z.of_nat k, text)) /\
       c_str Buffer (digits ++ [NUL]) = Ok text /\
       (alphabet_ok (modulo_printer._base p) (modulo_printer._alphabet p) ->
        text = digits)) /\
  (forall p, mod2_wf p ->
     exists (k : nat) digits text p',
       modulo_printer_2_digits.print_ostream T p x = Ok (p', digits) /\
       length digits = k /\
       modulo_printer_2_digits.print T p x = Ok (p', (Z.of_nat k, text)) /\
       modulo_printer_2_digits.print_file T p x = Ok (p', (Z.of_nat k, text)) /\
       c_str Buffer (digits ++ [NUL]) = Ok text /\
       (alphabet_ok (modulo_printer_2_digits._base p)
          (modulo_printer_2_digits._alphabet p) -> text = digits)).
Proof.
  intros HT Hx. split; intros p Hwf.
  - by apply mod_sinks.
  - by apply mod2_sinks.
Qed.

Lemma modulo_sinks_agree_witness :
  exists (k : nat) digits text p',
    modulo_printer_2_digits.print_ostream t_int sample_mod2 5607 = Ok (p', digits) /\
    length digits = k /\
    modulo_printer_2_digits.print t_int sample_mod2 5607 = Ok (p', (Z.of_nat k, text)) /\
    modulo_printer_2_digits.print_file t_int sample_mod2 5607
    = Ok (p', (Z.of_nat k, text)) /\
    c_str Buffer (digits ++ [NUL]) = Ok text /\
    (alphabet_ok (modulo_printer_2_digits._base sample_mod2)
       (modulo_printer_2_digits._alphabet sample_mod2) -> text = digits).
Proof.
  apply (proj2 (modulo_sinks_agree t_int 5607 valid_int
                  ltac:(vm_compute; split; discriminate))).
  apply sample_mod2_ready.
Defined.

(** ** The leading digit *)


Section leading_digit.
Variable T : number_type.
Hypothesis HT : valid_number_type T.




End leading_digit.



(** ** Alphabets of the caller *)





(** [strcpy_s] of a string that leaves no room for the terminator. *)
Lemma strcpy_s_too_long dest s :
  no_nul s -> (length dest <= length s)%nat ->
  strcpy_s dest s = Err ConstraintViolated.
Proof.
  intros Hs Hlen. unfold strcpy_s. rewrite c_str_terminated by done. cbn [bind].
  destruct (Z.ltb_spec (Z.of_nat (length s)) (Z.of_nat (length dest))); [lia|done].
Qed.




Section set_alphabet_facts.
Variable T : number_type.




End set_alphabet_facts.


Section custom_alphabet.
Variable T : number_type.
Hypothesis HT : valid_number_type T.
Variable s : list ascii.
Hypothesis Hs : no_nul s.
Hypothesis Hnd : NoDup s.
Variable v : Z.
Hypothesis Hv : 0 <= v <= nt_max T.




End custom_alphabet.




(** X7. [set_alphabet] copies with [strcpy_s], which needs room for the
    terminator: a string that has as many characters as the alphabet array has
    cells, or more, is refused, in all four classes, and so is it by the
    constructor of [lr_printer] and of [lr_printer_2_digits] that takes an
    alphabet.  The alphabet of a caller has 35 characters at most (16 in
    [lr_printer_2_digits]). *)
Theorem set_alphabet_refuses_full_array (T : number_type) (s : list ascii) :
  valid_number_type T -> no_nul s ->
  (forall p, (length (lr_printer._alphabet p) <= length s)%nat ->
     lr_printer.set_alphabet p s = Err ConstraintViolated) /\
  (forall p, (length (lr_printer_2_digits._alphabet p) <= length s)%nat ->
     lr_printer_2_digits.set_alphabet p s = Err ConstraintViolated) /\
  (forall p, (length (modulo_printer._alphabet p) <= length s)%nat ->
     modulo_printer.set_alphabet p s = Err ConstraintViolated) /\
  (forall p, (length (modulo_printer_2_digits._alphabet p) <= length s)%nat ->
     modulo_printer_2_digits.set_alphabet p s = Err ConstraintViolated) /\
  (forall g b, 2 <= b <= 36 -> (36 <= length s)%nat ->
     lr_printer.construct_with_alphabet T g b s = Err ConstraintViolated) /\
  (forall g g2 s0 b, 2 <= b <= 17 -> (17 <= length s)%nat ->
     lr_printer_2_digits.construct_with_alphabet T g g2 s0 b s = Err ConstraintViolated).
Proof.
  intros HT Hs. split_and!.
  - intros p Hlen. unfold lr_printer.set_alphabet.
    by rewrite strcpy_s_too_long.
  - intros p Hlen. unfold lr_printer_2_digits.set_alphabet.
    by rewrite strcpy_s_too_long.
  - intros p Hlen. unfold modulo_printer.set_alphabet.
    by rewrite strcpy_s_too_long.
  - intros p Hlen. unfold modulo_printer_2_digits.set_alphabet.
    by rewrite strcpy_s_too_long.
  - intros g b Hb Hlen. unfold lr_printer.construct_with_alphabet.
    destruct (lr_set_base_spec T HT (lr_printer.fresh g) b Hb) as [-> _].
    { unfold lr_printer.fresh. cbn [lr_printer._alphabet]. by rewrite length_uninitialised. }
    cbn [bind]. unfold lr_printer.set_alphabet. cbn [lr_printer._alphabet].
    rewrite strcpy_s_too_long; [done..|].
    unfold lr_printer.fresh. cbn [lr_printer._alphabet]. by rewrite length_uninitialised.
  - intros g g2 s0 b Hb Hlen. unfold lr_printer_2_digits.construct_with_alphabet.
    destruct (lr2_set_base_spec T HT (lr_printer_2_digits.fresh g g2 s0) b)
      as (p1 & -> & _ & _ & Ha1 & _).
    { unfold lr2_sized, lr_printer_2_digits.fresh.
      cbn [lr_printer_2_digits._alphabet lr_printer_2_digits._alphabet_sqr].
      by rewrite !length_uninitialised. }
    { done. }
    cbn [bind]. unfold lr_printer_2_digits.set_alphabet. rewrite Ha1.
    rewrite strcpy_s_too_long; [done..|].
    unfold lr_printer_2_digits.fresh. cbn [lr_printer_2_digits._alphabet].
    by rewrite length_uninitialised.
Qed.

Lemma set_alphabet_refuses_full_array_witness :
  lr_printer.set_alphabet sample_lr default_alphabet = Err ConstraintViolated /\
  lr_printer.construct_with_alphabet t_int (fun _ => NUL) 36 default_alphabet
  = Err ConstraintViolated.
Proof.
  destruct (set_alphabet_refuses_full_array t_int default_alphabet valid_int)
    as (H1 & _ & _ & _ & H2 & _).
  - reflexivity.
  - split.
    + apply H1. vm_compute. lia.
    + apply H2; [lia|]. vm_compute. lia.
Defined.

(** ** Bases that the arrays have no room for *)

Lemma for_range_app {St} (n m : nat) i (body : Z -> St -> result St) s :
  for_range (n + m) i body s
  = (s' <- for_range n i body s ;; for_range m (i + Z.of_nat n) body s').
Proof.
  revert i s. induction n as [|n IH]; intros i s.
  - cbn [Nat.add for_range bind]. by rewrite Z.add_0_r.
  - cbn [Nat.add for_range]. destruct (body i s) as [s1|e]; cbn [bind]; [|done].
    rewrite IH. by replace (i + 1 + Z.of_nat n) with (i + Z.of_nat (S n)) by lia.
Qed.

(** [calculate_alphabet_sqr] in a base above the size of [_alphabet] reads
    behind the end of that array, at [i = 0] and [j] the size. *)
Lemma calculate_alphabet_sqr_overflow base alphabet sqr :
  (1 <= length alphabet)%nat -> Z.of_nat (length alphabet) < base ->
  (2 * length alphabet < length sqr)%nat ->
  shared.calculate_alphabet_sqr base alphabet sqr = Err (OutOfBounds Alphabet).
Proof.
  intros Ha Hb Hsqr. unfold shared.calculate_alphabet_sqr.
  change (for_range (Z.to_nat base) 0 _ (sqr, 0))
    with (for_range (Z.to_nat base) 0
            (fun i s => for_range (Z.to_nat base) 0 (pair_step alphabet i) s) (sqr, 0)).
  set (A := length alphabet) in *.
  assert (exists m, Z.to_nat base = (A + S m)%nat) as [m Hm]
    by (exists (Z.to_nat base - A - 1)%nat; lia).
  rewrite Hm.
  assert (Hin : for_range (A + S m) 0 (pair_step alphabet 0) (sqr, 0)
                = Err (OutOfBounds Alphabet)).
  { rewrite for_range_app.
    pose proof (calculate_inner_spec alphabet 0 A 0 [] (take (A * 2) sqr)
                  (drop (A * 2) sqr)) as H.
    cbn [app length] in H. change (Z.of_nat 0) with 0 in H.
    rewrite take_drop in H. rewrite H; [|lia|lia|rewrite length_take; lia].
    cbn [bind for_range]. set (sqr1 := flat_map _ _ ++ _).
    assert (Hlen1 : length sqr1 = length sqr).
    { unfold sqr1.
      rewrite length_app, (length_flat_map_chunk _ 2), length_seq, length_drop by done.
      lia. }
    unfold pair_step. rewrite array_read_char_of by lia. cbn [bind].
    rewrite array_write_Ok by lia. cbn [bind].
    unfold array_read at 1. destruct (Z.leb_spec 0 (0 + Z.of_nat A)); [|lia].
    rewrite lookup_ge_None_2 by (unfold A; lia). done. }
  replace (A + S m)%nat with (S (A + m)) at 1 by lia.
  cbn [for_range]. rewrite Hin. done.
Qed.

Section unchecked_base.
Variable T : number_type.
Hypothesis HT : valid_number_type T.

Lemma lr2_set_base_overflow p base_ :
  lr2_sized p -> 17 < base_ ->
  lr_printer_2_digits.set_base T p base_ = Err (OutOfBounds Alphabet).
Proof.
  intros (Ha & Ha2) Hb. unfold lr_printer_2_digits.set_base,
    lr_printer_2_digits.calculate_alphabet_sqr.
  cbn [lr_printer_2_digits._base lr_printer_2_digits._alphabet
       lr_printer_2_digits._alphabet_sqr].
  unfold lr_printer_2_digits.BASE_MAX in *.
  rewrite calculate_alphabet_sqr_overflow; [done|lia|lia|lia].
Qed.

Lemma mod2_set_base_overflow p base_ :
  mod2_sized p -> 36 < base_ ->
  modulo_printer_2_digits.set_base p base_ = Err (OutOfBounds Alphabet).
Proof.
  intros (Ha & Ha2 & _) Hb. unfold modulo_printer_2_digits.set_base,
    modulo_printer_2_digits.calculate_alphabet_sqr.
  cbn [modulo_printer_2_digits._base modulo_printer_2_digits._alphabet
       modulo_printer_2_digits._alphabet_sqr].
  unfold modulo_printer_2_digits.BASE_MAX in *.
  rewrite calculate_alphabet_sqr_overflow; [done|lia|lia|lia].
Qed.

Lemma lr_print_beyond_alphabet p x :
  lr_cache_ok T p -> 1 <= x ->
  Z.of_nat (length (lr_printer._alphabet p)) <= x < lr_printer._base p ->
  lr_printer.print T p x = Err (OutOfBounds Alphabet).
Proof using HT.
  intros Hc Hx1 Hx. pose proof Hc as [Hb Hok].
  pose proof (nt_max_lower T HT) as Hmax. change (2 ^ 31 - 1) with 2147483647 in Hmax.
  assert (Hno : powers_fit T (lr_printer._base p) 0 x).
  { right. exists 1%nat. change (Z.of_nat (1 + 0)) with 1. change (Z.of_nat 1) with 1.
    rewrite Z.pow_1_r. lia. }
  destruct (lr_get_max_power_ptr_spec T HT p x Hc ltac:(lia) (fun _ => Hno))
    as (p' & ptr & Hrun & Hb' & Ha' & Hc' & _ & _ & Hptr & Hbounds & _).
  assert (ptr = 0) as ->.
  { destruct (Z.eq_dec ptr 0) as [|Hne]; [done|]. exfalso.
    assert (lr_printer._base p ^ 1 <= lr_printer._base p ^ ptr)
      by (apply Z.pow_le_mono_r; lia).
    rewrite Z.pow_1_r in *. lia. }
  unfold lr_printer.print, lr_printer.print_to_out_iter.
  destruct (Z.eqb_spec x 0) as [|_]; [lia|]. rewrite Hrun. cbn [bind fst snd].
  cbn [lr_printer.print_to_out_iter_loop]. change (0 >=? 0) with true. cbv iota.
  destruct Hc' as [_ Hok']. unfold lr_printer._powers_length in *.
  rewrite (powers_ok_read T _ _ _ 0 Hok') by lia. cbn [bind].
  rewrite Z.pow_0_r. rewrite (nt_div_nonneg T HT) by lia. cbn [bind].
  rewrite Z.div_1_r. rewrite to_short_small by lia.
  destruct (Z.leb_spec 0 x); [|lia]. rewrite Hb'.
  destruct (Z.ltb_spec x (lr_printer._base p)); [|lia]. cbn [assert bind].
  unfold array_read. destruct (Z.leb_spec 0 x); [|lia].
  rewrite Ha', lookup_ge_None_2 by lia. done.
Qed.

Lemma mod_print_beyond_alphabet p x :
  modulo_printer._base p <= 32767 -> 1 <= x ->
  Z.of_nat (length (modulo_printer._alphabet p)) <= x < modulo_printer._base p ->
  modulo_printer.print T p x = Err (OutOfBounds Alphabet).
Proof using HT.
  intros Hb Hx1 Hx.
  pose proof (nt_max_lower T HT) as Hmax. change (2 ^ 31 - 1) with 2147483647 in Hmax.
  unfold modulo_printer.print, modulo_printer.print_to_buffer.
  destruct (Z.eqb_spec x 0) as [|_]; [lia|].
  change (Z.to_nat modulo_printer.DIGITS_MAX) with 71%nat.
  cbn [modulo_printer.print_to_buffer_loop].
  rewrite (of_short_small T HT) by lia.
  rewrite (nt_rem_nonneg T HT) by lia. cbn [bind].
  rewrite Z.mod_small by lia.
  unfold array_read. destruct (Z.leb_spec 0 x); [|lia].
  rewrite lookup_ge_None_2 by lia. done.
Qed.
End unchecked_base.

(** X8. [set_base] of the paired classes does not check the base: with a base
    above the number of cells of [_alphabet] (17 in [lr_printer_2_digits], 36
    in [modulo_printer_2_digits]) [calculate_alphabet_sqr] reads [_alphabet]
    behind its end, in [set_base] and in the constructor. *)
Theorem paired_set_base_reads_past_alphabet (T : number_type) :
  (forall p base_, lr2_sized p -> 17 < base_ ->
     lr_printer_2_digits.set_base T p base_ = Err (OutOfBounds Alphabet)) /\
  (forall g g2 s base_, 17 < base_ ->
     lr_printer_2_digits.construct T g g2 s base_ = Err (OutOfBounds Alphabet)) /\
  (forall p base_, mod2_sized p -> 36 < base_ ->
     modulo_printer_2_digits.set_base p base_ = Err (OutOfBounds Alphabet)) /\
  (forall g g2 gb s base_, 36 < base_ ->
     modulo_printer_2_digits.construct g g2 gb s base_ = Err (OutOfBounds Alphabet)).
Proof.
  split_and!.
  - intros p base_. apply lr2_set_base_overflow.
  - intros g g2 s base_ Hb. unfold lr_printer_2_digits.construct.
    rewrite lr2_set_base_overflow; [done| |done].
    unfold lr2_sized, lr_printer_2_digits.fresh.
    cbn [lr_printer_2_digits._alphabet lr_printer_2_digits._alphabet_sqr].
    by rewrite !length_uninitialised.
  - intros p base_. apply mod2_set_base_overflow.
  - intros g g2 gb s base_ Hb. unfold modulo_printer_2_digits.construct.
    rewrite mod2_set_base_overflow; [done| |done].
    unfold mod2_sized, modulo_printer_2_digits.fresh.
    cbn [modulo_printer_2_digits._alphabet modulo_printer_2_digits._alphabet_sqr
         modulo_printer_2_digits._buffer].
    by rewrite !length_uninitialised.
Qed.

Lemma paired_set_base_reads_past_alphabet_witness :
  lr_printer_2_digits.set_base t_int sample_lr2 20 = Err (OutOfBounds Alphabet) /\
  modulo_printer_2_digits.set_base sample_mod2 37 = Err (OutOfBounds Alphabet).
Proof.
  destruct (paired_set_base_reads_past_alphabet t_int) as (H1 & _ & H2 & _). split.
  - apply H1; [|lia]. apply (lr2_wf_sized t_int), sample_lr2_ready.
  - apply H2; [|lia]. apply mod2_wf_sized, sample_mod2_ready.
Defined.

(** X9. [set_base] of the single-digit classes does not check the base
    either, and their prints do not: in a base above the 36 cells of
    [_alphabet], the print of a number that is a digit without a cell reads
    [_alphabet] behind its end. *)
Theorem print_reads_past_alphabet (T : number_type) (x : Z) :
  valid_number_type T -> 1 <= x ->
  (forall p, lr_cache_ok T p ->
     Z.of_nat (length (lr_printer._alphabet p)) <= x < lr_printer._base p ->
     lr_printer.print T p x = Err (OutOfBounds Alphabet)) /\
  (forall p, modulo_printer._base p <= 32767 ->
     Z.of_nat (length (modulo_printer._alphabet p)) <= x < modulo_printer._base p ->
     modulo_printer.print T p x = Err (OutOfBounds Alphabet)).
Proof.
  intros HT Hx. split; intros p H1 H2.
  - by apply lr_print_beyond_alphabet.
  - by apply mod_print_beyond_alphabet.
Qed.

Lemma print_reads_past_alphabet_witness :
  exists p,
    lr_printer.set_base t_int sample_lr 40 = Ok p /\
    lr_printer.print t_int p 37 = Err (OutOfBounds Alphabet).
Proof.
  eexists. split; [vm_compute; reflexivity|].
  apply (proj1 (print_reads_past_alphabet t_int 37 valid_int ltac:(lia))).
  - split; [cbn; lia|]. unfold powers_ok.
    split_and!; [reflexivity|cbn; lia|vm_compute; discriminate|discriminate].
  - cbn. lia.
Defined.

(** ** Numbers below zero *)

Section negative.
Variable T : number_type.
Hypothesis HT : valid_number_type T.

Lemma lr_print_negative p x :
  lr_cache_ok T p -> x < 0 -> lr_printer.print T p x = Err AssertFailed.
Proof.
  intros [Hb Hok] Hx. pose proof Hok as (_ & Hlen & _).
  assert (Htop : 0 < lr_printer._base p ^ (lr_printer._powers_length p - 1))
    by (apply Z.pow_pos_nonneg; unfold lr_printer._powers_length; lia).
  assert (Hget : lr_printer.get_max_power_ptr T p x = Ok (p, -1)).
  { unfold lr_printer.get_max_power_ptr.
    assert (Hfirst : (if lr_printer._reached_max_power p then
                        top <- array_read Powers (lr_printer._powers p)
                                 (lr_printer._powers_length p - 1) ;;
                        if top <=? x then Ok (p, Some (lr_printer._powers_length p - 1))
                        else Ok (p, None)
                      else lr_printer.get_max_power_ptr_grow T
                             (S (Z.to_nat lr_printer.MAX_DIGITS)) p x)
                     = Ok (p, None)).
    { destruct (lr_printer._reached_max_power p);
        cbn [lr_printer.get_max_power_ptr_grow];
        rewrite (powers_ok_read T _ _ _ _ Hok)
          by (unfold lr_printer._powers_length; lia);
        cbn [bind];
        by destruct (Z.leb_spec (lr_printer._base p ^ (lr_printer._powers_length p - 1)) x);
          [lia|]. }
    rewrite Hfirst. cbn [bind fst snd lr_printer.get_max_power_ptr_scan].
    rewrite (powers_ok_read T _ _ _ 0 Hok) by lia. cbn [bind].
    rewrite Z.pow_0_r. by destruct (Z.leb_spec 1 x); [lia|]. }
  unfold lr_printer.print, lr_printer.print_to_out_iter.
  destruct (Z.eqb_spec x 0) as [|_]; [lia|]. rewrite Hget.
  cbn [bind fst snd lr_printer.print_to_out_iter_loop].
  change (-1 >=? 0) with false. cbv iota. cbn [bind fst snd].
  by destruct (Z.eqb_spec x 0) as [|_]; [lia|].
Qed.

Lemma lr2_print_negative p x :
  lr2_cache_ok T p -> x < 0 ->
  lr_printer_2_digits.print T p x = Err (OutOfBounds Powers).
Proof.
  intros (Hb & Hok & Hlen) Hx.
  assert (Hbelow : 0 < lr_printer_2_digits._base p
                       ^ (lr_printer_2_digits._powers_length p - 2))
    by (apply Z.pow_pos_nonneg; unfold lr_printer_2_digits._powers_length; lia).
  assert (Hget : lr_printer_2_digits.get_max_power_ptr T p x = Err (OutOfBounds Powers)).
  { unfold lr_printer_2_digits.get_max_power_ptr.
    assert (Hfirst : (if lr_printer_2_digits._reached_max_power p then
                        below <- array_read Powers (lr_printer_2_digits._powers p)
                                   (lr_printer_2_digits._powers_length p - 2) ;;
                        if below <=? x then
                          power_ptr <- lr_printer_2_digits.max_digit_ptr p x ;;
                          Ok (p, Some power_ptr)
                        else Ok (p, None)
                      else lr_printer_2_digits.get_max_power_ptr_grow T
                             (S (Z.to_nat lr_printer_2_digits.DIGITS_MAX)) p x)
                     = Ok (p, None)).
    { destruct (lr_printer_2_digits._reached_max_power p);
        cbn [lr_printer_2_digits.get_max_power_ptr_grow];
        rewrite (powers_ok_read T _ _ _ _ Hok)
          by (unfold lr_printer_2_digits._powers_length; lia);
        cbn [bind];
        by destruct (Z.leb_spec (lr_printer_2_digits._base p
                                 ^ (lr_printer_2_digits._powers_length p - 2)) x);
          [lia|]. }
    rewrite Hfirst. cbn [bind fst snd lr_printer_2_digits.get_max_power_ptr_scan].
    rewrite (powers_ok_read T _ _ _ 0 Hok) by lia. cbn [bind].
    rewrite Z.pow_0_r. destruct (Z.leb_spec 1 x); [lia|]. cbn [bind]. done. }
  unfold lr_printer_2_digits.print, lr_printer_2_digits.print_to_out_iter.
  destruct (Z.eqb_spec x 0) as [|_]; [lia|]. by rewrite Hget.
Qed.

Lemma mod_print_negative p x :
  mod_wf p -> nt_min T <= x < 0 -> Z.rem x (modulo_printer._base p) <> 0 ->
  modulo_printer.print T p x = Err (OutOfBounds Alphabet).
Proof using HT.
  intros (Hb & _) Hx Hrem. unfold modulo_printer.BASE_MAX in *.
  pose proof (half_modulus_large T HT) as Hhalf. change (2 ^ 31) with 2147483648 in Hhalf.
  pose proof (nt_max_lower T HT) as Hmax. change (2 ^ 31 - 1) with 2147483647 in Hmax.
  assert (Hmin : nt_min T <= -2147483648).
  { unfold nt_min in *. destruct (is_signed T); lia. }
  pose proof (Z.rem_bound_pos_neg x (modulo_printer._base p) ltac:(lia) ltac:(lia)) as Hr.
  unfold modulo_printer.print, modulo_printer.print_to_buffer.
  destruct (Z.eqb_spec x 0) as [|_]; [lia|].
  change (Z.to_nat modulo_printer.DIGITS_MAX) with 71%nat.
  cbn [modulo_printer.print_to_buffer_loop].
  rewrite (of_short_small T HT) by lia. unfold nt_rem.
  destruct (Z.eqb_spec (modulo_printer._base p) 0) as [|_]; [lia|].
  rewrite (nt_result_small T HT) by (apply (quot_range T HT); lia). cbn [bind].
  rewrite (wrap_small T HT) by lia.
  unfold array_read.
  by destruct (Z.leb_spec 0 (Z.rem x (modulo_printer._base p))); [lia|].
Qed.

Lemma mod2_print_negative p x :
  mod2_wf p -> x < 0 -> modulo_printer_2_digits.print T p x = Ok (p, (0, [])).
Proof using HT.
  intros (Hb & _ & _ & _ & _ & Hbuf) Hx. unfold modulo_printer_2_digits.BASE_MAX in *.
  destruct (buffer_ok_split modulo_printer_2_digits.DIGITS_MAX _ ltac:(done) Hbuf)
    as (pre & Hpre & Hlen).
  unfold modulo_printer_2_digits.print, modulo_printer_2_digits.print_to_buffer.
  destruct (Z.eqb_spec x 0) as [|_]; [lia|].
  change (Z.to_nat modulo_printer_2_digits.DIGITS_MAX) with 69%nat.
  cbn [modulo_printer_2_digits.print_to_buffer_loop].
  rewrite (of_short_small T HT) by lia.
  destruct (Z.geb_spec x (modulo_printer_2_digits._base p)) as [|_]; [lia|].
  cbn [bind]. destruct (Z.gtb_spec x 0) as [|_]; [lia|].
  cbn [bind fst snd modulo_printer_2_digits.with_buffer modulo_printer_2_digits._buffer].
  rewrite Hpre.
  replace (Z.to_nat (modulo_printer_2_digits.DIGITS_MAX - 1)) with (length pre) by lia.
  rewrite drop_app_length. cbn [c_str]. rewrite Ascii.eqb_refl. cbn [bind].
  rewrite <- Hpre. destruct p. reflexivity.
Qed.
End negative.

(** X10. Numbers below zero are not printed, and each class fails in its own
    way: [lr_printer] runs into [assert( num == 0 )]; [lr_printer_2_digits]
    reads [_powers[ -1 ]] in [get_max_power_ptr]; [modulo_printer] indexes
    [_alphabet] with the negative remainder of a number that is not a multiple
    of the base; [modulo_printer_2_digits] skips its loop and returns the
    count 0 and the empty string. *)
Theorem negative_numbers (T : number_type) (x : Z) :
  valid_number_type T -> nt_min T <= x < 0 ->
  (forall p, lr_cache_ok T p -> lr_printer.print T p x = Err AssertFailed) /\
  (forall p, lr2_cache_ok T p ->
     lr_printer_2_digits.print T p x = Err (OutOfBounds Powers)) /\
  (forall p, mod_wf p -> Z.rem x (modulo_printer._base p) <> 0 ->
     modulo_printer.print T p x = Err (OutOfBounds Alphabet)) /\
  (forall p, mod2_wf p -> modulo_printer_2_digits.print T p x = Ok (p, (0, []))).
Proof.
  intros HT Hx. split_and!.
  - intros p Hc. apply lr_print_negative; (done || lia).
  - intros p Hc. apply lr2_print_negative; (done || lia).
  - intros p Hwf Hrem. by apply mod_print_negative.
  - intros p Hwf. apply mod2_print_negative; (done || lia).
Qed.

Lemma negative_numbers_witness :
  lr_printer.print t_int sample_lr (-43) = Err AssertFailed /\
  lr_printer_2_digits.print t_int sample_lr2 (-43) = Err (OutOfBounds Powers) /\
  modulo_printer.print t_int sample_mod (-43) = Err (OutOfBounds Alphabet) /\
  modulo_printer_2_digits.print t_int sample_mod2 (-43) = Ok (sample_mod2, (0, [])).
Proof.
  destruct (negative_numbers t_int (-43) valid_int
              ltac:(vm_compute; split; [discriminate|reflexivity]))
    as (H1 & H2 & H3 & H4).
  split_and!.
  - apply H1, lr_wf_cache_ok, sample_lr_ready.
  - apply H2, lr2_wf_cache_ok, sample_lr2_ready.
  - apply H3; [apply sample_mod_ready|]. vm_compute. discriminate.
  - apply H4, sample_mod2_ready.
Defined.

(** ** The bases 0 and 1 *)

Section small_bases.
Variable T : number_type.
Hypothesis HT : valid_number_type T.

Lemma append_base_zero capacity pw top :
  last pw = Some top ->
  shared.append_helper_data T capacity 0 pw = Err DivisionByZero.
Proof using HT.
  intros Hlast. unfold shared.append_helper_data.
  rewrite (array_read_Some Powers pw _ top).
  - cbn [bind]. rewrite (of_short_small T HT) by lia. unfold nt_mul.
    rewrite Z.mul_0_r, (nt_result_nonneg T HT) by (pose proof (nt_max_lower T HT); lia).
    cbn [bind]. unfold nt_div. done.
  - destruct pw; [done|]. cbn [length]. lia.
  - rewrite last_lookup in Hlast. rewrite <- Hlast. f_equal.
    destruct pw; [done|]. cbn [length]. lia.
Qed.

Lemma init_base_zero capacity :
  shared.init_helper_data T capacity 0 = Err DivisionByZero.
Proof using HT.
  unfold shared.init_helper_data. cbn [for_range Z.to_nat].
  change (Z.to_nat (shared.DATA_INIT_LENGTH - 1)) with 3%nat. cbn [for_range].
  by rewrite (append_base_zero capacity [1] 1).
Qed.

Lemma append_base_one capacity (n : nat) :
  (1 <= n)%nat ->
  shared.append_helper_data T capacity 1 (replicate n 1)
  = if Z.of_nat n <? capacity then Ok (replicate (S n) 1, true)
    else Err (OutOfBounds Powers).
Proof using HT.
  intros Hn. unfold shared.append_helper_data. rewrite length_replicate.
  rewrite (array_read_Some Powers _ _ 1); [|lia|apply lookup_replicate_2; lia].
  cbn [bind]. rewrite (of_short_small T HT) by lia.
  rewrite (nt_mul_nonneg T HT) by (pose proof (nt_max_lower T HT); lia). cbn [bind].
  change (1 * 1) with 1.
  rewrite (nt_div_nonneg T HT) by (pose proof (nt_max_lower T HT); lia).
  cbn [bind]. change (1 / 1) with 1. change (1 =? 1) with true. cbn [negb].
  destruct (Z.of_nat n <? capacity); [|done].
  by rewrite <- replicate_cons_app.
Qed.

Lemma init_base_one capacity :
  3 < capacity -> shared.init_helper_data T capacity 1 = Ok (replicate 4 1).
Proof using HT.
  intros Hcap. unfold shared.init_helper_data.
  change (Z.to_nat (shared.DATA_INIT_LENGTH - 1)) with 3%nat. cbn [for_range].
  change [1] with (replicate 1 1).
  rewrite (append_base_one capacity 1) by lia.
  destruct (Z.ltb_spec (Z.of_nat 1) capacity); [|lia]. cbn [bind fst].
  rewrite (append_base_one capacity 2) by lia.
  destruct (Z.ltb_spec (Z.of_nat 2) capacity); [|lia]. cbn [bind fst].
  rewrite (append_base_one capacity 3) by lia.
  destruct (Z.ltb_spec (Z.of_nat 3) capacity); [|lia]. cbn [bind fst]. done.
Qed.

(** In base 1 every power is 1, and the table of an [lr_printer] grows until
    it leaves [_powers]. *)
Lemma lr_grow_base_one (k : nat) : forall fuel a (n : nat) num,
  (1 <= n)%nat -> (n + k = 70)%nat -> (k < fuel)%nat -> 1 <= num ->
  lr_printer.get_max_power_ptr_grow T fuel
    (lr_printer.Make 1 a false (replicate n 1)) num
  = Err (OutOfBounds Powers).
Proof using HT.
  induction k as [|k IH]; intros fuel a n num Hn Hk Hfuel Hnum;
    (destruct fuel as [|fuel]; [lia|]); cbn [lr_printer.get_max_power_ptr_grow];
    unfold lr_printer._powers_length, lr_printer.append_helper_data;
    cbn [lr_printer._powers lr_printer._base]; rewrite length_replicate;
    (rewrite (array_read_Some Powers _ _ 1); [|lia|apply lookup_replicate_2; lia]);
    cbn [bind]; (destruct (Z.leb_spec 1 num); [|lia]);
    rewrite append_base_one by lia; unfold lr_printer.MAX_DIGITS.
  - destruct (Z.ltb_spec (Z.of_nat n) 70); [lia|]. done.
  - destruct (Z.ltb_spec (Z.of_nat n) 70); [|lia]. cbn [bind fst snd negb].
    unfold lr_printer.with_powers.
    cbn [lr_printer._base lr_printer._alphabet lr_printer._reached_max_power].
    apply IH; lia.
Qed.

Lemma lr_print_base_one p num :
  1 <= num ->
  exists p1,
    lr_printer.set_base T p 1 = Ok p1 /\
    lr_printer._powers p1 = [1; 1; 1; 1] /\
    lr_printer.print T p1 num = Err (OutOfBounds Powers).
Proof using HT.
  intros Hnum. unfold lr_printer.set_base, lr_printer.init_helper_data.
  cbn [lr_printer._base lr_printer._alphabet].
  rewrite init_base_one by done. cbn [bind].
  eexists. split; [done|]. split; [done|].
  unfold lr_printer.print, lr_printer.print_to_out_iter.
  destruct (Z.eqb_spec num 0) as [|_]; [lia|].
  unfold lr_printer.get_max_power_ptr. cbn [lr_printer._reached_max_power].
  change (Z.to_nat lr_printer.MAX_DIGITS) with 70%nat.
  by rewrite (lr_grow_base_one 66) by (done || lia).
Qed.

(** In base 1 the loop of a [modulo_printer] does not end before it leaves
    [_buffer] at its start. *)
Lemma mod_loop_base_one (k : nat) : forall fuel p buffer x,
  modulo_printer._base p = 1 -> (1 <= length (modulo_printer._alphabet p))%nat ->
  (k <= length buffer)%nat -> (k < fuel)%nat -> 1 <= x <= nt_max T ->
  modulo_printer.print_to_buffer_loop T fuel p buffer (Z.of_nat k) x
  = Err (OutOfBounds Buffer).
Proof using HT.
  induction k as [|k IH]; intros fuel p buffer x Hb Ha Hlen Hfuel Hx;
    (destruct fuel as [|fuel]; [lia|]); cbn [modulo_printer.print_to_buffer_loop];
    rewrite Hb; rewrite (of_short_small T HT) by lia;
    rewrite (nt_rem_nonneg T HT) by lia; cbn [bind];
    rewrite Z.mod_1_r; rewrite array_read_char_of by lia; cbn [bind];
    unfold put_before.
  - unfold array_write. change (0 <=? Z.of_nat 0 - 1) with false. done.
  - rewrite array_write_Ok by lia. cbn [bind fst snd].
    rewrite (nt_div_nonneg T HT) by lia. cbn [bind]. rewrite Z.div_1_r.
    destruct (Z.eqb_spec x 0) as [|_]; [lia|]. cbn [negb].
    replace (Z.of_nat (S k) - 1) with (Z.of_nat k) by lia.
    apply IH; try done; try lia. rewrite length_insert. lia.
Qed.

Lemma mod_print_base_one p x :
  mod_wf p -> 1 <= x <= nt_max T ->
  exists p1,
    modulo_printer.set_base p 1 = Ok p1 /\
    modulo_printer.print T p1 x = Err (OutOfBounds Buffer).
Proof using HT.
  intros Hwf Hx. pose proof Hwf as (_ & Ha & Hbuf & _).
  unfold modulo_printer.set_base.
  destruct (mod_prepare_buffer_spec
              (modulo_printer.Make 1 (modulo_printer._alphabet p)
                 (modulo_printer._buffer p)) Hbuf) as (b & -> & Hb & _).
  eexists. split; [done|].
  unfold modulo_printer.print, modulo_printer.print_to_buffer.
  destruct (Z.eqb_spec x 0) as [|_]; [lia|].
  change (modulo_printer.DIGITS_MAX - 1) with (Z.of_nat 70).
  change (Z.to_nat modulo_printer.DIGITS_MAX) with 71%nat.
  rewrite mod_loop_base_one; try done; try lia.
  - cbn [modulo_printer.with_buffer modulo_printer._alphabet]. rewrite Ha.
    unfold modulo_printer.BASE_MAX. lia.
  - cbn [modulo_printer.with_buffer modulo_printer._buffer]. rewrite Hb.
    unfold modulo_printer.DIGITS_MAX. lia.
Qed.
End small_bases.

(** X11. The base 0: [set_base( 0 )] of an [lr_printer] and of an
    [lr_printer_2_digits] divides by zero in the divide-back check of
    [append_helper_data]; the modulo printers take the base and divide by
    zero at the first digit of a number that is not 0. *)
Theorem base_zero_divides_by_zero (T : number_type) :
  valid_number_type T ->
  (forall p, lr_printer.set_base T p 0 = Err DivisionByZero) /\
  (forall p, lr_printer_2_digits.set_base T p 0 = Err DivisionByZero) /\
  (forall p x, modulo_printer._base p = 0 -> x <> 0 ->
     modulo_printer.print T p x = Err DivisionByZero) /\
  (forall p x, modulo_printer_2_digits._base p = 0 ->
     modulo_printer_2_digits._base_sqr p = 0 -> 0 < x ->
     modulo_printer_2_digits.print T p x = Err DivisionByZero).
Proof.
  intros HT. split_and!.
  - intros p. unfold lr_printer.set_base, lr_printer.init_helper_data.
    cbn [lr_printer._base]. by rewrite init_base_zero.
  - intros p. unfold lr_printer_2_digits.set_base,
      lr_printer_2_digits.calculate_alphabet_sqr.
    cbn [lr_printer_2_digits._base lr_printer_2_digits._alphabet
         lr_printer_2_digits._alphabet_sqr].
    assert (Hnone : forall a sqr, shared.calculate_alphabet_sqr 0 a sqr = Ok sqr)
      by reflexivity.
    rewrite Hnone. cbn [bind]. unfold lr_printer_2_digits.init_helper_data.
    cbn [lr_printer_2_digits.with_alphabet_sqr lr_printer_2_digits._base].
    by rewrite init_base_zero.
  - intros p x Hb Hx. unfold modulo_printer.print, modulo_printer.print_to_buffer.
    destruct (Z.eqb_spec x 0) as [|_]; [done|].
    change (Z.to_nat modulo_printer.DIGITS_MAX) with 71%nat.
    cbn [modulo_printer.print_to_buffer_loop].
    rewrite Hb, (of_short_small T HT) by lia. done.
  - intros p x Hb Hsqr Hx.
    unfold modulo_printer_2_digits.print, modulo_printer_2_digits.print_to_buffer.
    destruct (Z.eqb_spec x 0) as [|_]; [lia|].
    change (Z.to_nat modulo_printer_2_digits.DIGITS_MAX) with 69%nat.
    cbn [modulo_printer_2_digits.print_to_buffer_loop].
    rewrite Hb, Hsqr, (of_short_small T HT) by lia.
    destruct (Z.geb_spec x 0) as [_|]; [|lia]. done.
Qed.

Lemma base_zero_divides_by_zero_witness :
  exists p,
    modulo_printer.set_base sample_mod 0 = Ok p /\
    modulo_printer.print t_int p 43 = Err DivisionByZero.
Proof.
  eexists. split; [vm_compute; reflexivity|].
  destruct (base_zero_divides_by_zero t_int valid_int) as (_ & _ & H & _).
  apply H; [reflexivity|discriminate].
Defined.

(** X12. The base 1: [set_base( 1 )] fills the table of an [lr_printer] with
    the power 1, and the print of a number from 1 on appends to the table,
    which has no check of its length, until it leaves [_powers]; the loop of
    a [modulo_printer] never reaches 0 and leaves [_buffer] at its start. *)
Theorem base_one_leaves_the_arrays (T : number_type) (x : Z) :
  valid_number_type T -> 1 <= x <= nt_max T ->
  (forall p,
     exists p1,
       lr_printer.set_base T p 1 = Ok p1 /\
       lr_printer._powers p1 = [1; 1; 1; 1] /\
       lr_printer.print T p1 x = Err (OutOfBounds Powers)) /\
  (forall p, mod_wf p ->
     exists p1,
       modulo_printer.set_base p 1 = Ok p1 /\
       modulo_printer.print T p1 x = Err (OutOfBounds Buffer)).
Proof.
  intros HT Hx. split.
  - intros p. apply lr_print_base_one; (done || lia).
  - intros p Hwf. by apply mod_print_base_one.
Qed.

Lemma base_one_leaves_the_arrays_witness :
  exists p1,
    modulo_printer.set_base sample_mod 1 = Ok p1 /\
    modulo_printer.print t_int p1 43 = Err (OutOfBounds Buffer).
Proof.
  apply (proj2 (base_one_leaves_the_arrays t_int 43 valid_int
                  ltac:(vm_compute; split; discriminate))).
  apply sample_mod_ready.
Defined.

(** ** The test of main.cpp *)

Section ready_ostream.
Variable T : number_type.
Hypothesis HT : valid_number_type T.
Variables b v : Z.
Hypothesis Hv : 0 <= v <= nt_max T.

Lemma lr_ready_print_ostream p :
  lr_ready T b p -> powers_fit T b 0 v ->
  exists p' k,
    lr_printer.print_ostream T p v = Ok (p', encode default_alphabet b k v) /\
    is_digit_count b v k /\ lr_ready T b p'.
Proof using HT Hv.
  intros (Hwf & Hb & Hdef) Hno. pose proof Hwf as ([Hb2 _] & _).
  destruct (lr_print_to_out_iter_spec T HT p v (OutIter (Some lr_printer.MAX_DIGITS) [])
              Hwf Hv ltac:(by rewrite Hb)) as (p' & k & Hrun & Hk & _ & Hwf' & Hb' & Ha' & _).
  { unfold out_fits, lr_printer.MAX_DIGITS. simpl. lia. }
  unfold lr_printer.print_ostream. rewrite Hrun. cbn [bind fst snd out_written app].
  rewrite Hb in *. rewrite (encode_default b _ k v) by (done || lia).
  exists p', k. split_and!; try done. unfold lr_ready. by rewrite Hb', Ha'.
Qed.

Lemma lr2_ready_print_ostream p :
  lr2_ready T b p -> powers_fit T b 1 v ->
  exists p' k,
    lr_printer_2_digits.print_ostream T p v
    = Ok (p', encode default_alphabet b k v) /\
    is_digit_count b v k /\ lr2_ready T b p'.
Proof using HT Hv.
  intros (Hwf & Hb & Hdef) Hno. pose proof Hwf as ([Hb2 _] & _).
  destruct (lr2_print_to_out_iter_spec T HT p v
              (OutIter (Some lr_printer_2_digits.DIGITS_MAX) []) Hwf Hv ltac:(by rewrite Hb))
    as (p' & k & Hrun & Hk & _ & Hwf' & (Hb' & _ & Ha' & _) & _).
  { unfold out_fits, lr_printer_2_digits.DIGITS_MAX. simpl. lia. }
  unfold lr_printer_2_digits.print_ostream. rewrite Hrun.
  cbn [bind fst snd out_written app].
  rewrite Hb in *. rewrite (encode_default b _ k v) by (done || lia).
  exists p', k. split_and!; try done. unfold lr2_ready. by rewrite Hb', Ha'.
Qed.

Lemma mod_ready_print_ostream p :
  mod_ready b p ->
  exists p' k,
    modulo_printer.print_ostream T p v = Ok (p', encode default_alphabet b k v) /\
    is_digit_count b v k /\ mod_ready b p'.
Proof using HT Hv.
  intros (Hwf & Hb & Hdef). pose proof Hwf as ([Hb2 _] & _).
  destruct (mod_sinks T HT p v Hwf Hv)
    as (k & digits & text & p' & Hrun & _ & Hprint & _).
  destruct (mod_ready_print T HT b v Hv p (conj Hwf (conj Hb Hdef)))
    as (p1 & k1 & Hprint1 & Hk1 & Hr1).
  destruct (mod_print_ostream_spec T HT p v Hwf Hv) as (p2 & k2 & Hrun2 & Hk2).
  rewrite Hb in *.
  assert (k2 = k1) as -> by (eapply is_digit_count_unique; [|done..]; lia).
  assert (p1 = p') as -> by congruence.
  assert (p2 = p') as -> by congruence.
  rewrite (encode_default b _ k1 v) in Hrun2 by (done || lia).
  by exists p', k1.
Qed.

Lemma mod2_ready_print_ostream p :
  mod2_ready b p ->
  exists p' k,
    modulo_printer_2_digits.print_ostream T p v
    = Ok (p', encode default_alphabet b k v) /\
    is_digit_count b v k /\ mod2_ready b p'.
Proof using HT Hv.
  intros (Hwf & Hb & Hdef). pose proof Hwf as ([Hb2 _] & _).
  destruct (mod2_sinks T HT p v Hwf Hv)
    as (k & digits & text & p' & Hrun & _ & Hprint & _).
  destruct (mod2_ready_print T HT b v Hv p (conj Hwf (conj Hb Hdef)))
    as (p1 & k1 & Hprint1 & Hk1 & Hr1).
  destruct (mod2_print_ostream_spec T HT p v Hwf Hv) as (p2 & k2 & Hrun2 & Hk2).
  rewrite Hb in *.
  assert (k2 = k1) as -> by (eapply is_digit_count_unique; [|done..]; lia).
  assert (p1 = p') as -> by congruence.
  assert (p2 = p') as -> by congruence.
  rewrite (encode_default b _ k1 v) in Hrun2 by (done || lia).
  by exists p', k1.
Qed.
End ready_ostream.

Section set_base_ready.
Variable T : number_type.
Hypothesis HT : valid_number_type T.

Lemma lr_set_base_ready b b' p :
  lr_ready T b p -> 2 <= b' <= b ->
  exists p', lr_printer.set_base T p b' = Ok p' /\ lr_ready T b' p'.
Proof using HT.
  intros (Hwf & Hb & Hdef) Hb'. pose proof Hwf as (Hb2 & Ha & _).
  destruct (lr_set_base_spec T HT p b' ltac:(unfold lr_printer.MAX_BASE in *; lia) Ha)
    as [Hset Hwf'].
  eexists. split; [exact Hset|]. split; [exact Hwf'|split; [done|]].
  cbn [lr_printer._alphabet]. apply (is_default_alphabet_le b); [lia|done].
Qed.

Lemma lr_set_base_default b b' p :
  lr_ready T b p -> 2 <= b' <= 36 ->
  exists p1 p2,
    lr_printer.set_base T p b' = Ok p1 /\
    lr_printer.setup_default_alphabet p1 = Ok p2 /\ lr_ready T b' p2.
Proof using HT.
  intros (Hwf & _) Hb'. pose proof Hwf as (_ & Ha & _).
  destruct (lr_set_base_spec T HT p b' Hb' Ha) as [Hset Hwf1].
  destruct (lr_setup_default_alphabet_spec T _ Hwf1) as (a & Hsetup & Hwf2 & Hdef2 & _).
  do 2 eexists. split; [exact Hset|]. split; [exact Hsetup|]. by split.
Qed.

Lemma lr2_set_base_ready b b' p :
  lr2_ready T b p -> 2 <= b' <= b -> b' <= 17 ->
  exists p', lr_printer_2_digits.set_base T p b' = Ok p' /\ lr2_ready T b' p'.
Proof using HT.
  intros (Hwf & Hb & Hdef) Hb' Hb17.
  destruct (lr2_set_base_spec T HT p b' (lr2_wf_sized T p Hwf)
              ltac:(unfold lr_printer_2_digits.BASE_MAX; lia))
    as (p' & Hset & Hwf' & Hb1 & Ha1 & _).
  exists p'. split; [exact Hset|]. split; [exact Hwf'|split; [done|]].
  rewrite Ha1. apply (is_default_alphabet_le b); [lia|done].
Qed.

Lemma lr2_set_base_default b b' p :
  lr2_ready T b p -> 2 <= b' <= 16 ->
  exists p1 p2,
    lr_printer_2_digits.set_base T p b' = Ok p1 /\
    lr_printer_2_digits.setup_default_alphabet p1 = Ok p2 /\ lr2_ready T b' p2.
Proof using HT.
  intros (Hwf & _) Hb'.
  destruct (lr2_set_base_spec T HT p b' (lr2_wf_sized T p Hwf)
              ltac:(unfold lr_printer_2_digits.BASE_MAX; lia))
    as (p1 & Hset & Hwf1 & Hb1 & _).
  destruct (lr2_setup_default_alphabet_spec T p1 Hwf1 ltac:(lia))
    as (p2 & Hsetup & Hwf2 & Hb2 & Hdef2 & _).
  rewrite Hb1 in *. exists p1, p2. split; [done|]. split; [done|]. by split.
Qed.

Lemma mod_set_base_ready b b' p :
  mod_ready b p -> 2 <= b' <= b ->
  exists p', modulo_printer.set_base p b' = Ok p' /\ mod_ready b' p'.
Proof.
  intros (Hwf & Hb & Hdef) Hb'. pose proof Hwf as (Hb2 & _).
  destruct (mod_set_base_spec p b' Hwf ltac:(unfold modulo_printer.BASE_MAX in *; lia))
    as (buf & Hset & Hwf').
  eexists. split; [exact Hset|]. split; [exact Hwf'|split; [done|]].
  cbn [modulo_printer._alphabet]. apply (is_default_alphabet_le b); [lia|done].
Qed.

Lemma mod_set_base_default b b' p :
  mod_ready b p -> 2 <= b' <= 36 ->
  exists p1 p2,
    modulo_printer.set_base p b' = Ok p1 /\
    modulo_printer.setup_default_alphabet p1 = Ok p2 /\ mod_ready b' p2.
Proof.
  intros (Hwf & _) Hb'.
  destruct (mod_set_base_spec p b' Hwf Hb') as (buf & Hset & Hwf1).
  destruct (mod_setup_default_alphabet_spec _ Hwf1) as (a & Hsetup & Hwf2 & Hdef2 & _).
  do 2 eexists. split; [exact Hset|]. split; [exact Hsetup|]. by split.
Qed.

Lemma mod2_set_base_ready b b' p :
  mod2_ready b p -> 2 <= b' <= b ->
  exists p', modulo_printer_2_digits.set_base p b' = Ok p' /\ mod2_ready b' p'.
Proof.
  intros (Hwf & Hb & Hdef) Hb'. pose proof Hwf as (Hb2 & _).
  destruct (mod2_set_base_spec p b' (mod2_wf_sized p Hwf)
              ltac:(unfold modulo_printer_2_digits.BASE_MAX in *; lia))
    as (p' & Hset & Hwf' & Hb1 & Ha1).
  exists p'. split; [exact Hset|]. split; [exact Hwf'|split; [done|]].
  rewrite Ha1. apply (is_default_alphabet_le b); [lia|done].
Qed.

Lemma mod2_set_base_default b b' p :
  mod2_ready b p -> 2 <= b' <= 36 ->
  exists p1 p2,
    modulo_printer_2_digits.set_base p b' = Ok p1 /\
    modulo_printer_2_digits.setup_default_alphabet p1 = Ok p2 /\ mod2_ready b' p2.
Proof.
  intros (Hwf & _) Hb'.
  destruct (mod2_set_base_spec p b' (mod2_wf_sized p Hwf) Hb')
    as (p1 & Hset & Hwf1 & Hb1 & _).
  destruct (mod2_setup_default_alphabet_spec p1 Hwf1)
    as (p2 & Hsetup & Hwf2 & Hb2 & Hdef2 & _).
  rewrite Hb1 in *. exists p1, p2. split; [done|]. split; [done|]. by split.
Qed.
End set_base_ready.

(** [test_printer] over any [PrinterType] whose members keep a printer of base
    [b] with the default alphabet such a printer, and print the values [v]
    with [fit b v], which the values of the test have. *)
Section test_printer_passes.
Context {P : Type} (printer : main.PrinterType P).
Variable ready : Z -> P -> Prop.
Variable fit : Z -> Z -> Prop.
Hypothesis Hfit_small : forall b v, 2 <= b <= 16 -> 0 <= v <= 10000 -> fit b v.
Hypothesis Hfit_max : fit 10 2147483647.
Hypothesis Hprint : forall b p v,
  ready b p -> 2 <= b -> 0 <= v <= 2147483647 -> fit b v ->
  exists p' k,
    main.print p v = Ok (p', (Z.of_nat k, encode default_alphabet b k v)) /\
    is_digit_count b v k /\ ready b p' /\
    main.buf_cells (Z.of_nat k, encode default_alphabet b k v) = Z.of_nat k + 1.
Hypothesis Hostream : forall b p v,
  ready b p -> 2 <= b -> 0 <= v <= 2147483647 -> fit b v ->
  exists p' k,
    main.print_ostream p v = Ok (p', encode default_alphabet b k v) /\
    is_digit_count b v k /\ ready b p'.
Hypothesis Hset_base : forall b b' p,
  ready b p -> 2 <= b' <= b -> b' <= 16 ->
  exists p', main.set_base p b' = Ok p' /\ ready b' p'.
Hypothesis Hset_base_default : forall b b' p,
  ready b p -> 2 <= b' <= 16 ->
  exists p1 p2,
    main.set_base p b' = Ok p1 /\ main.setup_default_alphabet p1 = Ok p2 /\
    ready b' p2.

Lemma print_and_assert_passes b p v (k : nat) expected :
  ready b p -> 2 <= b -> 0 <= v <= 2147483647 ->
  is_digit_count b v k -> (k < 25)%nat ->
  string_of_list_ascii (encode default_alphabet b k v) = expected ->
  fit b v ->
  exists p', main.print_and_assert 25 p v expected = Ok p' /\ ready b p'.
Proof using Hprint.
  intros Hr Hb Hv Hk Hk25 Htext Hfit.
  destruct (Hprint b p v Hr Hb Hv Hfit) as (p' & k' & Hrun & Hk' & Hr' & Hcells).
  assert (k' = k) as -> by (eapply is_digit_count_unique; [|done..]; lia).
  unfold main.print_and_assert. rewrite Hrun. cbn [bind fst snd]. rewrite Hcells.
  destruct (Z.leb_spec (Z.of_nat k + 1) 25); [|lia].
  rewrite Htext, String.eqb_refl. cbn [assert bind]. by exists p'.
Qed.

Lemma print_ostream_passes b p v (k : nat) :
  ready b p -> 2 <= b -> 0 <= v <= 2147483647 -> is_digit_count b v k ->
  fit b v ->
  exists p',
    main.print_ostream p v = Ok (p', encode default_alphabet b k v) /\ ready b p'.
Proof using Hostream.
  intros Hr Hb Hv Hk Hfit.
  destruct (Hostream b p v Hr Hb Hv Hfit) as (p' & k' & Hrun & Hk' & Hr').
  assert (k' = k) as -> by (eapply is_digit_count_unique; [|done..]; lia).
  by exists p'.
Qed.

Lemma test_printer_passes p :
  ready 10 p -> exists p', main.test_printer p = Ok p' /\ ready 10 p'.
Proof using Hprint Hostream Hset_base Hset_base_default Hfit_small Hfit_max.
  intros Hr. unfold main.test_printer.
  destruct (print_and_assert_passes 10 p 43 2 "43" Hr) as (p1 & -> & Hr1);
    [lia|lia|split_and!; [lia|by vm_compute|right; by vm_compute]|lia|reflexivity|apply Hfit_small; lia|].
  cbn [bind].
  destruct (print_and_assert_passes 10 p1 5607 4 "5607" Hr1) as (p2 & -> & Hr2);
    [lia|lia|split_and!; [lia|by vm_compute|right; by vm_compute]|lia|reflexivity|apply Hfit_small; lia|].
  cbn [bind].
  destruct (print_and_assert_passes 10 p2 4 1 "4" Hr2) as (p3 & -> & Hr3);
    [lia|lia|split_and!; [lia|by vm_compute|by left]|lia|reflexivity|apply Hfit_small; lia|].
  cbn [bind].
  destruct (print_and_assert_passes 10 p3 2147483647 10 "2147483647" Hr3)
    as (p4 & -> & Hr4);
    [lia|lia|split_and!; [lia|by vm_compute|right; by vm_compute]|lia|reflexivity|exact Hfit_max|].
  cbn [bind].
  destruct (Hset_base 10 8 p4 Hr4) as (p5 & -> & Hr5); [lia|lia|]. cbn [bind].
  destruct (print_and_assert_passes 8 p5 255 3 "377" Hr5) as (p6 & -> & Hr6);
    [lia|lia|split_and!; [lia|by vm_compute|right; by vm_compute]|lia|reflexivity|apply Hfit_small; lia|].
  cbn [bind].
  destruct (print_and_assert_passes 8 p6 10 2 "12" Hr6) as (p7 & -> & Hr7);
    [lia|lia|split_and!; [lia|by vm_compute|right; by vm_compute]|lia|reflexivity|apply Hfit_small; lia|].
  cbn [bind].
  destruct (Hset_base_default 8 16 p7 Hr7) as (p8 & p9 & -> & Hsetup & Hr9); [lia|].
  cbn [bind]. rewrite Hsetup. cbn [bind].
  destruct (print_and_assert_passes 16 p9 512 3 "200" Hr9) as (p10 & -> & Hr10);
    [lia|lia|split_and!; [lia|by vm_compute|right; by vm_compute]|lia|reflexivity|apply Hfit_small; lia|].
  cbn [bind].
  destruct (print_and_assert_passes 16 p10 77 2 "4d" Hr10) as (p11 & -> & Hr11);
    [lia|lia|split_and!; [lia|by vm_compute|right; by vm_compute]|lia|reflexivity|apply Hfit_small; lia|].
  cbn [bind].
  destruct (Hset_base 16 10 p11 Hr11) as (p12 & -> & Hr12); [lia|lia|]. cbn [bind].
  destruct (print_ostream_passes 10 p12 123 3 Hr12) as (p13 & -> & Hr13);
    [lia|lia|split_and!; [lia|by vm_compute|right; by vm_compute]|apply Hfit_small; lia|].
  cbn [bind fst snd].
  destruct (print_ostream_passes 10 p13 0 1 Hr13) as (p14 & -> & Hr14);
    [lia|lia|split_and!; [lia|by vm_compute|by left]|apply Hfit_small; lia|].
  cbn [bind fst snd].
  destruct (print_ostream_passes 10 p14 10000 5 Hr14) as (p15 & -> & Hr15);
    [lia|lia|split_and!; [lia|by vm_compute|right; by vm_compute]|apply Hfit_small; lia|].
  cbn [bind fst snd].
  exists p15. split; [|exact Hr15]. reflexivity.
Qed.
End test_printer_passes.

(** The values of [test_printer] other than 2147483647 ask for powers that
    every number type of 32 bits or more holds. *)
Lemma powers_fit_small T b v :
  valid_number_type T -> 2 <= b <= 16 -> 0 <= v <= 10000 -> powers_fit T b 1 v.
Proof.
  intros HT Hb Hv. pose proof (nt_max_lower T HT) as Hmax.
  change (2 ^ 31 - 1) with 2147483647 in Hmax.
  destruct (digit_count_exists T b v HT ltac:(lia) ltac:(lia)) as (k & (Hk1 & Hub & Hlb) & _).
  right. exists k. split; [exact Hub|].
  replace (Z.of_nat (k + 1)) with (Z.of_nat k - 1 + 2) by lia.
  rewrite Z.pow_add_r, Z.pow_2_r by lia.
  destruct Hlb as [->|Hlb].
  - change (Z.of_nat 1 - 1) with 0. rewrite Z.pow_0_r. nia.
  - assert (0 < b ^ (Z.of_nat k - 1)) by (apply Z.pow_pos_nonneg; lia). nia.
Qed.

Section test_printer_instances.
Variable T : number_type.
Hypothesis HT : valid_number_type T.

Lemma value_of_int v : 0 <= v <= 2147483647 -> 0 <= v <= nt_max T.
Proof using HT.
  pose proof (nt_max_lower T HT) as H. change (2 ^ 31 - 1) with 2147483647 in H. lia.
Qed.

Lemma lr_test_printer p :
  powers_fit T 10 0 2147483647 -> lr_ready T 10 p ->
  exists p', main.test_printer (printer := main.lr_printer_type T) p = Ok p' /\
             lr_ready T 10 p'.
Proof using HT.
  intros Hmax.
  apply (test_printer_passes (main.lr_printer_type T) (lr_ready T)
           (fun b v => powers_fit T b 0 v)).
  - intros b v Hb Hv. apply (powers_fit_ahead T b 1 0); [lia|lia|].
    by apply powers_fit_small.
  - exact Hmax.
  - intros b q v Hr Hb Hv Hfit.
    destruct (lr_ready_print T HT b v (value_of_int v Hv) q Hr Hfit)
      as (q' & k & E & Hk & Hr').
    exists q', k. split; [exact E|]. split; [exact Hk|]. split; [exact Hr'|reflexivity].
  - intros b q v Hr Hb Hv Hfit.
    apply (lr_ready_print_ostream T HT b v (value_of_int v Hv) q Hr Hfit).
  - intros b b' q Hr Hb' _. by apply (lr_set_base_ready T HT b).
  - intros b b' q Hr Hb'. apply (lr_set_base_default T HT b); [done|lia].
Qed.

Lemma lr2_test_printer p :
  powers_fit T 10 1 2147483647 -> lr2_ready T 10 p ->
  exists p', main.test_printer (printer := main.lr_printer_2_digits_type T) p = Ok p' /\
             lr2_ready T 10 p'.
Proof using HT.
  intros Hmax.
  apply (test_printer_passes (main.lr_printer_2_digits_type T) (lr2_ready T)
           (fun b v => powers_fit T b 1 v)).
  - intros b v Hb Hv. by apply powers_fit_small.
  - exact Hmax.
  - intros b q v Hr Hb Hv Hfit.
    destruct (lr2_ready_print T HT b v (value_of_int v Hv) q Hr Hfit)
      as (q' & k & E & Hk & Hr').
    exists q', k. split; [exact E|]. split; [exact Hk|]. split; [exact Hr'|reflexivity].
  - intros b q v Hr Hb Hv Hfit.
    apply (lr2_ready_print_ostream T HT b v (value_of_int v Hv) q Hr Hfit).
  - intros b b' q Hr Hb' Hb16. apply (lr2_set_base_ready T HT b); (done || lia).
  - intros b b' q Hr Hb'. by apply (lr2_set_base_default T HT b).
Qed.

Lemma mod_test_printer p :
  mod_ready 10 p ->
  exists p', main.test_printer (printer := main.modulo_printer_type T) p = Ok p' /\
             mod_ready 10 p'.
Proof using HT.
  apply (test_printer_passes (main.modulo_printer_type T) mod_ready (fun _ _ => True)).
  - done.
  - done.
  - intros b q v Hr Hb Hv _.
    destruct (mod_ready_print T HT b v (value_of_int v Hv) q Hr)
      as (q' & k & E & Hk & Hr').
    exists q', k. split; [exact E|]. split; [exact Hk|]. split; [exact Hr'|].
    cbn [main.buf_cells main.modulo_printer_type snd]. by rewrite length_encode.
  - intros b q v Hr Hb Hv _.
    apply (mod_ready_print_ostream T HT b v (value_of_int v Hv) q Hr).
  - intros b b' q Hr Hb' _. by apply (mod_set_base_ready b).
  - intros b b' q Hr Hb'. apply (mod_set_base_default b); [done|lia].
Qed.

Lemma mod2_test_printer p :
  mod2_ready 10 p ->
  exists p', main.test_printer (printer := main.modulo_printer_2_digits_type T) p
             = Ok p' /\
             mod2_ready 10 p'.
Proof using HT.
  apply (test_printer_passes (main.modulo_printer_2_digits_type T) mod2_ready
           (fun _ _ => True)).
  - done.
  - done.
  - intros b q v Hr Hb Hv _.
    destruct (mod2_ready_print T HT b v (value_of_int v Hv) q Hr)
      as (q' & k & E & Hk & Hr').
    exists q', k. split; [exact E|]. split; [exact Hk|]. split; [exact Hr'|].
    cbn [main.buf_cells main.modulo_printer_2_digits_type snd]. by rewrite length_encode.
  - intros b q v Hr Hb Hv _.
    apply (mod2_ready_print_ostream T HT b v (value_of_int v Hv) q Hr).
  - intros b b' q Hr Hb' _. by apply (mod2_set_base_ready b).
  - intros b b' q Hr Hb'. apply (mod2_set_base_default b); [done|lia].
Qed.
End test_printer_instances.

(** X13. The test of main.cpp passes where the number type holds the powers that
    2147483647 asks for: for every number type of 32 to 64 bits and whatever
    the memory holds before the constructor runs, the printer that the
    default constructor of [modulo_printer] or [modulo_printer_2_digits]
    builds goes through [test_printer] without a failed assertion and
    without leaving its [buf] of 25 cells, the stream holding "123 0 10000"
    at the end; so does the printer of [lr_printer] for a type that is
    unsigned or holds 10000000000, and the printer of [lr_printer_2_digits]
    for a type that is unsigned or holds 100000000000, as [long long]
    does. *)
Theorem test_printer_passes_in_main (T : number_type) :
  valid_number_type T ->
  (powers_fit T 10 0 2147483647 ->
   forall g,
     exists p p',
       lr_printer.construct T g 10 = Ok p /\
       main.test_printer (printer := main.lr_printer_type T) p = Ok p' /\
       lr_ready T 10 p') /\
  (powers_fit T 10 1 2147483647 ->
   forall g g2 s,
     exists p p',
       lr_printer_2_digits.construct T g g2 s 10 = Ok p /\
       main.test_printer (printer := main.lr_printer_2_digits_type T) p = Ok p' /\
       lr2_ready T 10 p') /\
  (forall g gb,
     exists p p',
       modulo_printer.construct g gb 10 = Ok p /\
       main.test_printer (printer := main.modulo_printer_type T) p = Ok p' /\
       mod_ready 10 p') /\
  (forall g g2 gb s,
     exists p p',
       modulo_printer_2_digits.construct g g2 gb s 10 = Ok p /\
       main.test_printer (printer := main.modulo_printer_2_digits_type T) p = Ok p' /\
       mod2_ready 10 p').
Proof.
  intros HT. split_and!.
  - intros Hfit g. destruct (lr_construct_ready T g 10 HT ltac:(lia)) as (p & Hp & Hr).
    destruct (lr_test_printer T HT p Hfit Hr) as (p' & Ht & Hr').
    exists p, p'. split; [exact Hp|]. split; [exact Ht|exact Hr'].
  - intros Hfit g g2 s.
    destruct (lr2_construct_ready T g g2 s 10 HT ltac:(lia)) as (p & Hp & Hr).
    destruct (lr2_test_printer T HT p Hfit Hr) as (p' & Ht & Hr').
    exists p, p'. split; [exact Hp|]. split; [exact Ht|exact Hr'].
  - intros g gb. destruct (mod_construct_ready g gb 10 ltac:(lia)) as (p & Hp & Hr).
    destruct (mod_test_printer T HT p Hr) as (p' & Ht & Hr').
    exists p, p'. split; [exact Hp|]. split; [exact Ht|exact Hr'].
  - intros g g2 gb s.
    destruct (mod2_construct_ready g g2 gb s 10 ltac:(lia)) as (p & Hp & Hr).
    destruct (mod2_test_printer T HT p Hr) as (p' & Ht & Hr').
    exists p, p'. split; [exact Hp|]. split; [exact Ht|exact Hr'].
Qed.

Lemma test_printer_passes_in_main_witness :
  exists p p',
    lr_printer_2_digits.construct t_long_long (fun _ => NUL) (fun _ => NUL) 0 10 = Ok p /\
    main.test_printer (printer := main.lr_printer_2_digits_type t_long_long) p = Ok p' /\
    lr2_ready t_long_long 10 p'.
Proof.
  destruct (test_printer_passes_in_main t_long_long valid_long_long) as (_ & H & _).
  apply H. right. exists 10%nat. vm_compute. split; [reflexivity|discriminate].
Defined.

(** The test of main.cpp on [lr_printer< int >] and on
    [lr_printer_2_digits< int >], as [main] runs it: the first three prints
    pass, and the print of 2147483647 overflows in the product of
    [append_helper_data]. *)
Theorem test_printer_overflows_on_int :
  (exists p1 p2 p3,
     main.print_and_assert (printer := main.lr_printer_type t_int) 25 sample_lr 43 "43"
     = Ok p1 /\
     main.print_and_assert (printer := main.lr_printer_type t_int) 25 p1 5607 "5607"
     = Ok p2 /\
     main.print_and_assert (printer := main.lr_printer_type t_int) 25 p2 4 "4" = Ok p3 /\
     main.print_and_assert (printer := main.lr_printer_type t_int) 25 p3 2147483647
       "2147483647" = Err SignedOverflow) /\
  main.test_printer (printer := main.lr_printer_type t_int) sample_lr
  = Err SignedOverflow /\
  main.test_printer (printer := main.lr_printer_2_digits_type t_int) sample_lr2
  = Err SignedOverflow.
Proof.
  split_and!.
  - do 3 eexists. split; [vm_compute; reflexivity|]. split; [vm_compute; reflexivity|].
    split; [vm_compute; reflexivity|]. vm_compute. reflexivity.
  - vm_compute. reflexivity.
  - vm_compute. reflexivity.
Qed.

(** ** The runs of main.cpp *)

Section run_printer_returns.
Context {P : Type} (printer : main.PrinterType P).
Variable T : number_type.
Hypothesis HT : valid_number_type T.
Variable ready : Z -> P -> Prop.
Variable b : Z.
Hypothesis Hb : 2 <= b.
Variable limit : Z.
Hypothesis Hlimit : limit < nt_max T.
Hypothesis Hprint : forall p v,
  ready b p -> 0 <= v <= limit ->
  exists p' k,
    main.print p v = Ok (p', (Z.of_nat k, encode default_alphabet b k v)) /\
    is_digit_count b v k /\ ready b p' /\
    main.buf_cells (Z.of_nat k, encode default_alphabet b k v) = Z.of_nat k + 1.

Lemma run_printer_loop_spec (n : nat) : forall fuel p num finish_num buf,
  ready b p -> 0 <= num -> num + Z.of_nat n = finish_num + 1 ->
  finish_num <= limit -> (n < fuel)%nat ->
  exists p' buf',
    main.run_printer_loop T fuel p num finish_num buf = Ok (p', buf') /\
    ready b p' /\
    (n = 0%nat -> p' = p /\ buf' = buf) /\
    (n <> 0%nat ->
     exists k, is_digit_count b finish_num k /\
               buf' = encode default_alphabet b k finish_num).
Proof using HT Hb Hprint Hlimit.
  induction n as [|n IH]; intros fuel p num finish_num buf Hr Hnum Hn Hfin Hfuel;
    (destruct fuel as [|fuel]; [lia|]); cbn [main.run_printer_loop].
  - destruct (Z.leb_spec num finish_num); [lia|]. exists p, buf. by split_and!.
  - destruct (Z.leb_spec num finish_num); [|lia].
    destruct (Hprint p num Hr ltac:(lia)) as (p1 & k & -> & Hk & Hr1 & Hcells).
    cbn [bind fst snd]. rewrite Hcells.
    destruct (digit_count_exists T b num HT Hb ltac:(lia)) as (k' & Hk' & Hk64).
    assert (k' = k) as -> by (eapply is_digit_count_unique; [|done..]; lia).
    destruct (Z.leb_spec (Z.of_nat k + 1) (64 + 7)); [|lia].
    rewrite (nt_add_nonneg T HT) by lia. cbn [bind].
    destruct (IH fuel p1 (num + 1) finish_num (encode default_alphabet b k num) Hr1)
      as (p' & buf' & Hrun & Hr' & Hzero & Hmore); try lia.
    exists p', buf'. split_and!; try done. intros _.
    destruct n as [|n].
    + destruct (Hzero eq_refl) as [_ ->]. exists k.
      by replace finish_num with num by lia.
    + apply Hmore. lia.
Qed.

Lemma run_printer_spec now p start_num finish_num buf :
  ready b p -> 0 <= start_num <= finish_num -> finish_num <= limit ->
  exists p' k,
    main.run_printer T now p start_num finish_num buf
    = Ok (p', encode default_alphabet b k finish_num, snd now - fst now) /\
    is_digit_count b finish_num k /\ ready b p'.
Proof using HT Hb Hprint Hlimit.
  intros Hr Hs Hfin. unfold main.run_printer.
  destruct (run_printer_loop_spec (Z.to_nat (finish_num - start_num + 1))
              (Z.to_nat (finish_num - start_num + 2)) p start_num finish_num buf Hr)
    as (p' & buf' & -> & Hr' & _ & Hmore); try lia.
  destruct Hmore as (k & Hk & ->); [lia|]. cbn [bind]. by exists p', k.
Qed.

Lemma run_printer_empty now p start_num finish_num buf :
  finish_num < start_num -> start_num - finish_num <= 1 ->
  main.run_printer T now p start_num finish_num buf = Ok (p, buf, snd now - fst now).
Proof.
  intros Hlt Hone. unfold main.run_printer.
  replace (Z.to_nat (finish_num - start_num + 2)) with 1%nat by lia.
  cbn [main.run_printer_loop]. by destruct (Z.leb_spec start_num finish_num); [lia|].
Qed.
End run_printer_returns.

(** Powers that fit for a number fit for the numbers below it. *)
Lemma powers_fit_le T b ahead v v' :
  v' <= v -> powers_fit T b ahead v -> powers_fit T b ahead v'.
Proof.
  intros Hle [Hs|(e & He1 & He2)]; [by left|right]. exists e. split; [lia|done].
Qed.

Section run_printer_instances.
Variable T : number_type.
Hypothesis HT : valid_number_type T.
Variables (b : Z) (now : Z * Z) (start_num finish_num : Z) (buf : list ascii).
Hypothesis Hb : 2 <= b.
Hypothesis Hrange : 0 <= start_num <= finish_num.
Hypothesis Hfin : finish_num < nt_max T.

Lemma lr_run_printer p :
  lr_ready T b p -> powers_fit T b 0 finish_num ->
  exists p' k,
    main.run_printer (printer := main.lr_printer_type T) T now p start_num finish_num buf
    = Ok (p', encode default_alphabet b k finish_num, snd now - fst now) /\
    is_digit_count b finish_num k /\ lr_ready T b p'.
Proof using HT Hb Hrange Hfin.
  intros Hr Hfit.
  apply (run_printer_spec (main.lr_printer_type T) T HT (lr_ready T) b Hb finish_num Hfin);
    [|exact Hr|exact Hrange|lia].
  intros q v Hq Hv.
  destruct (lr_ready_print T HT b v ltac:(lia) q Hq
              (powers_fit_le T b 0 finish_num v ltac:(lia) Hfit))
    as (q' & k & E & Hk & Hq').
  exists q', k. split; [exact E|]. split; [exact Hk|]. split; [exact Hq'|reflexivity].
Qed.

Lemma lr2_run_printer p :
  lr2_ready T b p -> powers_fit T b 1 finish_num ->
  exists p' k,
    main.run_printer (printer := main.lr_printer_2_digits_type T) T now p
      start_num finish_num buf
    = Ok (p', encode default_alphabet b k finish_num, snd now - fst now) /\
    is_digit_count b finish_num k /\ lr2_ready T b p'.
Proof using HT Hb Hrange Hfin.
  intros Hr Hfit.
  apply (run_printer_spec (main.lr_printer_2_digits_type T) T HT (lr2_ready T) b Hb
           finish_num Hfin); [|exact Hr|exact Hrange|lia].
  intros q v Hq Hv.
  destruct (lr2_ready_print T HT b v ltac:(lia) q Hq
              (powers_fit_le T b 1 finish_num v ltac:(lia) Hfit))
    as (q' & k & E & Hk & Hq').
  exists q', k. split; [exact E|]. split; [exact Hk|]. split; [exact Hq'|reflexivity].
Qed.

Lemma mod_run_printer p :
  mod_ready b p ->
  exists p' k,
    main.run_printer (printer := main.modulo_printer_type T) T now p
      start_num finish_num buf
    = Ok (p', encode default_alphabet b k finish_num, snd now - fst now) /\
    is_digit_count b finish_num k /\ mod_ready b p'.
Proof using HT Hb Hrange Hfin.
  intros Hr.
  apply (run_printer_spec (main.modulo_printer_type T) T HT mod_ready b Hb
           finish_num Hfin); [|exact Hr|exact Hrange|lia].
  intros q v Hq Hv.
  destruct (mod_ready_print T HT b v ltac:(lia) q Hq) as (q' & k & E & Hk & Hq').
  exists q', k. split; [exact E|]. split; [exact Hk|]. split; [exact Hq'|].
  cbn [main.buf_cells main.modulo_printer_type snd]. by rewrite length_encode.
Qed.

Lemma mod2_run_printer p :
  mod2_ready b p ->
  exists p' k,
    main.run_printer (printer := main.modulo_printer_2_digits_type T) T now p
      start_num finish_num buf
    = Ok (p', encode default_alphabet b k finish_num, snd now - fst now) /\
    is_digit_count b finish_num k /\ mod2_ready b p'.
Proof using HT Hb Hrange Hfin.
  intros Hr.
  apply (run_printer_spec (main.modulo_printer_2_digits_type T) T HT mod2_ready b Hb
           finish_num Hfin); [|exact Hr|exact Hrange|lia].
  intros q v Hq Hv.
  destruct (mod2_ready_print T HT b v ltac:(lia) q Hq) as (q' & k & E & Hk & Hq').
  exists q', k. split; [exact E|]. split; [exact Hk|]. split; [exact Hq'|].
  cbn [main.buf_cells main.modulo_printer_2_digits_type snd]. by rewrite length_encode.
Qed.
End run_printer_instances.

(** X14. [run_printer] returns: on a printer of any of the four classes that
    prints in base [b] with the default alphabet, for a range of numbers from
    0 on that ends below the largest value of the number type (so that
    [++num] does not overflow it), the loop prints every number of the range
    without leaving the global [buf] of 71 cells and leaves in [buf] the
    text of [finish_num]; the duration is the difference of the two readings
    of the clock.  The lr classes need the powers that [finish_num] asks for
    to be representable. *)
Theorem run_printer_returns (T : number_type) (b : Z) (now : Z * Z)
    (start_num finish_num : Z) (buf : list ascii) :
  valid_number_type T -> 2 <= b -> 0 <= start_num <= finish_num ->
  finish_num < nt_max T ->
  (forall p, lr_ready T b p -> powers_fit T b 0 finish_num ->
     exists p' k,
       main.run_printer (printer := main.lr_printer_type T) T now p
         start_num finish_num buf
       = Ok (p', encode default_alphabet b k finish_num, snd now - fst now) /\
       is_digit_count b finish_num k /\ lr_ready T b p') /\
  (forall p, lr2_ready T b p -> powers_fit T b 1 finish_num ->
     exists p' k,
       main.run_printer (printer := main.lr_printer_2_digits_type T) T now p
         start_num finish_num buf
       = Ok (p', encode default_alphabet b k finish_num, snd now - fst now) /\
       is_digit_count b finish_num k /\ lr2_ready T b p') /\
  (forall p, mod_ready b p ->
     exists p' k,
       main.run_printer (printer := main.modulo_printer_type T) T now p
         start_num finish_num buf
       = Ok (p', encode default_alphabet b k finish_num, snd now - fst now) /\
       is_digit_count b finish_num k /\ mod_ready b p') /\
  (forall p, mod2_ready b p ->
     exists p' k,
       main.run_printer (printer := main.modulo_printer_2_digits_type T) T now p
         start_num finish_num buf
       = Ok (p', encode default_alphabet b k finish_num, snd now - fst now) /\
       is_digit_count b finish_num k /\ mod2_ready b p').
Proof.
  intros HT Hb Hrange Hfin. split_and!.
  - intros p Hr Hfit. by apply lr_run_printer.
  - intros p Hr Hfit. by apply lr2_run_printer.
  - intros p Hr. by apply mod_run_printer.
  - intros p Hr. by apply mod2_run_printer.
Qed.

(** The first run of [main]: the 8-digit numbers from 10000000 to 49000000,
    as [int], on an [lr_printer_2_digits]. *)
Lemma run_printer_returns_witness :
  exists p' k,
    main.run_printer (printer := main.lr_printer_2_digits_type t_int) t_int (0, 1)
      sample_lr2 10000000 49000000 []
    = Ok (p', encode default_alphabet 10 k 49000000, snd (0, 1) - fst (0, 1)) /\
    is_digit_count 10 49000000 k /\ lr2_ready t_int 10 p'.
Proof.
  destruct (run_printer_returns t_int 10 (0, 1) 10000000 49000000 [] valid_int
              ltac:(lia) ltac:(lia) ltac:(vm_compute; reflexivity))
    as (_ & H & _).
  apply H.
  - exact sample_lr2_ready.
  - right. exists 8%nat. vm_compute. split; [reflexivity|discriminate].
Defined.

(** ** The overflow of a signed number type

    Where [powers_fit] fails, the type is signed and the table of powers is
    asked for a power that it does not hold: the lookup overflows in the
    product of [append_helper_data]. *)

Section signed_overflow.
Variable T : number_type.
Hypothesis HT : valid_number_type T.
Hypothesis Hsigned : is_signed T = true.

(** A number from 1 on has powers that fit, or reaches the largest
    representable power, [ahead] powers ahead. *)
Lemma powers_fit_or_not b (ahead : nat) num :
  2 <= b -> 1 <= num <= nt_max T ->
  powers_fit T b ahead num \/
  exists K : nat,
    (K <= 64)%nat /\ b ^ Z.of_nat K <= num * b ^ Z.of_nat ahead /\
    b ^ Z.of_nat K <= nt_max T < b ^ Z.of_nat (S K).
Proof using HT.
  intros Hb Hnum.
  destruct (digit_count_exists T b num HT Hb ltac:(lia)) as (k & (Hk1 & Hub & Hlb) & Hk64).
  assert (Hlow : b ^ (Z.of_nat k - 1) <= num).
  { destruct Hlb as [->|Hlb]; [|done]. change (Z.of_nat 1 - 1) with 0.
    rewrite Z.pow_0_r. lia. }
  (* the largest power that is representable, from [k - 1] on *)
  assert (Hsearch : forall (n : nat) (j : nat),
             b ^ Z.of_nat j <= nt_max T -> (j + n = 64)%nat ->
             exists K : nat, (j <= K <= 64)%nat /\
               b ^ Z.of_nat K <= nt_max T < b ^ Z.of_nat (S K)).
  { induction n as [|n IH]; intros j Hj Hn.
    - exfalso. pose proof (nt_max_upper T HT).
      assert (2 ^ 64 <= b ^ Z.of_nat j).
      { replace (Z.of_nat j) with 64 by lia.
        apply Z.pow_le_mono_l. lia. }
      lia.
    - destruct (Z_le_gt_dec (b ^ Z.of_nat (S j)) (nt_max T)) as [Hle|Hgt].
      + destruct (IH (S j) Hle ltac:(lia)) as (K & HK & Hbounds).
        exists K. split; [lia|done].
      + exists j. split; [lia|]. lia. }
  destruct (Hsearch (64 - (k - 1))%nat (k - 1)%nat) as (K & HK & HKb).
  { replace (Z.of_nat (k - 1)) with (Z.of_nat k - 1) by lia. lia. }
  { lia. }
  destruct (le_lt_dec (k + ahead) K) as [Hfit|Hover].
  - left. right. exists k. split; [done|].
    etrans; [|apply HKb]. apply Z.pow_le_mono_r; lia.
  - right. exists K. split; [lia|]. split; [|done].
    assert (b ^ Z.of_nat K <= b ^ (Z.of_nat k - 1 + Z.of_nat ahead))
      by (apply Z.pow_le_mono_r; lia).
    rewrite Z.pow_add_r in * by lia.
    assert (0 < b ^ Z.of_nat ahead) by (apply Z.pow_pos_nonneg; lia).
    nia.
Qed.

Import lr_printer.

Lemma lr_grow_overflows (K : nat) fuel : forall p num,
  lr_cache_ok T p -> _reached_max_power p = false ->
  _base p ^ Z.of_nat K <= num -> nt_max T < _base p ^ Z.of_nat (S K) ->
  (70 < length (_powers p) + fuel)%nat ->
  get_max_power_ptr_grow T fuel p num = Err SignedOverflow.
Proof using HT Hsigned.
  induction fuel as [|fuel IH]; intros p num Hc Hr HK Hover Hfuel.
  - destruct Hc as [Hb Hok].
    pose proof (powers_ok_length T HT (_base p) _ _ ltac:(lia) Hok). lia.
  - pose proof Hc as [Hb Hok]. pose proof Hok as (Heq & Hlen & Hmax & _).
    cbn [get_max_power_ptr_grow]. unfold _powers_length in *.
    rewrite (powers_ok_read T _ _ _ _ Hok) by lia. cbn [bind].
    assert (HlenK : Z.of_nat (length (_powers p)) - 1 <= Z.of_nat K).
    { destruct (Z_le_gt_dec (Z.of_nat (length (_powers p)) - 1) (Z.of_nat K)); [done|].
      assert (_base p ^ Z.of_nat (S K) <= _base p ^ (Z.of_nat (length (_powers p)) - 1))
        by (apply Z.pow_le_mono_r; lia).
      lia. }
    assert (_base p ^ (Z.of_nat (length (_powers p)) - 1) <= _base p ^ Z.of_nat K)
      by (apply Z.pow_le_mono_r; lia).
    destruct (Z.leb_spec (_base p ^ (Z.of_nat (length (_powers p)) - 1)) num) as [_|]; [|lia].
    rewrite lr_append_spec by done. unfold _powers_length.
    destruct (Z.leb_spec (_base p ^ Z.of_nat (length (_powers p))) (nt_max T)) as [Hfit|_];
      [|by rewrite Hsigned].
    cbn [bind fst snd negb].
    apply IH; cbn [with_powers _base _reached_max_power _powers]; try done.
    + split; [done|]. cbn [with_powers _base _reached_max_power _powers].
      rewrite Hr in *. apply powers_ok_grow; (done || lia).
    + rewrite length_pow_table. lia.
Qed.

Lemma lr_print_overflows p num (K : nat) :
  lr_wf T p -> _reached_max_power p = false ->
  _base p ^ Z.of_nat K <= num -> nt_max T < _base p ^ Z.of_nat (S K) ->
  print T p num = Err SignedOverflow /\
  print_ostream T p num = Err SignedOverflow /\
  print_file T p num = Err SignedOverflow.
Proof using HT Hsigned.
  intros Hwf Hr HK Hover. pose proof (lr_wf_cache_ok T p Hwf) as Hc.
  pose proof Hc as [Hb _].
  assert (0 < _base p ^ Z.of_nat K) by (apply Z.pow_pos_nonneg; lia).
  assert (Hget : get_max_power_ptr T p num = Err SignedOverflow).
  { unfold get_max_power_ptr. rewrite Hr.
    rewrite (lr_grow_overflows K) by (done || unfold MAX_DIGITS; lia). done. }
  unfold print, print_ostream, print_file, print_to_out_iter.
  destruct (Z.eqb_spec num 0) as [|_]; [lia|]. by rewrite Hget.
Qed.
End signed_overflow.

Section signed_overflow_2_digits.
Variable T : number_type.
Hypothesis HT : valid_number_type T.
Hypothesis Hsigned : is_signed T = true.

Import lr_printer_2_digits.

Lemma lr2_grow_overflows (K : nat) fuel : forall p num,
  lr2_cache_ok T p -> _reached_max_power p = false ->
  _base p ^ Z.of_nat K <= num * _base p -> nt_max T < _base p ^ Z.of_nat (S K) ->
  (69 < length (_powers p) + fuel)%nat ->
  get_max_power_ptr_grow T fuel p num = Err SignedOverflow.
Proof using HT Hsigned.
  induction fuel as [|fuel IH]; intros p num Hc Hr HK Hover Hfuel.
  - destruct Hc as (Hb & Hok & _).
    pose proof (powers_ok_length T HT (_base p) _ _ ltac:(lia) Hok). lia.
  - pose proof Hc as (Hb & Hok & Hlen2). pose proof Hok as (Heq & Hlen & Hmax & _).
    cbn [get_max_power_ptr_grow]. unfold _powers_length in *.
    rewrite (powers_ok_read T _ _ _ _ Hok) by lia. cbn [bind].
    assert (HlenK : Z.of_nat (length (_powers p)) - 1 <= Z.of_nat K).
    { destruct (Z_le_gt_dec (Z.of_nat (length (_powers p)) - 1) (Z.of_nat K)); [done|].
      assert (_base p ^ Z.of_nat (S K) <= _base p ^ (Z.of_nat (length (_powers p)) - 1))
        by (apply Z.pow_le_mono_r; lia).
      lia. }
    assert (Hbelow : _base p ^ (Z.of_nat (length (_powers p)) - 2) <= num).
    { assert (_base p ^ (Z.of_nat (length (_powers p)) - 1) <= _base p ^ Z.of_nat K)
        by (apply Z.pow_le_mono_r; lia).
      replace (Z.of_nat (length (_powers p)) - 1)
        with (Z.succ (Z.of_nat (length (_powers p)) - 2)) in * by lia.
      rewrite Z.pow_succ_r in * by lia.
      assert (0 < _base p ^ (Z.of_nat (length (_powers p)) - 2))
        by (apply Z.pow_pos_nonneg; lia).
      nia. }
    destruct (Z.leb_spec (_base p ^ (Z.of_nat (length (_powers p)) - 2)) num) as [_|]; [|lia].
    rewrite lr2_append_spec by done. unfold _powers_length.
    destruct (Z.leb_spec (_base p ^ Z.of_nat (length (_powers p))) (nt_max T)) as [Hfit|_];
      [|by rewrite Hsigned].
    cbn [bind fst snd negb].
    apply IH; cbn [with_powers _base _reached_max_power _powers]; try done.
    + split; [done|]. cbn [with_powers _base _reached_max_power _powers].
      rewrite length_pow_table. split; [|lia].
      rewrite Hr in *. apply powers_ok_grow; (done || lia).
    + rewrite length_pow_table. lia.
Qed.

Lemma lr2_print_overflows p num (K : nat) :
  lr2_wf T p -> _reached_max_power p = false -> 1 <= num ->
  _base p ^ Z.of_nat K <= num * _base p -> nt_max T < _base p ^ Z.of_nat (S K) ->
  print T p num = Err SignedOverflow /\
  print_ostream T p num = Err SignedOverflow /\
  print_file T p num = Err SignedOverflow.
Proof using HT Hsigned.
  intros Hwf Hr Hnum HK Hover. pose proof (lr2_wf_cache_ok T p Hwf) as Hc.
  assert (Hget : get_max_power_ptr T p num = Err SignedOverflow).
  { unfold get_max_power_ptr. rewrite Hr.
    rewrite (lr2_grow_overflows K) by (done || unfold DIGITS_MAX; lia). done. }
  unfold print, print_ostream, print_file, print_to_out_iter.
  destruct (Z.eqb_spec num 0) as [|_]; [lia|]. by rewrite Hget.
Qed.
End signed_overflow_2_digits.

(** X15. On a signed number type, an [lr_printer] whose table is not marked as
    complete (as the constructor and [set_base] leave it) prints the numbers
    below the largest power of the base that the type holds, and no other:
    from that power on, every variant of [print] overflows in the product of
    [append_helper_data].  An [lr_printer_2_digits] prints the numbers below
    that power divided by the base, and no other. *)
Theorem signed_prints_overflow (T : number_type) (num : Z) :
  valid_number_type T -> is_signed T = true -> 1 <= num <= nt_max T ->
  (forall p, lr_wf T p -> lr_printer._reached_max_power p = false ->
     ((exists r, lr_printer.print T p num = Ok r) <->
      powers_fit T (lr_printer._base p) 0 num) /\
     (~ powers_fit T (lr_printer._base p) 0 num ->
      lr_printer.print T p num = Err SignedOverflow /\
      lr_printer.print_ostream T p num = Err SignedOverflow /\
      lr_printer.print_file T p num = Err SignedOverflow)) /\
  (forall p, lr2_wf T p -> lr_printer_2_digits._reached_max_power p = false ->
     ((exists r, lr_printer_2_digits.print T p num = Ok r) <->
      powers_fit T (lr_printer_2_digits._base p) 1 num) /\
     (~ powers_fit T (lr_printer_2_digits._base p) 1 num ->
      lr_printer_2_digits.print T p num = Err SignedOverflow /\
      lr_printer_2_digits.print_ostream T p num = Err SignedOverflow /\
      lr_printer_2_digits.print_file T p num = Err SignedOverflow)).
Proof.
  intros HT Hs Hnum. split.
  - intros p Hwf Hr. pose proof Hwf as ([Hb _] & _).
    destruct (powers_fit_or_not T HT (lr_printer._base p) 0 num ltac:(lia) Hnum)
      as [Hfit|(K & _ & HK & _ & Hover)].
    + split; [|done]. split; [done|]. intros _.
      destruct (lr_print_spec T HT p num Hwf ltac:(lia) (fun _ => Hfit))
        as (p' & k & text & Hrun & _).
      eexists. exact Hrun.
    + change (Z.of_nat 0) with 0 in HK. rewrite Z.pow_0_r, Z.mul_1_r in HK.
      destruct (lr_print_overflows T HT Hs p num K Hwf Hr HK Hover) as (E1 & E2 & E3).
      split; [|done]. split.
      * intros [r Hrun]. rewrite E1 in Hrun. discriminate.
      * intros [Hu|(e & He1 & He2)]; [congruence|]. exfalso.
        replace (Z.of_nat (e + 0)) with (Z.of_nat e) in He2 by lia.
        assert (Z.of_nat K < Z.of_nat e).
        { destruct (Z_lt_le_dec (Z.of_nat K) (Z.of_nat e)); [done|].
          assert (lr_printer._base p ^ Z.of_nat e <= lr_printer._base p ^ Z.of_nat K)
            by (apply Z.pow_le_mono_r; lia).
          lia. }
        assert (lr_printer._base p ^ Z.of_nat (S K) <= lr_printer._base p ^ Z.of_nat e)
          by (apply Z.pow_le_mono_r; lia).
        lia.
  - intros p Hwf Hr. pose proof Hwf as ([Hb _] & _).
    destruct (powers_fit_or_not T HT (lr_printer_2_digits._base p) 1 num ltac:(lia) Hnum)
      as [Hfit|(K & _ & HK & _ & Hover)].
    + split; [|done]. split; [done|]. intros _.
      destruct (lr2_print_spec T HT p num Hwf ltac:(lia) (fun _ => Hfit))
        as (p' & k & text & Hrun & _).
      eexists. exact Hrun.
    + change (Z.of_nat 1) with 1 in HK. rewrite Z.pow_1_r in HK.
      destruct (lr2_print_overflows T HT Hs p num K Hwf Hr ltac:(lia) HK Hover)
        as (E1 & E2 & E3).
      split; [|done]. split.
      * intros [r Hrun]. rewrite E1 in Hrun. discriminate.
      * intros [Hu|(e & He1 & He2)]; [congruence|]. exfalso.
        assert (Z.of_nat K < Z.of_nat e + 1).
        { destruct (Z_lt_le_dec (Z.of_nat K) (Z.of_nat e + 1)); [done|].
          assert (lr_printer_2_digits._base p ^ (Z.of_nat e + 1)
                  <= lr_printer_2_digits._base p ^ Z.of_nat K)
            by (apply Z.pow_le_mono_r; lia).
          rewrite Z.pow_add_r, Z.pow_1_r in * by lia. nia. }
        assert (lr_printer_2_digits._base p ^ Z.of_nat (S K)
                <= lr_printer_2_digits._base p ^ Z.of_nat (e + 1))
          by (apply Z.pow_le_mono_r; lia).
        lia.
Qed.

Lemma signed_prints_overflow_witness :
  lr_printer.print t_int sample_lr 2147483647 = Err SignedOverflow /\
  lr_printer.print_ostream t_int sample_lr 2147483647 = Err SignedOverflow /\
  lr_printer.print_file t_int sample_lr 2147483647 = Err SignedOverflow.
Proof.
  destruct (signed_prints_overflow t_int 2147483647 valid_int eq_refl
              ltac:(vm_compute; split; discriminate)) as (H & _).
  apply (H sample_lr (proj1 sample_lr_ready) eq_refl).
  intros [Hu|(e & He1 & He2)]; [discriminate|].
  replace (Z.of_nat (e + 0)) with (Z.of_nat e) in He2 by lia.
  change (lr_printer._base sample_lr) with 10 in *.
  change (nt_max t_int) with 2147483647 in He2. lia.
Defined.
